(** * The dm / dmda dispatch engine of [basic-src/pi.c]

    A shallow embedding of the scheduler core that [pi.c] carries next to
    the Monte-Carlo demo: the per-worker FIFO with its horizon
    ([exp_start], [exp_len], [exp_end]), the data-aware pop, the commit
    [push_task_on_best_worker], the two decision loops ([_dm_push_task] and
    [compute_all_performance_predictions] / [_dmda_push_task]), the
    execution hooks and the priority-merge list of [dm_push_task].

    Conventions.
    - A C [double] is a carrier [D] with the operations of [DoubleOps];
      [binary64] (IEEE 754 double precision, from [SpecFloat]) is the
      instance the program runs on, [option Q] is exact arithmetic with one
      NaN.
    - [unsigned] and [int] are [Z] with the wrap-around written out
      ([u32], [sint]); the [int] arithmetic of [_normalize_prio], whose
      division traps, is checked instead ([int_result]).
    - A call that the C program does not survive (a failed [STARPU_ASSERT],
      a NULL queue, a division by zero or one that overflows, an index
      outside its array) is a [Fault]; everything else is [Ok].
    - The runtime behind the scheduler (clock, performance models, data
      handles, worker registry) is the record [runtime]. *)

From Stdlib Require Import ZArith QArith Qabs Lia Lqa Bool List.
From Stdlib Require Import Floats.SpecFloat.
From stdpp Require Import base option list gmap.

Local Open Scope Z_scope.

(* ------------------------------------------------------------------ *)
(** ** Faults and outcomes *)

Inductive fault : Type :=
| AssertFailed    (* STARPU_ASSERT / STARPU_ASSERT_MSG *)
| NullDeref       (* dt->queue_array[w] read while NULL *)
| DivByZero       (* integer division by zero *)
| OutOfBounds     (* array index outside the allocated block *)
| Uninitialised   (* a stack cell read before it was written *)
| IntOverflow.    (* an [int] operation whose result is not an [int] *)

Inductive outcome (A : Type) : Type :=
| Ok (a : A)
| Fault (f : fault).
Arguments Ok {A} a.
Arguments Fault {A} f.

#[global] Instance outcome_ret : MRet outcome := fun _ a => Ok a.
#[global] Instance outcome_bind : MBind outcome := fun _ _ k x =>
  match x with
  | Ok a => k a
  | Fault f => Fault f
  end.

Definition is_ok {A} (x : outcome A) : bool :=
  match x with Ok _ => true | Fault _ => false end.

(* ------------------------------------------------------------------ *)
(** ** Machine integers *)

Definition INT_MAX : Z := 2147483647.
Definition INT_MIN : Z := -2147483648.

(** [unsigned] arithmetic is modulo 2^32. *)
Definition u32 (z : Z) : Z := z mod 4294967296.

(** [int] results, reduced to the two's complement range. *)
Definition sint (z : Z) : Z := (z + 2147483648) mod 4294967296 - 2147483648.

(** The result of an operation on [int]s whose value is [z]: the value
    when it is an [int]; outside the range the operation is undefined in
    C (the division [INT_MIN / -1] traps), which is a fault here. *)
Definition int_result (z : Z) : outcome Z :=
  if (INT_MIN <=? z) && (z <=? INT_MAX) then Ok z else Fault IntOverflow.

(* ------------------------------------------------------------------ *)
(** ** Doubles *)

Class DoubleOps (D : Type) : Type := {
  dadd : D -> D -> D;
  dsub : D -> D -> D;
  dmul : D -> D -> D;
  ddiv : D -> D -> D;
  dlt : D -> D -> bool;        (* C's [<]: false as soon as one side is NaN *)
  disnan : D -> bool;          (* isnan *)
  diszero : D -> bool;         (* _STARPU_IS_ZERO: fpclassify(x) == FP_ZERO *)
  dofZ : Z -> D;               (* conversion of an integer value *)
  DBL_MIN : D;
  DBL_MAX : D
}.

(** [a > b] is [b < a]. *)
Definition dgt {D} `{DoubleOps D} (a b : D) : bool := dlt b a.


(** *** IEEE 754 binary64 *)

Module Binary64.
Definition prec : Z := 53.
Definition emax : Z := 1024.

Definition isnan (x : spec_float) : bool :=
    match x with S754_nan => true | _ => false end.

Definition iszero (x : spec_float) : bool :=
    match x with S754_zero _ => true | _ => false end.

Definition ofZ (z : Z) : spec_float := binary_normalize prec emax z 0 false.

Definition min_normal : spec_float := S754_finite false 4503599627370496 (-1074).
Definition max_finite : spec_float := S754_finite false 9007199254740991 971.
End Binary64.

#[global] Instance binary64 : DoubleOps spec_float := {|
  dadd := SFadd Binary64.prec Binary64.emax;
  dsub := SFsub Binary64.prec Binary64.emax;
  dmul := SFmul Binary64.prec Binary64.emax;
  ddiv := SFdiv Binary64.prec Binary64.emax;
  dlt := SFltb;
  disnan := Binary64.isnan;
  diszero := Binary64.iszero;
  dofZ := Binary64.ofZ;
  DBL_MIN := Binary64.min_normal;
  DBL_MAX := Binary64.max_finite
|}.

(** *** Exact rationals with one NaN *)

Module ExactQ.
Definition t : Type := option Q.

Definition lift2 (f : Q -> Q -> Q) (a b : t) : t :=
    match a, b with
    | Some x, Some y => Some (f x y)
    | _, _ => None
    end.

Definition div (a b : t) : t :=
    match a, b with
    | Some x, Some y => if Qeq_bool y 0 then None else Some (Qdiv x y)
    | _, _ => None
    end.

Definition lt (a b : t) : bool :=
    match a, b with
    | Some x, Some y => negb (Qle_bool y x)
    | _, _ => false
    end.

Definition isnan (a : t) : bool :=
    match a with None => true | Some _ => false end.

Definition iszero (a : t) : bool :=
    match a with Some x => Qeq_bool x 0 | None => false end.
End ExactQ.

#[global] Instance exactQ : DoubleOps ExactQ.t := {|
  dadd := ExactQ.lift2 Qplus;
  dsub := ExactQ.lift2 Qminus;
  dmul := ExactQ.lift2 Qmult;
  ddiv := ExactQ.div;
  dlt := ExactQ.lt;
  disnan := ExactQ.isnan;
  diszero := ExactQ.iszero;
  dofZ := fun z => Some (inject_Z z);
  DBL_MIN := Some (1 # 2 ^ 1022)%Q;
  DBL_MAX := Some (inject_Z ((2 ^ 53 - 1) * 2 ^ 971))
|}.

(* ------------------------------------------------------------------ *)
(** ** Data model *)

Section Model.
Context {D : Type} `{DoubleOps D}.

(** The fields of [struct starpu_task] (and of its codelet) that the
    scheduler reads or writes. *)
Record starpu_task : Type := mk_task {
  task_id : nat;                (* identity of the task *)
  priority : Z;                 (* task->priority, an int *)
  sched_ctx : nat;              (* task->sched_ctx *)
  handles : list nat;           (* STARPU_TASK_GET_HANDLE(task, 0 .. nbuffers-1) *)
  specific_nodes : bool;        (* task->cl->specific_nodes *)
  cl_node : nat -> nat;         (* STARPU_CODELET_GET_NODE(task->cl, index) *)
  bundle : bool;                (* task->bundle != NULL *)
  flops : D;
  selected_impl : Z;            (* starpu_task_set_implementation *)
  predicted : D;                (* task->predicted *)
  predicted_transfer : D        (* task->predicted_transfer *)
}.

Definition set_implementation (t : starpu_task) (impl : Z) : starpu_task :=
  mk_task (task_id t) (priority t) (sched_ctx t) (handles t) (specific_nodes t)
          (cl_node t) (bundle t) (flops t) impl (predicted t) (predicted_transfer t).

Definition set_predictions (t : starpu_task) (p pt : D) : starpu_task :=
  mk_task (task_id t) (priority t) (sched_ctx t) (handles t) (specific_nodes t)
          (cl_node t) (bundle t) (flops t) (selected_impl t) p pt.

(** [struct _starpu_fifo_taskq] of sched_policies/fifo_queues.h. *)
Record _starpu_fifo_taskq : Type := mk_fifo {
  taskq : list starpu_task;         (* the queued tasks, head first *)
  ntasks : Z;                       (* unsigned *)
  ntasks_per_priority : list Z;     (* unsigned *, num_priorities cells *)
  nprocessed : Z;                   (* unsigned *)
  exp_start : D;
  exp_end : D;
  exp_len : D;
  exp_len_per_priority : list D     (* double *, num_priorities cells *)
}.

(** A queue that holds nothing and whose horizon is zero. *)
Definition empty_fifo : _starpu_fifo_taskq :=
  mk_fifo [] 0 [] 0 (dofZ 0) (dofZ 0) (dofZ 0) [].

Definition with_taskq (f : _starpu_fifo_taskq) (q : list starpu_task) (n np : Z) :=
  mk_fifo q n (ntasks_per_priority f) np (exp_start f) (exp_end f) (exp_len f)
          (exp_len_per_priority f).

Definition with_ntasks_per_priority (f : _starpu_fifo_taskq) (c : list Z) :=
  mk_fifo (taskq f) (ntasks f) c (nprocessed f) (exp_start f) (exp_end f) (exp_len f)
          (exp_len_per_priority f).

Definition with_horizon (f : _starpu_fifo_taskq) (s e l : D) :=
  mk_fifo (taskq f) (ntasks f) (ntasks_per_priority f) (nprocessed f) s e l
          (exp_len_per_priority f).

Definition with_exp_len_per_priority (f : _starpu_fifo_taskq) (a : list D) :=
  mk_fifo (taskq f) (ntasks f) (ntasks_per_priority f) (nprocessed f)
          (exp_start f) (exp_end f) (exp_len f) a.

(** [struct _starpu_dmda_data]; a NULL slot of [queue_array] is an absent
    key.  [main_list] lives in the pointer model of [dm_push_task] below. *)
Record _starpu_dmda_data : Type := mk_dmda {
  alpha : D;
  beta : D;
  _gamma : D;
  idle_power : D;
  queue_array : gmap nat _starpu_fifo_taskq;
  num_priorities : Z
}.

Definition with_queue (dt : _starpu_dmda_data) (w : nat) (f : _starpu_fifo_taskq) :=
  mk_dmda (alpha dt) (beta dt) (_gamma dt) (idle_power dt)
          (<[w := f]> (queue_array dt)) (num_priorities dt).

(** What the scheduler calls but does not define. *)
Record runtime : Type := mk_runtime {
  (* starpu_timing_now(): the n-th reading of the clock *)
  timing_now : nat -> D;
  (* starpu_data_query_status(handle, node, NULL, &is_valid, NULL) *)
  data_is_valid : nat -> nat -> bool;
  (* starpu_sched_ctx_{get,..._is_set}_{min,max}_priority *)
  ctx_min_priority : nat -> Z;
  ctx_max_priority : nat -> Z;
  ctx_min_priority_is_set : nat -> bool;
  ctx_max_priority_is_set : nat -> bool;
  (* the master workers of the context, in collection order *)
  ctx_masters : nat -> list nat;
  (* workers->nworkers *)
  ctx_nworkers : nat -> nat;
  worker_memory_node : nat -> nat;
  worker_perf_archtype : nat -> nat -> nat;
  (* starpu_worker_can_execute_task_impl: result and impl_mask *)
  worker_can_execute_task_impl : nat -> starpu_task -> bool * Z;
  task_expected_length : starpu_task -> nat -> nat -> D;
  task_expected_data_transfer_time : nat -> starpu_task -> D;
  task_expected_energy : starpu_task -> nat -> nat -> D;
  task_expected_conversion_time : starpu_task -> nat -> nat -> D;
  task_bundle_expected_length : starpu_task -> nat -> nat -> D;
  task_bundle_expected_data_transfer_time : starpu_task -> nat -> D;
  task_bundle_expected_energy : starpu_task -> nat -> nat -> D;
  worker_relative_speedup : nat -> D;
  (* starpu_sched_ctx_worker_is_master_for_child_ctx *)
  worker_is_master_for_child_ctx : Z -> nat -> nat;
  (* _starpu_fifo_get_exp_len_prev_task_list: result and *fifo_ntasks *)
  fifo_get_exp_len_prev_task_list :
    _starpu_fifo_taskq -> starpu_task -> nat -> nat -> D * Z;
  (* what _starpu_fifo_push_sorted_task returns *)
  fifo_push_sorted_status : Z;
  STARPU_MAXIMPLEMENTATIONS : nat;
  STARPU_NMAX_SCHED_CTXS : nat
}.

(** The state the policy functions run in: the policy data of the context,
    the number of clock readings made so far, and the tasks handed to a
    child context by [starpu_sched_ctx_move_task_to_ctx]. *)
Record world : Type := mk_world {
  dt : _starpu_dmda_data;
  ticks : nat;
  moved : list (starpu_task * nat)
}.

Definition set_dt (w : world) (d : _starpu_dmda_data) : world :=
  mk_world d (ticks w) (moved w).

(** One call of [starpu_timing_now()]. *)
Definition now (rt : runtime) (w : world) : D * world :=
  (timing_now rt (ticks w), mk_world (dt w) (S (ticks w)) (moved w)).

(** [dt->queue_array[workerid]], dereferenced. *)
Definition get_fifo (d : _starpu_dmda_data) (workerid : nat) : outcome _starpu_fifo_taskq :=
  match queue_array d !! workerid with
  | Some f => Ok f
  | None => Fault NullDeref
  end.

End Model.

(* ------------------------------------------------------------------ *)
(** ** The worker FIFO: counting, normalising, popping *)

Section Fifo.
Context {D : Type} `{DoubleOps D}.
Variable rt : runtime (D := D).

(** The loop of [count_non_ready_buffers], from buffer [index] on.  [cnt]
    is an [int]; a task has far fewer than [INT_MAX] buffers, so the
    increment is written without wrap-around. *)
Fixpoint count_non_ready_from (task : starpu_task (D := D)) (node index : nat)
    (hs : list nat) (cnt : Z) : Z :=
  match hs with
  | [] => cnt
  | handle :: rest =>
      let buffer_node := if specific_nodes task then cl_node task index else node in
      let cnt' := if data_is_valid rt handle buffer_node then cnt else cnt + 1 in
      count_non_ready_from task node (S index) rest cnt'
  end.

Definition count_non_ready_buffers (task : starpu_task (D := D)) (node : nat) : Z :=
  count_non_ready_from task node 0 (handles task) 0.

(** The count in the spec's words: the buffers of the task whose handle
    reports [is_valid == false] at [node]. *)
Definition non_ready_at (task : starpu_task (D := D)) (node : nat) : Z :=
  Z.of_nat (length (List.filter (fun handle => negb (data_is_valid rt handle node))
                                (handles task))).

(** [((num_priorities-1)/(max-min)) * (priority - min)] on ints: the
    quotient first, then the difference it is multiplied with. *)
Definition _normalize_prio (prio num_prio : Z) (sched_ctx_id : nat) : outcome Z :=
  let min := ctx_min_priority rt sched_ctx_id in
  let max := ctx_max_priority rt sched_ctx_id in
  dividend ← int_result (num_prio - 1);
  divisor ← int_result (max - min);
  if divisor =? 0 then Fault DivByZero
  else
    quotient ← int_result (Z.quot dividend divisor);
    offset ← int_result (prio - min);
    int_result (quotient * offset).

(** [for (i = 0; i <= task_prio; i++) arr[i] = g(arr[i]);] *)
Definition upto_prio {A} (g : A -> A) (arr : list A) (task_prio : Z) : outcome (list A) :=
  if task_prio <? 0 then Ok arr
  else if task_prio <? Z.of_nat (length arr) then
    Ok (map g (take (S (Z.to_nat task_prio)) arr) ++ drop (S (Z.to_nat task_prio)) arr)
  else Fault OutOfBounds.

(** The guarded block
    [if (num_priorities != -1) { task_prio = _normalize_prio(..);
       for (i..) fifo->exp_len_per_priority[i] += x; }]
    with [g] the update of one cell. *)
Definition update_exp_len_per_priority (num_prio : Z) (task : starpu_task (D := D))
    (g : D -> D) (fifo : _starpu_fifo_taskq (D := D)) : outcome _starpu_fifo_taskq :=
  if num_prio =? -1 then Ok fifo
  else
    task_prio ← _normalize_prio (priority task) num_prio (sched_ctx task);
    arr ← upto_prio g (exp_len_per_priority fifo) task_prio;
    Ok (with_exp_len_per_priority fifo arr).

(** The same block over [ntasks_per_priority]. *)
Definition update_ntasks_per_priority (num_prio : Z) (task : starpu_task (D := D))
    (g : Z -> Z) (fifo : _starpu_fifo_taskq (D := D)) : outcome _starpu_fifo_taskq :=
  if num_prio =? -1 then Ok fifo
  else
    task_prio ← _normalize_prio (priority task) num_prio (sched_ctx task);
    arr ← upto_prio g (ntasks_per_priority fifo) task_prio;
    Ok (with_ntasks_per_priority fifo arr).

(** The [while (current)] scan of [_starpu_fifo_pop_first_ready_task]:
    [l] is the list from [current] on, [idx] the position of [current],
    [best] the position of [task], and the result the position of [task]
    when the loop is left. *)
Fixpoint scan_first_ready (node : nat) (first_task_priority : Z)
    (l : list (starpu_task (D := D))) (idx best : nat) (non_ready_best : Z) : nat :=
  match l with
  | [] => best
  | current :: rest =>
      if first_task_priority <=? priority current then
        let non_ready := count_non_ready_buffers current node in
        if non_ready <? non_ready_best then
          if non_ready =? 0 then idx
          else scan_first_ready node first_task_priority rest (S idx) idx non_ready
        else scan_first_ready node first_task_priority rest (S idx) best non_ready_best
      else scan_first_ready node first_task_priority rest (S idx) best non_ready_best
  end.

(** The position [_starpu_fifo_pop_first_ready_task] picks in a queue. *)
Definition first_ready_position (q : list (starpu_task (D := D))) (node : nat) : nat :=
  match q with
  | [] => 0%nat
  | first :: _ => scan_first_ready node (priority first) q 0 0 INT_MAX
  end.

Definition _starpu_fifo_pop_first_ready_task (fifo : _starpu_fifo_taskq (D := D))
    (node : nat) (num_prio : Z) : outcome (option starpu_task * _starpu_fifo_taskq) :=
  if ntasks fifo =? 0 then Ok (None, fifo)
  else
    let fifo1 := with_taskq fifo (taskq fifo) (u32 (ntasks fifo - 1)) (nprocessed fifo) in
    let pos := first_ready_position (taskq fifo) node in
    match taskq fifo !! pos with
    | None => Ok (None, fifo1)
    | Some task =>
        fifo2 ← update_ntasks_per_priority num_prio task (fun n => u32 (n - 1)) fifo1;
        Ok (Some task,
            with_taskq fifo2 (delete pos (taskq fifo2)) (ntasks fifo2) (nprocessed fifo2))
    end.

(** Modelled from the spec: [_starpu_fifo_pop_local_task] is defined in
    sched_policies/fifo_queues.c, which is not part of the sources; it is
    the FIFO's [pop_front()]. *)
Definition _starpu_fifo_pop_local_task (fifo : _starpu_fifo_taskq (D := D))
    : option starpu_task * _starpu_fifo_taskq :=
  match taskq fifo with
  | [] => (None, fifo)
  | task :: q => (Some task, with_taskq fifo q (u32 (ntasks fifo - 1)) (nprocessed fifo))
  end.

(** Modelled from the spec: [_starpu_fifo_pop_every_task] is defined in
    sched_policies/fifo_queues.c, which is not part of the sources; it is
    the FIFO's [pop_all()], which returns the whole sequence and leaves the
    queue empty. *)
Definition _starpu_fifo_pop_every_task (fifo : _starpu_fifo_taskq (D := D))
    : list starpu_task * _starpu_fifo_taskq :=
  (taskq fifo,
   with_taskq fifo [] (u32 (ntasks fifo - Z.of_nat (length (taskq fifo)))) (nprocessed fifo)).

(** The insertion point of a stable priority-descending insert. *)
Fixpoint insert_sorted (task : starpu_task (D := D)) (q : list (starpu_task (D := D)))
    : list starpu_task :=
  match q with
  | [] => [task]
  | t :: rest =>
      if priority t <? priority task then task :: t :: rest
      else t :: insert_sorted task rest
  end.

(** Modelled from the spec: [_starpu_fifo_push_sorted_task] is defined in
    sched_policies/fifo_queues.c, which is not part of the sources; it is
    the FIFO's [push_sorted(task)], a stable priority-descending insert.
    Its return value is the runtime's [fifo_push_sorted_status]. *)
Definition _starpu_fifo_push_sorted_task (fifo : _starpu_fifo_taskq (D := D))
    (task : starpu_task (D := D)) : Z * _starpu_fifo_taskq :=
  (fifo_push_sorted_status rt,
   with_taskq fifo (insert_sorted task (taskq fifo))
              (u32 (ntasks fifo + 1)) (u32 (nprocessed fifo + 1))).

(** STARPU_MAX(starpu_timing_now(), x): the macro is
    [((a) < (b) ? (b) : (a))] and names each argument twice, so the clock is
    read again when the first reading wins. *)
Definition max_now_left (x : D) (w : world (D := D)) : D * world :=
  let '(t1, w1) := now rt w in
  if dlt t1 x then (x, w1) else now rt w1.

(** STARPU_MAX(x, starpu_timing_now()). *)
Definition max_now_right (x : D) (w : world (D := D)) : D * world :=
  let '(t1, w1) := now rt w in
  if dlt x t1 then now rt w1 else (x, w1).

(** [isnan(fifo->exp_start) ? starpu_timing_now()
                            : STARPU_MAX(fifo->exp_start, starpu_timing_now())] *)
Definition refreshed_start (fifo : _starpu_fifo_taskq (D := D)) (w : world (D := D))
    : D * world :=
  if disnan (exp_start fifo) then now rt w else max_now_right (exp_start fifo) w.

(** "Take the opportunity to update start time", as the three pops do. *)
Definition pop_refresh (fifo : _starpu_fifo_taskq (D := D)) (w : world (D := D))
    : _starpu_fifo_taskq * world :=
  let '(s, w1) := max_now_left (exp_start fifo) w in
  (with_horizon fifo s (dadd s (exp_len fifo)) (exp_len fifo), w1).

Definition store_fifo (w : world (D := D)) (workerid : nat)
    (fifo : _starpu_fifo_taskq (D := D)) : world :=
  set_dt w (with_queue (dt w) workerid fifo).

(** [workerid] is what [starpu_worker_get_id_check()] returns. *)
Definition dmda_pop_ready_task (workerid : nat) (w : world (D := D))
    : outcome (option starpu_task * world) :=
  fifo ← get_fifo (dt w) workerid;
  let node := worker_memory_node rt workerid in
  let '(fifo1, w1) := pop_refresh fifo w in
  '(task, fifo2) ← _starpu_fifo_pop_first_ready_task fifo1 node (num_priorities (dt w));
  Ok (task, store_fifo w1 workerid fifo2).

Definition dmda_pop_task (workerid : nat) (w : world (D := D))
    : outcome (option starpu_task * world) :=
  fifo ← get_fifo (dt w) workerid;
  let '(fifo1, w1) := pop_refresh fifo w in
  let '(task, fifo2) := _starpu_fifo_pop_local_task fifo1 in
  Ok (task, store_fifo w1 workerid fifo2).

Definition dmda_pop_every_task (workerid : nat) (w : world (D := D))
    : outcome (list starpu_task * world) :=
  fifo ← get_fifo (dt w) workerid;
  let '(fifo1, w1) := pop_refresh fifo w in
  let '(new_list, fifo2) := _starpu_fifo_pop_every_task fifo1 in
  Ok (new_list, store_fifo w1 workerid fifo2).

End Fifo.

(* ------------------------------------------------------------------ *)
(** ** Commit, hooks and external placement *)

Section Commit.
Context {D : Type} `{DoubleOps D}.
Variable rt : runtime (D := D).

(** The clamp of the predicted transfer against the queue's horizon:
    [if ((now() + pt) < exp_end) pt = 0.0; else pt = (now() + pt) - exp_end;] *)
Definition clamp_transfer (pt e : D) (w : world (D := D)) : D * world :=
  let '(t1, w1) := now rt w in
  if dlt (dadd t1 pt) e then (dofZ 0, w1)
  else let '(t2, w2) := now rt w1 in (dsub (dadd t2 pt) e, w2).

(** [fifo->exp_end += x; fifo->exp_len += x;] and the per-priority cells,
    skipped when [x] is NaN. *)
Definition account (num_prio : Z) (task : starpu_task (D := D)) (x : D)
    (fifo : _starpu_fifo_taskq (D := D)) : outcome _starpu_fifo_taskq :=
  if disnan x then Ok fifo
  else
    update_exp_len_per_priority rt num_prio task (fun v => dadd v x)
      (with_horizon fifo (exp_start fifo) (dadd (exp_end fifo) x) (dadd (exp_len fifo) x)).

(** [push_task_on_best_worker]; the result is the [int] it returns. *)
Definition push_task_on_best_worker (task : starpu_task (D := D)) (best_workerid : Z)
    (predicted0 predicted_transfer0 : D) (prio : bool) (sched_ctx_id : nat)
    (w : world (D := D)) : outcome (Z * world) :=
  if best_workerid =? -1 then Fault AssertFailed
  else
    let child_sched_ctx := worker_is_master_for_child_ctx rt best_workerid sched_ctx_id in
    if negb (Nat.eqb child_sched_ctx (STARPU_NMAX_SCHED_CTXS rt)) then
      (* revert the context counters, forward the task to the child context *)
      Ok (0, mk_world (dt w) (ticks w) (moved w ++ [(task, child_sched_ctx)]))
    else if best_workerid <? 0 then Fault OutOfBounds
    else
      let workerid := Z.to_nat best_workerid in
      fifo ← get_fifo (dt w) workerid;
      let '(s, w1) := refreshed_start rt fifo w in
      let fifo1 := with_horizon fifo s (dadd s (exp_len fifo)) (exp_len fifo) in
      let '(pt, w2) := clamp_transfer predicted_transfer0 (exp_end fifo1) w1 in
      fifo2 ← account (num_priorities (dt w)) task pt fifo1;
      fifo3 ← account (num_priorities (dt w)) task predicted0 fifo2;
      let task' := set_predictions task predicted0 pt in
      if prio then
        let '(ret, fifo4) := _starpu_fifo_push_sorted_task rt fifo3 task' in
        fifo5 ← update_ntasks_per_priority rt (num_priorities (dt w)) task'
                  (fun n => u32 (n + 1)) fifo4;
        Ok (ret, store_fifo w2 workerid fifo5)
      else
        let fifo4 := with_taskq fifo3 (taskq fifo3 ++ [task'])
                       (u32 (ntasks fifo3 + 1)) (u32 (nprocessed fifo3 + 1)) in
        Ok (0, store_fifo w2 workerid fifo4).

(** [dmda_pre_exec_hook], run by worker [workerid]. *)
Definition dmda_pre_exec_hook (task : starpu_task (D := D)) (workerid : nat)
    (w : world (D := D)) : outcome world :=
  fifo ← get_fifo (dt w) workerid;
  let model := predicted task in
  let transfer_model := predicted_transfer task in
  let np := num_priorities (dt w) in
  let '(s, w1) := max_now_left rt (exp_start fifo) w in
  let fifo1 := with_horizon fifo s (dadd s (exp_len fifo)) (exp_len fifo) in
  fifo2 ← (if disnan transfer_model then Ok fifo1
           else update_exp_len_per_priority rt np task (fun v => dsub v transfer_model)
                  (with_horizon fifo1 (exp_start fifo1) (exp_end fifo1)
                                (dsub (exp_len fifo1) transfer_model)));
  fifo3 ← (if disnan model then Ok fifo2
           else update_exp_len_per_priority rt np task (fun v => dsub v model)
                  (with_horizon fifo2 (dadd (exp_start fifo2) model) (exp_end fifo2)
                                (dsub (exp_len fifo2) model)));
  let fifo4 := with_horizon fifo3 (exp_start fifo3)
                 (dadd (exp_start fifo3) (exp_len fifo3)) (exp_len fifo3) in
  Ok (store_fifo w1 workerid fifo4).

(** [dmda_post_exec_hook], run by worker [workerid]. *)
Definition dmda_post_exec_hook (task : starpu_task (D := D)) (workerid : nat)
    (w : world (D := D)) : outcome world :=
  fifo ← get_fifo (dt w) workerid;
  let '(t, w1) := now rt w in
  Ok (store_fifo w1 workerid (with_horizon fifo t (dadd t (exp_len fifo)) (exp_len fifo))).

(** [dmda_push_task_notify]; the task comes back with the slots the
    function writes. *)
Definition dmda_push_task_notify (task : starpu_task (D := D)) (workerid : Z)
    (perf_workerid : nat) (sched_ctx_id : nat) (w : world (D := D))
    : outcome (starpu_task * world) :=
  if workerid <? 0 then Fault OutOfBounds
  else
    let wid := Z.to_nat workerid in
    let np := num_priorities (dt w) in
    let perf_arch := worker_perf_archtype rt perf_workerid sched_ctx_id in
    let memory_node := worker_memory_node rt wid in
    let predicted0 := task_expected_length rt task perf_arch (Z.to_nat (selected_impl task)) in
    let predicted_transfer0 := task_expected_data_transfer_time rt memory_node task in
    fifo ← get_fifo (dt w) wid;
    let '(s, w1) := refreshed_start rt fifo w in
    let fifo1 := with_horizon fifo s (dadd s (exp_len fifo)) (exp_len fifo) in
    '(task1, fifo2, w2) ←
      (if disnan predicted_transfer0 then Ok (task, fifo1, w1)
       else
         let '(pt, w2) := clamp_transfer predicted_transfer0 (exp_end fifo1) w1 in
         fifo2 ← update_exp_len_per_priority rt np task (fun v => dadd v pt)
                   (with_horizon fifo1 (exp_start fifo1) (dadd (exp_end fifo1) pt)
                                 (dadd (exp_len fifo1) pt));
         Ok (set_predictions task (predicted task) pt, fifo2, w2));
    '(task2, fifo3) ←
      (if disnan predicted0 then Ok (task1, fifo2)
       else
         fifo3 ← update_exp_len_per_priority rt np task1 (fun v => dadd v predicted0)
                   (with_horizon fifo2 (exp_start fifo2) (dadd (exp_end fifo2) predicted0)
                                 (dadd (exp_len fifo2) predicted0));
         Ok (set_predictions task1 predicted0 (predicted_transfer task1), fifo3));
    fifo4 ← update_ntasks_per_priority rt np task2 (fun n => u32 (n + 1)) fifo3;
    let fifo5 := with_taskq fifo4 (taskq fifo4) (u32 (ntasks fifo4 + 1)) (nprocessed fifo4) in
    Ok (task2, store_fifo w2 wid fifo5).

(** What [initialize_dmda_policy] stores in [dt->num_priorities]. *)
Definition initial_num_priorities (sched_ctx_id : nat) : Z :=
  if ctx_min_priority_is_set rt sched_ctx_id && ctx_max_priority_is_set rt sched_ctx_id
  then sint (sint (ctx_max_priority rt sched_ctx_id - ctx_min_priority rt sched_ctx_id) + 1)
  else -1.

(** [initialize_dmda_policy]: every queue slot NULL, the coefficients as
    read from the environment (the arguments), the priority count. *)
Definition initialize_dmda_policy (sched_ctx_id : nat) (a b g idle : D)
    : _starpu_dmda_data (D := D) :=
  mk_dmda a b g idle ∅ (initial_num_priorities sched_ctx_id).

End Commit.

(* ------------------------------------------------------------------ *)
(** ** The decision loops *)

(** A loop whose body may fault. *)
Fixpoint fold_outcome {A B} (f : A -> B -> outcome A) (l : list B) (a : A) : outcome A :=
  match l with
  | [] => Ok a
  | x :: rest => a' ← f a x; fold_outcome f rest a'
  end.

(** [impl_mask & (1U << nimpl)] *)
Definition mask_has (impl_mask : Z) (nimpl : nat) : bool :=
  Z.testbit impl_mask (Z.of_nat nimpl).

Section DM.
Context {D : Type} `{DoubleOps D}.
Variable rt : runtime (D := D).

(** The local variables of [_dm_push_task]. *)
Record dm_locals : Type := mk_dm {
  dm_best : Z;
  dm_best_exp_end : D;
  dm_model_best : D;
  dm_transfer_model_best : D;
  dm_ntasks_best : Z;
  dm_ntasks_best_end : D;
  dm_calibrating : bool;
  dm_unknown : bool;
  dm_best_impl : nat
}.

Definition dm_initial : dm_locals :=
  mk_dm (-1) (dofZ 0) (dofZ 0) (dofZ 0) (-1) (dofZ 0) false false 0.

(** The condition under which the greedy candidate is replaced; shared by
    both decision loops. *)
Definition greedy_takes (ntasks_best0 : Z) (calibrating0 : bool)
    (ntasks_end ntasks_best_end0 local_length : D) : bool :=
  (ntasks_best0 =? -1)
  || (negb calibrating0 && dlt ntasks_end ntasks_best_end0)
  || (negb calibrating0 && disnan local_length)
  || (calibrating0 && disnan local_length && dlt ntasks_end ntasks_best_end0).

(** The body of the [for (nimpl ...)] loop of [_dm_push_task] for an
    implementation the worker can run. *)
Definition dm_candidate (task : starpu_task (D := D)) (sched_ctx_id worker : nat)
    (fifo : _starpu_fifo_taskq (D := D)) (exp_start0 : D) (L : dm_locals) (nimpl : nat)
    : dm_locals :=
  let memory_node := worker_memory_node rt worker in
  let perf_arch := worker_perf_archtype rt worker sched_ctx_id in
  let local_length := task_expected_length rt task perf_arch nimpl in
  let local_penalty := task_expected_data_transfer_time rt memory_node task in
  let ntasks_end := ddiv (dofZ (ntasks fifo)) (worker_relative_speedup rt perf_arch) in
  let L1 :=
    if greedy_takes (dm_ntasks_best L) (dm_calibrating L) ntasks_end
                    (dm_ntasks_best_end L) local_length
    then mk_dm (dm_best L) (dm_best_exp_end L) (dm_model_best L) (dm_transfer_model_best L)
               (sint (Z.of_nat worker)) ntasks_end (dm_calibrating L) (dm_unknown L) nimpl
    else L in
  let calibrating1 := if disnan local_length then true else dm_calibrating L1 in
  let unknown1 :=
    if disnan local_length || diszero local_length then true else dm_unknown L1 in
  let L2 := mk_dm (dm_best L1) (dm_best_exp_end L1) (dm_model_best L1)
                  (dm_transfer_model_best L1) (dm_ntasks_best L1) (dm_ntasks_best_end L1)
                  calibrating1 unknown1 (dm_best_impl L1) in
  if unknown1 then L2
  else
    let exp_end0 := dadd (dadd exp_start0 (exp_len fifo)) local_length in
    if (dm_best L2 =? -1) || dlt exp_end0 (dm_best_exp_end L2)
    then mk_dm (sint (Z.of_nat worker)) exp_end0 local_length local_penalty
               (dm_ntasks_best L2) (dm_ntasks_best_end L2)
               (dm_calibrating L2) (dm_unknown L2) nimpl
    else L2.

(** [for (nimpl = 0; nimpl < STARPU_MAXIMPLEMENTATIONS; nimpl++)] *)
Definition dm_impls (task : starpu_task (D := D)) (sched_ctx_id worker : nat)
    (fifo : _starpu_fifo_taskq (D := D)) (exp_start0 : D) (impl_mask : Z) (L : dm_locals)
    : dm_locals :=
  fold_left (fun L nimpl =>
               if mask_has impl_mask nimpl
               then dm_candidate task sched_ctx_id worker fifo exp_start0 L nimpl
               else L)
            (seq 0 (STARPU_MAXIMPLEMENTATIONS rt)) L.

(** One turn of the [while (workers->has_next_master(..))] loop. *)
Definition dm_worker (task : starpu_task (D := D)) (sched_ctx_id : nat)
    (acc : dm_locals * world (D := D)) (worker : nat) : outcome (dm_locals * world) :=
  let '(L, w) := acc in
  fifo ← get_fifo (dt w) worker;
  let '(exp_start0, w1) := refreshed_start rt fifo w in
  let '(can, impl_mask) := worker_can_execute_task_impl rt worker task in
  if negb can then Ok (L, w1)
  else Ok (dm_impls task sched_ctx_id worker fifo exp_start0 impl_mask L, w1).

(** What [_dm_push_task] hands to [push_task_on_best_worker]. *)
Record commit_args : Type := mk_commit {
  c_best : Z;
  c_model_best : D;
  c_transfer_model_best : D;
  c_impl : Z
}.

Definition dm_choice (L : dm_locals) : commit_args :=
  if dm_unknown L
  then mk_commit (dm_ntasks_best L) (dofZ 0) (dofZ 0) (Z.of_nat (dm_best_impl L))
  else mk_commit (dm_best L) (dm_model_best L) (dm_transfer_model_best L)
                 (Z.of_nat (dm_best_impl L)).

(** The loop of [_dm_push_task]: its locals when the loop is left. *)
Definition dm_scan (task : starpu_task (D := D)) (sched_ctx_id : nat) (w : world (D := D))
    : outcome (dm_locals * world) :=
  fold_outcome (dm_worker task sched_ctx_id) (ctx_masters rt sched_ctx_id) (dm_initial, w).

Definition _dm_push_task (task : starpu_task (D := D)) (prio : bool) (sched_ctx_id : nat)
    (w : world (D := D)) : outcome (Z * world) :=
  '(L, w1) ← dm_scan task sched_ctx_id w;
  let c := dm_choice L in
  push_task_on_best_worker rt (set_implementation task (c_impl c)) (c_best c)
    (c_model_best c) (c_transfer_model_best c) prio sched_ctx_id w1.

End DM.

Section DMDA.
Context {D : Type} `{DoubleOps D}.
Variable rt : runtime (D := D).

(** A [double a[nworkers][STARPU_MAXIMPLEMENTATIONS]] on the stack is a
    [gmap (nat * nat) D]: the cells written so far; a cell never written
    holds no value. *)

(** [a[i][j] = v] *)
Definition mwrite (nworkers : nat) (a : gmap (nat * nat) D) (i j : nat) (v : D)
    : outcome (gmap (nat * nat) D) :=
  if (i <? nworkers)%nat && (j <? STARPU_MAXIMPLEMENTATIONS rt)%nat
  then Ok (<[(i, j) := v]> a)
  else Fault OutOfBounds.

(** [a[i][j]] with [int] indices. *)
Definition mread (nworkers : nat) (a : gmap (nat * nat) D) (i j : Z) : outcome D :=
  if (0 <=? i) && (i <? Z.of_nat nworkers)
     && (0 <=? j) && (j <? Z.of_nat (STARPU_MAXIMPLEMENTATIONS rt))
  then match a !! (Z.to_nat i, Z.to_nat j) with
       | Some v => Ok v
       | None => Fault Uninitialised
       end
  else Fault OutOfBounds.

(** [arr[i]] for an [int] index into a block of [length arr] cells. *)
Definition cell {A} (arr : list A) (i : Z) : outcome A :=
  if i <? 0 then Fault OutOfBounds
  else match arr !! Z.to_nat i with
       | Some v => Ok v
       | None => Fault OutOfBounds
       end.

(** The output arrays and the local variables of
    [compute_all_performance_predictions]. *)
Record predictions : Type := mk_pred {
  local_task_length : gmap (nat * nat) D;
  exp_end_m : gmap (nat * nat) D;
  local_data_penalty : gmap (nat * nat) D;
  local_energy : gmap (nat * nat) D;
  p_calibrating : bool;
  p_max_exp_end : D;
  p_best_exp_end : D;
  p_ntasks_best : Z;
  p_nimpl_best : Z;
  p_ntasks_best_end : D;
  p_unknown : bool;
  p_worker_ctx : nat
}.

Definition predictions_initial : predictions :=
  mk_pred ∅ ∅ ∅ ∅ false DBL_MIN DBL_MAX (-1) 0 (dofZ 0) false 0.

(** [prev_exp_len] and [fifo_ntasks] of a candidate. *)
Definition previous_load (sorted_decision : bool) (num_prio task_prio : Z)
    (task : starpu_task (D := D)) (fifo : _starpu_fifo_taskq (D := D))
    (worker nimpl : nat) : outcome (D * Z) :=
  if sorted_decision then
    if negb (num_prio =? -1) then
      prev_exp_len ← cell (exp_len_per_priority fifo) task_prio;
      fifo_ntasks ← cell (ntasks_per_priority fifo) task_prio;
      Ok (prev_exp_len, sint fifo_ntasks)
    else Ok (fifo_get_exp_len_prev_task_list rt fifo task worker nimpl)
  else Ok (exp_len fifo, sint (ntasks fifo)).

(** The three predictions of a candidate, as the oracle gives them. *)
Definition oracle_length (task : starpu_task (D := D)) (perf_arch nimpl : nat) : D :=
  if bundle task then task_bundle_expected_length rt task perf_arch nimpl
  else
    let l := task_expected_length rt task perf_arch nimpl in
    let conversion_time := task_expected_conversion_time rt task perf_arch nimpl in
    if dgt conversion_time (dofZ 0) then dadd l conversion_time else l.

Definition oracle_penalty (task : starpu_task (D := D)) (memory_node : nat) : D :=
  if bundle task then task_bundle_expected_data_transfer_time rt task memory_node
  else task_expected_data_transfer_time rt memory_node task.

Definition oracle_energy (task : starpu_task (D := D)) (perf_arch nimpl : nat) : D :=
  if bundle task then task_bundle_expected_energy rt task perf_arch nimpl
  else task_expected_energy rt task perf_arch nimpl.

(** The body of the [for (nimpl ...)] loop of
    [compute_all_performance_predictions] for an implementation the worker
    can run. *)
Definition predict_candidate (task : starpu_task (D := D)) (nworkers sched_ctx_id : nat)
    (sorted_decision : bool) (num_prio task_prio : Z) (worker : nat)
    (fifo : _starpu_fifo_taskq (D := D)) (exp_start0 : D)
    (P : predictions) (nimpl : nat) : outcome predictions :=
  let wc := p_worker_ctx P in
  let perf_arch := worker_perf_archtype rt worker sched_ctx_id in
  let memory_node := worker_memory_node rt worker in
  '(prev_exp_len, fifo_ntasks) ←
     previous_load sorted_decision num_prio task_prio task fifo worker nimpl;
  let e0 := dadd exp_start0 prev_exp_len in
  exp_end1 ← mwrite nworkers (exp_end_m P) wc nimpl e0;
  let max_exp_end1 := if dgt e0 (p_max_exp_end P) then e0 else p_max_exp_end P in
  let len := oracle_length task perf_arch nimpl in
  length1 ← mwrite nworkers (local_task_length P) wc nimpl len;
  penalty1 ← mwrite nworkers (local_data_penalty P) wc nimpl
               (oracle_penalty task memory_node);
  energy1 ← mwrite nworkers (local_energy P) wc nimpl (oracle_energy task perf_arch nimpl);
  let ntasks_end := ddiv (dofZ fifo_ntasks) (worker_relative_speedup rt perf_arch) in
  let takes := greedy_takes (p_ntasks_best P) (p_calibrating P) ntasks_end
                            (p_ntasks_best_end P) len in
  let ntasks_best_end1 := if takes then ntasks_end else p_ntasks_best_end P in
  let ntasks_best1 := if takes then sint (Z.of_nat worker) else p_ntasks_best P in
  let nimpl_best1 := if takes then Z.of_nat nimpl else p_nimpl_best P in
  let calibrating1 := if disnan len then true else p_calibrating P in
  let unknown1 := if disnan len || diszero len then true else p_unknown P in
  if unknown1 then
    Ok (mk_pred length1 exp_end1 penalty1 energy1 calibrating1 max_exp_end1
                (p_best_exp_end P) ntasks_best1 nimpl_best1 ntasks_best_end1 unknown1 wc)
  else
    let e1 := dadd (dadd exp_start0 prev_exp_len) len in
    exp_end2 ← mwrite nworkers exp_end1 wc nimpl e1;
    let better := dlt e1 (p_best_exp_end P) in
    let best_exp_end1 := if better then e1 else p_best_exp_end P in
    let nimpl_best2 := if better then Z.of_nat nimpl else nimpl_best1 in
    energy2 ← (if disnan (oracle_energy task perf_arch nimpl)
               then mwrite nworkers energy1 wc nimpl (dofZ 0)
               else Ok energy1);
    Ok (mk_pred length1 exp_end2 penalty1 energy2 calibrating1 max_exp_end1
                best_exp_end1 ntasks_best1 nimpl_best2 ntasks_best_end1 unknown1 wc).

Definition next_worker_ctx (P : predictions) : predictions :=
  mk_pred (local_task_length P) (exp_end_m P) (local_data_penalty P) (local_energy P)
          (p_calibrating P) (p_max_exp_end P) (p_best_exp_end P) (p_ntasks_best P)
          (p_nimpl_best P) (p_ntasks_best_end P) (p_unknown P) (S (p_worker_ctx P)).

(** One turn of the worker loop of [compute_all_performance_predictions]. *)
Definition predict_worker (task : starpu_task (D := D)) (nworkers sched_ctx_id : nat)
    (sorted_decision : bool) (num_prio task_prio : Z)
    (acc : predictions * world (D := D)) (worker : nat) : outcome (predictions * world) :=
  let '(P, w) := acc in
  match queue_array (dt w) !! worker with
  | None => Fault AssertFailed
  | Some fifo =>
      let '(exp_start0, w1) := refreshed_start rt fifo w in
      let '(can, impl_mask) := worker_can_execute_task_impl rt worker task in
      if negb can then Ok (P, w1)
      else
        P1 ← fold_outcome
               (fun P nimpl =>
                  if mask_has impl_mask nimpl
                  then predict_candidate task nworkers sched_ctx_id sorted_decision
                         num_prio task_prio worker fifo exp_start0 P nimpl
                  else Ok P)
               (seq 0 (STARPU_MAXIMPLEMENTATIONS rt)) P;
        Ok (next_worker_ctx P1, w1)
  end.

(** [*forced_worker] and [*forced_impl]. *)
Definition forced_worker (P : predictions) : Z := if p_unknown P then p_ntasks_best P else -1.
Definition forced_impl (P : predictions) : Z := if p_unknown P then p_nimpl_best P else -1.

Definition compute_all_performance_predictions (task : starpu_task (D := D))
    (nworkers sched_ctx_id : nat) (sorted_decision : bool) (w : world (D := D))
    : outcome (predictions * world) :=
  let num_prio := num_priorities (dt w) in
  task_prio ← (if sorted_decision && negb (num_prio =? -1)
               then _normalize_prio rt (priority task) num_prio sched_ctx_id
               else Ok 0);
  fold_outcome (predict_worker task nworkers sched_ctx_id sorted_decision num_prio task_prio)
               (ctx_masters rt sched_ctx_id) (predictions_initial, w).

End DMDA.

Section DMDA_push.
Context {D : Type} `{DoubleOps D}.
Variable rt : runtime (D := D).

(** The fitness of a candidate, from the cells of the prediction arrays. *)
Definition fitness_value (d : _starpu_dmda_data (D := D))
    (exp_end0 best_exp_end0 max_exp_end0 data_penalty energy : D) : D :=
  let base := dadd (dadd (dmul (alpha d) (dsub exp_end0 best_exp_end0))
                         (dmul (beta d) data_penalty))
                   (dmul (_gamma d) energy) in
  if dgt exp_end0 max_exp_end0
  then dadd base (ddiv (dmul (dmul (_gamma d) (idle_power d)) (dsub exp_end0 max_exp_end0))
                       (dofZ 1000000))
  else base.

(** The local variables of the selection loop of [_dmda_push_task]. *)
Record selection : Type := mk_sel {
  s_fitness : gmap (nat * nat) D;
  s_best_fitness : D;
  s_best : Z;
  s_best_in_ctx : Z;
  s_selected_impl : Z;
  s_worker_ctx : nat
}.

Definition selection_initial : selection := mk_sel ∅ (dofZ (-1)) (-1) (-1) 0 0.

(** The body of the [for (nimpl ...)] loop of the selection. *)
Definition select_candidate (d : _starpu_dmda_data (D := D)) (nworkers : nat)
    (P : predictions (D := D)) (worker : nat) (S0 : selection) (nimpl : nat)
    : outcome selection :=
  let wc := s_worker_ctx S0 in
  e ← mread rt nworkers (exp_end_m P) (Z.of_nat wc) (Z.of_nat nimpl);
  pen ← mread rt nworkers (local_data_penalty P) (Z.of_nat wc) (Z.of_nat nimpl);
  en ← mread rt nworkers (local_energy P) (Z.of_nat wc) (Z.of_nat nimpl);
  let f := fitness_value d e (p_best_exp_end P) (p_max_exp_end P) pen en in
  fit ← mwrite rt nworkers (s_fitness S0) wc nimpl f;
  if (s_best S0 =? -1) || dlt f (s_best_fitness S0)
  then Ok (mk_sel fit f (sint (Z.of_nat worker)) (Z.of_nat wc) (Z.of_nat nimpl) wc)
  else Ok (mk_sel fit (s_best_fitness S0) (s_best S0) (s_best_in_ctx S0)
                  (s_selected_impl S0) wc).

Definition select_worker (d : _starpu_dmda_data (D := D)) (task : starpu_task (D := D))
    (nworkers : nat) (P : predictions (D := D)) (S0 : selection) (worker : nat)
    : outcome selection :=
  let '(can, impl_mask) := worker_can_execute_task_impl rt worker task in
  if negb can then Ok S0
  else
    S1 ← fold_outcome
           (fun S nimpl =>
              if mask_has impl_mask nimpl then select_candidate d nworkers P worker S nimpl
              else Ok S)
           (seq 0 (STARPU_MAXIMPLEMENTATIONS rt)) S0;
    Ok (mk_sel (s_fitness S1) (s_best_fitness S1) (s_best S1) (s_best_in_ctx S1)
               (s_selected_impl S1) (S (s_worker_ctx S1))).

(** The selection loop, run only when no worker is forced. *)
Definition select_best (d : _starpu_dmda_data (D := D)) (task : starpu_task (D := D))
    (nworkers sched_ctx_id : nat) (P : predictions (D := D)) : outcome selection :=
  if forced_worker P =? -1
  then fold_outcome (select_worker d task nworkers P) (ctx_masters rt sched_ctx_id)
                    selection_initial
  else Ok selection_initial.

(** Everything [_dmda_push_task] has decided when it reaches
    [starpu_sched_task_break]. *)
Record decision : Type := mk_decision {
  d_args : commit_args (D := D);
  d_best_in_ctx : Z;
  d_forced_best : Z;
  d_selected_best : Z;          (* [best] as the selection loop left it *)
  d_exp_end : gmap (nat * nat) D;
  d_fitness : gmap (nat * nat) D;
  d_predictions : predictions (D := D)
}.

Definition dmda_decide (task : starpu_task (D := D)) (sched_ctx_id : nat)
    (sorted_decision : bool) (w : world (D := D)) : outcome (decision * world) :=
  let nworkers_ctx := ctx_nworkers rt sched_ctx_id in
  '(P, w1) ← compute_all_performance_predictions rt task nworkers_ctx sched_ctx_id
               sorted_decision w;
  S1 ← select_best (dt w) task nworkers_ctx sched_ctx_id P;
  let forced_best := forced_worker P in
  if (forced_best =? -1) && (s_best S1 =? -1) then Fault AssertFailed
  else
    args ←
      (if negb (forced_best =? -1)
       then Ok (mk_commit forced_best (dofZ 0) (dofZ 0) (forced_impl P))
       else if bundle task then
         let perf_arch :=
           worker_perf_archtype rt (Z.to_nat (s_best_in_ctx S1)) sched_ctx_id in
         let memory_node := worker_memory_node rt (Z.to_nat (s_best S1)) in
         Ok (mk_commit (s_best S1)
               (task_expected_length rt task perf_arch (Z.to_nat (s_selected_impl S1)))
               (task_expected_data_transfer_time rt memory_node task)
               (s_selected_impl S1))
       else
         m ← mread rt nworkers_ctx (local_task_length P)
               (s_best_in_ctx S1) (s_selected_impl S1);
         t ← mread rt nworkers_ctx (local_data_penalty P)
               (s_best_in_ctx S1) (s_selected_impl S1);
         Ok (mk_commit (s_best S1) m t (s_selected_impl S1)));
    Ok (mk_decision args (s_best_in_ctx S1) forced_best (s_best S1) (exp_end_m P)
                    (s_fitness S1) P, w1).

(** [_dmda_push_task]; the result is the [double] it returns. *)
Definition _dmda_push_task (task : starpu_task (D := D)) (prio : bool) (sched_ctx_id : nat)
    (simulate sorted_decision : bool) (w : world (D := D)) : outcome (D * world) :=
  '(dec, w1) ← dmda_decide task sched_ctx_id sorted_decision w;
  let c := d_args dec in
  let task' := set_implementation task (c_impl c) in
  if negb simulate then
    '(ret, w2) ← push_task_on_best_worker rt task' (c_best c) (c_model_best c)
                   (c_transfer_model_best c) prio sched_ctx_id w1;
    Ok (dofZ ret, w2)
  else
    r ← mread rt (ctx_nworkers rt sched_ctx_id) (d_exp_end dec)
          (d_best_in_ctx dec) (c_impl c);
    Ok (r, w1).

Definition dmda_push_sorted_decision_task (task : starpu_task (D := D)) :=
  _dmda_push_task task true (sched_ctx task) false true.

Definition dmda_push_sorted_task (task : starpu_task (D := D)) :=
  _dmda_push_task task true (sched_ctx task) false false.

Definition dmda_push_task (task : starpu_task (D := D)) :=
  _dmda_push_task task false (sched_ctx task) false false.

Definition dmda_simulate_push_task (task : starpu_task (D := D)) :=
  _dmda_push_task task false (sched_ctx task) true false.

Definition dmda_simulate_push_sorted_task (task : starpu_task (D := D)) :=
  _dmda_push_task task true (sched_ctx task) true false.

Definition dmda_simulate_push_sorted_decision_task (task : starpu_task (D := D)) :=
  _dmda_push_task task true (sched_ctx task) true true.

End DMDA_push.

(* ------------------------------------------------------------------ *)
(** ** The candidates of a decision *)

Section Candidates.
Context {D : Type} `{DoubleOps D}.
Variable rt : runtime (D := D).

(** The implementations a mask allows, in loop order. *)
Definition impls_of (impl_mask : Z) : list nat :=
  List.filter (mask_has impl_mask) (seq 0 (STARPU_MAXIMPLEMENTATIONS rt)).

(** The masters that can run the task, in iteration order: the k-th of
    them is the worker the loops visit with [worker_ctx = k]. *)
Definition eligible_workers (task : starpu_task (D := D)) (sched_ctx_id : nat) : list nat :=
  List.filter (fun worker => fst (worker_can_execute_task_impl rt worker task))
              (ctx_masters rt sched_ctx_id).

(** The (worker, implementation) pairs a decision loop evaluates. *)
Definition candidates_of (task : starpu_task (D := D)) (workers : list nat)
    : list (nat * nat) :=
  flat_map (fun worker =>
              let '(can, impl_mask) := worker_can_execute_task_impl rt worker task in
              if can then map (pair worker) (impls_of impl_mask) else [])
           workers.

Definition candidates (task : starpu_task (D := D)) (sched_ctx_id : nat) : list (nat * nat) :=
  candidates_of task (ctx_masters rt sched_ctx_id).

(** "NaN or zero predicted length". *)
Definition no_prediction (len : D) : bool := disnan len || diszero len.

(** The predicted length of a candidate in [_dm_push_task] ... *)
Definition dm_length (task : starpu_task (D := D)) (sched_ctx_id : nat) (c : nat * nat) : D :=
  task_expected_length rt task (worker_perf_archtype rt (fst c) sched_ctx_id) (snd c).

(** ... and in [compute_all_performance_predictions]. *)
Definition dmda_length (task : starpu_task (D := D)) (sched_ctx_id : nat) (c : nat * nat)
    : D :=
  oracle_length rt task (worker_perf_archtype rt (fst c) sched_ctx_id) (snd c).

(** "Energy defaults to 0 when the oracle returns NaN." *)
Definition energy_or_zero (e : D) : D := if disnan e then dofZ 0 else e.

(** Worker identifiers fit in an [int]. *)
Definition workers_are_ints (workers : list nat) : Prop :=
  Forall (fun worker => Z.of_nat worker <= INT_MAX) workers.

End Candidates.

(* ------------------------------------------------------------------ *)
(** ** The pending list of [dm_push_task]

    [dm_push_task] links tasks through their own [prev]/[next] fields, so
    this part of the model keeps the tasks in a store of nodes addressed by
    pointers. *)

(** How a run of the insertion loop ends. *)
Inductive loop_end (A : Type) : Type :=
| Left (a : A)       (* the loop condition became false *)
| Crashed            (* a NULL or dangling pointer was dereferenced *)
| OutOfFuel.         (* still running after the given number of turns *)
Arguments Left {A} a.
Arguments Crashed {A}.
Arguments OutOfFuel {A}.

Section PendingList.
Context {D : Type} `{DoubleOps D}.
Variable rt : runtime (D := D).

(** The two loops of [get_task_heter_ratio] walk the same candidates. *)
Definition heter_candidates {A} (sched_ctx_id : nat) (task : starpu_task (D := D))
    (body : A -> nat -> nat -> A) (init : A) : A :=
  fold_left
    (fun acc worker =>
       let perf_arch := worker_perf_archtype rt worker sched_ctx_id in
       let '(can, impl_mask) := worker_can_execute_task_impl rt worker task in
       if negb can then acc
       else fold_left (fun acc nimpl =>
                         if mask_has impl_mask nimpl then body acc perf_arch nimpl else acc)
                      (seq 0 (STARPU_MAXIMPLEMENTATIONS rt)) acc)
    (ctx_masters rt sched_ctx_id) init.

Definition get_task_heter_ratio (sched_ctx_id : nat) (task : starpu_task (D := D)) : D :=
  let max_execution_time :=
    heter_candidates sched_ctx_id task
      (fun m perf_arch nimpl =>
         let local_length := dadd (dofZ 1) (task_expected_length rt task perf_arch nimpl) in
         if dgt local_length m then local_length else m)
      (dofZ 0) in
  heter_candidates sched_ctx_id task
    (fun r perf_arch nimpl =>
       let local_length := dadd (dofZ 1) (task_expected_length rt task perf_arch nimpl) in
       let heter_ratio := ddiv max_execution_time local_length in
       if dgt heter_ratio r then heter_ratio else r)
    (dofZ 0).

(** A task in memory: its fields and its two links. *)
Record task_node : Type := mk_node {
  payload : starpu_task (D := D);
  next : option nat;      (* task->next, None for NULL *)
  prev : option nat       (* task->prev *)
}.

(** [struct starpu_task_list]. *)
Record starpu_task_list : Type := mk_list {
  head : option nat;
  tail : option nat
}.

(** [p->next = v]; [None] when [p] is not an allocated task. *)
Definition set_next (h : gmap nat task_node) (p : nat) (v : option nat) : option (gmap nat task_node) :=
  n ← h !! p; Some (<[p := mk_node (payload n) v (prev n)]> h).

(** [p->prev = v] *)
Definition set_prev (h : gmap nat task_node) (p : nat) (v : option nat) : option (gmap nat task_node) :=
  n ← h !! p; Some (<[p := mk_node (payload n) (next n) v]> h).

(** Modelled from the spec: [starpu_task_list_push_back] comes from
    starpu_task_list.h, which is not part of the sources; it appends the
    task at the tail of the pending list. *)
Definition starpu_task_list_push_back (h : gmap nat task_node) (l : starpu_task_list) (task : nat)
    : option (gmap nat task_node * starpu_task_list) :=
  h1 ← match tail l with
       | None => Some h
       | Some t => set_next h t (Some task)
       end;
  h2 ← set_next h1 task None;
  h3 ← set_prev h2 task (tail l);
  Some (h3, mk_list (match head l with None => Some task | x => x end) (Some task)).

(** Modelled from the spec: [starpu_task_list_push_front] comes from
    starpu_task_list.h, which is not part of the sources; it puts the task
    at the front of the pending list. *)
Definition starpu_task_list_push_front (h : gmap nat task_node) (l : starpu_task_list) (task : nat)
    : option (gmap nat task_node * starpu_task_list) :=
  h1 ← match head l with
       | None => Some h
       | Some t => set_prev h t (Some task)
       end;
  h2 ← set_prev h1 task None;
  h3 ← set_next h2 task (head l);
  Some (h3, mk_list (Some task) (match tail l with None => Some task | x => x end)).

(** The body of [while (current != NULL)] in [dm_push_task]:
    [[
      if (max_heter_ratio > get_task_heter_ratio(sched_ctx_id, current)) {
        current->prev->next = task;
        task->next = current;
        task->prev = current->prev;
        current->prev = task;
      }
    ]] *)
Definition insertion_body (sched_ctx_id : nat) (max_heter_ratio : D) (task : nat)
    (h : gmap nat task_node) (current : nat) : option (gmap nat task_node) :=
  cn ← h !! current;
  if dgt max_heter_ratio (get_task_heter_ratio sched_ctx_id (payload cn)) then
    p ← prev cn;
    h1 ← set_next h p (Some task);
    h2 ← set_next h1 task (Some current);
    cn2 ← h2 !! current;
    h3 ← set_prev h2 task (prev cn2);
    set_prev h3 current (Some task)
  else Some h.

(** The loop itself; the body never assigns [current], so every turn is
    entered with the pointer the loop started with. *)
Fixpoint insertion_loop (fuel : nat) (sched_ctx_id : nat) (max_heter_ratio : D)
    (task : nat) (h : gmap nat task_node) (current : option nat) : loop_end (gmap nat task_node) :=
  match current with
  | None => Left h
  | Some c =>
      match fuel with
      | O => OutOfFuel
      | S fuel' =>
          match insertion_body sched_ctx_id max_heter_ratio task h c with
          | None => Crashed
          | Some h' => insertion_loop fuel' sched_ctx_id max_heter_ratio task h' (Some c)
          end
      end
  end.

Definition lift_end {A} (x : option A) : loop_end A :=
  match x with Some a => Left a | None => Crashed end.

(** [dm_push_task] up to the call of [_dm_push_task]: the new task is
    merged into [data->main_list]. *)
Definition dm_push_task_merge (fuel : nat) (task : nat) (h : gmap nat task_node) (l : starpu_task_list)
    : loop_end (gmap nat task_node * starpu_task_list) :=
  match h !! task with
  | None => Crashed
  | Some tn =>
      let sched_ctx_id := sched_ctx (payload tn) in
      let max_heter_ratio := get_task_heter_ratio sched_ctx_id (payload tn) in
      match head l with
      | None => lift_end (starpu_task_list_push_back h l task)
      | Some current =>
          match h !! current with
          | None => Crashed
          | Some cn =>
              if dgt max_heter_ratio (get_task_heter_ratio sched_ctx_id (payload cn))
              then lift_end (starpu_task_list_push_front h l task)
              else
                match insertion_loop fuel sched_ctx_id max_heter_ratio task h (next cn) with
                | Left h' => Left (h', l)
                | Crashed => Crashed
                | OutOfFuel => OutOfFuel
                end
          end
      end
  end.

End PendingList.

(* ------------------------------------------------------------------ *)
(** ** The policy as a transition system *)

Section Operations.
Context {D : Type} `{DoubleOps D}.
Variable rt : runtime (D := D).

(** The calls that change a worker FIFO. *)
Inductive operation : Type :=
| OpCommit (task : starpu_task (D := D)) (best_workerid : Z)
           (predicted0 predicted_transfer0 : D) (prio : bool) (sched_ctx_id : nat)
| OpDmPush (task : starpu_task (D := D)) (prio : bool) (sched_ctx_id : nat)
| OpDmdaPush (task : starpu_task (D := D)) (prio : bool) (sched_ctx_id : nat)
             (sorted_decision : bool)
| OpPreExec (task : starpu_task (D := D)) (workerid : nat)
| OpPostExec (task : starpu_task (D := D)) (workerid : nat)
| OpNotify (task : starpu_task (D := D)) (workerid : Z) (perf_workerid sched_ctx_id : nat)
| OpPopReady (workerid : nat)
| OpPop (workerid : nat)
| OpPopEvery (workerid : nat).

Definition run_op (op : operation) (w : world (D := D)) : outcome world :=
  match op with
  | OpCommit task best p pt prio ctx =>
      '(_, w') ← push_task_on_best_worker rt task best p pt prio ctx w; Ok w'
  | OpDmPush task prio ctx =>
      '(_, w') ← _dm_push_task rt task prio ctx w; Ok w'
  | OpDmdaPush task prio ctx sorted_decision =>
      '(_, w') ← _dmda_push_task rt task prio ctx false sorted_decision w; Ok w'
  | OpPreExec task workerid => dmda_pre_exec_hook rt task workerid w
  | OpPostExec task workerid => dmda_post_exec_hook rt task workerid w
  | OpNotify task workerid perf ctx =>
      '(_, w') ← dmda_push_task_notify rt task workerid perf ctx w; Ok w'
  | OpPopReady workerid => '(_, w') ← dmda_pop_ready_task rt workerid w; Ok w'
  | OpPop workerid => '(_, w') ← dmda_pop_task rt workerid w; Ok w'
  | OpPopEvery workerid => '(_, w') ← dmda_pop_every_task rt workerid w; Ok w'
  end.

Definition run_ops (ops : list operation) (w : world (D := D)) : outcome world :=
  fold_outcome (fun w op => run_op op w) ops w.


(** The horizon invariant of one FIFO and of all of them. *)
Definition horizon_ok (f : _starpu_fifo_taskq (D := D)) : Prop :=
  exp_end f = dadd (exp_start f) (exp_len f).


End Operations.

(* ------------------------------------------------------------------ *)
(** ** Concrete machines

    Small contexts on which the functions above are evaluated: a clock
    whose n-th reading is n microseconds, every worker on its own memory
    node and of its own architecture, one implementation per codelet. *)

Module Scenario.

Definition F (z : Z) : spec_float := Binary64.ofZ z.

Definition machine {D : Type} `{DoubleOps D}
    (len : nat -> D)                 (* expected length per architecture *)
    (masters : list nat)
    (child : Z -> nat)               (* child context led by a worker, 8 for none *)
    (bounds : option (Z * Z))        (* the priority range, when the context set one *)
    (valid : nat -> nat -> bool)
    : runtime (D := D) :=
  mk_runtime
    (fun n => dofZ (Z.of_nat n))
    valid
    (fun _ => match bounds with Some (lo, _) => lo | None => 0 end)
    (fun _ => match bounds with Some (_, hi) => hi | None => 0 end)
    (fun _ => match bounds with Some _ => true | None => false end)
    (fun _ => match bounds with Some _ => true | None => false end)
    (fun _ => masters)
    (fun _ => length masters)
    (fun worker => worker)
    (fun worker _ => worker)
    (fun _ _ => (true, 1))
    (fun _ perf_arch _ => len perf_arch)
    (fun _ _ => dofZ 0)
    (fun _ _ _ => dofZ 0)
    (fun _ _ _ => dofZ 0)
    (fun _ perf_arch _ => len perf_arch)
    (fun _ _ => dofZ 0)
    (fun _ _ _ => dofZ 0)
    (fun perf_arch => if Nat.eqb perf_arch 0 then dofZ 1 else dofZ 10)
    (fun best _ => child best)
    (fun fifo _ _ _ => (exp_len fifo, ntasks fifo))
    0 4 8.

Definition no_child : Z -> nat := fun _ => 8%nat.

Definition plain_task {D : Type} `{DoubleOps D} (id : nat) (prio : Z) (hs : list nat)
    : starpu_task (D := D) :=
  mk_task id prio 0 hs false (fun _ => 0%nat) false (dofZ 0) 0 (dofZ 0) (dofZ 0).

(** A context with an empty queue for each of the workers 0 and 1,
    priority buckets off, and the default coefficients. *)
Definition two_idle_workers {D : Type} `{DoubleOps D} : world (D := D) :=
  mk_world
    (mk_dmda (dofZ 1) (dofZ 1) (dofZ 1000) (dofZ 0)
             (<[0%nat := empty_fifo]> (<[1%nat := empty_fifo]> ∅)) (-1))
    0 [].

(** Both workers predict a length: 100 on worker 0, 20 on worker 1. *)
Definition calibrated {D : Type} `{DoubleOps D} : runtime (D := D) :=
  machine (fun a => if Nat.eqb a 0 then dofZ 100 else dofZ 20) [0%nat; 1%nat]
          no_child None (fun _ _ => true).

(** Both workers predict a length, and worker 0 is the faster one. *)
Definition fast_first : runtime (D := spec_float) :=
  machine (fun a => if Nat.eqb a 0 then F 20 else F 100) [0%nat; 1%nat]
          no_child None (fun _ _ => true).

(** Worker 0 has no model yet for the task (NaN). *)
Definition uncalibrated : runtime (D := spec_float) :=
  machine (fun a => if Nat.eqb a 0 then S754_nan else F 20) [0%nat; 1%nat]
          no_child None (fun _ _ => true).

(** Worker 0 leads child context 3. *)
Definition with_child : runtime (D := spec_float) :=
  machine (fun a => F 100) [0%nat; 1%nat]
          (fun best => if best =? 0 then 3%nat else 8%nat) None (fun _ _ => true).

(** The context set its minimum and its maximum priority to 0. *)
Definition one_priority : runtime (D := spec_float) :=
  machine (fun a => F 100) [0%nat] no_child (Some (0, 0)) (fun _ _ => true).

(** Handle 0 is valid on memory node 1 only. *)
Definition valid_on_node_1 : runtime (D := spec_float) :=
  machine (fun a => F 100) [0%nat] no_child None (fun _ node => Nat.eqb node 1).

(** A task of priority 5 reading handle 0 where the worker runs. *)
Definition task_a : starpu_task (D := spec_float) := plain_task 1 5 [0%nat].

(** A task of priority 5 whose codelet sends its buffer to node 1. *)
Definition task_b : starpu_task (D := spec_float) :=
  mk_task 2 5 0 [0%nat] true (fun _ => 1%nat) false (F 0) 0 (F 0) (F 0).

Definition queue_a_b : _starpu_fifo_taskq (D := spec_float) :=
  mk_fifo [task_a; task_b] 2 [] 2 (F 0) (F 0) (F 0) [].

(** Scenario S5 of the spec: handle 0 is valid everywhere, the others
    nowhere; A (priority 5) reads two invalid handles, B (priority 5) a
    valid one, C (priority 3) nothing. *)
Definition only_handle_0 : runtime (D := spec_float) :=
  machine (fun a => F 100) [0%nat] no_child None (fun handle _ => Nat.eqb handle 0).

Definition s5_a : starpu_task (D := spec_float) := plain_task 1 5 [1%nat; 2%nat].
Definition s5_b : starpu_task (D := spec_float) := plain_task 2 5 [0%nat].
Definition s5_c : starpu_task (D := spec_float) := plain_task 3 3 [].

Definition queue_s5 : _starpu_fifo_taskq (D := spec_float) :=
  mk_fifo [s5_a; s5_b; s5_c] 3 [] 3 (F 0) (F 0) (F 0) [].

(** Three tasks in memory: 10 and 11 are linked into the pending list, 12
    is the task being pushed. *)
Definition pending : gmap nat (task_node (D := spec_float)) :=
  <[10%nat := mk_node (plain_task 10 0 []) (Some 11%nat) None]>
    (<[11%nat := mk_node (plain_task 11 0 []) None (Some 10%nat)]>
       (<[12%nat := mk_node (plain_task 12 0 []) None None]> ∅)).

Definition pending_list : starpu_task_list := mk_list (Some 10%nat) (Some 11%nat).

(** The calibrated machine with an energy model that is not calibrated
    on worker 0 (NaN) and predicts 3 joules on worker 1. *)
Definition calibrated_energy : runtime (D := spec_float) :=
  let rt := calibrated (D := spec_float) in
  mk_runtime (timing_now rt) (data_is_valid rt) (ctx_min_priority rt) (ctx_max_priority rt)
    (ctx_min_priority_is_set rt) (ctx_max_priority_is_set rt) (ctx_masters rt)
    (ctx_nworkers rt) (worker_memory_node rt) (worker_perf_archtype rt)
    (worker_can_execute_task_impl rt) (task_expected_length rt)
    (task_expected_data_transfer_time rt)
    (fun _ perf_arch _ => if Nat.eqb perf_arch 0 then S754_nan else F 3)
    (task_expected_conversion_time rt) (task_bundle_expected_length rt)
    (task_bundle_expected_data_transfer_time rt) (task_bundle_expected_energy rt)
    (worker_relative_speedup rt) (worker_is_master_for_child_ctx rt)
    (fifo_get_exp_len_prev_task_list rt) (fifo_push_sorted_status rt)
    (STARPU_MAXIMPLEMENTATIONS rt) (STARPU_NMAX_SCHED_CTXS rt).



(** A queue whose start is 1024 and whose length, 2^-43, is half a unit in
    the last place of 1024. *)
Definition half_ulp : spec_float := S754_finite false 4503599627370496 (-95).

Definition tight_queue : world (D := spec_float) :=
  mk_world
    (mk_dmda (F 1) (F 1) (F 1000) (F 0)
             (<[0%nat := mk_fifo [] 0 [] 0 (F 1024) (F 1024) half_ulp []]> ∅) (-1))
    0 [].

(** A task whose predicted length is 5 and whose transfer is 0. *)
Definition task5 : starpu_task (D := spec_float) :=
  mk_task 7 0 0 [] false (fun _ => 0%nat) false (F 0) 0 (F 5) (F 0).

End Scenario.

(* ------------------------------------------------------------------ *)
(** ** Predicates used in the statements *)

Section Predicates.
Context {D : Type} `{DoubleOps D}.
Variable rt : runtime (D := D).

(** Reading the clock changes neither the policy data nor the forwarded
    tasks. *)
Definition same_queues (w w1 : world (D := D)) : Prop :=
  dt w1 = dt w /\ moved w1 = moved w.

(** The three numbers of the horizon are the same in both queues. *)
Definition same_horizon (f f' : _starpu_fifo_taskq (D := D)) : Prop :=
  exp_start f' = exp_start f /\ exp_end f' = exp_end f /\ exp_len f' = exp_len f.

(** [l -= m] under [if (!isnan(m))]. *)
Definition minus_model (l m : D) : D := if disnan m then l else dsub l m.

(** The selection loop keeps, with its best candidate, a cell of [exp_end]
    that can be read. *)
Definition selected_cell_readable (nworkers : nat) (P : predictions (D := D))
    (S0 : selection (D := D)) : Prop :=
  s_best S0 <> -1 ->
  is_ok (mread rt nworkers (exp_end_m P) (s_best_in_ctx S0) (s_selected_impl S0)) = true.

(** What the loop needs in order not to crash: [current] and [task] are
    allocated and [current->prev] points to an allocated task. *)
Definition loop_safe (h : gmap nat (task_node (D := D))) (task current : nat) : Prop :=
  is_Some (h !! task)
  /\ exists cn p, h !! current = Some cn /\ prev cn = Some p /\ is_Some (h !! p).

(** The cell of a candidate after the prediction loop. *)
Definition predicted_cell (task : starpu_task (D := D)) (ctx : nat)
    (P : predictions (D := D)) (k worker nimpl : nat) : Prop :=
  local_data_penalty P !! (k, nimpl)
  = Some (oracle_penalty rt task (worker_memory_node rt worker))
  /\ local_energy P !! (k, nimpl)
     = Some (energy_or_zero (oracle_energy rt task (worker_perf_archtype rt worker ctx) nimpl)).

(** Two states of the arrays agree on a cell. *)
Definition same_cell (P P' : predictions (D := D)) (key : nat * nat) : Prop :=
  local_data_penalty P' !! key = local_data_penalty P !! key
  /\ local_energy P' !! key = local_energy P !! key.

(** The fitness cell of a candidate holds the formula, evaluated on the
    candidate's cells of the prediction arrays. *)
Definition fitness_cell (d : _starpu_dmda_data (D := D)) (P : predictions (D := D))
    (S0 : selection (D := D)) (k nimpl : nat) : Prop :=
  exists e pen en,
    exp_end_m P !! (k, nimpl) = Some e
    /\ local_data_penalty P !! (k, nimpl) = Some pen
    /\ local_energy P !! (k, nimpl) = Some en
    /\ s_fitness S0 !! (k, nimpl)
       = Some (fitness_value d e (p_best_exp_end P) (p_max_exp_end P) pen en).

End Predicates.

(* ------------------------------------------------------------------ *)
(** ** Attaching and detaching workers *)

Section Workers.
Context {D : Type} `{DoubleOps D}.

(** One turn of the loop of [dmda_add_workers].  [created workerid] is the
    queue [_starpu_create_fifo()] returns in the turn of [workerid].  The
    two [_STARPU_MALLOC] are run whether the queue is new or not; a
    negative cell count other than -1 asks for an impossible size. *)
Definition add_worker (created : nat -> _starpu_fifo_taskq (D := D))
    (d : _starpu_dmda_data (D := D)) (workerid : nat) : outcome _starpu_dmda_data :=
  let q := match queue_array d !! workerid with
           | Some q => q
           | None => created workerid
           end in
  if num_priorities d =? -1 then Ok (with_queue d workerid q)
  else if num_priorities d <? 0 then Fault AssertFailed
  else
    let cells := Z.to_nat (num_priorities d) in
    Ok (with_queue d workerid
          (mk_fifo (taskq q) (ntasks q) (replicate cells 0) (nprocessed q)
                   (exp_start q) (exp_end q) (exp_len q) (replicate cells (dofZ 0)))).

Definition dmda_add_workers (created : nat -> _starpu_fifo_taskq (D := D))
    (workerids : list nat) (d : _starpu_dmda_data (D := D)) : outcome _starpu_dmda_data :=
  fold_outcome (add_worker created) workerids d.

(** [dmda_remove_workers]: the queue of each listed worker is destroyed
    and its slot set to NULL. *)
Definition dmda_remove_workers (workerids : list nat) (d : _starpu_dmda_data (D := D))
    : _starpu_dmda_data :=
  fold_left (fun d workerid =>
               mk_dmda (alpha d) (beta d) (_gamma d) (idle_power d)
                       (delete workerid (queue_array d)) (num_priorities d))
            workerids d.

End Workers.

(* ------------------------------------------------------------------ *)
(** ** Predicates on the content of the queues *)

Section Content.
Context {D : Type} `{DoubleOps D}.

(** The tasks and the two task counters are the same in both queues. *)
Definition same_content (f f' : _starpu_fifo_taskq (D := D)) : Prop :=
  taskq f' = taskq f /\ ntasks f' = ntasks f /\ nprocessed f' = nprocessed f.

(** [ntasks] counts the queued tasks (as an [unsigned] does). *)
Definition counted (f : _starpu_fifo_taskq (D := D)) : Prop :=
  ntasks f = u32 (Z.of_nat (length (taskq f))).

Definition all_counted (w : world (D := D)) : Prop :=
  forall (k : nat) (f : _starpu_fifo_taskq (D := D)),
    queue_array (dt w) !! k = Some f -> counted f.

Definition is_notify (op : operation (D := D)) : bool :=
  match op with
  | OpNotify _ _ _ _ => true
  | _ => false
  end.

End Content.

(* ------------------------------------------------------------------ *)
(** ** The per-priority counters *)

Section Buckets.
Context {D : Type} `{DoubleOps D}.
Variable rt : runtime (D := D).

(** The loops [for (i = 0; i <= task_prio; i++)] count a task in the
    cells [0 .. task_prio]. *)
Definition reaches_bucket (np : Z) (i : nat) (t : starpu_task (D := D)) : bool :=
  match _normalize_prio rt (priority t) np (sched_ctx t) with
  | Ok task_prio => Z.of_nat i <=? task_prio
  | Fault _ => false
  end.

(** For each of the [np] cells, the number of queued tasks counted in it. *)
Definition bucket_counts (np : Z) (q : list (starpu_task (D := D))) : list Z :=
  map (fun i => u32 (Z.of_nat (length (List.filter (reaches_bucket np i) q))))
      (seq 0 (Z.to_nat np)).

Definition buckets_counted (np : Z) (f : _starpu_fifo_taskq (D := D)) : Prop :=
  ntasks_per_priority f = bucket_counts np (taskq f).

Definition all_buckets_counted (w : world (D := D)) : Prop :=
  forall (k : nat) (f : _starpu_fifo_taskq (D := D)),
    queue_array (dt w) !! k = Some f -> buckets_counted (num_priorities (dt w)) f.

(** The operations that keep [ntasks_per_priority] in step with the
    queue: the sorted pushes, the first-ready pop and the hooks.  A tail
    push, [dmda_pop_task] and [dmda_pop_every_task] change the queue and
    leave the counters alone; a notification counts a task that is not
    queued. *)
Definition keeps_buckets (op : operation (D := D)) : bool :=
  match op with
  | OpCommit _ _ _ _ prio _ => prio
  | OpDmPush _ prio _ => prio
  | OpDmdaPush _ prio _ _ => prio
  | OpPreExec _ _ | OpPostExec _ _ | OpPopReady _ => true
  | OpNotify _ _ _ _ | OpPop _ | OpPopEvery _ => false
  end.

(** Both per-priority arrays of a queue have [np] cells, as
    [dmda_add_workers] allocates them. *)
Definition buckets_allocated (np : Z) (f : _starpu_fifo_taskq (D := D)) : Prop :=
  length (ntasks_per_priority f) = Z.to_nat np
  /\ length (exp_len_per_priority f) = Z.to_nat np.

End Buckets.

(* ------------------------------------------------------------------ *)
(** ** The order of doubles *)

(** [<] on doubles is a strict order; a NaN is below nothing and nothing
    is below it. *)
Class LtOrder (D : Type) `{DoubleOps D} : Prop := {
  dlt_irrefl : forall a : D, dlt a a = false;
  dlt_trans : forall a b c : D, dlt a b = true -> dlt b c = true -> dlt a c = true
}.

(* ------------------------------------------------------------------ *)
(** ** Predicates on the chosen worker *)

Section Choice.
Context {D : Type} `{DoubleOps D}.
Variable rt : runtime (D := D).

(** The [int] [z] names one of the workers [ws]. *)
Definition is_worker_of (ws : list nat) (z : Z) : Prop :=
  exists worker, In worker ws /\ z = Z.of_nat worker.

(** Not chosen yet, or one of the workers [ws]. *)
Definition unset_or_worker_of (ws : list nat) (z : Z) : Prop :=
  z = -1 \/ is_worker_of ws z.

(** The master can run the task. *)
Definition can_execute (task : starpu_task (D := D)) (worker : nat) : bool :=
  fst (worker_can_execute_task_impl rt worker task).

(** A cell [(worker_ctx, nimpl)] the loops have passed when they reach
    implementation [n0] of the worker numbered [wc]. *)
Definition written_before (wc n0 : nat) (key : nat * nat) : Prop :=
  (fst key < wc)%nat \/ (fst key = wc /\ (snd key < n0)%nat).

(** The selection of [_dmda_push_task] on reaching implementation [n0] of
    the worker numbered [wc]: the fitness cells written are cells already
    passed, and the best candidate, if there is one, is the implementation
    [nimpl] of the [k]-th worker of [E] and its fitness cell holds
    [best_fitness]. *)
Definition chosen_so_far (task : starpu_task (D := D)) (E : list nat) (wc n0 : nat)
    (S0 : selection (D := D)) : Prop :=
  s_worker_ctx S0 = wc
  /\ (forall key f, s_fitness S0 !! key = Some f -> written_before wc n0 key)
  /\ (s_best S0 <> -1 ->
      exists k worker nimpl,
        E !! k = Some worker
        /\ (nimpl < STARPU_MAXIMPLEMENTATIONS rt)%nat
        /\ mask_has (snd (worker_can_execute_task_impl rt worker task)) nimpl = true
        /\ s_best S0 = Z.of_nat worker
        /\ s_best_in_ctx S0 = Z.of_nat k
        /\ s_selected_impl S0 = Z.of_nat nimpl
        /\ s_fitness S0 !! (k, nimpl) = Some (s_best_fitness S0)).

(** No fitness written so far is below [best_fitness]. *)
Definition unbeaten (S0 : selection (D := D)) : Prop :=
  forall key f, s_fitness S0 !! key = Some f ->
    s_best S0 <> -1 /\ dlt f (s_best_fitness S0) = false.

(** Every master of the context has a queue. *)
Definition masters_have_queues (ctx : nat) (w : world (D := D)) : Prop :=
  forall worker, In worker (ctx_masters rt ctx) -> is_Some (queue_array (dt w) !! worker).

(** No master of the context leads a child context. *)
Definition no_child_context (ctx : nat) : Prop :=
  forall worker, In worker (ctx_masters rt ctx) ->
    worker_is_master_for_child_ctx rt (Z.of_nat worker) ctx = STARPU_NMAX_SCHED_CTXS rt.

(** The push put the task, with an implementation and its prediction
    slots written, into the queue of one master that can execute it, and
    changed no other queue. *)
Definition enqueued_on_eligible (task : starpu_task (D := D)) (ctx : nat)
    (w w' : world (D := D)) : Prop :=
  exists worker fifo fifo' impl p pt,
    In worker (eligible_workers rt task ctx)
    /\ queue_array (dt w) !! worker = Some fifo
    /\ queue_array (dt w') !! worker = Some fifo'
    /\ taskq fifo' ≡ₚ set_predictions (set_implementation task impl) p pt :: taskq fifo
    /\ (forall k, k <> worker -> queue_array (dt w') !! k = queue_array (dt w) !! k).

(** An implementation every eligible master accepts. *)
Definition runnable_everywhere (task : starpu_task (D := D)) (ctx : nat) (nimpl : nat)
    : Prop :=
  forall worker, In worker (eligible_workers rt task ctx) ->
    mask_has (snd (worker_can_execute_task_impl rt worker task)) nimpl = true.

(** The eligible masters accept the same implementations of the task. *)
Definition uniform_masks (task : starpu_task (D := D)) (ctx : nat) : Prop :=
  forall worker nimpl,
    In worker (eligible_workers rt task ctx) ->
    (nimpl < STARPU_MAXIMPLEMENTATIONS rt)%nat ->
    mask_has (snd (worker_can_execute_task_impl rt worker task)) nimpl = true ->
    runnable_everywhere task ctx nimpl.

(** The worker and the implementation of [c] are a worker that can
    execute the task and an implementation this worker accepts. *)
Definition runnable_choice (task : starpu_task (D := D)) (ctx : nat)
    (c : commit_args (D := D)) : Prop :=
  exists worker nimpl,
    In worker (eligible_workers rt task ctx)
    /\ c_best c = Z.of_nat worker
    /\ c_impl c = Z.of_nat nimpl
    /\ mask_has (snd (worker_can_execute_task_impl rt worker task)) nimpl = true.

End Choice.

(* ------------------------------------------------------------------ *)
(** ** Predicates on attaching workers *)

Section Attachment.
Context {D : Type} `{DoubleOps D}.

(** What [dmda_add_workers] makes of a queue [q]: the tasks, the
    counters and the horizon are those of [q]; with the priority buckets on,
    both per-priority arrays are fresh and zeroed. *)
Definition attached (np : Z) (q q' : _starpu_fifo_taskq (D := D)) : Prop :=
  same_content q q' /\ same_horizon q q'
  /\ (if np =? -1
      then ntasks_per_priority q' = ntasks_per_priority q
           /\ exp_len_per_priority q' = exp_len_per_priority q
      else ntasks_per_priority q' = replicate (Z.to_nat np) 0
           /\ exp_len_per_priority q' = replicate (Z.to_nat np) (dofZ 0)).

(** The coefficients and the number of priorities are the same. *)
Definition same_coefficients (d d' : _starpu_dmda_data (D := D)) : Prop :=
  alpha d' = alpha d /\ beta d' = beta d /\ _gamma d' = _gamma d
  /\ idle_power d' = idle_power d /\ num_priorities d' = num_priorities d.

(** What [_starpu_create_fifo()] returns holds no task. *)
Definition creates_empty (created : nat -> _starpu_fifo_taskq (D := D)) : Prop :=
  forall k, taskq (created k) = [] /\ ntasks (created k) = 0
            /\ ntasks_per_priority (created k) = [].

End Attachment.

(* ------------------------------------------------------------------ *)
(** ** Predicates on buffers and on the accounting of a commit *)

Section Accounting.
Context {D : Type} `{DoubleOps D}.
Variable rt : runtime (D := D).

(** The memory node at which [count_non_ready_buffers] queries buffer
    [index] of the task. *)
Definition buffer_node (task : starpu_task (D := D)) (node index : nat) : nat :=
  if specific_nodes task then cl_node task index else node.

(** Every buffer of the task is valid where the count looks for it. *)
Definition all_buffers_ready (task : starpu_task (D := D)) (node : nat) : Prop :=
  forall index handle,
    handles task !! index = Some handle ->
    data_is_valid rt handle (buffer_node task node index) = true.

(** [l += x] under [if (!isnan(x))]. *)
Definition plus_model (l x : D) : D := if disnan x then l else dadd l x.

(** The three cells the selection loop reads for a candidate have been
    written. *)
Definition readable_cell (P : predictions (D := D)) (key : nat * nat) : Prop :=
  is_Some (exp_end_m P !! key)
  /\ is_Some (local_data_penalty P !! key)
  /\ is_Some (local_energy P !! key).

(** [1 + starpu_task_expected_length(task, perf_arch, nimpl)] of a
    candidate, as both loops of [get_task_heter_ratio] compute it. *)
Definition heter_length (task : starpu_task (D := D)) (ctx : nat) (c : nat * nat) : D :=
  dadd (dofZ 1) (task_expected_length rt task (worker_perf_archtype rt (fst c) ctx) (snd c)).

(** [max_execution_time] when the first loop of [get_task_heter_ratio]
    is left. *)
Definition max_execution_time (ctx : nat) (task : starpu_task (D := D)) : D :=
  heter_candidates rt ctx task
    (fun m perf_arch nimpl =>
       let local_length := dadd (dofZ 1) (task_expected_length rt task perf_arch nimpl) in
       if dgt local_length m then local_length else m)
    (dofZ 0).

End Accounting.

(* ------------------------------------------------------------------ *)
(** ** Further concrete inputs *)

Module Cases.

(** The life of [Scenario.busy_day] without the external placement, in
    binary64. *)
Definition quiet_day : list (operation (D := spec_float)) :=
  [ OpDmdaPush (Scenario.plain_task 1 0 []) false 0 false;
    OpDmPush (Scenario.plain_task 2 0 []) true 0;
    OpCommit (Scenario.plain_task 3 0 []) 0 (Scenario.F 7) (Scenario.F 2) false 0;
    OpPopReady 1;
    OpPreExec Scenario.task5 1;
    OpPostExec Scenario.task5 1;
    OpPop 0;
    OpPopEvery 0 ].

(** Worker 0 holds the tasks A and B of [Scenario.queue_a_b]. *)
Definition one_loaded_worker : world (D := spec_float) :=
  mk_world
    (mk_dmda (Scenario.F 1) (Scenario.F 1) (Scenario.F 1000) (Scenario.F 0)
             (<[0%nat := Scenario.queue_a_b]> ∅) (-1))
    0 [].

(** A context with the priorities 0 to 3 and one worker. *)
Definition prioritised : runtime (D := spec_float) :=
  Scenario.machine (fun a => Scenario.F 100) [0%nat] Scenario.no_child (Some (0, 3))
                   (fun _ _ => true).

(** The worker's queue as [dmda_add_workers] leaves it: four zeroed cells
    in each per-priority array. *)
Definition bucketed_worker : world (D := spec_float) :=
  mk_world
    (mk_dmda (Scenario.F 1) (Scenario.F 1) (Scenario.F 1000) (Scenario.F 0)
             (<[0%nat := mk_fifo [] 0 (replicate 4 0) 0 (Scenario.F 0) (Scenario.F 0)
                                 (Scenario.F 0) (replicate 4 (Scenario.F 0))]> ∅) 4)
    0 [].

(** Three sorted pushes of priorities 1, 3 and 0, two pops, the hooks. *)
Definition sorted_day : list (operation (D := spec_float)) :=
  [ OpCommit (Scenario.plain_task 1 1 []) 0 (Scenario.F 7) (Scenario.F 2) true 0;
    OpDmdaPush (Scenario.plain_task 2 3 []) true 0 true;
    OpDmPush (Scenario.plain_task 3 0 []) true 0;
    OpPopReady 0;
    OpPreExec Scenario.task5 0;
    OpPostExec Scenario.task5 0;
    OpPopReady 0 ].

(** The calibrated machine with a task none of its workers can run. *)
Definition nobody_can : runtime (D := spec_float) :=
  let rt := Scenario.calibrated (D := spec_float) in
  mk_runtime (timing_now rt) (data_is_valid rt) (ctx_min_priority rt) (ctx_max_priority rt)
    (ctx_min_priority_is_set rt) (ctx_max_priority_is_set rt) (ctx_masters rt)
    (ctx_nworkers rt) (worker_memory_node rt) (worker_perf_archtype rt)
    (fun _ _ => (false, 0)) (task_expected_length rt)
    (task_expected_data_transfer_time rt) (task_expected_energy rt)
    (task_expected_conversion_time rt) (task_bundle_expected_length rt)
    (task_bundle_expected_data_transfer_time rt) (task_bundle_expected_energy rt)
    (worker_relative_speedup rt) (worker_is_master_for_child_ctx rt)
    (fifo_get_exp_len_prev_task_list rt) (fifo_push_sorted_status rt)
    (STARPU_MAXIMPLEMENTATIONS rt) (STARPU_NMAX_SCHED_CTXS rt).

(** Worker 0 only has implementation 0 of the task, worker 1 only
    implementation 1; worker 0 is the faster one. *)
Definition split_masks : runtime (D := spec_float) :=
  let rt := Scenario.fast_first in
  mk_runtime (timing_now rt) (data_is_valid rt) (ctx_min_priority rt) (ctx_max_priority rt)
    (ctx_min_priority_is_set rt) (ctx_max_priority_is_set rt) (ctx_masters rt)
    (ctx_nworkers rt) (worker_memory_node rt) (worker_perf_archtype rt)
    (fun worker _ => (true, if Nat.eqb worker 0 then 1 else 2)) (task_expected_length rt)
    (task_expected_data_transfer_time rt) (task_expected_energy rt)
    (task_expected_conversion_time rt) (task_bundle_expected_length rt)
    (task_bundle_expected_data_transfer_time rt) (task_bundle_expected_energy rt)
    (worker_relative_speedup rt) (worker_is_master_for_child_ctx rt)
    (fifo_get_exp_len_prev_task_list rt) (fifo_push_sorted_status rt)
    (STARPU_MAXIMPLEMENTATIONS rt) (STARPU_NMAX_SCHED_CTXS rt).

(** Worker 0 has one task queued, worker 1 none. *)
Definition one_task_ahead : world (D := spec_float) :=
  mk_world
    (mk_dmda (Scenario.F 1) (Scenario.F 1) (Scenario.F 1000) (Scenario.F 0)
             (<[0%nat := mk_fifo [Scenario.task_a] 1 [] 1 (Scenario.F 0) (Scenario.F 0)
                                 (Scenario.F 0) []]>
                (<[1%nat := empty_fifo]> ∅)) (-1))
    0 [].

(** Task 10 is the only pending task, task 12 is the one being pushed. *)
Definition single_pending : gmap nat (task_node (D := spec_float)) :=
  <[10%nat := mk_node (Scenario.plain_task 10 0 []) None None]>
    (<[12%nat := mk_node (Scenario.plain_task 12 0 []) None None]> ∅).

Definition single_pending_list : starpu_task_list := mk_list (Some 10%nat) (Some 10%nat).

End Cases.

(* ------------------------------------------------------------------ *)
(** ** What an operation leaves in a horizon *)

Section HorizonSteps.
Context {D : Type} `{DoubleOps D}.




End HorizonSteps.

(* ------------------------------------------------------------------ *)
(** ** Doubles within a tolerance *)




(** Inputs in binary64: a queue whose [exp_len] is negative with a commit
    on it, and a machine with an idle consumption. *)
Module Binary64Cases.




(** The two idle workers, in a machine that draws 500000 when idle. *)
Definition idle_draw : world (D := spec_float) :=
  mk_world
    (mk_dmda (dofZ 1) (dofZ 1) (dofZ 1000) (dofZ 500000)
             (<[0%nat := empty_fifo]> (<[1%nat := empty_fifo]> ∅)) (-1))
    0 [].

End Binary64Cases.

(* ================================================================== *)
(** * Properties *)

(** ** Reasoning about outcomes *)

Lemma bind_ok {A B} (x : outcome A) (k : A -> outcome B) (b : B) :
  x ≫= k = Ok b -> exists a, x = Ok a /\ k a = Ok b.
Proof. destruct x as [a|f]; simpl; [eauto | discriminate]. Qed.

(** Split a hypothesis [x ≫= k = Ok b] into the two runs it contains. *)
Ltac ok_step H :=
  let a := fresh "a" in
  let Ha := fresh "Hok" in
  apply bind_ok in H; destruct H as (a & Ha & H).

Ltac ok_inv H := repeat (ok_step H).

(** ** Machine integers *)

Lemma sint_small (z : Z) : -2147483648 <= z < 2147483648 -> sint z = z.
Proof.
  intros Hz. unfold sint.
  rewrite Z.mod_small by lia. lia.
Qed.

Lemma sint_zero_iff (z : Z) :
  -4294967296 < z < 4294967296 -> (sint z = 0 <-> z = 0).
Proof.
  intros Hz. unfold sint. split; [|intros ->; reflexivity].
  intros Hs.
  assert (Hm : (z + 2147483648) mod 4294967296 = 2147483648) by lia.
  destruct (Z_lt_le_dec z (-2147483648)) as [Hlt|Hge].
  - replace (z + 2147483648) with ((z + 2147483648 + 4294967296) + (-1) * 4294967296) in Hm
      by lia.
    rewrite Z.mod_add in Hm by lia. rewrite Z.mod_small in Hm by lia. lia.
  - destruct (Z_lt_le_dec z 2147483648) as [Hlt2|Hge2].
    + rewrite Z.mod_small in Hm by lia. lia.
    + replace (z + 2147483648) with ((z + 2147483648 - 4294967296) + 1 * 4294967296) in Hm
        by lia.
      rewrite Z.mod_add in Hm by lia. rewrite Z.mod_small in Hm by lia. lia.
Qed.

Lemma int_result_ok (z : Z) : INT_MIN <= z <= INT_MAX -> int_result z = Ok z.
Proof.
  unfold int_result. intros Hz.
  destruct (Z.leb_spec INT_MIN z); [|lia]. destruct (Z.leb_spec z INT_MAX); [|lia].
  reflexivity.
Qed.

Lemma int_result_inv (z r : Z) : int_result z = Ok r -> r = z /\ INT_MIN <= z <= INT_MAX.
Proof.
  unfold int_result.
  destruct (Z.leb_spec INT_MIN z); [|discriminate].
  destruct (Z.leb_spec z INT_MAX); [|discriminate].
  intros [= <-]. lia.
Qed.

(** ** Priority normalisation *)

Section NormalizePrio.
Context {D : Type} `{DoubleOps D}.
Variable rt : runtime (D := D).

(** C10. With both bounds of the context set to one and the same value,
    [initialize_dmda_policy] enables the priority buckets
    ([num_priorities] is 1, not -1) and every call of [_normalize_prio]
    divides by [max - min = 0]. *)
Theorem normalize_prio_equal_bounds_divides_by_zero (ctx : nat) (prio : Z) :
  ctx_min_priority_is_set rt ctx = true ->
  ctx_max_priority_is_set rt ctx = true ->
  ctx_max_priority rt ctx = ctx_min_priority rt ctx ->
  initial_num_priorities rt ctx = 1
  /\ initial_num_priorities rt ctx <> -1
  /\ _normalize_prio rt prio (initial_num_priorities rt ctx) ctx = Fault DivByZero.
Proof.
  intros Hmin Hmax Heq.
  assert (Hn : initial_num_priorities rt ctx = 1).
  { unfold initial_num_priorities. rewrite Hmin, Hmax, Heq, Z.sub_diag. reflexivity. }
  rewrite Hn. repeat split; [lia|].
  unfold _normalize_prio. rewrite Heq, Z.sub_diag. reflexivity.
Qed.

End NormalizePrio.

(** ** The horizon of a FIFO *)

Section Horizon.
Context {D : Type} `{DoubleOps D}.
Variable rt : runtime (D := D).

Lemma same_queues_refl (w : world (D := D)) : same_queues w w.
Proof. split; reflexivity. Qed.

Lemma same_queues_trans (w w1 w2 : world (D := D)) :
  same_queues w w1 -> same_queues w1 w2 -> same_queues w w2.
Proof. intros [? ?] [? ?]. split; congruence. Qed.

Lemma now_same (w w1 : world (D := D)) (t : D) :
  now rt w = (t, w1) -> same_queues w w1.
Proof. unfold now. intros [= _ <-]. split; reflexivity. Qed.

Lemma max_now_left_same (x s : D) (w w1 : world (D := D)) :
  max_now_left rt x w = (s, w1) -> same_queues w w1.
Proof.
  unfold max_now_left.
  destruct (now rt w) as [t1 wa] eqn:E1. apply now_same in E1.
  destruct (dlt t1 x).
  - intros [= _ <-]. exact E1.
  - intros E2. apply now_same in E2. eapply same_queues_trans; eassumption.
Qed.

Lemma max_now_right_same (x s : D) (w w1 : world (D := D)) :
  max_now_right rt x w = (s, w1) -> same_queues w w1.
Proof.
  unfold max_now_right.
  destruct (now rt w) as [t1 wa] eqn:E1. apply now_same in E1.
  destruct (dlt x t1).
  - intros E2. apply now_same in E2. eapply same_queues_trans; eassumption.
  - intros [= _ <-]. exact E1.
Qed.

Lemma refreshed_start_same (fifo : _starpu_fifo_taskq (D := D)) (s : D)
    (w w1 : world (D := D)) :
  refreshed_start rt fifo w = (s, w1) -> same_queues w w1.
Proof.
  unfold refreshed_start. destruct (disnan (exp_start fifo)).
  - apply now_same.
  - apply max_now_right_same.
Qed.

Lemma clamp_transfer_same (pt e r : D) (w w1 : world (D := D)) :
  clamp_transfer rt pt e w = (r, w1) -> same_queues w w1.
Proof.
  unfold clamp_transfer.
  destruct (now rt w) as [t1 wa] eqn:E1. apply now_same in E1.
  destruct (dlt (dadd t1 pt) e).
  - intros [= _ <-]. exact E1.
  - destruct (now rt wa) as [t2 wb] eqn:E2. apply now_same in E2.
    intros [= _ <-]. eapply same_queues_trans; eassumption.
Qed.

Lemma pop_refresh_spec (fifo fifo1 : _starpu_fifo_taskq (D := D)) (w w1 : world (D := D)) :
  pop_refresh rt fifo w = (fifo1, w1) ->
  same_queues w w1 /\ horizon_ok fifo1 /\ exp_len fifo1 = exp_len fifo
  /\ taskq fifo1 = taskq fifo /\ ntasks fifo1 = ntasks fifo
  /\ ntasks_per_priority fifo1 = ntasks_per_priority fifo.
Proof.
  unfold pop_refresh.
  destruct (max_now_left rt (exp_start fifo) w) as [s wa] eqn:E.
  apply max_now_left_same in E. intros [= <- <-].
  repeat split; try reflexivity; apply E.
Qed.


Lemma update_exp_len_per_priority_horizon (np : Z) (task : starpu_task (D := D))
    (g : D -> D) (f f' : _starpu_fifo_taskq (D := D)) :
  update_exp_len_per_priority rt np task g f = Ok f' -> same_horizon f f'.
Proof.
  unfold update_exp_len_per_priority. destruct (np =? -1).
  - intros [= <-]. repeat split.
  - intros Hu. ok_inv Hu. injection Hu as <-. repeat split.
Qed.

Lemma update_ntasks_per_priority_horizon (np : Z) (task : starpu_task (D := D))
    (g : Z -> Z) (f f' : _starpu_fifo_taskq (D := D)) :
  update_ntasks_per_priority rt np task g f = Ok f' -> same_horizon f f'.
Proof.
  unfold update_ntasks_per_priority. destruct (np =? -1).
  - intros [= <-]. repeat split.
  - intros Hu. ok_inv Hu. injection Hu as <-. repeat split.
Qed.




Lemma get_fifo_ok (d : _starpu_dmda_data (D := D)) (k : nat)
    (f : _starpu_fifo_taskq (D := D)) :
  get_fifo d k = Ok f <-> queue_array d !! k = Some f.
Proof.
  unfold get_fifo. destruct (queue_array d !! k); split; intros; congruence.
Qed.

End Horizon.

(** ** Frame of the decision loops *)

Lemma fold_outcome_preserves {A B} (f : A -> B -> outcome A) (R : A -> A -> Prop) :
  (forall a, R a a) ->
  (forall a b c, R a b -> R b c -> R a c) ->
  (forall a x a', f a x = Ok a' -> R a a') ->
  forall l a a', fold_outcome f l a = Ok a' -> R a a'.
Proof.
  intros Hrefl Htrans Hstep l.
  induction l as [|x l IH]; intros a a' Hf; simpl in Hf.
  - injection Hf as <-. apply Hrefl.
  - ok_step Hf. eapply Htrans; [eapply Hstep; eassumption | eapply IH; eassumption].
Qed.

Section DecisionFrame.
Context {D : Type} `{DoubleOps D}.
Variable rt : runtime (D := D).

Lemma dm_worker_same (task : starpu_task (D := D)) (ctx worker : nat)
    (L L' : dm_locals (D := D)) (w w' : world (D := D)) :
  dm_worker rt task ctx (L, w) worker = Ok (L', w') -> same_queues w w'.
Proof.
  unfold dm_worker. intros Hw. ok_step Hw.
  destruct (refreshed_start rt a w) as [s w1] eqn:E.
  apply refreshed_start_same in E.
  destruct (worker_can_execute_task_impl rt worker task) as [can m].
  destruct (negb can); injection Hw as _ <-; exact E.
Qed.

Lemma dm_scan_same (task : starpu_task (D := D)) (ctx : nat)
    (L : dm_locals (D := D)) (w w' : world (D := D)) :
  dm_scan rt task ctx w = Ok (L, w') -> same_queues w w'.
Proof.
  unfold dm_scan. intros Hs.
  apply (fold_outcome_preserves (dm_worker rt task ctx)
           (fun a b => same_queues (snd a) (snd b))) in Hs.
  - exact Hs.
  - intros a. apply same_queues_refl.
  - intros a b c. apply same_queues_trans.
  - intros [L0 w0] x [L1 w1]. apply dm_worker_same.
Qed.

Lemma predict_worker_same (task : starpu_task (D := D)) (nworkers ctx : nat)
    (sorted_decision : bool) (np task_prio : Z) (worker : nat)
    (P P' : predictions (D := D)) (w w' : world (D := D)) :
  predict_worker rt task nworkers ctx sorted_decision np task_prio (P, w) worker
    = Ok (P', w') ->
  same_queues w w'.
Proof.
  unfold predict_worker.
  destruct (queue_array (dt w) !! worker) as [fifo|]; [|discriminate].
  destruct (refreshed_start rt fifo w) as [s w1] eqn:E.
  apply refreshed_start_same in E.
  destruct (worker_can_execute_task_impl rt worker task) as [can m].
  destruct (negb can).
  - intros [= _ <-]. exact E.
  - intros Hw. ok_step Hw. injection Hw as _ <-. exact E.
Qed.

Lemma compute_all_same (task : starpu_task (D := D)) (nworkers ctx : nat)
    (sorted_decision : bool) (P : predictions (D := D)) (w w' : world (D := D)) :
  compute_all_performance_predictions rt task nworkers ctx sorted_decision w = Ok (P, w') ->
  same_queues w w'.
Proof.
  unfold compute_all_performance_predictions. intros Hc. ok_step Hc.
  apply (fold_outcome_preserves
           (predict_worker rt task nworkers ctx sorted_decision (num_priorities (dt w)) a)
           (fun a b => same_queues (snd a) (snd b))) in Hc.
  - exact Hc.
  - intros x. apply same_queues_refl.
  - intros x y z. apply same_queues_trans.
  - intros [P0 w0] x [P1 w1]. apply predict_worker_same.
Qed.

Lemma dmda_decide_same (task : starpu_task (D := D)) (ctx : nat) (sorted_decision : bool)
    (dec : decision (D := D)) (w w' : world (D := D)) :
  dmda_decide rt task ctx sorted_decision w = Ok (dec, w') -> same_queues w w'.
Proof.
  unfold dmda_decide. intros Hd. ok_step Hd. destruct a as [P w1].
  apply compute_all_same in Hok. ok_step Hd.
  destruct ((forced_worker P =? -1) && (s_best a =? -1)); [discriminate|].
  ok_step Hd. injection Hd as _ <-. exact Hok.
Qed.

End DecisionFrame.

Section HorizonOps.
Context {D : Type} `{DoubleOps D} `{!ExactAdd D}.
Variable rt : runtime (D := D).



End HorizonOps.

Section HorizonRecomputed.
Context {D : Type} `{DoubleOps D}.
Variable rt : runtime (D := D).







End HorizonRecomputed.

Section HorizonInvariant.
Context {D : Type} `{DoubleOps D} `{!ExactAdd D}.
Variable rt : runtime (D := D).


End HorizonInvariant.

Section HorizonTheorem.
Context {D : Type} `{DoubleOps D}.
Variable rt : runtime (D := D).



End HorizonTheorem.


(** ** Exact arithmetic is an instance *)



(** ** Return value of a push *)

Section PushStatus.
Context {D : Type} `{DoubleOps D}.
Variable rt : runtime (D := D).

(** C6 (as amended). [push_task_on_best_worker] returns 0 when it forwards
    the task to a child context, and the forward always succeeds; when it
    commits, it returns 0 after a tail append and the status of
    [_starpu_fifo_push_sorted_task] after a sorted insert. *)
Theorem push_status (task : starpu_task (D := D)) (best : Z) (p pt : D) (prio : bool)
    (ctx : nat) (w : world (D := D)) :
  best <> -1 ->
  (worker_is_master_for_child_ctx rt best ctx <> STARPU_NMAX_SCHED_CTXS rt ->
   push_task_on_best_worker rt task best p pt prio ctx w
   = Ok (0, mk_world (dt w) (ticks w)
                     (moved w ++ [(task, worker_is_master_for_child_ctx rt best ctx)])))
  /\ (worker_is_master_for_child_ctx rt best ctx = STARPU_NMAX_SCHED_CTXS rt ->
      forall r w', push_task_on_best_worker rt task best p pt prio ctx w = Ok (r, w') ->
                   r = (if prio then fifo_push_sorted_status rt else 0)
                   /\ moved w' = moved w).
Proof.
  intros Hbest. unfold push_task_on_best_worker.
  destruct (Z.eqb_spec best (-1)) as [|_]; [contradiction|].
  destruct (Nat.eqb_spec (worker_is_master_for_child_ctx rt best ctx)
                         (STARPU_NMAX_SCHED_CTXS rt)) as [E|E]; simpl.
  - split; [intros; contradiction|]. intros _ r w' Hp.
    destruct (best <? 0); [discriminate|].
    ok_step Hp. rename a into fifo.
    destruct (refreshed_start rt fifo w) as [s w1] eqn:E1.
    apply refreshed_start_same in E1.
    destruct (clamp_transfer rt pt _ w1) as [pt' w2] eqn:E2.
    apply clamp_transfer_same in E2.
    destruct E1 as [_ E1], E2 as [_ E2].
    ok_step Hp. ok_step Hp. destruct prio.
    + unfold _starpu_fifo_push_sorted_task in Hp. ok_step Hp.
      injection Hp as <- <-. split; [reflexivity|]. simpl. congruence.
    + injection Hp as <- <-. split; [reflexivity|]. simpl. congruence.
  - split; [reflexivity|]. intros; contradiction.
Qed.

End PushStatus.

(** ** The hooks *)

Section Hooks.
Context {D : Type} `{DoubleOps D}.
Variable rt : runtime (D := D).

(** C5 (as amended). The hooks subtract without clamping: after
    [dmda_pre_exec_hook] the queue's [exp_len] is the old one minus the
    transfer model minus the compute model (a NaN model is skipped), and
    [dmda_post_exec_hook] leaves [exp_len] as it is.  With the priority
    buckets off, neither hook fails on a worker that has a queue. *)
Theorem hooks_do_not_clamp (task : starpu_task (D := D)) (k : nat) (w : world (D := D))
    (fifo : _starpu_fifo_taskq (D := D)) :
  queue_array (dt w) !! k = Some fifo ->
  (forall w', dmda_pre_exec_hook rt task k w = Ok w' ->
     exists fifo', queue_array (dt w') !! k = Some fifo'
       /\ exp_len fifo'
          = minus_model (minus_model (exp_len fifo) (predicted_transfer task))
                        (predicted task))
  /\ (num_priorities (dt w) = -1 -> is_ok (dmda_pre_exec_hook rt task k w) = true)
  /\ (exists w' fifo', dmda_post_exec_hook rt task k w = Ok w'
        /\ queue_array (dt w') !! k = Some fifo'
        /\ exp_len fifo' = exp_len fifo).
Proof.
  intros Hk. apply get_fifo_ok in Hk. repeat split.
  - intros w' Hp. unfold dmda_pre_exec_hook in Hp. rewrite Hk in Hp. simpl in Hp.
    destruct (max_now_left rt (exp_start fifo) w) as [s w1] eqn:E1.
    ok_step Hp. rename a into fifo2. ok_step Hp. rename a into fifo3.
    injection Hp as <-. eexists. split.
    { unfold store_fifo. simpl. apply lookup_insert_eq. }
    simpl. unfold minus_model.
    assert (H2 : exp_len fifo2
                 = if disnan (predicted_transfer task) then exp_len fifo
                   else dsub (exp_len fifo) (predicted_transfer task)).
    { destruct (disnan (predicted_transfer task)).
      - injection Hok as <-. reflexivity.
      - apply update_exp_len_per_priority_horizon in Hok.
        destruct Hok as (_ & _ & ->). reflexivity. }
    destruct (disnan (predicted task)).
    + injection Hok0 as <-. exact H2.
    + apply update_exp_len_per_priority_horizon in Hok0.
      destruct Hok0 as (_ & _ & ->). simpl. rewrite H2. reflexivity.
  - intros Hnp. unfold dmda_pre_exec_hook. rewrite Hk. simpl.
    destruct (max_now_left rt (exp_start fifo) w) as [s w1] eqn:E1.
    rewrite Hnp.
    destruct (disnan (predicted_transfer task)), (disnan (predicted task)); reflexivity.
  - unfold dmda_post_exec_hook. rewrite Hk. simpl.
    destruct (now rt w) as [t w1] eqn:E1.
    eexists. eexists. split; [reflexivity|]. split.
    + unfold store_fifo. simpl. apply lookup_insert_eq.
    + reflexivity.
Qed.

End Hooks.

(** ** Priorities, pushes and hooks on concrete machines *)

(** The C10 situation exists: a context whose two bounds are 0. *)
Lemma normalize_prio_equal_bounds_witness :
  initial_num_priorities Scenario.one_priority 0 = 1
  /\ initial_num_priorities Scenario.one_priority 0 <> -1
  /\ _normalize_prio Scenario.one_priority 0
       (initial_num_priorities Scenario.one_priority 0) 0 = Fault DivByZero.
Proof.
  apply (normalize_prio_equal_bounds_divides_by_zero Scenario.one_priority 0%nat 0);
    reflexivity.
Defined.

(** C6, as stated, fails: worker 0 leads child context 3, the task is
    forwarded there, and the push returns 0. *)
Lemma push_delegation_returns_zero :
  exists w',
    push_task_on_best_worker Scenario.with_child (Scenario.plain_task 1 0 []) 0
      (Scenario.F 100) (Scenario.F 0) false 0 Scenario.two_idle_workers = Ok (0, w')
    /\ moved w' = [(Scenario.plain_task 1 0 [], 3%nat)]
    /\ dt w' = dt Scenario.two_idle_workers.
Proof. eexists. split; [reflexivity|]. split; reflexivity. Defined.

Lemma push_status_witness :
  push_task_on_best_worker Scenario.with_child (Scenario.plain_task 1 0 []) 0
    (Scenario.F 100) (Scenario.F 0) false 0 Scenario.two_idle_workers
  = Ok (0, mk_world (dt Scenario.two_idle_workers) 0 [(Scenario.plain_task 1 0 [], 3%nat)]).
Proof.
  apply (push_status Scenario.with_child (Scenario.plain_task 1 0 []) 0
           (Scenario.F 100) (Scenario.F 0) false 0%nat Scenario.two_idle_workers).
  - lia.
  - simpl. lia.
Defined.

(** C5, as stated, fails: on an empty queue ([exp_len] 0) the pre-exec hook
    of a task predicted at 5 leaves [exp_len] at -5. *)
Lemma pre_exec_drives_exp_len_negative :
  exists w' fifo',
    dmda_pre_exec_hook Scenario.calibrated Scenario.task5 0 Scenario.two_idle_workers = Ok w'
    /\ queue_array (dt w') !! 0%nat = Some fifo'
    /\ exp_len fifo' = dsub (dofZ 0) (dofZ 5)
    /\ dlt (exp_len fifo') (dofZ 0) = true.
Proof.
  eexists. eexists. split; [reflexivity|]. split; [reflexivity|].
  split; vm_compute; reflexivity.
Defined.

Lemma hooks_do_not_clamp_witness :
  exists w' fifo',
    dmda_post_exec_hook Scenario.calibrated Scenario.task5 0 Scenario.two_idle_workers = Ok w'
    /\ queue_array (dt w') !! 0%nat = Some fifo'
    /\ exp_len fifo' = dofZ 0.
Proof.
  apply (hooks_do_not_clamp Scenario.calibrated Scenario.task5 0%nat
           Scenario.two_idle_workers empty_fifo).
  reflexivity.
Defined.

(** ** Simulated pushes *)

Section Simulate.
Context {D : Type} `{DoubleOps D}.
Variable rt : runtime (D := D).

Lemma select_candidate_readable (d : _starpu_dmda_data (D := D)) (nworkers : nat)
    (P : predictions (D := D)) (worker nimpl : nat) (S0 S1 : selection (D := D)) :
  select_candidate rt d nworkers P worker S0 nimpl = Ok S1 ->
  selected_cell_readable rt nworkers P S0 ->
  selected_cell_readable rt nworkers P S1 /\ s_worker_ctx S1 = s_worker_ctx S0.
Proof.
  unfold select_candidate. intros Hs Hinv.
  ok_step Hs. rename a into e. ok_step Hs. ok_step Hs. ok_step Hs.
  destruct ((s_best S0 =? -1) || dlt _ (s_best_fitness S0)); injection Hs as <-.
  - split; [|reflexivity]. intros _. simpl. rewrite Hok. reflexivity.
  - split; [|reflexivity]. exact Hinv.
Qed.

Lemma select_impls_readable (d : _starpu_dmda_data (D := D)) (nworkers : nat)
    (P : predictions (D := D)) (worker : nat) (impl_mask : Z) (l : list nat)
    (S0 S1 : selection (D := D)) :
  fold_outcome
    (fun S nimpl =>
       if mask_has impl_mask nimpl then select_candidate rt d nworkers P worker S nimpl
       else Ok S) l S0 = Ok S1 ->
  selected_cell_readable rt nworkers P S0 ->
  selected_cell_readable rt nworkers P S1 /\ s_worker_ctx S1 = s_worker_ctx S0.
Proof.
  revert S0. induction l as [|nimpl l IH]; intros S0 Hf Hinv; simpl in Hf.
  - injection Hf as <-. auto.
  - ok_step Hf. destruct (mask_has impl_mask nimpl).
    + apply select_candidate_readable in Hok; [|exact Hinv]. destruct Hok as [Ha Hwc].
      destruct (IH a Hf Ha) as [H1 H2]. split; [exact H1 | congruence].
    + injection Hok as <-. apply IH; assumption.
Qed.

Lemma select_worker_readable (d : _starpu_dmda_data (D := D)) (task : starpu_task (D := D))
    (nworkers : nat) (P : predictions (D := D)) (worker : nat) (S0 S1 : selection (D := D)) :
  select_worker rt d task nworkers P S0 worker = Ok S1 ->
  selected_cell_readable rt nworkers P S0 -> selected_cell_readable rt nworkers P S1.
Proof.
  unfold select_worker.
  destruct (worker_can_execute_task_impl rt worker task) as [can m].
  destruct (negb can).
  - intros [= <-]. trivial.
  - intros Hs Hinv. ok_step Hs. injection Hs as <-.
    apply select_impls_readable in Hok; [|exact Hinv]. apply Hok.
Qed.

Lemma select_best_readable (d : _starpu_dmda_data (D := D)) (task : starpu_task (D := D))
    (nworkers ctx : nat) (P : predictions (D := D)) (S1 : selection (D := D)) :
  select_best rt d task nworkers ctx P = Ok S1 -> selected_cell_readable rt nworkers P S1.
Proof.
  unfold select_best.
  assert (H0 : selected_cell_readable rt nworkers P selection_initial).
  { intros Hne. simpl in Hne. contradiction. }
  destruct (forced_worker P =? -1); [|intros [= <-]; exact H0].
  generalize (ctx_masters rt ctx) (selection_initial (D := D)) H0.
  intros l. induction l as [|x l IH]; intros S0 HS0 Hf; simpl in Hf.
  - injection Hf as <-. exact HS0.
  - ok_step Hf. apply (IH a); [|exact Hf].
    eapply select_worker_readable; eassumption.
Qed.

(** C9. When a worker is forced (some candidate had no usable prediction),
    [best_in_ctx] still holds its initial -1 when [_dmda_push_task] reads
    [exp_end[best_in_ctx][selected_impl]]: the simulated push reads outside
    the array. *)
Theorem simulate_forced_reads_out_of_bounds (task : starpu_task (D := D)) (prio : bool)
    (ctx : nat) (sorted_decision : bool) (w w1 : world (D := D))
    (dec : decision (D := D)) :
  dmda_decide rt task ctx sorted_decision w = Ok (dec, w1) ->
  d_forced_best dec <> -1 ->
  d_best_in_ctx dec = -1
  /\ ~ (0 <= d_best_in_ctx dec < Z.of_nat (ctx_nworkers rt ctx))
  /\ _dmda_push_task rt task prio ctx true sorted_decision w = Fault OutOfBounds.
Proof.
  intros Hd Hforced.
  assert (Hb : d_best_in_ctx dec = -1).
  { unfold dmda_decide in Hd. ok_step Hd. destruct a as [P w0].
    ok_step Hd. rename a into S1.
    destruct ((forced_worker P =? -1) && (s_best S1 =? -1)); [discriminate|].
    ok_step Hd. injection Hd as <- <-. simpl in *.
    unfold select_best in Hok0.
    destruct (Z.eqb_spec (forced_worker P) (-1)) as [E|E]; [contradiction|].
    injection Hok0 as <-. reflexivity. }
  split; [exact Hb|]. split; [lia|].
  unfold _dmda_push_task. rewrite Hd. simpl. rewrite Hb. reflexivity.
Qed.

End Simulate.

(** Worker 0 has no model: it is forced, and the simulated push reads
    [exp_end[-1][0]]. *)
Lemma simulate_forced_witness :
  exists dec w1,
    dmda_decide Scenario.uncalibrated (Scenario.plain_task 1 0 []) 0 false
      Scenario.two_idle_workers = Ok (dec, w1)
    /\ d_forced_best dec = 0
    /\ d_best_in_ctx dec = -1
    /\ dmda_simulate_push_task Scenario.uncalibrated (Scenario.plain_task 1 0 [])
         Scenario.two_idle_workers = Fault OutOfBounds.
Proof.
  destruct (dmda_decide Scenario.uncalibrated (Scenario.plain_task 1 0 []) 0 false
              Scenario.two_idle_workers) as [[dec w1]|f] eqn:Hd;
    [|vm_compute in Hd; discriminate].
  exists dec, w1. split; [reflexivity|].
  assert (Hforced : d_forced_best dec = 0).
  { vm_compute in Hd. injection Hd as <- _. reflexivity. }
  split; [exact Hforced|].
  destruct (simulate_forced_reads_out_of_bounds Scenario.uncalibrated
              (Scenario.plain_task 1 0 []) false 0%nat false Scenario.two_idle_workers
              w1 dec Hd) as (Hb & _ & Hf).
  - rewrite Hforced. lia.
  - split; [exact Hb | exact Hf].
Defined.

(** ** The insertion loop of [dm_push_task] *)

Section Insertion.
Context {D : Type} `{DoubleOps D}.
Variable rt : runtime (D := D).

Lemma set_next_some (h : gmap nat (task_node (D := D))) (p : nat) (v : option nat) :
  is_Some (h !! p) ->
  exists h', set_next h p v = Some h'
    /\ (forall q, is_Some (h !! q) -> is_Some (h' !! q))
    /\ (forall q n, h !! q = Some n -> exists n', h' !! q = Some n' /\ prev n' = prev n).
Proof.
  intros [n Hn]. unfold set_next. rewrite Hn. simpl. eexists. split; [reflexivity|].
  split.
  - intros q Hq. destruct (decide (p = q)) as [->|Hne].
    + rewrite lookup_insert_eq. eauto.
    + rewrite lookup_insert_ne by exact Hne. exact Hq.
  - intros q m Hq. destruct (decide (p = q)) as [->|Hne].
    + rewrite lookup_insert_eq. rewrite Hn in Hq. injection Hq as <-. eauto.
    + rewrite lookup_insert_ne by exact Hne. eauto.
Qed.

Lemma set_prev_some (h : gmap nat (task_node (D := D))) (p : nat) (v : option nat) :
  is_Some (h !! p) ->
  exists h', set_prev h p v = Some h'
    /\ (forall q, is_Some (h !! q) -> is_Some (h' !! q))
    /\ (exists n', h' !! p = Some n' /\ prev n' = v).
Proof.
  intros [n Hn]. unfold set_prev. rewrite Hn. simpl. eexists. split; [reflexivity|].
  split.
  - intros q Hq. destruct (decide (p = q)) as [->|Hne].
    + rewrite lookup_insert_eq. eauto.
    + rewrite lookup_insert_ne by exact Hne. exact Hq.
  - rewrite lookup_insert_eq. eauto.
Qed.

(** One turn of the loop runs to its end and leaves the loop as safe as it
    found it. *)
Lemma insertion_body_safe (ctx : nat) (ratio : D) (task current : nat)
    (h : gmap nat (task_node (D := D))) :
  loop_safe h task current ->
  exists h', insertion_body rt ctx ratio task h current = Some h'
             /\ loop_safe h' task current.
Proof.
  intros (Ht & cn & p & Hc & Hp & Hpa). unfold insertion_body. rewrite Hc. simpl.
  destruct (dgt ratio (get_task_heter_ratio rt ctx (payload cn))).
  - rewrite Hp. simpl.
    destruct (set_next_some h p (Some task) Hpa) as (h1 & E1 & A1 & P1).
    rewrite E1. simpl.
    destruct (set_next_some h1 task (Some current) (A1 _ Ht)) as (h2 & E2 & A2 & P2).
    rewrite E2. simpl.
    assert (Hc2 : is_Some (h2 !! current)) by (apply A2, A1; eauto).
    destruct Hc2 as [cn2 Hc2]. rewrite Hc2. simpl.
    destruct (set_prev_some h2 task (prev cn2) (A2 _ (A1 _ Ht))) as (h3 & E3 & A3 & _).
    rewrite E3. simpl.
    assert (Hc3 : is_Some (h3 !! current)) by (apply A3; eauto).
    destruct (set_prev_some h3 current (Some task) Hc3) as (h4 & E4 & A4 & n4 & Hn4 & Hp4).
    rewrite E4. exists h4. split; [reflexivity|].
    assert (Ht4 : is_Some (h4 !! task)) by (apply A4, A3, A2, A1; exact Ht).
    split; [exact Ht4|]. exists n4, task. auto.
  - exists h. split; [reflexivity|]. split; [exact Ht|]. exists cn, p. auto.
Qed.

Lemma insertion_loop_runs_forever (fuel ctx : nat) (ratio : D) (task current : nat)
    (h : gmap nat (task_node (D := D))) :
  loop_safe h task current ->
  insertion_loop rt fuel ctx ratio task h (Some current) = OutOfFuel.
Proof.
  revert h. induction fuel as [|fuel IH]; intros h Hs; simpl; [reflexivity|].
  destruct (insertion_body_safe ctx ratio task current h Hs) as (h' & -> & Hs').
  apply IH. exact Hs'.
Qed.

(** Whatever the store, a loop entered with a non-NULL [current] is never
    left through its condition. *)
Lemma insertion_loop_never_left (fuel ctx : nat) (ratio : D) (task current : nat)
    (h h' : gmap nat (task_node (D := D))) :
  insertion_loop rt fuel ctx ratio task h (Some current) <> Left h'.
Proof.
  revert h. induction fuel as [|fuel IH]; intros h; simpl; [discriminate|].
  destruct (insertion_body rt ctx ratio task h current); [apply IH | discriminate].
Qed.

(** C7. When the pending list has a second element and the new task's
    ratio does not exceed the head's, [dm_push_task] enters its insertion
    loop with [current] on the second element and never leaves it: after
    any number of turns the loop is still running, because no turn
    assigns [current]. *)
Theorem dm_push_task_loops_forever (fuel task first second : nat)
    (h : gmap nat (task_node (D := D))) (l : starpu_task_list) (tn fn sn : task_node (D := D)) (p : nat) :
  h !! task = Some tn ->
  head l = Some first ->
  h !! first = Some fn ->
  dgt (get_task_heter_ratio rt (sched_ctx (payload tn)) (payload tn))
      (get_task_heter_ratio rt (sched_ctx (payload tn)) (payload fn)) = false ->
  next fn = Some second ->
  h !! second = Some sn ->
  prev sn = Some p ->
  is_Some (h !! p) ->
  dm_push_task_merge rt fuel task h l = OutOfFuel.
Proof.
  intros Ht Hl Hf Hratio Hn Hs Hp Hpa.
  unfold dm_push_task_merge. rewrite Ht, Hl, Hf, Hratio, Hn.
  rewrite insertion_loop_runs_forever; [reflexivity|].
  split; [eauto|]. exists sn, p. auto.
Qed.

(** With a single pending task the loop is not entered at all: the list
    is returned as it was, without the new task. *)
Lemma dm_push_task_drops_second_task (fuel task first : nat)
    (h : gmap nat (task_node (D := D))) (l : starpu_task_list) (tn fn : task_node (D := D)) :
  h !! task = Some tn ->
  head l = Some first ->
  h !! first = Some fn ->
  dgt (get_task_heter_ratio rt (sched_ctx (payload tn)) (payload tn))
      (get_task_heter_ratio rt (sched_ctx (payload tn)) (payload fn)) = false ->
  next fn = None ->
  dm_push_task_merge rt fuel task h l = Left (h, l).
Proof.
  intros Ht Hl Hf Hratio Hn.
  unfold dm_push_task_merge. rewrite Ht, Hl, Hf, Hratio, Hn.
  destruct fuel; reflexivity.
Qed.

End Insertion.

(** Two pending tasks, a third one pushed with the same ratio: the loop
    is still running after a thousand turns, and after any other number. *)
Lemma dm_push_task_loops_forever_witness :
  dm_push_task_merge Scenario.calibrated 1000 12 Scenario.pending Scenario.pending_list
  = OutOfFuel.
Proof.
  apply (dm_push_task_loops_forever Scenario.calibrated 1000 12%nat 10%nat 11%nat
           Scenario.pending Scenario.pending_list
           (mk_node (Scenario.plain_task 12 0 []) None None)
           (mk_node (Scenario.plain_task 10 0 []) (Some 11%nat) None)
           (mk_node (Scenario.plain_task 11 0 []) None (Some 10%nat))
           10%nat);
    try reflexivity.
  exists (mk_node (Scenario.plain_task 10 0 []) (Some 11%nat) None). reflexivity.
Defined.

(** ** The data-aware pop *)

Section FirstReady.
Context {D : Type} `{DoubleOps D}.
Variable rt : runtime (D := D).

Lemma count_non_ready_from_plain (task : starpu_task (D := D)) (node : nat) :
  specific_nodes task = false ->
  forall hs index cnt,
    count_non_ready_from rt task node index hs cnt
    = cnt + Z.of_nat (length (List.filter
                                (fun handle => negb (data_is_valid rt handle node)) hs)).
Proof.
  intros Hs hs. induction hs as [|handle hs IH]; intros index cnt; simpl.
  - lia.
  - rewrite Hs, IH.
    destruct (data_is_valid rt handle node); simpl; lia.
Qed.

(** For a codelet without per-buffer nodes the code counts what the spec
    describes. *)
Lemma count_non_ready_buffers_plain (task : starpu_task (D := D)) (node : nat) :
  specific_nodes task = false ->
  count_non_ready_buffers rt task node = non_ready_at rt task node.
Proof.
  intros Hs. unfold count_non_ready_buffers, non_ready_at.
  rewrite count_non_ready_from_plain by exact Hs. lia.
Qed.

Lemma count_non_ready_from_ge (task : starpu_task (D := D)) (node : nat) :
  forall hs index cnt, cnt <= count_non_ready_from rt task node index hs cnt.
Proof.
  intros hs. induction hs as [|handle hs IH]; intros index cnt; simpl; [lia|].
  destruct (data_is_valid rt handle _).
  - apply IH.
  - etransitivity; [|apply IH]. lia.
Qed.

Lemma count_non_ready_buffers_nonneg (task : starpu_task (D := D)) (node : nat) :
  0 <= count_non_ready_buffers rt task node.
Proof. apply count_non_ready_from_ge. Qed.

(** What the scan returns: either nothing in [l] beat [non_ready_best] and
    the position is still [best], or the position is that of a considered
    task of [l] that beats every considered task before it and, unless it
    has no non-ready buffer, is not beaten by any after it. *)
Lemma scan_first_ready_spec (node : nat) (fp : Z) :
  forall (l : list (starpu_task (D := D))) (idx best : nat) (nrb : Z),
    (scan_first_ready rt node fp l idx best nrb = best
     /\ forall j t, l !! j = Some t -> fp <= priority t ->
                    nrb <= count_non_ready_buffers rt t node)
    \/ (exists j t,
          scan_first_ready rt node fp l idx best nrb = (idx + j)%nat
          /\ l !! j = Some t /\ fp <= priority t
          /\ count_non_ready_buffers rt t node < nrb
          /\ (forall i ti, (i < j)%nat -> l !! i = Some ti -> fp <= priority ti ->
                count_non_ready_buffers rt t node < count_non_ready_buffers rt ti node)
          /\ (count_non_ready_buffers rt t node = 0
              \/ forall i ti, (j < i)%nat -> l !! i = Some ti -> fp <= priority ti ->
                   count_non_ready_buffers rt t node
                   <= count_non_ready_buffers rt ti node)).
Proof.
  intros l. induction l as [|current rest IH]; intros idx best nrb; simpl.
  - left. split; [reflexivity|]. intros j t Hj. discriminate.
  - destruct (Z.leb_spec fp (priority current)) as [Hc|Hc].
    + destruct (Z.ltb_spec (count_non_ready_buffers rt current node) nrb) as [Hlt|Hge].
      * destruct (Z.eqb_spec (count_non_ready_buffers rt current node) 0) as [Hz|Hz].
        { right. exists 0%nat, current.
          split; [f_equal; lia|]. split; [reflexivity|]. split; [exact Hc|].
          split; [exact Hlt|]. split; [intros; lia | left; exact Hz]. }
        destruct (IH (S idx) idx (count_non_ready_buffers rt current node))
          as [[Hk Hall]|(j & t & Hk & Hj & Hp & Hlt' & Hbefore & Hafter)].
        { right. exists 0%nat, current.
          split; [rewrite Hk; lia|]. split; [reflexivity|]. split; [exact Hc|].
          split; [exact Hlt|]. split; [intros; lia|].
          right. intros i ti Hi Hti Hpi. destruct i as [|i]; [lia|].
          simpl in Hti. eapply Hall; eassumption. }
        right. exists (S j), t.
        split; [rewrite Hk; lia|]. split; [exact Hj|]. split; [exact Hp|].
        split; [lia|]. split.
        { intros i ti Hi Hti Hpi. destruct i as [|i]; simpl in Hti.
          - injection Hti as <-. exact Hlt'.
          - eapply Hbefore; [|eassumption|assumption]. lia. }
        { destruct Hafter as [Hz'|Hafter]; [left; exact Hz'|right].
          intros i ti Hi Hti Hpi. destruct i as [|i]; [lia|]. simpl in Hti.
          eapply Hafter; [|eassumption|assumption]. lia. }
      * destruct (IH (S idx) best nrb)
          as [[Hk Hall]|(j & t & Hk & Hj & Hp & Hlt' & Hbefore & Hafter)].
        { left. split; [exact Hk|]. intros j t Hj Hp. destruct j as [|j]; simpl in Hj.
          - injection Hj as <-. exact Hge.
          - eapply Hall; eassumption. }
        right. exists (S j), t.
        split; [rewrite Hk; lia|]. split; [exact Hj|]. split; [exact Hp|].
        split; [exact Hlt'|]. split.
        { intros i ti Hi Hti Hpi. destruct i as [|i]; simpl in Hti.
          - injection Hti as <-. lia.
          - eapply Hbefore; [|eassumption|assumption]. lia. }
        { destruct Hafter as [Hz'|Hafter]; [left; exact Hz'|right].
          intros i ti Hi Hti Hpi. destruct i as [|i]; [lia|]. simpl in Hti.
          eapply Hafter; [|eassumption|assumption]. lia. }
    + destruct (IH (S idx) best nrb)
        as [[Hk Hall]|(j & t & Hk & Hj & Hp & Hlt' & Hbefore & Hafter)].
      { left. split; [exact Hk|]. intros j t Hj Hp. destruct j as [|j]; simpl in Hj.
        - injection Hj as <-. lia.
        - eapply Hall; eassumption. }
      right. exists (S j), t.
      split; [rewrite Hk; lia|]. split; [exact Hj|]. split; [exact Hp|].
      split; [exact Hlt'|]. split.
      { intros i ti Hi Hti Hpi. destruct i as [|i]; simpl in Hti.
        - injection Hti as <-. lia.
        - eapply Hbefore; [|eassumption|assumption]. lia. }
      { destruct Hafter as [Hz'|Hafter]; [left; exact Hz'|right].
        intros i ti Hi Hti Hpi. destruct i as [|i]; [lia|]. simpl in Hti.
        eapply Hafter; [|eassumption|assumption]. lia. }
Qed.

End FirstReady.

Section FirstReadyChoice.
Context {D : Type} `{DoubleOps D}.
Variable rt : runtime (D := D).

Lemma update_ntasks_per_priority_taskq (np : Z) (task : starpu_task (D := D))
    (g : Z -> Z) (f f' : _starpu_fifo_taskq (D := D)) :
  update_ntasks_per_priority rt np task g f = Ok f' -> taskq f' = taskq f.
Proof.
  unfold update_ntasks_per_priority. destruct (np =? -1).
  - intros [= <-]. reflexivity.
  - intros Hu. ok_inv Hu. injection Hu as <-. reflexivity.
Qed.

(** C2 (as amended). The task [_starpu_fifo_pop_first_ready_task] returns
    from a queue sits at some position [k] and is removed from there;
    either it is the head, or its priority is at least the head's and
    every task before it with such a priority has strictly more non-ready
    buffers, as counted by [count_non_ready_buffers] (validity is tested
    at [node], or at the codelet's own node for a buffer when the codelet
    sets [specific_nodes]).  No considered task with the same count comes
    earlier in the queue, and when some considered task has no non-ready
    buffer the first such task is the one returned. *)
Theorem pop_first_ready_choice (fifo fifo' : _starpu_fifo_taskq (D := D)) (node : nat)
    (np : Z) (t : starpu_task (D := D)) :
  _starpu_fifo_pop_first_ready_task rt fifo node np = Ok (Some t, fifo') ->
  exists (k : nat) (first : starpu_task (D := D)),
    taskq fifo !! 0%nat = Some first
    /\ taskq fifo !! k = Some t
    /\ taskq fifo' = delete k (taskq fifo)
    /\ (k = 0%nat
        \/ (priority first <= priority t
            /\ forall j tj, (j < k)%nat -> taskq fifo !! j = Some tj ->
                 priority first <= priority tj ->
                 count_non_ready_buffers rt t node < count_non_ready_buffers rt tj node))
    /\ (forall j tj, taskq fifo !! j = Some tj -> priority first <= priority tj ->
          count_non_ready_buffers rt tj node = count_non_ready_buffers rt t node ->
          (k <= j)%nat)
    /\ (forall j tj, taskq fifo !! j = Some tj -> priority first <= priority tj ->
          count_non_ready_buffers rt tj node = 0 ->
          (k <= j)%nat /\ count_non_ready_buffers rt t node = 0).
Proof.
  unfold _starpu_fifo_pop_first_ready_task.
  destruct (ntasks fifo =? 0); [discriminate|].
  destruct (taskq fifo !! first_ready_position rt (taskq fifo) node) as [task|] eqn:Hpos;
    [|discriminate].
  intros Hp. ok_step Hp. injection Hp as <- <-.
  apply update_ntasks_per_priority_taskq in Hok. simpl in Hok. simpl. rewrite Hok.
  destruct (taskq fifo) as [|first rest] eqn:Hq; [discriminate|].
  unfold first_ready_position in Hpos.
  set (k := scan_first_ready rt node (priority first) (first :: rest) 0 0 INT_MAX) in *.
  exists k, first. split; [reflexivity|]. split; [exact Hpos|]. split; [reflexivity|].
  destruct (scan_first_ready_spec rt node (priority first) (first :: rest) 0 0 INT_MAX)
    as [[Hk Hall]|(j & t' & Hk & Hj & Hprio & Hlt & Hbefore & Hafter)]; fold k in Hk.
  - split; [left; exact Hk|]. split.
    + intros; lia.
    + intros j tj Hj Hpj Hz. specialize (Hall j tj Hj Hpj). unfold INT_MAX in Hall. lia.
  - simpl in Hk. subst k. rewrite Hk in Hpos. rewrite Hj in Hpos. injection Hpos as ->.
    rewrite Hk. split; [right; split; [exact Hprio | exact Hbefore]|]. split.
    + intros i ti Hi Hpi Heq.
      destruct (Nat.lt_ge_cases i j) as [Hlt'|Hge]; [|exact Hge].
      specialize (Hbefore i ti Hlt' Hi Hpi). lia.
    + intros i ti Hi Hpi Hz.
      pose proof (count_non_ready_buffers_nonneg rt task node) as Hnn.
      destruct (Nat.lt_ge_cases i j) as [Hlt'|Hge].
      { specialize (Hbefore i ti Hlt' Hi Hpi). lia. }
      split; [exact Hge|].
      destruct Hafter as [Hz'|Hafter]; [exact Hz'|].
      destruct (Nat.eq_dec i j) as [->|Hne].
      * rewrite Hj in Hi. injection Hi as ->. exact Hz.
      * assert (Hji : (j < i)%nat) by lia.
        specialize (Hafter i ti Hji Hi Hpi). lia.
Qed.

End FirstReadyChoice.

(** Scenario S5: B is returned from position 1, ahead of A, and C is
    left alone. *)
Lemma pop_first_ready_choice_witness :
  exists (k : nat) (first : starpu_task (D := spec_float)),
    taskq Scenario.queue_s5 !! 0%nat = Some first
    /\ taskq Scenario.queue_s5 !! k = Some Scenario.s5_b
    /\ [Scenario.s5_a; Scenario.s5_c] = delete k (taskq Scenario.queue_s5)
    /\ (k = 0%nat
        \/ (priority first <= priority Scenario.s5_b
            /\ forall j tj, (j < k)%nat -> taskq Scenario.queue_s5 !! j = Some tj ->
                 priority first <= priority tj ->
                 count_non_ready_buffers Scenario.only_handle_0 Scenario.s5_b 0
                 < count_non_ready_buffers Scenario.only_handle_0 tj 0))
    /\ (forall j tj, taskq Scenario.queue_s5 !! j = Some tj -> priority first <= priority tj ->
          count_non_ready_buffers Scenario.only_handle_0 tj 0
          = count_non_ready_buffers Scenario.only_handle_0 Scenario.s5_b 0 ->
          (k <= j)%nat)
    /\ (forall j tj, taskq Scenario.queue_s5 !! j = Some tj -> priority first <= priority tj ->
          count_non_ready_buffers Scenario.only_handle_0 tj 0 = 0 ->
          (k <= j)%nat /\ count_non_ready_buffers Scenario.only_handle_0 Scenario.s5_b 0 = 0).
Proof.
  apply (pop_first_ready_choice Scenario.only_handle_0 Scenario.queue_s5
           (mk_fifo [Scenario.s5_a; Scenario.s5_c] 2 [] 3
                    (Scenario.F 0) (Scenario.F 0) (Scenario.F 0) [])
           0%nat (-1) Scenario.s5_b).
  reflexivity.
Defined.

(** C2, as stated, fails.  Handle 0 is valid on node 1 only; A reads it on
    the worker's node 0, B's codelet places it on node 1.  On node 0 the
    pop returns B, which is not the head, although A, before it and of
    the same priority, has as many buffers that are not valid at node 0
    as B has (one each). *)
Lemma pop_first_ready_counts_at_codelet_node :
  exists fifo',
    _starpu_fifo_pop_first_ready_task Scenario.valid_on_node_1 Scenario.queue_a_b 0 (-1)
    = Ok (Some Scenario.task_b, fifo')
    /\ taskq Scenario.queue_a_b !! 0%nat = Some Scenario.task_a
    /\ taskq Scenario.queue_a_b !! 1%nat = Some Scenario.task_b
    /\ priority Scenario.task_a <= priority Scenario.task_a
    /\ non_ready_at Scenario.valid_on_node_1 Scenario.task_a 0 = 1
    /\ non_ready_at Scenario.valid_on_node_1 Scenario.task_b 0 = 1
    /\ ~ (non_ready_at Scenario.valid_on_node_1 Scenario.task_b 0
          < non_ready_at Scenario.valid_on_node_1 Scenario.task_a 0).
Proof.
  eexists. split; [reflexivity|].
  split; [reflexivity|]. split; [reflexivity|]. split; [reflexivity|].
  split; [reflexivity|]. split; [reflexivity|].
  vm_compute. discriminate.
Defined.

(** ** The greedy fallback *)

Section GreedyDM.
Context {D : Type} `{DoubleOps D}.
Variable rt : runtime (D := D).

Lemma dm_candidate_unknown (task : starpu_task (D := D)) (ctx worker : nat)
    (fifo : _starpu_fifo_taskq (D := D)) (s : D) (L : dm_locals (D := D)) (nimpl : nat) :
  dm_unknown (dm_candidate rt task ctx worker fifo s L nimpl)
  = dm_unknown L || no_prediction (dm_length rt task ctx (worker, nimpl)).
Proof.
  unfold dm_candidate, dm_length, no_prediction. simpl.
  set (len := task_expected_length rt task (worker_perf_archtype rt worker ctx) nimpl).
  destruct (greedy_takes _ _ _ _ _); simpl;
    destruct (disnan len || diszero len) eqn:E; simpl;
    rewrite ?orb_true_r, ?orb_false_r; try reflexivity;
    destruct (dm_unknown L) eqn:Eu; simpl; try reflexivity;
    match goal with |- context [if ?c then _ else _] => destruct c end;
    simpl; congruence.
Qed.

Lemma dm_impls_unknown (task : starpu_task (D := D)) (ctx worker : nat)
    (fifo : _starpu_fifo_taskq (D := D)) (s : D) (impl_mask : Z) (L : dm_locals (D := D)) :
  dm_unknown (dm_impls rt task ctx worker fifo s impl_mask L)
  = dm_unknown L
    || existsb (fun c => no_prediction (dm_length rt task ctx c))
               (map (pair worker) (impls_of rt impl_mask)).
Proof.
  unfold dm_impls, impls_of.
  generalize (seq 0 (STARPU_MAXIMPLEMENTATIONS rt)). intros l. revert L.
  induction l as [|n l IH]; intros L; simpl.
  - rewrite orb_false_r. reflexivity.
  - destruct (mask_has impl_mask n); simpl.
    + rewrite IH, dm_candidate_unknown, orb_assoc. reflexivity.
    + apply IH.
Qed.

Lemma dm_workers_unknown (task : starpu_task (D := D)) (ctx : nat) (ws : list nat) :
  forall (L L' : dm_locals (D := D)) (w w' : world (D := D)),
    fold_outcome (dm_worker rt task ctx) ws (L, w) = Ok (L', w') ->
    dm_unknown L'
    = dm_unknown L
      || existsb (fun c => no_prediction (dm_length rt task ctx c)) (candidates_of rt task ws).
Proof.
  induction ws as [|x ws IH]; intros L L' w w' Hf; simpl in Hf.
  - injection Hf as <- _. simpl. rewrite orb_false_r. reflexivity.
  - ok_step Hf. destruct a as [L1 w1]. apply IH in Hf. rewrite Hf.
    unfold dm_worker in Hok. ok_step Hok.
    destruct (refreshed_start rt a w) as [s w0].
    unfold candidates_of. simpl. fold (candidates_of rt task ws).
    destruct (worker_can_execute_task_impl rt x task) as [can m].
    rewrite existsb_app.
    destruct can; simpl in *; injection Hok as <- _.
    + rewrite dm_impls_unknown, orb_assoc. reflexivity.
    + reflexivity.
Qed.

End GreedyDM.

Section Predictions.
Context {D : Type} `{DoubleOps D}.
Variable rt : runtime (D := D).

Lemma mwrite_ok (nworkers : nat) (a a' : gmap (nat * nat) D) (i j : nat) (v : D) :
  mwrite rt nworkers a i j v = Ok a' -> a' = <[(i, j) := v]> a.
Proof.
  unfold mwrite. destruct (_ && _); [|discriminate]. intros [= <-]. reflexivity.
Qed.

Lemma mread_ok (nworkers : nat) (a : gmap (nat * nat) D) (i j : nat) (v : D) :
  mread rt nworkers a (Z.of_nat i) (Z.of_nat j) = Ok v -> a !! (i, j) = Some v.
Proof.
  unfold mread. destruct (_ && _); [|discriminate].
  rewrite !Nat2Z.id. destruct (a !! (i, j)); [|discriminate]. intros [= <-]. reflexivity.
Qed.

Lemma greedy_takes_false (nb : Z) (cal : bool) (a b len : D) :
  greedy_takes nb cal a b len = false -> nb <> -1.
Proof.
  unfold greedy_takes. intros Hg.
  apply orb_false_iff in Hg. destruct Hg as [Hg _].
  apply orb_false_iff in Hg. destruct Hg as [Hg _].
  apply orb_false_iff in Hg. destruct Hg as [Hg _].
  apply Z.eqb_neq. exact Hg.
Qed.

(** What one candidate leaves in the locals and in the arrays of
    [compute_all_performance_predictions]. *)
Lemma predict_candidate_spec (task : starpu_task (D := D)) (nworkers ctx : nat)
    (sorted_decision : bool) (np task_prio : Z) (worker : nat)
    (fifo : _starpu_fifo_taskq (D := D)) (s : D) (P P' : predictions (D := D))
    (nimpl : nat) :
  predict_candidate rt task nworkers ctx sorted_decision np task_prio worker fifo s P nimpl
    = Ok P' ->
  p_worker_ctx P' = p_worker_ctx P
  /\ p_unknown P' = p_unknown P || no_prediction (dmda_length rt task ctx (worker, nimpl))
  /\ (Z.of_nat worker <= INT_MAX -> p_unknown P' = true -> p_ntasks_best P' <> -1)
  /\ local_data_penalty P'
     = <[(p_worker_ctx P, nimpl) := oracle_penalty rt task (worker_memory_node rt worker)]>
         (local_data_penalty P)
  /\ (forall key, key <> (p_worker_ctx P, nimpl) ->
        local_energy P' !! key = local_energy P !! key)
  /\ (p_unknown P' = false ->
      local_energy P' !! (p_worker_ctx P, nimpl)
      = Some (energy_or_zero
                (oracle_energy rt task (worker_perf_archtype rt worker ctx) nimpl))).
Proof.
  unfold predict_candidate, dmda_length, no_prediction. simpl. intros Hp.
  ok_step Hp. destruct a as [prev_exp_len fifo_ntasks].
  ok_step Hp. rename a into exp_end1. ok_step Hp. rename a into length1.
  ok_step Hp. rename a into penalty1. ok_step Hp. rename a into energy1.
  apply mwrite_ok in Hok2, Hok3.
  set (len := oracle_length rt task (worker_perf_archtype rt worker ctx) nimpl) in *.
  set (en := oracle_energy rt task (worker_perf_archtype rt worker ctx) nimpl) in *.
  assert (Hu : (if disnan len || diszero len then true else p_unknown P)
               = p_unknown P || (disnan len || diszero len)).
  { destruct (disnan len || diszero len), (p_unknown P); reflexivity. }
  rewrite Hu in Hp.
  assert (Henergy1 : forall key, key <> (p_worker_ctx P, nimpl) ->
                       energy1 !! key = local_energy P !! key).
  { intros key Hkey. rewrite Hok3. apply lookup_insert_ne. congruence. }
  destruct (p_unknown P || (disnan len || diszero len)) eqn:Eu.
  - injection Hp as <-. simpl.
    split; [reflexivity|]. split; [first [reflexivity | congruence]|]. split.
    { intros Hw _.
      destruct (greedy_takes _ _ _ _ _) eqn:Eg.
      - rewrite sint_small by (unfold INT_MAX in Hw; lia). lia.
      - eapply greedy_takes_false. exact Eg. }
    split; [exact Hok2|]. split; [exact Henergy1|]. discriminate.
  - ok_step Hp. rename a into exp_end2. ok_step Hp. rename a into energy2.
    injection Hp as <-. simpl.
    split; [reflexivity|]. split; [first [reflexivity | congruence]|].
    split; [discriminate|].
    split; [exact Hok2|].
    unfold energy_or_zero. destruct (disnan en).
    + apply mwrite_ok in Hok5. split.
      * intros key Hkey. rewrite Hok5, lookup_insert_ne by congruence. apply Henergy1, Hkey.
      * intros _. rewrite Hok5. apply lookup_insert_eq.
    + injection Hok5 as <-. split; [exact Henergy1|].
      intros _. rewrite Hok3. apply lookup_insert_eq.
Qed.

(** The implementation loop of one worker. *)
Lemma predict_impls_spec (task : starpu_task (D := D)) (nworkers ctx : nat)
    (sorted_decision : bool) (np task_prio : Z) (worker : nat)
    (fifo : _starpu_fifo_taskq (D := D)) (s : D) (impl_mask : Z) (l : list nat) :
  forall (P P' : predictions (D := D)),
    fold_outcome
      (fun P nimpl =>
         if mask_has impl_mask nimpl
         then predict_candidate rt task nworkers ctx sorted_decision np task_prio worker
                fifo s P nimpl
         else Ok P) l P = Ok P' ->
    p_worker_ctx P' = p_worker_ctx P
    /\ p_unknown P'
       = p_unknown P
         || existsb (fun c => no_prediction (dmda_length rt task ctx c))
                    (map (pair worker) (List.filter (mask_has impl_mask) l))
    /\ (Z.of_nat worker <= INT_MAX ->
        (p_unknown P = true -> p_ntasks_best P <> -1) ->
        p_unknown P' = true -> p_ntasks_best P' <> -1)
    /\ (forall key, (fst key <> p_worker_ctx P \/ ~ In (snd key) l) -> same_cell P P' key)
    /\ (p_unknown P' = false ->
        forall nimpl, In nimpl l -> mask_has impl_mask nimpl = true ->
          predicted_cell rt task ctx P' (p_worker_ctx P) worker nimpl).
Proof.
  induction l as [|n l IH]; intros P P' Hf; simpl in Hf.
  - injection Hf as <-. simpl. rewrite orb_false_r.
    split; [reflexivity|]. split; [reflexivity|]. split; [auto|].
    split; [intros; split; reflexivity|]. intros _ n [].
  - ok_step Hf. rename a into P1.
    destruct (IH P1 P' Hf) as (Hwc & Hu & Hj & Hframe & Hcells). clear IH.
    simpl. destruct (mask_has impl_mask n) eqn:Em.
    + apply predict_candidate_spec in Hok.
      destruct Hok as (Hwc1 & Hu1 & Hj1 & Hpen1 & Hen1 & Hcell1).
      split; [congruence|]. split.
      { simpl. rewrite Hu, Hu1, orb_assoc. reflexivity. }
      split.
      { intros Hw HP HP'. apply (Hj Hw); [|exact HP']. apply Hj1. exact Hw. }
      split.
      { intros key Hkey. destruct (Hframe key) as [Hp2 He2].
        { rewrite Hwc1. destruct Hkey as [Hk|Hk]; [left; exact Hk|right].
          intros Hin. apply Hk. right. exact Hin. }
        assert (Hne : key <> (p_worker_ctx P, n)).
        { intros ->. simpl in Hkey. destruct Hkey as [Hk|Hk]; [congruence|].
          apply Hk. left. reflexivity. }
        split.
        - rewrite Hp2, Hpen1. apply lookup_insert_ne. congruence.
        - rewrite He2. apply Hen1. exact Hne. }
      intros HP' nimpl Hin Hmask.
      destruct (in_dec Nat.eq_dec nimpl l) as [Hl|Hl].
      { rewrite <- Hwc1. apply Hcells; assumption. }
      destruct Hin as [<-|Hin]; [|contradiction].
      destruct (Hframe (p_worker_ctx P1, n)) as [Hp2 He2]; [right; exact Hl|].
      assert (HP1 : p_unknown P1 = false).
      { rewrite Hu in HP'. apply orb_false_iff in HP'. apply HP'. }
      split.
      * rewrite <- Hwc1 at 1. rewrite Hp2, Hpen1, Hwc1. apply lookup_insert_eq.
      * rewrite <- Hwc1 at 1. rewrite He2, Hwc1. apply Hcell1. exact HP1.
    + injection Hok as <-.
      split; [exact Hwc|]. split; [exact Hu|]. split; [exact Hj|]. split.
      { intros key Hkey. apply Hframe. destruct Hkey as [Hk|Hk]; [left; exact Hk|right].
        intros Hin. apply Hk. right. exact Hin. }
      intros HP' nimpl Hin Hmask. apply Hcells; [exact HP'| |exact Hmask].
      destruct Hin as [<-|Hin]; [congruence | exact Hin].
Qed.

End Predictions.

Section PredictionLoop.
Context {D : Type} `{DoubleOps D}.
Variable rt : runtime (D := D).

Lemma same_cell_trans (P1 P2 P3 : predictions (D := D)) (key : nat * nat) :
  same_cell P1 P2 key -> same_cell P2 P3 key -> same_cell P1 P3 key.
Proof. intros [A1 A2] [B1 B2]. split; congruence. Qed.

(** The worker loop of [compute_all_performance_predictions]. *)
Lemma predict_workers_spec (task : starpu_task (D := D)) (nworkers ctx : nat)
    (sorted_decision : bool) (np task_prio : Z) (ws : list nat) :
  forall (P P' : predictions (D := D)) (w w' : world (D := D)),
    fold_outcome (predict_worker rt task nworkers ctx sorted_decision np task_prio) ws (P, w)
      = Ok (P', w') ->
    p_unknown P'
    = p_unknown P
      || existsb (fun c => no_prediction (dmda_length rt task ctx c))
                 (candidates_of rt task ws)
    /\ (workers_are_ints ws ->
        (p_unknown P = true -> p_ntasks_best P <> -1) ->
        p_unknown P' = true -> p_ntasks_best P' <> -1)
    /\ (forall key, (fst key < p_worker_ctx P)%nat -> same_cell P P' key)
    /\ (p_unknown P' = false ->
        forall k worker nimpl,
          List.filter (fun x => fst (worker_can_execute_task_impl rt x task)) ws !! k
            = Some worker ->
          (nimpl < STARPU_MAXIMPLEMENTATIONS rt)%nat ->
          mask_has (snd (worker_can_execute_task_impl rt worker task)) nimpl = true ->
          predicted_cell rt task ctx P' (p_worker_ctx P + k) worker nimpl).
Proof.
  induction ws as [|x ws IH]; intros P P' w w' Hf; simpl in Hf.
  - injection Hf as <- _. simpl. rewrite orb_false_r.
    split; [reflexivity|]. split; [auto|].
    split; [intros; split; reflexivity|]. intros _ k worker nimpl Hk. discriminate.
  - ok_step Hf. destruct a as [P2 w2].
    destruct (IH P2 P' w2 w' Hf) as (Hu & Hj & Hframe & Hcells). clear IH.
    unfold predict_worker in Hok.
    destruct (queue_array (dt w) !! x) as [fifo|]; [|discriminate].
    destruct (refreshed_start rt fifo w) as [s w0].
    unfold candidates_of. simpl. fold (candidates_of rt task ws).
    destruct (worker_can_execute_task_impl rt x task) as [can m] eqn:Ecan.
    rewrite existsb_app. destruct can; simpl in *.
    + ok_step Hok. rename a into P1. injection Hok as <- _.
      apply predict_impls_spec in Hok0.
      destruct Hok0 as (Hwc1 & Hu1 & Hj1 & Hframe1 & Hcells1).
      split.
      { rewrite Hu. simpl. rewrite Hu1, orb_assoc. reflexivity. }
      split.
      { intros Hw HP HP'. inversion Hw as [|? ? Hx Hws]; subst.
        apply (Hj Hws); [|exact HP']. simpl. apply Hj1; assumption. }
      split.
      { intros key Hkey. eapply same_cell_trans.
        - apply Hframe1. left. lia.
        - apply (Hframe key). simpl. lia. }
      intros HP' k worker nimpl Hk Hn Hmask.
      assert (HP1 : p_unknown P1 = false).
      { rewrite Hu in HP'. apply orb_false_iff in HP'. apply HP'. }
      destruct k as [|k]; simpl in Hk.
      * injection Hk as <-. rewrite Ecan in Hmask. simpl in Hmask.
        rewrite Nat.add_0_r.
        assert (Hc : predicted_cell rt task ctx P1 (p_worker_ctx P) x nimpl).
        { apply Hcells1; [exact HP1 | | exact Hmask]. apply in_seq. lia. }
        destruct (Hframe (p_worker_ctx P, nimpl)) as [F1 F2]; [simpl; lia|].
        destruct Hc as [C1 C2]. split.
        -- rewrite F1. exact C1.
        -- rewrite F2. exact C2.
      * specialize (Hcells HP' k worker nimpl Hk Hn Hmask). simpl in Hcells.
        rewrite Hwc1 in Hcells.
        replace (p_worker_ctx P + S k)%nat with (S (p_worker_ctx P) + k)%nat by lia.
        exact Hcells.
    + injection Hok as <- _.
      split; [exact Hu|]. split.
      { intros Hw. inversion Hw as [|? ? Hx Hws]; subst. apply Hj. exact Hws. }
      split; [exact Hframe|]. exact Hcells.
Qed.

(** The prediction loop as a whole. *)
Lemma compute_all_spec (task : starpu_task (D := D)) (nworkers ctx : nat)
    (sorted_decision : bool) (P : predictions (D := D)) (w w' : world (D := D)) :
  compute_all_performance_predictions rt task nworkers ctx sorted_decision w = Ok (P, w') ->
  p_unknown P
  = existsb (fun c => no_prediction (dmda_length rt task ctx c)) (candidates rt task ctx)
  /\ (workers_are_ints (ctx_masters rt ctx) -> p_unknown P = true -> p_ntasks_best P <> -1)
  /\ (p_unknown P = false ->
      forall k worker nimpl,
        eligible_workers rt task ctx !! k = Some worker ->
        (nimpl < STARPU_MAXIMPLEMENTATIONS rt)%nat ->
        mask_has (snd (worker_can_execute_task_impl rt worker task)) nimpl = true ->
        predicted_cell rt task ctx P k worker nimpl).
Proof.
  unfold compute_all_performance_predictions. intros Hc. ok_step Hc.
  apply predict_workers_spec in Hc. destruct Hc as (Hu & Hj & _ & Hcells).
  split; [exact Hu|]. split.
  - intros Hw. apply Hj; [exact Hw|]. discriminate.
  - exact Hcells.
Qed.

End PredictionLoop.

Section GreedyFallback.
Context {D : Type} `{DoubleOps D}.
Variable rt : runtime (D := D).

(** C3 (as amended). In both decisions the flag [unknown] is set exactly
    when some eligible (worker, implementation) candidate has a NaN or zero
    predicted length.  When it is set, the committed worker is the greedy
    candidate [ntasks_best] and the committed [model_best] and
    [transfer_model_best] are zero.  When it is not set, [_dm_push_task]
    commits its [exp_end] minimiser with that candidate's models and
    [_dmda_push_task] forces no worker and commits the selection made on
    fitness; nothing keeps that worker from being the greedy candidate as
    well. *)
Theorem greedy_fallback (task : starpu_task (D := D)) (ctx : nat) (sorted_decision : bool)
    (w : world (D := D)) :
  workers_are_ints (ctx_masters rt ctx) ->
  (forall L w1,
     dm_scan rt task ctx w = Ok (L, w1) ->
     dm_unknown L
     = existsb (fun c => no_prediction (dm_length rt task ctx c)) (candidates rt task ctx)
     /\ (dm_unknown L = true ->
         c_best (dm_choice L) = dm_ntasks_best L
         /\ c_model_best (dm_choice L) = dofZ 0
         /\ c_transfer_model_best (dm_choice L) = dofZ 0)
     /\ (dm_unknown L = false ->
         c_best (dm_choice L) = dm_best L
         /\ c_model_best (dm_choice L) = dm_model_best L
         /\ c_transfer_model_best (dm_choice L) = dm_transfer_model_best L))
  /\ (forall dec w1,
        dmda_decide rt task ctx sorted_decision w = Ok (dec, w1) ->
        p_unknown (d_predictions dec)
        = existsb (fun c => no_prediction (dmda_length rt task ctx c))
                  (candidates rt task ctx)
        /\ (p_unknown (d_predictions dec) = true ->
            d_forced_best dec = p_ntasks_best (d_predictions dec)
            /\ c_best (d_args dec) = p_ntasks_best (d_predictions dec)
            /\ c_model_best (d_args dec) = dofZ 0
            /\ c_transfer_model_best (d_args dec) = dofZ 0)
        /\ (p_unknown (d_predictions dec) = false ->
            d_forced_best dec = -1 /\ c_best (d_args dec) = d_selected_best dec)).
Proof.
  intros Hints. split.
  - intros L w1 Hs. split.
    + unfold dm_scan in Hs. apply dm_workers_unknown in Hs. exact Hs.
    + unfold dm_choice. split; intros ->; simpl; auto.
  - intros dec w1 Hd. unfold dmda_decide in Hd.
    ok_step Hd. destruct a as [P w0]. apply compute_all_spec in Hok.
    destruct Hok as (Hu & Hj & _).
    ok_step Hd. rename a into S1.
    destruct ((forced_worker P =? -1) && (s_best S1 =? -1)); [discriminate|].
    ok_step Hd. injection Hd as <- _. simpl.
    split; [exact Hu|]. unfold forced_worker in *. split.
    + intros HP. specialize (Hj Hints HP). rewrite HP in Hok0.
      destruct (Z.eqb_spec (p_ntasks_best P) (-1)) as [E|E]; [contradiction|].
      simpl in Hok0. injection Hok0 as <-. rewrite HP. simpl. auto.
    + intros HP. rewrite HP in *. simpl in *. split; [reflexivity|].
      destruct (bundle task).
      * injection Hok0 as <-. reflexivity.
      * ok_step Hok0. ok_step Hok0. injection Hok0 as <-. reflexivity.
Qed.

End GreedyFallback.

(** Worker 0 has no model: both decisions commit the greedy candidate,
    worker 0, with zero models. *)
Lemma greedy_fallback_witness :
  exists dec w1,
    dmda_decide Scenario.uncalibrated (Scenario.plain_task 1 0 []) 0 false
      Scenario.two_idle_workers = Ok (dec, w1)
    /\ p_unknown (d_predictions dec) = true
    /\ d_forced_best dec = p_ntasks_best (d_predictions dec)
    /\ c_best (d_args dec) = p_ntasks_best (d_predictions dec)
    /\ c_model_best (d_args dec) = dofZ 0
    /\ c_transfer_model_best (d_args dec) = dofZ 0.
Proof.
  destruct (dmda_decide Scenario.uncalibrated (Scenario.plain_task 1 0 []) 0 false
              Scenario.two_idle_workers) as [[dec w1]|f] eqn:Hd;
    [|vm_compute in Hd; discriminate].
  exists dec, w1. split; [reflexivity|].
  assert (Hu : p_unknown (d_predictions dec) = true).
  { vm_compute in Hd. injection Hd as <- _. reflexivity. }
  split; [exact Hu|].
  assert (Hints : workers_are_ints (ctx_masters Scenario.uncalibrated 0)).
  { repeat constructor; unfold INT_MAX; simpl; lia. }
  destruct (greedy_fallback Scenario.uncalibrated (Scenario.plain_task 1 0 []) 0%nat false
              Scenario.two_idle_workers Hints) as [_ Hdmda].
  destruct (Hdmda dec w1 Hd) as (_ & Hforced & _).
  exact (Hforced Hu).
Defined.

(** C3, as stated, fails in its "only if" half: with both workers
    calibrated and worker 0 the faster one, no candidate has a NaN or zero
    length, yet the worker [_dm_push_task] commits, worker 0, is the
    greedy candidate. *)
Lemma committed_worker_can_be_greedy_without_unknown :
  exists L w1,
    dm_scan Scenario.fast_first (Scenario.plain_task 1 0 []) 0
            Scenario.two_idle_workers = Ok (L, w1)
    /\ existsb (fun c => no_prediction
                           (dm_length Scenario.fast_first (Scenario.plain_task 1 0 []) 0 c))
               (candidates Scenario.fast_first (Scenario.plain_task 1 0 []) 0) = false
    /\ dm_unknown L = false
    /\ c_best (dm_choice L) = 0
    /\ dm_ntasks_best L = 0
    /\ c_best (dm_choice L) = dm_ntasks_best L
    /\ c_model_best (dm_choice L) = Scenario.F 20.
Proof.
  eexists. eexists. split; [vm_compute; reflexivity|].
  split; [vm_compute; reflexivity|].
  repeat split.
Defined.

(** ** The fitness of a candidate *)

Section Fitness.
Context {D : Type} `{DoubleOps D}.
Variable rt : runtime (D := D).

Lemma select_candidate_spec (d : _starpu_dmda_data (D := D)) (nworkers : nat)
    (P : predictions (D := D)) (worker nimpl : nat) (S0 S1 : selection (D := D)) :
  select_candidate rt d nworkers P worker S0 nimpl = Ok S1 ->
  s_worker_ctx S1 = s_worker_ctx S0
  /\ (forall key, key <> (s_worker_ctx S0, nimpl) ->
        s_fitness S1 !! key = s_fitness S0 !! key)
  /\ fitness_cell d P S1 (s_worker_ctx S0) nimpl.
Proof.
  unfold select_candidate. intros Hs.
  ok_step Hs. rename a into e. ok_step Hs. rename a into pen.
  ok_step Hs. rename a into en. ok_step Hs. rename a into fit.
  apply mread_ok in Hok, Hok0, Hok1. apply mwrite_ok in Hok2.
  assert (Hfit : s_fitness S1 = fit /\ s_worker_ctx S1 = s_worker_ctx S0).
  { destruct (_ || _); injection Hs as <-; split; reflexivity. }
  destruct Hfit as [Hfit Hwc]. split; [exact Hwc|]. split.
  - intros key Hkey. rewrite Hfit, Hok2. apply lookup_insert_ne. congruence.
  - exists e, pen, en. repeat split; try assumption.
    rewrite Hfit, Hok2. apply lookup_insert_eq.
Qed.

Lemma select_impls_spec (d : _starpu_dmda_data (D := D)) (nworkers : nat)
    (P : predictions (D := D)) (worker : nat) (impl_mask : Z) (l : list nat) :
  forall (S0 S1 : selection (D := D)),
    fold_outcome
      (fun S nimpl =>
         if mask_has impl_mask nimpl then select_candidate rt d nworkers P worker S nimpl
         else Ok S) l S0 = Ok S1 ->
    s_worker_ctx S1 = s_worker_ctx S0
    /\ (forall key, (fst key <> s_worker_ctx S0 \/ ~ In (snd key) l) ->
          s_fitness S1 !! key = s_fitness S0 !! key)
    /\ (forall nimpl, In nimpl l -> mask_has impl_mask nimpl = true ->
          fitness_cell d P S1 (s_worker_ctx S0) nimpl).
Proof.
  induction l as [|n l IH]; intros S0 S1 Hf; simpl in Hf.
  - injection Hf as <-. split; [reflexivity|]. split; [reflexivity|]. intros n [].
  - ok_step Hf. rename a into Sa.
    destruct (IH Sa S1 Hf) as (Hwc & Hframe & Hcells). clear IH.
    destruct (mask_has impl_mask n) eqn:Em.
    + apply select_candidate_spec in Hok. destruct Hok as (Hwca & Hframea & Hcella).
      split; [congruence|]. split.
      { intros key Hkey. rewrite Hframe.
        - apply Hframea. intros ->. simpl in Hkey.
          destruct Hkey as [Hk|Hk]; [congruence|]. apply Hk. left. reflexivity.
        - rewrite Hwca. destruct Hkey as [Hk|Hk]; [left; exact Hk|right].
          intros Hin. apply Hk. right. exact Hin. }
      intros nimpl Hin Hmask.
      destruct (in_dec Nat.eq_dec nimpl l) as [Hl|Hl].
      { rewrite <- Hwca. apply Hcells; assumption. }
      destruct Hin as [<-|Hin]; [|contradiction].
      destruct Hcella as (e & pen & en & He & Hpen & Hen & Hfit).
      exists e, pen, en. repeat split; try assumption.
      rewrite Hframe; [exact Hfit|]. right. exact Hl.
    + injection Hok as <-. split; [exact Hwc|]. split.
      { intros key Hkey. apply Hframe.
        destruct Hkey as [Hk|Hk]; [left; exact Hk|right].
        intros Hin. apply Hk. right. exact Hin. }
      intros nimpl Hin Hmask. apply Hcells; [|exact Hmask].
      destruct Hin as [<-|Hin]; [congruence | exact Hin].
Qed.

Lemma select_workers_spec (d : _starpu_dmda_data (D := D)) (task : starpu_task (D := D))
    (nworkers : nat) (P : predictions (D := D)) (ws : list nat) :
  forall (S0 S1 : selection (D := D)),
    fold_outcome (select_worker rt d task nworkers P) ws S0 = Ok S1 ->
    (forall key, (fst key < s_worker_ctx S0)%nat ->
       s_fitness S1 !! key = s_fitness S0 !! key)
    /\ (forall k worker nimpl,
          List.filter (fun x => fst (worker_can_execute_task_impl rt x task)) ws !! k
            = Some worker ->
          (nimpl < STARPU_MAXIMPLEMENTATIONS rt)%nat ->
          mask_has (snd (worker_can_execute_task_impl rt worker task)) nimpl = true ->
          fitness_cell d P S1 (s_worker_ctx S0 + k) nimpl).
Proof.
  induction ws as [|x ws IH]; intros S0 S1 Hf; simpl in Hf.
  - injection Hf as <-. split; [reflexivity|]. intros k worker nimpl Hk. discriminate.
  - ok_step Hf. rename a into S2.
    destruct (IH S2 S1 Hf) as (Hframe & Hcells). clear IH.
    unfold select_worker in Hok. simpl.
    destruct (worker_can_execute_task_impl rt x task) as [can m] eqn:Ecan.
    destruct can; simpl in *.
    + ok_step Hok. rename a into Sa. injection Hok as <-. simpl in *.
      apply select_impls_spec in Hok0. destruct Hok0 as (Hwca & Hframea & Hcella).
      split.
      { intros key Hkey. rewrite Hframe by lia. apply Hframea. left. lia. }
      intros k worker nimpl Hk Hn Hmask.
      destruct k as [|k]; simpl in Hk.
      * injection Hk as <-. rewrite Ecan in Hmask. simpl in Hmask.
        rewrite Nat.add_0_r.
        destruct (Hcella nimpl) as (e & pen & en & He & Hpen & Hen & Hfit);
          [apply in_seq; lia | exact Hmask |].
        exists e, pen, en. repeat split; try assumption.
        rewrite Hframe; [exact Hfit|]. simpl. lia.
      * specialize (Hcells k worker nimpl Hk Hn Hmask).
        rewrite Hwca in Hcells.
        replace (s_worker_ctx S0 + S k)%nat with (S (s_worker_ctx S0) + k)%nat by lia.
        exact Hcells.
    + injection Hok as <-. split; [exact Hframe | exact Hcells].
Qed.

(** C4. In a DMDA decision that reaches the fitness evaluation (no worker
    is forced), the fitness of every candidate -- the implementation
    [nimpl] on the k-th eligible worker -- is
    [alpha*(exp_end - best_exp_end) + beta*data_penalty + gamma*energy],
    plus [gamma*idle_power*(exp_end - max_exp_end)/1e6] exactly when
    [exp_end > max_exp_end], where [exp_end] is the candidate's cell of the
    [exp_end] array, [data_penalty] the oracle's transfer time to the
    worker's memory node, and [energy] the oracle's energy, or 0 when the
    oracle returns NaN.  The sums and products are those of the doubles,
    taken in the order in which the source writes them. *)
Theorem fitness_formula (task : starpu_task (D := D)) (ctx : nat) (sorted_decision : bool)
    (w w1 : world (D := D)) (dec : decision (D := D)) (k worker nimpl : nat) :
  workers_are_ints (ctx_masters rt ctx) ->
  dmda_decide rt task ctx sorted_decision w = Ok (dec, w1) ->
  d_forced_best dec = -1 ->
  eligible_workers rt task ctx !! k = Some worker ->
  (nimpl < STARPU_MAXIMPLEMENTATIONS rt)%nat ->
  mask_has (snd (worker_can_execute_task_impl rt worker task)) nimpl = true ->
  let best_exp_end := p_best_exp_end (d_predictions dec) in
  let max_exp_end := p_max_exp_end (d_predictions dec) in
  let data_penalty := oracle_penalty rt task (worker_memory_node rt worker) in
  let oracle := oracle_energy rt task (worker_perf_archtype rt worker ctx) nimpl in
  let energy := if disnan oracle then dofZ 0 else oracle in
  exists exp_end,
    d_exp_end dec !! (k, nimpl) = Some exp_end
    /\ d_fitness dec !! (k, nimpl)
       = Some (let base := dadd (dadd (dmul (alpha (dt w)) (dsub exp_end best_exp_end))
                                      (dmul (beta (dt w)) data_penalty))
                                (dmul (_gamma (dt w)) energy) in
               if dlt max_exp_end exp_end
               then dadd base
                         (ddiv (dmul (dmul (_gamma (dt w)) (idle_power (dt w)))
                                     (dsub exp_end max_exp_end))
                               (dofZ 1000000))
               else base).
Proof.
  intros Hints Hd Hforced Hk Hn Hmask. cbv zeta. unfold dmda_decide in Hd.
  ok_step Hd. destruct a as [P w0]. apply compute_all_spec in Hok.
  destruct Hok as (_ & Hj & Hcells).
  ok_step Hd. rename a into S1.
  destruct ((forced_worker P =? -1) && (s_best S1 =? -1)); [discriminate|].
  ok_step Hd. injection Hd as <- _. simpl in *.
  assert (HP : p_unknown P = false).
  { destruct (p_unknown P) eqn:Eu; [|reflexivity].
    unfold forced_worker in Hforced. rewrite Eu in Hforced.
    exfalso. apply (Hj Hints); [reflexivity | exact Hforced]. }
  unfold select_best in Hok. rewrite Hforced in Hok. simpl in Hok.
  apply select_workers_spec in Hok. destruct Hok as [_ Hfit].
  destruct (Hfit k worker nimpl Hk Hn Hmask) as (e & pen & en & He & Hpen & Hen & Hf).
  destruct (Hcells HP k worker nimpl Hk Hn Hmask) as [Cpen Cen].
  simpl in *. rewrite Cpen in Hpen. rewrite Cen in Hen.
  injection Hpen as <-. injection Hen as <-.
  exists e. split; [exact He|].
  unfold fitness_value, dgt, energy_or_zero in Hf. exact Hf.
Qed.

End Fitness.

(** Worker 0 has no energy model: its candidate is scored with energy 0.
    With the coefficients 1, 1, 1000 and an idle power of 500000, the end
    100 predicted on worker 0 against the best end 22 gives
    [1*(100 - 22) + 1*0 + 1000*0 = 78]; 100 is above [max_exp_end], which
    is 2, and [1000*500000*(100 - 2)/1000000 = 49000] is added: the fitness
    is 49078. *)
Lemma fitness_formula_witness :
  exists dec w1,
    dmda_decide Scenario.calibrated_energy (Scenario.plain_task 1 0 []) 0 false
      Binary64Cases.idle_draw = Ok (dec, w1)
    /\ d_exp_end dec !! (0%nat, 0%nat) = Some (Scenario.F 100)
    /\ p_best_exp_end (d_predictions dec) = Scenario.F 22
    /\ p_max_exp_end (d_predictions dec) = Scenario.F 2
    /\ d_fitness dec !! (0%nat, 0%nat) = Some (Scenario.F 49078).
Proof.
  destruct (dmda_decide Scenario.calibrated_energy (Scenario.plain_task 1 0 []) 0 false
              Binary64Cases.idle_draw) as [[dec w1]|f] eqn:Hd;
    [|vm_compute in Hd; discriminate].
  exists dec, w1.
  assert (Hforced : d_forced_best dec = -1).
  { vm_compute in Hd. injection Hd as <- _. reflexivity. }
  assert (Hints : workers_are_ints (ctx_masters Scenario.calibrated_energy 0)).
  { repeat constructor; unfold INT_MAX; simpl; lia. }
  destruct (fitness_formula Scenario.calibrated_energy (Scenario.plain_task 1 0 []) 0%nat
              false Binary64Cases.idle_draw w1 dec 0%nat 0%nat 0%nat
              Hints Hd Hforced eq_refl) as (e & He & Hf).
  - simpl. lia.
  - reflexivity.
  - assert (Hdec : d_exp_end dec !! (0%nat, 0%nat) = Some (Scenario.F 100)
                   /\ p_best_exp_end (d_predictions dec) = Scenario.F 22
                   /\ p_max_exp_end (d_predictions dec) = Scenario.F 2).
    { vm_compute in Hd. injection Hd as <- _. vm_compute. repeat split. }
    destruct Hdec as (He' & Hb & Hm).
    split; [reflexivity|]. split; [exact He'|]. split; [exact Hb|]. split; [exact Hm|].
    rewrite He' in He. injection He as <-.
    rewrite Hf, Hb, Hm. vm_compute. reflexivity.
Defined.

(** In binary64 the two sides of the invariant can be one rounding apart
    after a commit: the queue starts at 1024 with a length of half a unit
    in the last place (so that [exp_end], 1024, is the rounded sum), and a
    task of that same length is committed; [exp_end] stays at 1024 twice,
    while [exp_start + exp_len] reaches the next double. *)
Remark binary64_commit_rounds :
  exists f w' f',
    queue_array (dt Scenario.tight_queue) !! 0%nat = Some f
    /\ horizon_ok f
    /\ push_task_on_best_worker Scenario.calibrated (Scenario.plain_task 1 0 []) 0
         Scenario.half_ulp (Scenario.F 0) false 0 Scenario.tight_queue = Ok (0, w')
    /\ queue_array (dt w') !! 0%nat = Some f'
    /\ exp_end f' = Scenario.F 1024
    /\ dadd (exp_start f') (exp_len f') = S754_finite false 4503599627370497 (-42)
    /\ ~ horizon_ok f'.
Proof.
  eexists. eexists. eexists. split; [reflexivity|].
  split; [vm_compute; reflexivity|].
  split; [vm_compute; reflexivity|].
  split; [reflexivity|]. split; [vm_compute; reflexivity|].
  split; [vm_compute; reflexivity|].
  vm_compute. discriminate.
Qed.

(* ================================================================== *)
(** * Further properties of the queues *)

(** ** What a commit, a hook and a pop do to the queues *)

Section QueueContent.
Context {D : Type} `{DoubleOps D}.
Variable rt : runtime (D := D).

Lemma same_content_trans (f1 f2 f3 : _starpu_fifo_taskq (D := D)) :
  same_content f1 f2 -> same_content f2 f3 -> same_content f1 f3.
Proof. intros (A1 & A2 & A3) (B1 & B2 & B3). repeat split; congruence. Qed.

Lemma update_exp_len_per_priority_content (np : Z) (task : starpu_task (D := D))
    (g : D -> D) (f f' : _starpu_fifo_taskq (D := D)) :
  update_exp_len_per_priority rt np task g f = Ok f' ->
  same_content f f' /\ ntasks_per_priority f' = ntasks_per_priority f.
Proof.
  unfold update_exp_len_per_priority. destruct (np =? -1).
  - intros [= <-]. repeat split.
  - intros Hu. ok_inv Hu. injection Hu as <-. repeat split.
Qed.

Lemma update_ntasks_per_priority_content (np : Z) (task : starpu_task (D := D))
    (g : Z -> Z) (f f' : _starpu_fifo_taskq (D := D)) :
  update_ntasks_per_priority rt np task g f = Ok f' ->
  same_content f f' /\ exp_len_per_priority f' = exp_len_per_priority f.
Proof.
  unfold update_ntasks_per_priority. destruct (np =? -1).
  - intros [= <-]. repeat split.
  - intros Hu. ok_inv Hu. injection Hu as <-. repeat split.
Qed.

Lemma account_content (np : Z) (task : starpu_task (D := D)) (x : D)
    (f f' : _starpu_fifo_taskq (D := D)) :
  account rt np task x f = Ok f' ->
  same_content f f' /\ ntasks_per_priority f' = ntasks_per_priority f.
Proof.
  unfold account. destruct (disnan x).
  - intros [= <-]. repeat split.
  - intros Hu. apply update_exp_len_per_priority_content in Hu. exact Hu.
Qed.

(** The effect of a commit on the policy data. *)
Lemma commit_effect (task : starpu_task (D := D)) (best : Z) (p pt : D) (prio : bool)
    (ctx : nat) (w w' : world (D := D)) (r : Z) :
  worker_is_master_for_child_ctx rt best ctx = STARPU_NMAX_SCHED_CTXS rt ->
  push_task_on_best_worker rt task best p pt prio ctx w = Ok (r, w') ->
  exists fifo fifo' pt',
    0 <= best
    /\ queue_array (dt w) !! Z.to_nat best = Some fifo
    /\ dt w' = with_queue (dt w) (Z.to_nat best) fifo'
    /\ taskq fifo'
       = (if prio then insert_sorted (set_predictions task p pt') (taskq fifo)
          else taskq fifo ++ [set_predictions task p pt'])
    /\ ntasks fifo' = u32 (ntasks fifo + 1)
    /\ nprocessed fifo' = u32 (nprocessed fifo + 1)
    /\ moved w' = moved w.
Proof.
  unfold push_task_on_best_worker. intros Hchild Hp.
  destruct (best =? -1); [discriminate|].
  rewrite Hchild, Nat.eqb_refl in Hp. simpl in Hp.
  destruct (Z.ltb_spec best 0) as [|Hpos]; [discriminate|].
  ok_step Hp. rename a into fifo. apply get_fifo_ok in Hok.
  destruct (refreshed_start rt fifo w) as [s w1] eqn:E1.
  apply refreshed_start_same in E1.
  destruct (clamp_transfer rt pt _ w1) as [pt' w2] eqn:E2.
  apply clamp_transfer_same in E2.
  destruct (same_queues_trans _ _ _ E1 E2) as [Hdt Hmv].
  ok_step Hp. rename a into fifo2. ok_step Hp. rename a into fifo3.
  apply account_content in Hok0, Hok1.
  destruct Hok0 as [(A1 & A2 & A3) _], Hok1 as [(B1 & B2 & B3) _]. simpl in *.
  destruct prio.
  - unfold _starpu_fifo_push_sorted_task in Hp. ok_step Hp. injection Hp as _ <-.
    apply update_ntasks_per_priority_content in Hok0.
    destruct Hok0 as [(C1 & C2 & C3) _]. simpl in *.
    exists fifo, a, pt'. split; [exact Hpos|]. split; [exact Hok|].
    split; [unfold store_fifo; simpl; rewrite Hdt; reflexivity|].
    split; [congruence|]. split; [congruence|]. split; [congruence | exact Hmv].
  - injection Hp as _ <-.
    eexists fifo, _, pt'. split; [exact Hpos|]. split; [exact Hok|].
    split; [unfold store_fifo; simpl; rewrite Hdt; reflexivity|]. simpl.
    split; [congruence|]. split; [congruence|]. split; [congruence | exact Hmv].
Qed.

End QueueContent.

Section QueueEffects.
Context {D : Type} `{DoubleOps D}.
Variable rt : runtime (D := D).

Lemma u32_succ (a : Z) : u32 (u32 a + 1) = u32 (a + 1).
Proof. unfold u32. apply Zplus_mod_idemp_l. Qed.

Lemma u32_pred (a : Z) : u32 (u32 a - 1) = u32 (a - 1).
Proof. unfold u32. apply Zminus_mod_idemp_l. Qed.

Lemma insert_sorted_length (task : starpu_task (D := D)) (q : list (starpu_task (D := D))) :
  length (insert_sorted task q) = S (length q).
Proof.
  induction q as [|t q IH]; simpl; [reflexivity|].
  destruct (priority t <? priority task); simpl; [reflexivity | rewrite IH; reflexivity].
Qed.

(** The position the scan picks is a position of the queue. *)
Lemma first_ready_position_valid (q : list (starpu_task (D := D))) (node : nat) :
  q <> [] -> is_Some (q !! first_ready_position rt q node).
Proof.
  destruct q as [|first rest]; [congruence|]. intros _. unfold first_ready_position.
  destruct (scan_first_ready_spec rt node (priority first) (first :: rest) 0 0 INT_MAX)
    as [[-> _]|(j & t & -> & Hj & _)].
  - simpl. eauto.
  - simpl. eauto.
Qed.

(** What [_starpu_fifo_pop_first_ready_task] does to a queue. *)
Lemma pop_first_ready_effect (fifo fifo' : _starpu_fifo_taskq (D := D)) (node : nat)
    (np : Z) (r : option (starpu_task (D := D))) :
  _starpu_fifo_pop_first_ready_task rt fifo node np = Ok (r, fifo') ->
  nprocessed fifo' = nprocessed fifo
  /\ exp_len_per_priority fifo' = exp_len_per_priority fifo
  /\ match r with
     | Some t =>
         exists k, taskq fifo !! k = Some t
                   /\ taskq fifo' = delete k (taskq fifo)
                   /\ ntasks fifo <> 0
                   /\ ntasks fifo' = u32 (ntasks fifo - 1)
     | None =>
         taskq fifo' = taskq fifo
         /\ ((ntasks fifo = 0 /\ fifo' = fifo)
             \/ (ntasks fifo <> 0 /\ taskq fifo = []
                 /\ ntasks fifo' = u32 (ntasks fifo - 1)))
     end.
Proof.
  unfold _starpu_fifo_pop_first_ready_task.
  destruct (Z.eqb_spec (ntasks fifo) 0) as [Hz|Hnz].
  { intros [= <- <-]. repeat split. left. split; [exact Hz | reflexivity]. }
  destruct (taskq fifo !! first_ready_position rt (taskq fifo) node) as [task|] eqn:Hpos.
  - intros Hp. ok_step Hp. injection Hp as <- <-.
    apply update_ntasks_per_priority_content in Hok.
    destruct Hok as [(C1 & C2 & C3) C4]. simpl in *.
    split; [exact C3|]. split; [exact C4|].
    eexists. split; [exact Hpos|]. rewrite C1, C2. repeat split. exact Hnz.
  - intros [= <- <-]. simpl. repeat split. right. split; [exact Hnz|].
    split; [|reflexivity].
    destruct (taskq fifo) as [|t q] eqn:Hq; [reflexivity|]. exfalso.
    destruct (first_ready_position_valid (t :: q) node) as [x Hx]; [discriminate|].
    rewrite Hx in Hpos. discriminate.
Qed.

(** A queue that counts its tasks still does after a pop. *)
Lemma pop_first_ready_counted (fifo fifo' : _starpu_fifo_taskq (D := D)) (node : nat)
    (np : Z) (r : option (starpu_task (D := D))) :
  _starpu_fifo_pop_first_ready_task rt fifo node np = Ok (r, fifo') ->
  counted fifo -> counted fifo'.
Proof.
  intros Hp Hc. apply pop_first_ready_effect in Hp. destruct Hp as (_ & _ & Hr).
  unfold counted in *. destruct r as [t|].
  - destruct Hr as (k & Hk & Hq & _ & Hn). rewrite Hn, Hq, Hc, u32_pred.
    rewrite length_delete by eauto.
    assert (Hlen : (0 < length (taskq fifo))%nat).
    { apply lookup_lt_Some in Hk. lia. }
    f_equal. lia.
  - destruct Hr as (Hq & [[_ ->]|(Hnz & He & _)]); [exact Hc|].
    exfalso. apply Hnz. rewrite Hc, He. reflexivity.
Qed.

End QueueEffects.

Section WorldEffects.
Context {D : Type} `{DoubleOps D}.
Variable rt : runtime (D := D).

Lemma store_fifo_dt (w w1 : world (D := D)) (k : nat) (f : _starpu_fifo_taskq (D := D)) :
  same_queues w w1 ->
  dt (store_fifo w1 k f) = with_queue (dt w) k f /\ moved (store_fifo w1 k f) = moved w.
Proof. intros [Hdt Hmv]. unfold store_fifo. simpl. rewrite Hdt. auto. Qed.

(** A forwarded task changes no queue. *)
Lemma delegation_effect (task : starpu_task (D := D)) (best : Z) (p pt : D) (prio : bool)
    (ctx : nat) (w w' : world (D := D)) (r : Z) :
  worker_is_master_for_child_ctx rt best ctx <> STARPU_NMAX_SCHED_CTXS rt ->
  push_task_on_best_worker rt task best p pt prio ctx w = Ok (r, w') ->
  dt w' = dt w.
Proof.
  unfold push_task_on_best_worker. intros Hchild Hp.
  destruct (best =? -1); [discriminate|].
  destruct (Nat.eqb_spec (worker_is_master_for_child_ctx rt best ctx)
                         (STARPU_NMAX_SCHED_CTXS rt)) as [E|E]; [contradiction|].
  simpl in Hp. injection Hp as _ <-. reflexivity.
Qed.

Lemma pre_exec_effect (task : starpu_task (D := D)) (k : nat) (w w' : world (D := D)) :
  dmda_pre_exec_hook rt task k w = Ok w' ->
  exists fifo fifo',
    queue_array (dt w) !! k = Some fifo
    /\ dt w' = with_queue (dt w) k fifo'
    /\ moved w' = moved w
    /\ same_content fifo fifo'
    /\ ntasks_per_priority fifo' = ntasks_per_priority fifo.
Proof.
  unfold dmda_pre_exec_hook. intros Hp. ok_step Hp. rename a into fifo.
  apply get_fifo_ok in Hok.
  destruct (max_now_left rt (exp_start fifo) w) as [s w1] eqn:E1.
  apply max_now_left_same in E1.
  ok_step Hp. rename a into fifo2. ok_step Hp. rename a into fifo3.
  injection Hp as <-. destruct (store_fifo_dt w w1 k
    (with_horizon fifo3 (exp_start fifo3) (dadd (exp_start fifo3) (exp_len fifo3))
                  (exp_len fifo3)) E1) as [Hdt Hmv].
  eexists fifo, _. split; [exact Hok|]. split; [exact Hdt|]. split; [exact Hmv|].
  assert (H2 : same_content fifo fifo2
               /\ ntasks_per_priority fifo2 = ntasks_per_priority fifo).
  { destruct (disnan (predicted_transfer task)).
    - injection Hok0 as <-. repeat split.
    - apply update_exp_len_per_priority_content in Hok0. exact Hok0. }
  assert (H3 : same_content fifo2 fifo3
               /\ ntasks_per_priority fifo3 = ntasks_per_priority fifo2).
  { destruct (disnan (predicted task)).
    - injection Hok1 as <-. repeat split.
    - apply update_exp_len_per_priority_content in Hok1. exact Hok1. }
  destruct H2 as [(A1 & A2 & A3) A4], H3 as [(B1 & B2 & B3) B4].
  repeat split; simpl in *; congruence.
Qed.

Lemma post_exec_effect (task : starpu_task (D := D)) (k : nat) (w w' : world (D := D)) :
  dmda_post_exec_hook rt task k w = Ok w' ->
  exists fifo fifo',
    queue_array (dt w) !! k = Some fifo
    /\ dt w' = with_queue (dt w) k fifo'
    /\ moved w' = moved w
    /\ same_content fifo fifo'
    /\ ntasks_per_priority fifo' = ntasks_per_priority fifo
    /\ exp_len_per_priority fifo' = exp_len_per_priority fifo
    /\ exp_len fifo' = exp_len fifo.
Proof.
  unfold dmda_post_exec_hook. intros Hp. ok_step Hp. rename a into fifo.
  apply get_fifo_ok in Hok.
  destruct (now rt w) as [t w1] eqn:E1. apply now_same in E1.
  injection Hp as <-.
  destruct (store_fifo_dt w w1 k
              (with_horizon fifo t (dadd t (exp_len fifo)) (exp_len fifo)) E1) as [Hdt Hmv].
  eexists fifo, _. split; [exact Hok|]. split; [exact Hdt|]. split; [exact Hmv|].
  repeat split.
Qed.

Lemma notify_effect (task task' : starpu_task (D := D)) (k : Z) (perf ctx : nat)
    (w w' : world (D := D)) :
  dmda_push_task_notify rt task k perf ctx w = Ok (task', w') ->
  exists fifo fifo',
    0 <= k
    /\ queue_array (dt w) !! Z.to_nat k = Some fifo
    /\ dt w' = with_queue (dt w) (Z.to_nat k) fifo'
    /\ moved w' = moved w
    /\ taskq fifo' = taskq fifo
    /\ ntasks fifo' = u32 (ntasks fifo + 1)
    /\ nprocessed fifo' = nprocessed fifo.
Proof.
  unfold dmda_push_task_notify. intros Hp.
  destruct (Z.ltb_spec k 0) as [|Hpos]; [discriminate|].
  ok_step Hp. rename a into fifo. apply get_fifo_ok in Hok.
  destruct (refreshed_start rt fifo w) as [s w1] eqn:E1.
  apply refreshed_start_same in E1.
  ok_step Hp. destruct a as [[task1 fifo2] w2].
  ok_step Hp. destruct a as [task2 fifo3].
  ok_step Hp. rename a into fifo4. injection Hp as _ <-.
  assert (H2 : same_content fifo fifo2 /\ same_queues w1 w2).
  { destruct (disnan (task_expected_data_transfer_time rt _ task)).
    - injection Hok0 as _ <- <-. split; [repeat split | apply same_queues_refl].
    - destruct (clamp_transfer rt _ _ w1) as [pt' wa] eqn:E2.
      apply clamp_transfer_same in E2.
      ok_step Hok0. injection Hok0 as _ <- <-. split; [|exact E2].
      apply update_exp_len_per_priority_content in Hok3. apply Hok3. }
  destruct H2 as [(A1 & A2 & A3) Hw2].
  assert (H3 : same_content fifo2 fifo3).
  { destruct (disnan (task_expected_length rt task _ _)).
    - injection Hok1 as _ <-. repeat split.
    - ok_step Hok1. injection Hok1 as _ <-.
      apply update_exp_len_per_priority_content in Hok3. apply Hok3. }
  destruct H3 as (B1 & B2 & B3).
  apply update_ntasks_per_priority_content in Hok2. destruct Hok2 as [(C1 & C2 & C3) _].
  destruct (store_fifo_dt w w2 (Z.to_nat k)
              (with_taskq fifo4 (taskq fifo4) (u32 (ntasks fifo4 + 1)) (nprocessed fifo4))
              (same_queues_trans _ _ _ E1 Hw2)) as [Hdt Hmv].
  eexists fifo, _. split; [exact Hpos|]. split; [exact Hok|].
  split; [exact Hdt|]. split; [exact Hmv|].
  repeat split; simpl in *; congruence.
Qed.

Lemma pop_ready_effect (k : nat) (w w' : world (D := D))
    (r : option (starpu_task (D := D))) :
  dmda_pop_ready_task rt k w = Ok (r, w') ->
  exists fifo fifo1 fifo',
    queue_array (dt w) !! k = Some fifo
    /\ dt w' = with_queue (dt w) k fifo'
    /\ moved w' = moved w
    /\ taskq fifo1 = taskq fifo /\ ntasks fifo1 = ntasks fifo
    /\ nprocessed fifo1 = nprocessed fifo
    /\ _starpu_fifo_pop_first_ready_task rt fifo1 (worker_memory_node rt k)
         (num_priorities (dt w)) = Ok (r, fifo').
Proof.
  unfold dmda_pop_ready_task. intros Hp. ok_step Hp. rename a into fifo.
  apply get_fifo_ok in Hok.
  destruct (pop_refresh rt fifo w) as [fifo1 w1] eqn:E.
  assert (Hn : nprocessed fifo1 = nprocessed fifo).
  { unfold pop_refresh in E. destruct (max_now_left rt (exp_start fifo) w).
    injection E as <- _. reflexivity. }
  apply pop_refresh_spec in E. destruct E as (Hw & _ & _ & Hq & Hnt & _).
  ok_step Hp. destruct a as [r' fifo2]. injection Hp as <- <-.
  destruct (store_fifo_dt w w1 k fifo2 Hw) as [Hdt Hmv].
  exists fifo, fifo1, fifo2. repeat split; assumption.
Qed.

Lemma with_queue_counted (w w' : world (D := D)) (k : nat)
    (f : _starpu_fifo_taskq (D := D)) :
  all_counted w -> dt w' = with_queue (dt w) k f -> counted f -> all_counted w'.
Proof.
  intros Hall Hdt Hf j g. rewrite Hdt. simpl.
  destruct (decide (k = j)) as [->|Hne].
  - rewrite lookup_insert_eq. intros [= <-]. exact Hf.
  - rewrite lookup_insert_ne by exact Hne. apply Hall.
Qed.

Lemma same_content_counted (f f' : _starpu_fifo_taskq (D := D)) :
  same_content f f' -> counted f -> counted f'.
Proof. unfold counted. intros (-> & -> & _). trivial. Qed.

Lemma commit_counted (task : starpu_task (D := D)) (best : Z) (p pt : D) (prio : bool)
    (ctx : nat) (w w' : world (D := D)) (r : Z) :
  push_task_on_best_worker rt task best p pt prio ctx w = Ok (r, w') ->
  all_counted w -> all_counted w'.
Proof.
  intros Hp Hall.
  destruct (Nat.eq_dec (worker_is_master_for_child_ctx rt best ctx)
                       (STARPU_NMAX_SCHED_CTXS rt)) as [E|E].
  - destruct (commit_effect rt _ _ _ _ _ _ _ _ _ E Hp)
      as (fifo & fifo' & pt' & _ & Hk & Hdt & Hq & Hn & _).
    eapply with_queue_counted; [exact Hall | exact Hdt|].
    specialize (Hall _ _ Hk). unfold counted in *. rewrite Hn, Hq, Hall, u32_succ.
    f_equal. destruct prio.
    + rewrite insert_sorted_length. lia.
    + rewrite length_app. simpl. lia.
  - apply delegation_effect in Hp; [|exact E]. intros j g. rewrite Hp. apply Hall.
Qed.

End WorldEffects.

Section QueueTheorems.
Context {D : Type} `{DoubleOps D}.
Variable rt : runtime (D := D).

(** X1. A commit of [push_task_on_best_worker] puts the task, with its
    two prediction slots written, into the queue of the chosen worker and
    nowhere else: that queue gains the task at its tail (or at its
    priority position for a sorted push), [ntasks] and [nprocessed] grow
    by one, every other queue and the list of forwarded tasks stay as
    they were. *)
Theorem commit_enqueues_on_chosen_worker (task : starpu_task (D := D)) (best : Z)
    (p pt : D) (prio : bool) (ctx : nat) (w w' : world (D := D)) (r : Z) :
  worker_is_master_for_child_ctx rt best ctx = STARPU_NMAX_SCHED_CTXS rt ->
  push_task_on_best_worker rt task best p pt prio ctx w = Ok (r, w') ->
  exists fifo fifo' pt',
    queue_array (dt w) !! Z.to_nat best = Some fifo
    /\ queue_array (dt w') !! Z.to_nat best = Some fifo'
    /\ taskq fifo'
       = (if prio then insert_sorted (set_predictions task p pt') (taskq fifo)
          else taskq fifo ++ [set_predictions task p pt'])
    /\ ntasks fifo' = u32 (ntasks fifo + 1)
    /\ nprocessed fifo' = u32 (nprocessed fifo + 1)
    /\ (forall k, k <> Z.to_nat best ->
          queue_array (dt w') !! k = queue_array (dt w) !! k)
    /\ moved w' = moved w.
Proof.
  intros Hchild Hp.
  destruct (commit_effect rt _ _ _ _ _ _ _ _ _ Hchild Hp)
    as (fifo & fifo' & pt' & _ & Hk & Hdt & Hq & Hn & Hnp & Hmv).
  exists fifo, fifo', pt'. split; [exact Hk|]. rewrite Hdt. simpl.
  split; [apply lookup_insert_eq|]. split; [exact Hq|]. split; [exact Hn|].
  split; [exact Hnp|]. split; [|exact Hmv].
  intros k Hne. apply lookup_insert_ne. congruence.
Qed.

Lemma run_op_counted (op : operation (D := D)) (w w' : world (D := D)) :
  is_notify op = false ->
  run_op rt op w = Ok w' -> all_counted w -> all_counted w'.
Proof.
  destruct op; simpl; intros Hnot Hr Hall; try discriminate.
  - ok_step Hr. destruct a as [r w1]. injection Hr as <-.
    eapply commit_counted; eassumption.
  - ok_step Hr. destruct a as [r w1]. injection Hr as <-.
    unfold _dm_push_task in Hok. ok_step Hok. destruct a as [L w0].
    apply dm_scan_same in Hok0. destruct Hok0 as [Hdt _].
    eapply commit_counted; [exact Hok|]. intros j g. rewrite Hdt. apply Hall.
  - ok_step Hr. destruct a as [r w1]. injection Hr as <-.
    unfold _dmda_push_task in Hok. ok_step Hok. destruct a as [dec w0].
    apply dmda_decide_same in Hok0. destruct Hok0 as [Hdt _]. simpl in Hok.
    ok_step Hok. destruct a as [ret w2]. injection Hok as _ <-.
    eapply commit_counted; [exact Hok0|]. intros j g. rewrite Hdt. apply Hall.
  - apply pre_exec_effect in Hr.
    destruct Hr as (fifo & fifo' & Hk & Hdt & _ & Hc & _).
    eapply with_queue_counted; [exact Hall | exact Hdt|].
    eapply same_content_counted; [exact Hc|]. eapply Hall; exact Hk.
  - apply post_exec_effect in Hr.
    destruct Hr as (fifo & fifo' & Hk & Hdt & _ & Hc & _).
    eapply with_queue_counted; [exact Hall | exact Hdt|].
    eapply same_content_counted; [exact Hc|]. eapply Hall; exact Hk.
  - ok_step Hr. destruct a as [t w1]. injection Hr as <-.
    apply pop_ready_effect in Hok.
    destruct Hok as (fifo & fifo1 & fifo' & Hk & Hdt & _ & Hq & Hn & _ & Hpop).
    eapply with_queue_counted; [exact Hall | exact Hdt|].
    eapply pop_first_ready_counted; [exact Hpop|].
    specialize (Hall _ _ Hk). unfold counted in *. congruence.
  - ok_step Hr. destruct a as [t w1]. injection Hr as <-.
    unfold dmda_pop_task in Hok. ok_step Hok. rename a into fifo.
    apply get_fifo_ok in Hok0.
    destruct (pop_refresh rt fifo w) as [fifo1 wa] eqn:E.
    apply pop_refresh_spec in E. destruct E as (Hw & _ & _ & Hq & Hn & _).
    specialize (Hall _ _ Hok0) as Hc. unfold counted in Hc.
    unfold _starpu_fifo_pop_local_task in Hok.
    destruct (taskq fifo1) as [|t' q] eqn:Hq1; injection Hok as _ <-;
      (eapply with_queue_counted;
       [exact Hall | apply (store_fifo_dt w wa); exact Hw |]).
    + unfold counted. rewrite Hq1, Hn, Hc, <- Hq. reflexivity.
    + unfold counted. simpl. rewrite Hn, Hc, <- Hq, u32_pred. f_equal.
      simpl. lia.
  - ok_step Hr. destruct a as [t w1]. injection Hr as <-.
    unfold dmda_pop_every_task in Hok. ok_step Hok. rename a into fifo.
    apply get_fifo_ok in Hok0.
    destruct (pop_refresh rt fifo w) as [fifo1 wa] eqn:E.
    apply pop_refresh_spec in E. destruct E as (Hw & _ & _ & Hq & Hn & _).
    specialize (Hall _ _ Hok0) as Hc. unfold counted in Hc.
    unfold _starpu_fifo_pop_every_task in Hok. injection Hok as _ <-.
    eapply with_queue_counted;
      [exact Hall | apply (store_fifo_dt w wa); exact Hw |].
    unfold counted. simpl. rewrite Hn, Hc, Hq. unfold u32.
    rewrite Zminus_mod_idemp_l, Z.sub_diag. reflexivity.
Qed.

(** X2. [ntasks] keeps counting the queued tasks: if in every queue
    [ntasks] equals the number of queued tasks (as an [unsigned], modulo
    2^32), it still does after any sequence of commits, pushes, hooks and
    pops.  The external-push notification is excluded: it counts a task
    it does not enqueue. *)
Theorem task_count_invariant (ops : list (operation (D := D))) (w w' : world (D := D)) :
  forallb (fun op => negb (is_notify op)) ops = true ->
  all_counted w ->
  run_ops rt ops w = Ok w' ->
  all_counted w'.
Proof.
  unfold run_ops. revert w.
  induction ops as [|op ops IH]; intros w Hnot Hall Hr; simpl in Hr.
  - injection Hr as <-. exact Hall.
  - simpl in Hnot. apply andb_true_iff in Hnot. destruct Hnot as [Hop Hops].
    ok_step Hr. apply (IH a Hops); [|exact Hr].
    eapply run_op_counted; [|exact Hok|exact Hall].
    apply negb_true_iff. exact Hop.
Qed.

Lemma u32_succ_ne (a : Z) : u32 (a + 1) <> u32 a.
Proof.
  unfold u32. intros Heq.
  assert (Hd : ((a + 1) - a) mod 4294967296 = 0).
  { rewrite Zminus_mod, Heq, Z.sub_diag. reflexivity. }
  replace (a + 1 - a) with 1 in Hd by lia. discriminate.
Qed.

(** X3. [dmda_push_task_notify] accounts for a task that somebody else
    enqueues: it leaves the tasks of every queue untouched, raises
    [ntasks] of the worker's queue by one and changes no other queue, so a
    queue whose [ntasks] counted its tasks no longer does afterwards. *)
Theorem notify_counts_without_enqueuing (task task' : starpu_task (D := D)) (k : Z)
    (perf ctx : nat) (w w' : world (D := D)) :
  dmda_push_task_notify rt task k perf ctx w = Ok (task', w') ->
  exists fifo fifo',
    queue_array (dt w) !! Z.to_nat k = Some fifo
    /\ queue_array (dt w') !! Z.to_nat k = Some fifo'
    /\ taskq fifo' = taskq fifo
    /\ ntasks fifo' = u32 (ntasks fifo + 1)
    /\ (counted fifo -> ~ counted fifo')
    /\ (forall j, j <> Z.to_nat k -> queue_array (dt w') !! j = queue_array (dt w) !! j).
Proof.
  intros Hn. apply notify_effect in Hn.
  destruct Hn as (fifo & fifo' & _ & Hk & Hdt & _ & Hq & Hnt & _).
  exists fifo, fifo'. split; [exact Hk|]. rewrite Hdt. simpl.
  split; [apply lookup_insert_eq|]. split; [exact Hq|]. split; [exact Hnt|]. split.
  - unfold counted. intros Hc Hc'. rewrite Hnt, Hq, Hc, u32_succ in Hc'.
    exact (u32_succ_ne _ Hc').
  - intros j Hne. apply lookup_insert_ne. congruence.
Qed.

(** X4. [dmda_pop_ready_task] neither loses nor duplicates a task: the
    tasks of the worker's queue before the pop are the returned task and
    the tasks left, no other queue changes, and a pop that returns nothing
    leaves the tasks as they were.  On a queue that counts its (fewer than
    2^32) tasks, nothing is returned only when the queue is empty. *)
Theorem pop_ready_conserves_tasks (k : nat) (w w' : world (D := D))
    (r : option (starpu_task (D := D))) :
  dmda_pop_ready_task rt k w = Ok (r, w') ->
  exists fifo fifo',
    queue_array (dt w) !! k = Some fifo
    /\ queue_array (dt w') !! k = Some fifo'
    /\ (forall j, j <> k -> queue_array (dt w') !! j = queue_array (dt w) !! j)
    /\ match r with
       | Some t => taskq fifo ≡ₚ t :: taskq fifo'
       | None => taskq fifo' = taskq fifo
       end
    /\ (counted fifo -> Z.of_nat (length (taskq fifo)) < 4294967296 ->
        (r = None <-> taskq fifo = [])).
Proof.
  intros Hp. apply pop_ready_effect in Hp.
  destruct Hp as (fifo & fifo1 & fifo' & Hk & Hdt & _ & Hq & Hn & _ & Hpop).
  apply pop_first_ready_effect in Hpop. destruct Hpop as (_ & _ & Hr).
  exists fifo, fifo'. split; [exact Hk|]. rewrite Hdt. simpl.
  split; [apply lookup_insert_eq|]. split.
  { intros j Hne. apply lookup_insert_ne. congruence. }
  destruct r as [t|].
  - destruct Hr as (i & Hi & Hq' & Hnz & _). rewrite Hq in Hi, Hq'. split.
    + rewrite Hq'. apply delete_Permutation. exact Hi.
    + intros _ _. split; [discriminate|]. intros He. rewrite He in Hi. discriminate.
  - destruct Hr as (Hq' & Hcases). split; [congruence|].
    intros Hc Hlen. split; [|reflexivity]. intros _.
    unfold counted, u32 in Hc. rewrite Z.mod_small in Hc by lia.
    destruct Hcases as [[Hz _]|(_ & He & _)]; [|congruence].
    rewrite Hn, Hc in Hz. destruct (taskq fifo); [reflexivity | simpl in Hz; lia].
Qed.

Lemma first_ready_position_singleton (t : starpu_task (D := D)) (node : nat) :
  first_ready_position rt [t] node = 0%nat.
Proof.
  unfold first_ready_position. simpl. rewrite Z.leb_refl.
  destruct (_ <? INT_MAX); [destruct (_ =? 0)|]; reflexivity.
Qed.

(** X5. What is committed to an empty queue is what the next
    [dmda_pop_ready_task] of that worker returns: with the priority
    buckets off, the pop succeeds, hands back the committed task with its
    prediction slots as the commit wrote them, and leaves the queue empty
    with [ntasks] back at 0. *)
Theorem commit_then_pop_ready_round_trip (task : starpu_task (D := D)) (best : Z)
    (p pt : D) (prio : bool) (ctx : nat) (w w1 : world (D := D)) (r : Z)
    (fifo : _starpu_fifo_taskq (D := D)) :
  worker_is_master_for_child_ctx rt best ctx = STARPU_NMAX_SCHED_CTXS rt ->
  num_priorities (dt w) = -1 ->
  queue_array (dt w) !! Z.to_nat best = Some fifo ->
  taskq fifo = [] -> ntasks fifo = 0 ->
  push_task_on_best_worker rt task best p pt prio ctx w = Ok (r, w1) ->
  exists pt' w2 fifo2,
    dmda_pop_ready_task rt (Z.to_nat best) w1
    = Ok (Some (set_predictions task p pt'), w2)
    /\ queue_array (dt w2) !! Z.to_nat best = Some fifo2
    /\ taskq fifo2 = [] /\ ntasks fifo2 = 0.
Proof.
  intros Hchild Hnp Hk Hq0 Hn0 Hp.
  destruct (commit_effect rt _ _ _ _ _ _ _ _ _ Hchild Hp)
    as (fifo0 & fifo' & pt' & _ & Hk' & Hdt & Hq & Hn & _ & _).
  rewrite Hk in Hk'. injection Hk' as <-.
  assert (Hq1 : taskq fifo' = [set_predictions task p pt']).
  { rewrite Hq, Hq0. destruct prio; reflexivity. }
  assert (Hn1 : ntasks fifo' = 1) by (rewrite Hn, Hn0; reflexivity).
  exists pt'. unfold dmda_pop_ready_task.
  assert (Hg : get_fifo (dt w1) (Z.to_nat best) = Ok fifo').
  { apply get_fifo_ok. rewrite Hdt. simpl. apply lookup_insert_eq. }
  rewrite Hg. simpl. unfold pop_refresh.
  destruct (max_now_left rt (exp_start fifo') w1) as [s wa]. simpl.
  unfold _starpu_fifo_pop_first_ready_task. simpl.
  rewrite Hn1, Hq1, first_ready_position_singleton. simpl.
  assert (Hnp1 : num_priorities (dt w1) = -1) by (rewrite Hdt; exact Hnp).
  rewrite Hnp1. simpl.
  eexists _, _. split; [reflexivity|]. unfold store_fifo. simpl.
  split; [apply lookup_insert_eq|]. split; reflexivity.
Qed.

(** X6. The two hooks touch nothing but numbers of the worker's queue:
    after [dmda_pre_exec_hook] or [dmda_post_exec_hook] every queue holds
    the tasks, [ntasks], [nprocessed] and [ntasks_per_priority] it held
    before, every queue but the worker's is unchanged altogether, and no
    task is forwarded. *)
Theorem hooks_leave_tasks_alone (task : starpu_task (D := D)) (k : nat)
    (w w' : world (D := D)) :
  dmda_pre_exec_hook rt task k w = Ok w' \/ dmda_post_exec_hook rt task k w = Ok w' ->
  moved w' = moved w
  /\ (forall j, j <> k -> queue_array (dt w') !! j = queue_array (dt w) !! j)
  /\ exists fifo fifo',
       queue_array (dt w) !! k = Some fifo
       /\ queue_array (dt w') !! k = Some fifo'
       /\ same_content fifo fifo'
       /\ ntasks_per_priority fifo' = ntasks_per_priority fifo.
Proof.
  intros [Hh|Hh].
  - apply pre_exec_effect in Hh.
    destruct Hh as (fifo & fifo' & Hk & Hdt & Hmv & Hc & Hnp).
    split; [exact Hmv|]. rewrite Hdt. simpl. split.
    { intros j Hne. apply lookup_insert_ne. congruence. }
    exists fifo, fifo'. split; [exact Hk|]. split; [apply lookup_insert_eq|]. auto.
  - apply post_exec_effect in Hh.
    destruct Hh as (fifo & fifo' & Hk & Hdt & Hmv & Hc & Hnp & _).
    split; [exact Hmv|]. rewrite Hdt. simpl. split.
    { intros j Hne. apply lookup_insert_ne. congruence. }
    exists fifo, fifo'. split; [exact Hk|]. split; [apply lookup_insert_eq|]. auto.
Qed.

End QueueTheorems.

(** Worker 1 of the idle context receives task 3. *)
Lemma commit_enqueues_on_chosen_worker_witness :
  exists w' fifo',
    push_task_on_best_worker Scenario.calibrated (Scenario.plain_task 3 0 []) 1
      (Scenario.F 7) (Scenario.F 2) false 0 Scenario.two_idle_workers = Ok (0, w')
    /\ queue_array (dt w') !! 1%nat = Some fifo'
    /\ length (taskq fifo') = 1%nat
    /\ ntasks fifo' = 1
    /\ queue_array (dt w') !! 0%nat = Some empty_fifo.
Proof.
  destruct (push_task_on_best_worker Scenario.calibrated (Scenario.plain_task 3 0 []) 1
              (Scenario.F 7) (Scenario.F 2) false 0 Scenario.two_idle_workers)
    as [[r w']|f] eqn:Hp; [|vm_compute in Hp; discriminate].
  assert (Hr : r = 0) by (vm_compute in Hp; injection Hp as <- _; reflexivity).
  subst r.
  destruct (commit_enqueues_on_chosen_worker Scenario.calibrated _ _ _ _ _ _ _ _ _
              eq_refl Hp)
    as (fifo & fifo' & pt' & Hk & Hk' & Hq & Hn & _ & Hframe & _).
  exists w', fifo'. split; [reflexivity|]. split; [exact Hk'|].
  vm_compute in Hk. injection Hk as <-.
  split; [rewrite Hq; reflexivity|]. split; [rewrite Hn; reflexivity|].
  rewrite (Hframe 0%nat) by discriminate. reflexivity.
Defined.

(** The eight operations of [Cases.quiet_day] return and leave every
    queue counted. *)
Lemma task_count_invariant_witness :
  exists w',
    run_ops Scenario.calibrated Cases.quiet_day Scenario.two_idle_workers = Ok w'
    /\ all_counted w'.
Proof.
  destruct (run_ops Scenario.calibrated Cases.quiet_day Scenario.two_idle_workers)
    as [w'|f] eqn:Hr; [|vm_compute in Hr; discriminate].
  exists w'. split; [reflexivity|].
  refine (task_count_invariant Scenario.calibrated Cases.quiet_day
            Scenario.two_idle_workers w' eq_refl _ Hr).
  intros k f Hk. unfold Scenario.two_idle_workers in Hk. simpl in Hk.
  apply lookup_insert_Some in Hk. destruct Hk as [[_ <-]|[_ Hk]]; [reflexivity|].
  apply lookup_insert_Some in Hk. destruct Hk as [[_ <-]|[_ Hk]]; [reflexivity|].
  rewrite lookup_empty in Hk. discriminate.
Defined.

(** A notification for worker 0 of the idle context: one task counted,
    none queued. *)
Lemma notify_counts_without_enqueuing_witness :
  exists task' w' fifo',
    dmda_push_task_notify Scenario.calibrated (Scenario.plain_task 4 0 []) 0 0 0
      (Scenario.two_idle_workers (D := spec_float)) = Ok (task', w')
    /\ queue_array (dt w') !! 0%nat = Some fifo'
    /\ taskq fifo' = [] /\ ntasks fifo' = 1 /\ ~ counted fifo'.
Proof.
  destruct (dmda_push_task_notify Scenario.calibrated (Scenario.plain_task 4 0 []) 0 0 0
              (Scenario.two_idle_workers (D := spec_float)))
    as [[task' w']|f] eqn:Hn; [|vm_compute in Hn; discriminate].
  destruct (notify_counts_without_enqueuing Scenario.calibrated _ _ _ _ _ _ _ Hn)
    as (fifo & fifo' & Hk & Hk' & Hq & Hnt & Hc & _).
  exists task', w', fifo'. split; [reflexivity|]. split; [exact Hk'|].
  vm_compute in Hk. injection Hk as <-.
  split; [exact Hq|]. split; [rewrite Hnt; reflexivity|]. apply Hc. reflexivity.
Defined.

(** Worker 0 holds A and B; the pop hands out B and leaves A. *)
Lemma pop_ready_conserves_tasks_witness :
  exists w' fifo',
    dmda_pop_ready_task Scenario.valid_on_node_1 0 Cases.one_loaded_worker
    = Ok (Some Scenario.task_b, w')
    /\ queue_array (dt w') !! 0%nat = Some fifo'
    /\ [Scenario.task_a; Scenario.task_b] ≡ₚ Scenario.task_b :: taskq fifo'.
Proof.
  destruct (dmda_pop_ready_task Scenario.valid_on_node_1 0 Cases.one_loaded_worker)
    as [[r w']|f] eqn:Hp; [|vm_compute in Hp; discriminate].
  assert (Hr : r = Some Scenario.task_b) by (vm_compute in Hp; injection Hp as <- _; reflexivity).
  subst r.
  destruct (pop_ready_conserves_tasks Scenario.valid_on_node_1 _ _ _ _ Hp)
    as (fifo & fifo' & Hk & Hk' & _ & Hperm & _).
  exists w', fifo'. split; [reflexivity|]. split; [exact Hk'|].
  vm_compute in Hk. injection Hk as <-. exact Hperm.
Defined.

(** Task 3 is committed to the idle worker 1 and popped again. *)
Lemma commit_then_pop_ready_round_trip_witness :
  exists w1 pt' w2,
    push_task_on_best_worker Scenario.calibrated (Scenario.plain_task 3 0 []) 1
      (Scenario.F 7) (Scenario.F 2) false 0 Scenario.two_idle_workers = Ok (0, w1)
    /\ dmda_pop_ready_task Scenario.calibrated 1 w1
       = Ok (Some (set_predictions (Scenario.plain_task 3 0 []) (Scenario.F 7) pt'), w2).
Proof.
  destruct (push_task_on_best_worker Scenario.calibrated (Scenario.plain_task 3 0 []) 1
              (Scenario.F 7) (Scenario.F 2) false 0 Scenario.two_idle_workers)
    as [[r w1]|f] eqn:Hp; [|vm_compute in Hp; discriminate].
  assert (Hr : r = 0) by (vm_compute in Hp; injection Hp as <- _; reflexivity).
  subst r.
  destruct (commit_then_pop_ready_round_trip Scenario.calibrated
              (Scenario.plain_task 3 0 []) 1 (Scenario.F 7) (Scenario.F 2) false 0%nat
              Scenario.two_idle_workers w1 0 empty_fifo
              eq_refl eq_refl eq_refl eq_refl eq_refl Hp)
    as (pt' & w2 & fifo2 & Hpop & _).
  exists w1, pt', w2. split; [reflexivity | exact Hpop].
Defined.

(** The pre-execution hook of worker 0 in the idle context. *)
Lemma hooks_leave_tasks_alone_witness :
  exists w' fifo',
    dmda_pre_exec_hook Scenario.calibrated Scenario.task5 0 Scenario.two_idle_workers = Ok w'
    /\ queue_array (dt w') !! 0%nat = Some fifo'
    /\ taskq fifo' = [] /\ ntasks fifo' = 0
    /\ queue_array (dt w') !! 1%nat = Some empty_fifo.
Proof.
  destruct (dmda_pre_exec_hook Scenario.calibrated Scenario.task5 0
              Scenario.two_idle_workers) as [w'|f] eqn:Hh; [|vm_compute in Hh; discriminate].
  destruct (hooks_leave_tasks_alone Scenario.calibrated _ _ _ _ (or_introl Hh))
    as (_ & Hframe & fifo & fifo' & Hk & Hk' & (Hq & Hn & _) & _).
  exists w', fifo'. split; [reflexivity|]. split; [exact Hk'|].
  vm_compute in Hk. injection Hk as <-.
  split; [exact Hq|]. split; [exact Hn|].
  rewrite (Hframe 1%nat) by discriminate. reflexivity.
Defined.

(* ================================================================== *)
(** * Priorities and their counters *)

Section PriorityRange.
Context {D : Type} `{DoubleOps D}.
Variable rt : runtime (D := D).

Lemma initial_num_priorities_spec (ctx : nat) :
  ctx_min_priority_is_set rt ctx = true ->
  ctx_max_priority_is_set rt ctx = true ->
  INT_MIN <= ctx_min_priority rt ctx ->
  ctx_min_priority rt ctx <= ctx_max_priority rt ctx ->
  ctx_max_priority rt ctx - ctx_min_priority rt ctx < INT_MAX ->
  initial_num_priorities rt ctx = ctx_max_priority rt ctx - ctx_min_priority rt ctx + 1.
Proof.
  unfold INT_MIN, INT_MAX, initial_num_priorities. intros -> -> H1 H2 H3. simpl.
  rewrite (sint_small (_ - _)) by lia. apply sint_small. lia.
Qed.

Lemma normalize_prio_offset (ctx : nat) (prio : Z) :
  ctx_min_priority rt ctx < ctx_max_priority rt ctx ->
  ctx_max_priority rt ctx - ctx_min_priority rt ctx < INT_MAX ->
  INT_MIN <= prio - ctx_min_priority rt ctx <= INT_MAX ->
  _normalize_prio rt prio (ctx_max_priority rt ctx - ctx_min_priority rt ctx + 1) ctx
  = Ok (prio - ctx_min_priority rt ctx).
Proof.
  unfold _normalize_prio. intros H1 H2 H3.
  replace (ctx_max_priority rt ctx - ctx_min_priority rt ctx + 1 - 1)
    with (ctx_max_priority rt ctx - ctx_min_priority rt ctx) by lia.
  rewrite (int_result_ok (ctx_max_priority rt ctx - ctx_min_priority rt ctx))
    by (unfold INT_MIN, INT_MAX in *; lia).
  simpl.
  destruct (Z.eqb_spec (ctx_max_priority rt ctx - ctx_min_priority rt ctx) 0) as [E|E];
    [lia|].
  rewrite Z.quot_same by exact E.
  rewrite (int_result_ok 1) by (unfold INT_MIN, INT_MAX; lia). simpl.
  rewrite (int_result_ok (prio - _)) by exact H3. simpl.
  rewrite Z.mul_1_l. apply int_result_ok. exact H3.
Qed.

(** X7. In a context whose two priority bounds are set and differ,
    [initialize_dmda_policy] stores [max - min + 1] cells and
    [_normalize_prio] is the distance of the priority to the minimum:
    a cell of the per-priority arrays exactly for the priorities from
    [min] to [max]. *)
Theorem normalize_prio_is_distance_to_min (ctx : nat) (prio : Z) :
  ctx_min_priority_is_set rt ctx = true ->
  ctx_max_priority_is_set rt ctx = true ->
  INT_MIN <= ctx_min_priority rt ctx ->
  ctx_min_priority rt ctx < ctx_max_priority rt ctx ->
  ctx_max_priority rt ctx - ctx_min_priority rt ctx < INT_MAX ->
  INT_MIN <= prio - ctx_min_priority rt ctx <= INT_MAX ->
  initial_num_priorities rt ctx = ctx_max_priority rt ctx - ctx_min_priority rt ctx + 1
  /\ _normalize_prio rt prio (initial_num_priorities rt ctx) ctx
     = Ok (prio - ctx_min_priority rt ctx)
  /\ (0 <= prio - ctx_min_priority rt ctx < initial_num_priorities rt ctx
      <-> ctx_min_priority rt ctx <= prio <= ctx_max_priority rt ctx).
Proof.
  intros Hmin Hmax H1 H2 H3 H4.
  assert (Hn := initial_num_priorities_spec ctx Hmin Hmax H1 (Z.lt_le_incl _ _ H2) H3).
  split; [exact Hn|]. rewrite Hn. split; [|lia].
  apply normalize_prio_offset; assumption.
Qed.

Lemma upto_prio_overflow {A} (g : A -> A) (arr : list A) (p : Z) :
  Z.of_nat (length arr) <= p -> upto_prio g arr p = Fault OutOfBounds.
Proof.
  unfold upto_prio. intros Hp.
  destruct (Z.ltb_spec p 0); [lia|]. destruct (Z.ltb_spec p (Z.of_nat (length arr))); [lia|].
  reflexivity.
Qed.

Lemma upto_prio_length {A} (g : A -> A) (arr arr' : list A) (p : Z) :
  upto_prio g arr p = Ok arr' -> length arr' = length arr.
Proof.
  unfold upto_prio. destruct (p <? 0); [intros [= <-]; reflexivity|].
  destruct (p <? _); [|discriminate]. intros [= <-].
  rewrite length_app, length_map, length_take, length_drop. lia.
Qed.

Lemma upto_prio_lookup {A} (g : A -> A) (arr arr' : list A) (p : Z) :
  upto_prio g arr p = Ok arr' ->
  forall i : nat, arr' !! i = (if Z.of_nat i <=? p then g <$> arr !! i else arr !! i).
Proof.
  unfold upto_prio. destruct (Z.ltb_spec p 0) as [Hneg|Hpos].
  { intros [= <-] i. destruct (Z.leb_spec (Z.of_nat i) p); [lia | reflexivity]. }
  destruct (Z.ltb_spec p (Z.of_nat (length arr))) as [Hlt|]; [|discriminate].
  intros [= <-] i. change (map g (take (S (Z.to_nat p)) arr))
    with (g <$> take (S (Z.to_nat p)) arr).
  destruct (Z.leb_spec (Z.of_nat i) p) as [Hi|Hi].
  - rewrite lookup_app_l by (rewrite length_fmap, length_take; lia).
    rewrite list_lookup_fmap, lookup_take_lt by lia. reflexivity.
  - rewrite lookup_app_r by (rewrite length_fmap, length_take; lia).
    rewrite length_fmap, length_take, lookup_drop. f_equal. lia.
Qed.

(** X8. Nothing checks a priority against the context's bounds: committing
    a task whose priority is above the maximum to a queue with the
    [max - min + 1] cells of [dmda_add_workers] runs the bucket loop past
    the end of the array, in a sorted push always and in a tail push as
    soon as the predicted length is a number. *)
Theorem commit_above_max_priority_faults (task : starpu_task (D := D)) (best : Z)
    (p pt : D) (prio : bool) (ctx : nat) (w : world (D := D))
    (fifo : _starpu_fifo_taskq (D := D)) :
  ctx_min_priority_is_set rt (sched_ctx task) = true ->
  ctx_max_priority_is_set rt (sched_ctx task) = true ->
  INT_MIN <= ctx_min_priority rt (sched_ctx task) ->
  ctx_min_priority rt (sched_ctx task) < ctx_max_priority rt (sched_ctx task) ->
  ctx_max_priority rt (sched_ctx task) - ctx_min_priority rt (sched_ctx task) < INT_MAX ->
  num_priorities (dt w) = initial_num_priorities rt (sched_ctx task) ->
  0 <= best ->
  worker_is_master_for_child_ctx rt best ctx = STARPU_NMAX_SCHED_CTXS rt ->
  queue_array (dt w) !! Z.to_nat best = Some fifo ->
  buckets_allocated (num_priorities (dt w)) fifo ->
  ctx_max_priority rt (sched_ctx task) < priority task ->
  priority task - ctx_min_priority rt (sched_ctx task) <= INT_MAX ->
  prio = true \/ disnan p = false ->
  push_task_on_best_worker rt task best p pt prio ctx w = Fault OutOfBounds.
Proof.
  intros Hmin Hmax H1 H2 H3 Hnp Hbest Hchild Hk [Hl1 Hl2] Habove Hfit Hwhen.
  assert (Hn := initial_num_priorities_spec _ Hmin Hmax H1 (Z.lt_le_incl _ _ H2) H3).
  rewrite <- Hnp in Hn.
  assert (Hnorm : _normalize_prio rt (priority task) (num_priorities (dt w)) (sched_ctx task)
                  = Ok (priority task - ctx_min_priority rt (sched_ctx task))).
  { rewrite Hn. apply normalize_prio_offset; [exact H2 | exact H3|].
    unfold INT_MIN, INT_MAX in *. lia. }
  assert (Hne : (num_priorities (dt w) =? -1) = false) by (apply Z.eqb_neq; lia).
  assert (Hexp : forall g (f : _starpu_fifo_taskq (D := D)),
             length (exp_len_per_priority f) = Z.to_nat (num_priorities (dt w)) ->
             update_exp_len_per_priority rt (num_priorities (dt w)) task g f
             = Fault OutOfBounds).
  { intros g f Hlen. unfold update_exp_len_per_priority. rewrite Hne, Hnorm. simpl.
    rewrite upto_prio_overflow by (rewrite Hlen; lia). reflexivity. }
  assert (Hacc : forall x (f : _starpu_fifo_taskq (D := D)),
             length (exp_len_per_priority f) = Z.to_nat (num_priorities (dt w)) ->
             (disnan x = true /\ account rt (num_priorities (dt w)) task x f = Ok f)
             \/ (disnan x = false
                 /\ account rt (num_priorities (dt w)) task x f = Fault OutOfBounds)).
  { intros x f Hlen. unfold account. destruct (disnan x); [left; auto|right].
    split; [reflexivity|]. apply Hexp. exact Hlen. }
  unfold push_task_on_best_worker.
  destruct (Z.eqb_spec best (-1)); [lia|].
  rewrite Hchild, Nat.eqb_refl. simpl.
  destruct (Z.ltb_spec best 0); [lia|].
  apply get_fifo_ok in Hk. rewrite Hk. simpl.
  destruct (refreshed_start rt fifo w) as [s w1].
  destruct (clamp_transfer rt pt _ w1) as [pt' w2].
  destruct (Hacc pt' (with_horizon fifo s (dadd s (exp_len fifo)) (exp_len fifo)) Hl2)
    as [[_ ->]|[_ ->]]; [|reflexivity]. simpl.
  destruct (Hacc p (with_horizon fifo s (dadd s (exp_len fifo)) (exp_len fifo)) Hl2)
    as [[Hnan ->]|[_ ->]]; [|reflexivity]. simpl.
  destruct Hwhen as [->|Hp]; [|congruence].
  unfold update_ntasks_per_priority. rewrite Hne. simpl. rewrite Hnorm. simpl.
  rewrite upto_prio_overflow by (rewrite Hl1; lia). reflexivity.
Qed.

End PriorityRange.

Section BucketCounts.
Context {D : Type} `{DoubleOps D}.
Variable rt : runtime (D := D).

Lemma filter_length_Permutation {A} (P : A -> bool) (q q' : list A) :
  q ≡ₚ q' -> length (List.filter P q) = length (List.filter P q').
Proof.
  induction 1 as [|x l l' _ IH|x y l|l l' l'' _ IH1 _ IH2]; simpl.
  - reflexivity.
  - destruct (P x); simpl; congruence.
  - destruct (P x), (P y); reflexivity.
  - congruence.
Qed.

Lemma insert_sorted_Permutation (t : starpu_task (D := D))
    (q : list (starpu_task (D := D))) :
  insert_sorted t q ≡ₚ t :: q.
Proof.
  induction q as [|x q IH]; simpl; [reflexivity|].
  destruct (priority x <? priority t); [reflexivity|].
  rewrite IH. apply Permutation_swap.
Qed.

Lemma bucket_counts_lookup (np : Z) (q : list (starpu_task (D := D))) (i : nat) :
  bucket_counts rt np q !! i
  = (if (i <? Z.to_nat np)%nat
     then Some (u32 (Z.of_nat (length (List.filter (reaches_bucket rt np i) q))))
     else None).
Proof.
  unfold bucket_counts.
  change (map ?g ?l) with (g <$> l). rewrite list_lookup_fmap.
  destruct (Nat.ltb_spec i (Z.to_nat np)) as [Hi|Hi].
  - rewrite lookup_seq_lt by exact Hi. reflexivity.
  - rewrite lookup_seq_ge by exact Hi. reflexivity.
Qed.

(** The counters after one more (or one fewer) task counted up to cell
    [p]. *)
Lemma bucket_counts_step (np : Z) (t : starpu_task (D := D))
    (q q' : list (starpu_task (D := D))) (arr' : list Z) (p : Z) (up : bool) :
  _normalize_prio rt (priority t) np (sched_ctx t) = Ok p ->
  upto_prio (fun n => u32 (if up then n + 1 else n - 1)) (bucket_counts rt np q) p = Ok arr' ->
  (if up then q' ≡ₚ t :: q else q ≡ₚ t :: q') ->
  arr' = bucket_counts rt np q'.
Proof.
  intros Hnorm Hup Hperm. apply list_eq. intros i.
  rewrite (upto_prio_lookup _ _ _ _ Hup), !bucket_counts_lookup.
  destruct (i <? Z.to_nat np)%nat.
  2:{ destruct (Z.of_nat i <=? p); reflexivity. }
  assert (Ht : reaches_bucket rt np i t = (Z.of_nat i <=? p)).
  { unfold reaches_bucket. rewrite Hnorm. reflexivity. }
  destruct up.
  - rewrite (filter_length_Permutation _ _ _ Hperm). simpl. rewrite Ht.
    destruct (Z.of_nat i <=? p); simpl; [|reflexivity].
    rewrite u32_succ. do 2 f_equal. lia.
  - rewrite (filter_length_Permutation _ _ _ Hperm). simpl. rewrite Ht.
    destruct (Z.of_nat i <=? p); simpl; [|reflexivity].
    rewrite u32_pred. do 2 f_equal. lia.
Qed.

Lemma update_ntasks_per_priority_counts (np : Z) (t : starpu_task (D := D)) (up : bool)
    (f f' : _starpu_fifo_taskq (D := D)) (q : list (starpu_task (D := D))) :
  update_ntasks_per_priority rt np t (fun n => u32 (if up then n + 1 else n - 1)) f = Ok f' ->
  ntasks_per_priority f = bucket_counts rt np q ->
  forall q', (if up then q' ≡ₚ t :: q else q ≡ₚ t :: q') ->
  ntasks_per_priority f' = bucket_counts rt np q'.
Proof.
  unfold update_ntasks_per_priority. intros Hu Harr q' Hperm.
  destruct (Z.eqb_spec np (-1)) as [->|Hne].
  - injection Hu as <-. rewrite Harr. reflexivity.
  - ok_step Hu. rename a into p. ok_step Hu. rename a into arr'. injection Hu as <-.
    simpl. rewrite Harr in Hok0. eapply bucket_counts_step; eassumption.
Qed.

Lemma with_queue_buckets (w w' : world (D := D)) (k : nat)
    (f : _starpu_fifo_taskq (D := D)) :
  all_buckets_counted rt w -> dt w' = with_queue (dt w) k f ->
  buckets_counted rt (num_priorities (dt w)) f -> all_buckets_counted rt w'.
Proof.
  intros Hall Hdt Hf j g. rewrite Hdt. simpl.
  destruct (decide (k = j)) as [->|Hne].
  - rewrite lookup_insert_eq. intros [= <-]. exact Hf.
  - rewrite lookup_insert_ne by exact Hne. apply Hall.
Qed.

Lemma account_buckets (np : Z) (task : starpu_task (D := D)) (x : D)
    (f f' : _starpu_fifo_taskq (D := D)) :
  account rt np task x f = Ok f' ->
  taskq f' = taskq f /\ ntasks_per_priority f' = ntasks_per_priority f.
Proof.
  intros Ha. apply account_content in Ha. destruct Ha as [(A & _) B]. auto.
Qed.

Lemma sorted_commit_buckets (task : starpu_task (D := D)) (best : Z) (p pt : D)
    (ctx : nat) (w w' : world (D := D)) (r : Z) :
  push_task_on_best_worker rt task best p pt true ctx w = Ok (r, w') ->
  all_buckets_counted rt w -> all_buckets_counted rt w'.
Proof.
  intros Hp Hall.
  destruct (Nat.eq_dec (worker_is_master_for_child_ctx rt best ctx)
                       (STARPU_NMAX_SCHED_CTXS rt)) as [E|E].
  2:{ apply delegation_effect in Hp; [|exact E]. intros j g. rewrite Hp. apply Hall. }
  unfold push_task_on_best_worker in Hp.
  destruct (best =? -1); [discriminate|].
  rewrite E, Nat.eqb_refl in Hp. simpl in Hp.
  destruct (best <? 0); [discriminate|].
  ok_step Hp. rename a into fifo. apply get_fifo_ok in Hok.
  destruct (refreshed_start rt fifo w) as [s w1] eqn:E1.
  apply refreshed_start_same in E1.
  destruct (clamp_transfer rt pt _ w1) as [pt' w2] eqn:E2.
  apply clamp_transfer_same in E2.
  ok_step Hp. rename a into fifo2. ok_step Hp. rename a into fifo3.
  apply account_buckets in Hok0, Hok1. destruct Hok0 as [A1 A2], Hok1 as [B1 B2].
  simpl in *. unfold _starpu_fifo_push_sorted_task in Hp.
  ok_step Hp. rename a into fifo5. injection Hp as _ <-.
  destruct (store_fifo_dt w w2 (Z.to_nat best) fifo5 (same_queues_trans _ _ _ E1 E2))
    as [Hdt _].
  eapply with_queue_buckets; [exact Hall | exact Hdt|].
  specialize (Hall _ _ Hok). unfold buckets_counted in *.
  pose proof (update_ntasks_per_priority_content rt _ _ _ _ _ Hok0) as [(C1 & _) _].
  simpl in C1. rewrite C1.
  refine (update_ntasks_per_priority_counts _ _ true _ _ (taskq fifo) Hok0 _ _ _).
  - simpl. congruence.
  - rewrite B1, A1. simpl. apply insert_sorted_Permutation.
Qed.

Lemma pop_ready_buckets (k : nat) (w w' : world (D := D))
    (r : option (starpu_task (D := D))) :
  dmda_pop_ready_task rt k w = Ok (r, w') ->
  all_buckets_counted rt w -> all_buckets_counted rt w'.
Proof.
  unfold dmda_pop_ready_task. intros Hp Hall. ok_step Hp. rename a into fifo.
  apply get_fifo_ok in Hok.
  destruct (pop_refresh rt fifo w) as [fifo1 w1] eqn:E.
  assert (Harr : ntasks_per_priority fifo1 = ntasks_per_priority fifo).
  { unfold pop_refresh in E. destruct (max_now_left rt (exp_start fifo) w).
    injection E as <- _. reflexivity. }
  apply pop_refresh_spec in E. destruct E as (Hw & _ & _ & Hq & _).
  ok_step Hp. destruct a as [r' fifo2]. injection Hp as _ <-.
  destruct (store_fifo_dt w w1 k fifo2 Hw) as [Hdt _].
  eapply with_queue_buckets; [exact Hall | exact Hdt|].
  specialize (Hall _ _ Hok). unfold buckets_counted in *.
  unfold _starpu_fifo_pop_first_ready_task in Hok0.
  destruct (ntasks fifo1 =? 0).
  { injection Hok0 as _ <-. congruence. }
  destruct (taskq fifo1 !! first_ready_position rt (taskq fifo1) (worker_memory_node rt k))
    as [t|] eqn:Hpos.
  - ok_step Hok0. rename a into fifo3. injection Hok0 as _ <-. simpl.
    pose proof (update_ntasks_per_priority_content rt _ _ _ _ _ Hok1) as [(C1 & _) _].
    simpl in C1. rewrite C1.
    refine (update_ntasks_per_priority_counts _ _ false _ _ (taskq fifo) Hok1 _ _ _).
    + simpl. congruence.
    + rewrite <- Hq. apply delete_Permutation. exact Hpos.
  - injection Hok0 as _ <-. simpl. congruence.
Qed.

Lemma run_op_buckets (op : operation (D := D)) (w w' : world (D := D)) :
  keeps_buckets op = true ->
  run_op rt op w = Ok w' ->
  all_buckets_counted rt w -> all_buckets_counted rt w'.
Proof.
  destruct op; simpl; intros Hkeep Hr Hall; try discriminate.
  - subst prio. ok_step Hr. destruct a as [r w1]. injection Hr as <-.
    eapply sorted_commit_buckets; eassumption.
  - subst prio. ok_step Hr. destruct a as [r w1]. injection Hr as <-.
    unfold _dm_push_task in Hok. ok_step Hok. destruct a as [L w0].
    apply dm_scan_same in Hok0. destruct Hok0 as [Hdt _].
    eapply sorted_commit_buckets; [exact Hok|]. intros j g. rewrite Hdt. apply Hall.
  - subst prio. ok_step Hr. destruct a as [r w1]. injection Hr as <-.
    unfold _dmda_push_task in Hok. ok_step Hok. destruct a as [dec w0].
    apply dmda_decide_same in Hok0. destruct Hok0 as [Hdt _]. simpl in Hok.
    ok_step Hok. destruct a as [ret w2]. injection Hok as _ <-.
    eapply sorted_commit_buckets; [exact Hok0|]. intros j g. rewrite Hdt. apply Hall.
  - apply pre_exec_effect in Hr.
    destruct Hr as (fifo & fifo' & Hk & Hdt & _ & (Hq & _) & Harr).
    eapply with_queue_buckets; [exact Hall | exact Hdt|].
    specialize (Hall _ _ Hk). unfold buckets_counted in *. congruence.
  - apply post_exec_effect in Hr.
    destruct Hr as (fifo & fifo' & Hk & Hdt & _ & (Hq & _) & Harr & _).
    eapply with_queue_buckets; [exact Hall | exact Hdt|].
    specialize (Hall _ _ Hk). unfold buckets_counted in *. congruence.
  - ok_step Hr. destruct a as [t w1]. injection Hr as <-.
    eapply pop_ready_buckets; eassumption.
Qed.

(** X9. Cell [i] of [ntasks_per_priority] is the number of queued tasks
    whose normalised priority is at least [i]: if that holds in every
    queue, it still does after any sequence of sorted pushes, first-ready
    pops and hooks.  (A tail push and the pops of the [dm] policy change
    the queue without touching the counters.) *)
Theorem bucket_counts_invariant (ops : list (operation (D := D))) (w w' : world (D := D)) :
  forallb keeps_buckets ops = true ->
  all_buckets_counted rt w ->
  run_ops rt ops w = Ok w' ->
  all_buckets_counted rt w'.
Proof.
  unfold run_ops. revert w.
  induction ops as [|op ops IH]; intros w Hkeep Hall Hr; simpl in Hr.
  - injection Hr as <-. exact Hall.
  - simpl in Hkeep. apply andb_true_iff in Hkeep. destruct Hkeep as [Hop Hops].
    ok_step Hr. apply (IH a Hops); [|exact Hr].
    eapply run_op_buckets; [exact Hop | exact Hok | exact Hall].
Qed.

End BucketCounts.

(** Priorities 0 to 3: four cells, and priority 2 is counted up to cell 2. *)
Lemma normalize_prio_is_distance_to_min_witness :
  initial_num_priorities Cases.prioritised 0 = 4
  /\ _normalize_prio Cases.prioritised 2 4 0 = Ok 2.
Proof.
  destruct (normalize_prio_is_distance_to_min Cases.prioritised 0%nat 2) as (Hn & Hp & _);
    [reflexivity | reflexivity | unfold INT_MIN; simpl; lia | simpl; lia
     | unfold INT_MAX; simpl; lia | unfold INT_MIN, INT_MAX; simpl; lia |].
  split; [exact Hn|]. rewrite Hn in Hp. exact Hp.
Defined.

(** A task of priority 5 in a context whose priorities end at 3. *)
Lemma commit_above_max_priority_faults_witness :
  push_task_on_best_worker Cases.prioritised (Scenario.plain_task 9 5 []) 0
    (Scenario.F 7) (Scenario.F 2) true 0 Cases.bucketed_worker = Fault OutOfBounds.
Proof.
  apply (commit_above_max_priority_faults Cases.prioritised (Scenario.plain_task 9 5 []) 0
           (Scenario.F 7) (Scenario.F 2) true 0%nat Cases.bucketed_worker
           (mk_fifo [] 0 (replicate 4 0) 0 (Scenario.F 0) (Scenario.F 0)
                    (Scenario.F 0) (replicate 4 (Scenario.F 0)))).
  - reflexivity.
  - reflexivity.
  - unfold INT_MIN. simpl. lia.
  - simpl. lia.
  - unfold INT_MAX. simpl. lia.
  - reflexivity.
  - lia.
  - reflexivity.
  - reflexivity.
  - split; reflexivity.
  - simpl. lia.
  - unfold INT_MAX. simpl. lia.
  - left. reflexivity.
Defined.

(** The seven operations of [Cases.sorted_day] return and leave the
    counters of the worker's queue in step with its tasks. *)
Lemma bucket_counts_invariant_witness :
  exists w',
    run_ops Cases.prioritised Cases.sorted_day Cases.bucketed_worker = Ok w'
    /\ all_buckets_counted Cases.prioritised w'.
Proof.
  destruct (run_ops Cases.prioritised Cases.sorted_day Cases.bucketed_worker)
    as [w'|f] eqn:Hr; [|vm_compute in Hr; discriminate].
  exists w'. split; [reflexivity|].
  refine (bucket_counts_invariant Cases.prioritised Cases.sorted_day
            Cases.bucketed_worker w' eq_refl _ Hr).
  intros k f Hk. unfold Cases.bucketed_worker in Hk. simpl in Hk.
  apply lookup_insert_Some in Hk. destruct Hk as [[_ <-]|[_ Hk]]; [reflexivity|].
  rewrite lookup_empty in Hk. discriminate.
Defined.

(* ================================================================== *)
(** * The worker a push chooses *)

Section ChosenWorker.
Context {D : Type} `{DoubleOps D}.
Variable rt : runtime (D := D).

Lemma fold_left_inv {A B} (f : A -> B -> A) (I : A -> Prop) (l : list B) :
  (forall a x, In x l -> I a -> I (f a x)) -> forall a, I a -> I (fold_left f l a).
Proof.
  induction l as [|x l IH]; intros Hstep a Ha; simpl; [exact Ha|].
  apply IH.
  - intros a0 y Hy. apply Hstep. right. exact Hy.
  - apply Hstep; [left; reflexivity | exact Ha].
Qed.

Lemma fold_outcome_inv {A B} (f : A -> B -> outcome A) (I : A -> Prop) (l : list B) :
  (forall a x a', In x l -> f a x = Ok a' -> I a -> I a') ->
  forall a a', fold_outcome f l a = Ok a' -> I a -> I a'.
Proof.
  induction l as [|x l IH]; intros Hstep a a' Hf Ha; simpl in Hf.
  - injection Hf as <-. exact Ha.
  - ok_step Hf. eapply IH; [|exact Hf|].
    + intros a1 y a2 Hy. apply Hstep. right. exact Hy.
    + eapply Hstep; [left; reflexivity | exact Hok | exact Ha].
Qed.

Lemma unset_or_worker_step (E : list nat) (worker : nat) (z z' : Z) :
  In worker E -> unset_or_worker_of E z ->
  z' = z \/ z' = Z.of_nat worker -> unset_or_worker_of E z'.
Proof.
  intros Hin Hz [->| ->]; [exact Hz|]. right. exists worker. auto.
Qed.

Lemma sint_worker (worker : nat) : Z.of_nat worker <= INT_MAX -> sint (Z.of_nat worker) = Z.of_nat worker.
Proof. unfold INT_MAX. intros Hw. apply sint_small. lia. Qed.

(** *** [_dm_push_task] *)

Lemma dm_candidate_workers (task : starpu_task (D := D)) (ctx worker : nat)
    (fifo : _starpu_fifo_taskq (D := D)) (s : D) (L : dm_locals (D := D)) (nimpl : nat) :
  Z.of_nat worker <= INT_MAX ->
  let L' := dm_candidate rt task ctx worker fifo s L nimpl in
  (dm_best L' = dm_best L \/ dm_best L' = Z.of_nat worker)
  /\ (dm_ntasks_best L' = dm_ntasks_best L \/ dm_ntasks_best L' = Z.of_nat worker).
Proof.
  intros Hw. unfold dm_candidate. cbv zeta.
  repeat (match goal with
          | |- context [if ?c then _ else _] => destruct c
          end; simpl);
    rewrite ?(sint_worker _ Hw); auto.
Qed.

Lemma dm_worker_eligible (task : starpu_task (D := D)) (ctx : nat) (E : list nat)
    (worker : nat) (acc acc' : dm_locals (D := D) * world (D := D)) :
  (can_execute rt task worker = true -> In worker E) ->
  Z.of_nat worker <= INT_MAX ->
  dm_worker rt task ctx acc worker = Ok acc' ->
  unset_or_worker_of E (dm_best (fst acc))
  /\ unset_or_worker_of E (dm_ntasks_best (fst acc)) ->
  unset_or_worker_of E (dm_best (fst acc'))
  /\ unset_or_worker_of E (dm_ntasks_best (fst acc')).
Proof.
  unfold dm_worker, can_execute. destruct acc as [L w]. intros Hin Hw Hd Hinv.
  ok_step Hd. destruct (refreshed_start rt a w) as [s w1].
  destruct (worker_can_execute_task_impl rt worker task) as [can m].
  destruct can; simpl in *; injection Hd as <-; [|exact Hinv]. simpl.
  unfold dm_impls. apply fold_left_inv; [|exact Hinv].
  intros L0 n _ [I1 I2]. destruct (mask_has m n); [|auto].
  destruct (dm_candidate_workers task ctx worker a s L0 n Hw) as [C1 C2].
  split.
  - exact (unset_or_worker_step E worker _ _ (Hin eq_refl) I1 C1).
  - exact (unset_or_worker_step E worker _ _ (Hin eq_refl) I2 C2).
Qed.

Lemma dm_scan_eligible (task : starpu_task (D := D)) (ctx : nat)
    (L : dm_locals (D := D)) (w w1 : world (D := D)) :
  workers_are_ints (ctx_masters rt ctx) ->
  dm_scan rt task ctx w = Ok (L, w1) ->
  unset_or_worker_of (eligible_workers rt task ctx) (dm_best L)
  /\ unset_or_worker_of (eligible_workers rt task ctx) (dm_ntasks_best L).
Proof.
  unfold dm_scan. intros Hints Hs.
  apply (fold_outcome_inv (dm_worker rt task ctx)
           (fun acc => unset_or_worker_of (eligible_workers rt task ctx) (dm_best (fst acc))
                       /\ unset_or_worker_of (eligible_workers rt task ctx)
                            (dm_ntasks_best (fst acc)))) in Hs.
  - exact Hs.
  - intros acc x acc' Hx. apply dm_worker_eligible.
    + intros Hcan. apply filter_In. split; [exact Hx | exact Hcan].
    + apply (proj1 (List.Forall_forall _ _) Hints). exact Hx.
  - simpl. split; left; reflexivity.
Qed.

(** *** [compute_all_performance_predictions] *)

Lemma predict_candidate_worker (task : starpu_task (D := D)) (nworkers ctx : nat)
    (sorted_decision : bool) (np task_prio : Z) (worker : nat)
    (fifo : _starpu_fifo_taskq (D := D)) (s : D) (P P' : predictions (D := D))
    (nimpl : nat) :
  Z.of_nat worker <= INT_MAX ->
  predict_candidate rt task nworkers ctx sorted_decision np task_prio worker fifo s P nimpl
    = Ok P' ->
  p_ntasks_best P' = p_ntasks_best P \/ p_ntasks_best P' = Z.of_nat worker.
Proof.
  unfold predict_candidate. intros Hw Hp.
  ok_step Hp. destruct a as [prev_exp_len fifo_ntasks].
  ok_step Hp. ok_step Hp. ok_step Hp. ok_step Hp.
  destruct (if disnan _ || diszero _ then true else p_unknown P).
  - injection Hp as <-. simpl. destruct (greedy_takes _ _ _ _ _); [|auto].
    rewrite (sint_worker _ Hw). auto.
  - ok_step Hp. ok_step Hp. injection Hp as <-. simpl.
    destruct (greedy_takes _ _ _ _ _); [|auto].
    rewrite (sint_worker _ Hw). auto.
Qed.

Lemma predict_worker_eligible (task : starpu_task (D := D)) (nworkers ctx : nat)
    (sorted_decision : bool) (np task_prio : Z) (E : list nat) (worker : nat)
    (acc acc' : predictions (D := D) * world (D := D)) :
  (can_execute rt task worker = true -> In worker E) ->
  Z.of_nat worker <= INT_MAX ->
  predict_worker rt task nworkers ctx sorted_decision np task_prio acc worker = Ok acc' ->
  unset_or_worker_of E (p_ntasks_best (fst acc)) ->
  unset_or_worker_of E (p_ntasks_best (fst acc')).
Proof.
  unfold predict_worker, can_execute. destruct acc as [P w]. intros Hin Hw Hp Hinv.
  destruct (queue_array (dt w) !! worker) as [fifo|]; [|discriminate].
  destruct (refreshed_start rt fifo w) as [s w1].
  destruct (worker_can_execute_task_impl rt worker task) as [can m].
  destruct can; simpl in *; [|injection Hp as <-; exact Hinv].
  ok_step Hp. rename a into P1. injection Hp as <-. simpl.
  apply (fold_outcome_inv _ (fun P => unset_or_worker_of E (p_ntasks_best P))) in Hok;
    [exact Hok | | exact Hinv].
  intros P0 n P0' _ Hstep I0. destruct (mask_has m n).
  - apply predict_candidate_worker in Hstep; [|exact Hw].
    exact (unset_or_worker_step E worker _ _ (Hin eq_refl) I0 Hstep).
  - injection Hstep as <-. exact I0.
Qed.

Lemma compute_all_eligible (task : starpu_task (D := D)) (nworkers ctx : nat)
    (sorted_decision : bool) (P : predictions (D := D)) (w w1 : world (D := D)) :
  workers_are_ints (ctx_masters rt ctx) ->
  compute_all_performance_predictions rt task nworkers ctx sorted_decision w = Ok (P, w1) ->
  unset_or_worker_of (eligible_workers rt task ctx) (p_ntasks_best P).
Proof.
  unfold compute_all_performance_predictions. intros Hints Hc. ok_step Hc.
  apply (fold_outcome_inv _
           (fun acc => unset_or_worker_of (eligible_workers rt task ctx)
                         (p_ntasks_best (fst acc)))) in Hc.
  - exact Hc.
  - intros acc x acc' Hx. apply predict_worker_eligible.
    + intros Hcan. apply filter_In. split; [exact Hx | exact Hcan].
    + apply (proj1 (List.Forall_forall _ _) Hints). exact Hx.
  - simpl. left. reflexivity.
Qed.

(** *** The selection loop of [_dmda_push_task] *)

Lemma written_before_next (wc n0 : nat) (key : nat * nat) :
  written_before wc n0 key -> written_before wc (S n0) key.
Proof. unfold written_before. intros [?|[? ?]]; [left | right]; lia. Qed.

Lemma chosen_so_far_skip (task : starpu_task (D := D)) (E : list nat) (wc n0 : nat)
    (S0 : selection (D := D)) :
  chosen_so_far rt task E wc n0 S0 -> chosen_so_far rt task E wc (S n0) S0.
Proof.
  intros (Hwc & Hdom & Hbest). split; [exact Hwc|]. split; [|exact Hbest].
  intros key f Hk. apply written_before_next. eapply Hdom. exact Hk.
Qed.

Lemma select_candidate_chosen (d : _starpu_dmda_data (D := D)) (task : starpu_task (D := D))
    (nworkers : nat) (P : predictions (D := D)) (E : list nat) (wc worker nimpl : nat)
    (S0 S1 : selection (D := D)) :
  E !! wc = Some worker ->
  Z.of_nat worker <= INT_MAX ->
  (nimpl < STARPU_MAXIMPLEMENTATIONS rt)%nat ->
  mask_has (snd (worker_can_execute_task_impl rt worker task)) nimpl = true ->
  select_candidate rt d nworkers P worker S0 nimpl = Ok S1 ->
  chosen_so_far rt task E wc nimpl S0 ->
  chosen_so_far rt task E wc (S nimpl) S1.
Proof.
  intros HE Hw Hn Hmask Hs (Hwc & Hdom & Hbest). unfold select_candidate in Hs.
  ok_step Hs. ok_step Hs. ok_step Hs. ok_step Hs. rename a2 into fit.
  apply mwrite_ok in Hok2. rewrite Hwc in *.
  assert (Hdom' : forall key f, fit !! key = Some f -> written_before wc (S nimpl) key).
  { intros key f. rewrite Hok2. destruct (decide (key = (wc, nimpl))) as [->|Hne].
    - intros _. right. simpl. lia.
    - rewrite lookup_insert_ne by congruence. intros Hk.
      apply written_before_next. eapply Hdom. exact Hk. }
  destruct ((s_best S0 =? -1) || dlt _ (s_best_fitness S0)) eqn:Hc; injection Hs as <-.
  - split; [reflexivity|]. split; [exact Hdom'|]. simpl. intros _.
    exists wc, worker, nimpl. rewrite (sint_worker _ Hw), Hok2, lookup_insert_eq.
    repeat split; assumption.
  - apply orb_false_iff in Hc. destruct Hc as [Hb _]. apply Z.eqb_neq in Hb.
    split; [reflexivity|]. split; [exact Hdom'|]. simpl. intros _.
    destruct (Hbest Hb) as (k & x & n & A1 & A2 & A3 & A4 & A5 & A6 & A7).
    exists k, x, n. repeat split; try assumption.
    rewrite Hok2, lookup_insert_ne; [exact A7|].
    intros [= <- <-]. specialize (Hdom _ _ A7). unfold written_before in Hdom.
    simpl in Hdom. lia.
Qed.

Lemma select_impls_chosen (d : _starpu_dmda_data (D := D)) (task : starpu_task (D := D))
    (nworkers : nat) (P : predictions (D := D)) (E : list nat) (wc worker : nat) :
  E !! wc = Some worker ->
  Z.of_nat worker <= INT_MAX ->
  forall (len n0 : nat) (S0 S1 : selection (D := D)),
    (n0 + len <= STARPU_MAXIMPLEMENTATIONS rt)%nat ->
    fold_outcome
      (fun S nimpl =>
         if mask_has (snd (worker_can_execute_task_impl rt worker task)) nimpl
         then select_candidate rt d nworkers P worker S nimpl
         else Ok S) (seq n0 len) S0 = Ok S1 ->
    chosen_so_far rt task E wc n0 S0 ->
    chosen_so_far rt task E wc (n0 + len) S1.
Proof.
  intros HE Hw. induction len as [|len IH]; intros n0 S0 S1 Hle Hf Hinv; simpl in Hf.
  - injection Hf as <-. rewrite Nat.add_0_r. exact Hinv.
  - ok_step Hf. replace (n0 + S len)%nat with (S n0 + len)%nat by lia.
    apply (IH (S n0) a S1); [lia | exact Hf|].
    destruct (mask_has _ n0) eqn:Hm.
    + eapply select_candidate_chosen; eauto. lia.
    + injection Hok as <-. apply chosen_so_far_skip. exact Hinv.
Qed.

Lemma chosen_so_far_grow (task : starpu_task (D := D)) (E E' : list nat) (wc n0 : nat)
    (S0 : selection (D := D)) :
  chosen_so_far rt task E wc n0 S0 -> chosen_so_far rt task (E ++ E') wc n0 S0.
Proof.
  intros (Hwc & Hdom & Hbest). split; [exact Hwc|]. split; [exact Hdom|].
  intros Hb. destruct (Hbest Hb) as (k & x & n & A1 & A).
  exists k, x, n. split; [|exact A]. apply lookup_app_l_Some. exact A1.
Qed.

Lemma select_workers_chosen (d : _starpu_dmda_data (D := D)) (task : starpu_task (D := D))
    (nworkers : nat) (P : predictions (D := D)) (ws : list nat) :
  workers_are_ints ws ->
  forall (E0 : list nat) (S0 S1 : selection (D := D)),
    fold_outcome (select_worker rt d task nworkers P) ws S0 = Ok S1 ->
    chosen_so_far rt task E0 (length E0) 0 S0 ->
    chosen_so_far rt task (E0 ++ List.filter (can_execute rt task) ws)
      (length (E0 ++ List.filter (can_execute rt task) ws)) 0 S1.
Proof.
  induction ws as [|x ws IH]; intros Hints E0 S0 S1 Hf Hinv; simpl in Hf.
  - injection Hf as <-. simpl. rewrite app_nil_r. exact Hinv.
  - inversion Hints as [|? ? Hx Hws]; subst. ok_step Hf. rename a into S2.
    unfold select_worker in Hok. simpl.
    assert (Hcx : can_execute rt task x = fst (worker_can_execute_task_impl rt x task))
      by reflexivity.
    destruct (worker_can_execute_task_impl rt x task) as [can m] eqn:Ecan.
    simpl in Hcx. rewrite Hcx. destruct can; simpl in *.
    + ok_step Hok. rename a into Sa. injection Hok as <-.
      replace (E0 ++ x :: List.filter (can_execute rt task) ws)
        with ((E0 ++ [x]) ++ List.filter (can_execute rt task) ws)
        by (rewrite <- app_assoc; reflexivity).
      apply (IH Hws (E0 ++ [x]) _ _ Hf).
      assert (HE : (E0 ++ [x]) !! length E0 = Some x).
      { rewrite lookup_app_r by lia. rewrite Nat.sub_diag. reflexivity. }
      pose proof (select_impls_chosen d task nworkers P (E0 ++ [x]) (length E0) x HE Hx
                    (STARPU_MAXIMPLEMENTATIONS rt) 0 S0 Sa) as Hin.
      rewrite Ecan in Hin. simpl in Hin.
      destruct (Hin (Nat.le_refl _) Hok0 (chosen_so_far_grow _ _ _ _ _ _ Hinv))
        as (Hwc & Hdom & Hbest).
      rewrite length_app. simpl. split; [simpl; lia|]. split.
      * intros key f Hk. specialize (Hdom _ _ Hk). unfold written_before in *. lia.
      * exact Hbest.
    + injection Hok as <-. exact (IH Hws E0 _ _ Hf Hinv).
Qed.

Lemma select_best_chosen (d : _starpu_dmda_data (D := D)) (task : starpu_task (D := D))
    (nworkers ctx : nat) (P : predictions (D := D)) (S1 : selection (D := D)) :
  workers_are_ints (ctx_masters rt ctx) ->
  select_best rt d task nworkers ctx P = Ok S1 ->
  exists wc, chosen_so_far rt task (eligible_workers rt task ctx) wc 0 S1.
Proof.
  unfold select_best. intros Hints Hs.
  assert (Hinit : chosen_so_far rt task [] (length (@nil nat)) 0 (selection_initial (D := D))).
  { split; [reflexivity|]. split.
    - intros key f Hk. simpl in Hk. rewrite lookup_empty in Hk. discriminate.
    - simpl. congruence. }
  destruct (forced_worker P =? -1).
  - eexists. apply (select_workers_chosen d task nworkers P _ Hints [] _ _ Hs Hinit).
  - injection Hs as <-. exists 0%nat.
    apply (chosen_so_far_grow task [] (eligible_workers rt task ctx)) in Hinit. exact Hinit.
Qed.

Lemma dmda_decide_eligible (task : starpu_task (D := D)) (ctx : nat)
    (sorted_decision : bool) (dec : decision (D := D)) (w w1 : world (D := D)) :
  workers_are_ints (ctx_masters rt ctx) ->
  dmda_decide rt task ctx sorted_decision w = Ok (dec, w1) ->
  is_worker_of (eligible_workers rt task ctx) (c_best (d_args dec)).
Proof.
  unfold dmda_decide. intros Hints Hd. ok_step Hd. destruct a as [P w0].
  apply compute_all_eligible in Hok; [|exact Hints].
  ok_step Hd. rename a into S1. apply select_best_chosen in Hok0; [|exact Hints].
  destruct Hok0 as (wc & _ & _ & Hbest).
  destruct (Z.eqb_spec (forced_worker P) (-1)) as [Hf|Hf]; simpl in Hd.
  - destruct (Z.eqb_spec (s_best S1) (-1)) as [Hb|Hb]; [discriminate|].
    destruct (Hbest Hb) as (k & x & n & A1 & _ & _ & A4 & _).
    ok_step Hd. rename a into args. injection Hd as <- _. simpl.
    assert (Hc : c_best args = s_best S1).
    { destruct (bundle task).
      - injection Hok0 as <-. reflexivity.
      - ok_step Hok0. ok_step Hok0. injection Hok0 as <-. reflexivity. }
    rewrite Hc, A4. exists x. split; [|reflexivity].
    apply list_elem_of_In. eapply list_elem_of_lookup_2. exact A1.
  - injection Hd as <- _. simpl.
    unfold forced_worker in *. destruct (p_unknown P); [|contradiction].
    destruct Hok as [Hu|Hu]; [contradiction | exact Hu].
Qed.

End ChosenWorker.

Section PushOutcome.
Context {D : Type} `{DoubleOps D}.
Variable rt : runtime (D := D).

Lemma commit_on_worker (task t : starpu_task (D := D)) (worker : nat) (p pt : D)
    (prio : bool) (ctx : nat) (w w1 w' : world (D := D)) (r : Z) :
  no_child_context rt ctx ->
  In worker (eligible_workers rt task ctx) ->
  same_queues w w1 ->
  push_task_on_best_worker rt t (Z.of_nat worker) p pt prio ctx w1 = Ok (r, w') ->
  exists fifo fifo' pt',
    queue_array (dt w) !! worker = Some fifo
    /\ queue_array (dt w') !! worker = Some fifo'
    /\ taskq fifo' ≡ₚ set_predictions t p pt' :: taskq fifo
    /\ (forall k, k <> worker -> queue_array (dt w') !! k = queue_array (dt w) !! k).
Proof.
  intros Hchild Hin [Hdt _] Hp.
  assert (Hm : In worker (ctx_masters rt ctx)).
  { unfold eligible_workers in Hin. apply filter_In in Hin. apply Hin. }
  destruct (commit_effect rt _ _ _ _ _ _ _ _ _ (Hchild _ Hm) Hp)
    as (fifo & fifo' & pt' & _ & Hk & Hdt' & Hq & _).
  rewrite Nat2Z.id in *. rewrite Hdt in *.
  exists fifo, fifo', pt'. split; [exact Hk|]. rewrite Hdt'. simpl.
  split; [apply lookup_insert_eq|]. split.
  - rewrite Hq. destruct prio.
    + apply insert_sorted_Permutation.
    + symmetry. apply Permutation_cons_append.
  - intros k Hne. apply lookup_insert_ne. congruence.
Qed.

Lemma commit_is_not_minus_one (t : starpu_task (D := D)) (best : Z) (p pt : D)
    (prio : bool) (ctx : nat) (w w' : world (D := D)) (r : Z) :
  push_task_on_best_worker rt t best p pt prio ctx w = Ok (r, w') -> best <> -1.
Proof.
  unfold push_task_on_best_worker. destruct (Z.eqb_spec best (-1)); [discriminate | auto].
Qed.

(** X10. A push that returns has enqueued the task exactly once, on a
    master of the context that can execute it: in both [_dm_push_task]
    and [_dmda_push_task] the queue of one eligible worker gains the task
    (with the chosen implementation and the prediction slots written) and
    every other queue is unchanged.  No master leads a child context
    here, and worker identifiers fit in an [int]. *)
Theorem push_enqueues_on_eligible_worker (task : starpu_task (D := D)) (prio : bool)
    (ctx : nat) (w w' : world (D := D)) :
  workers_are_ints (ctx_masters rt ctx) ->
  no_child_context rt ctx ->
  (forall r, _dm_push_task rt task prio ctx w = Ok (r, w') ->
     enqueued_on_eligible rt task ctx w w')
  /\ (forall sorted_decision r,
        _dmda_push_task rt task prio ctx false sorted_decision w = Ok (r, w') ->
        enqueued_on_eligible rt task ctx w w').
Proof.
  intros Hints Hchild. split.
  - intros r Hp. unfold _dm_push_task in Hp. ok_step Hp. destruct a as [L w1].
    pose proof (dm_scan_same rt _ _ _ _ _ Hok) as Hsame.
    apply dm_scan_eligible in Hok; [|exact Hints]. destruct Hok as [Hb Hn].
    pose proof (commit_is_not_minus_one _ _ _ _ _ _ _ _ _ Hp) as Hne.
    assert (Hw : is_worker_of (eligible_workers rt task ctx) (c_best (dm_choice L))).
    { unfold dm_choice in *. destruct (dm_unknown L); simpl in *.
      - destruct Hn as [Hn|Hn]; [contradiction | exact Hn].
      - destruct Hb as [Hb|Hb]; [contradiction | exact Hb]. }
    destruct Hw as (worker & Hin & Hbest). rewrite Hbest in Hp.
    destruct (commit_on_worker task _ worker _ _ _ _ w w1 w' r Hchild Hin Hsame Hp)
      as (fifo & fifo' & pt' & A1 & A2 & A3 & A4).
    exists worker, fifo, fifo'. eexists _, _, pt'. repeat split; eassumption.
  - intros sd r Hp. unfold _dmda_push_task in Hp. ok_step Hp. destruct a as [dec w1].
    pose proof (dmda_decide_same rt _ _ _ _ _ _ Hok) as Hsame.
    apply dmda_decide_eligible in Hok; [|exact Hints].
    destruct Hok as (worker & Hin & Hbest). simpl in Hp.
    ok_step Hp. destruct a as [ret w2]. injection Hp as _ <-. rewrite Hbest in Hok.
    destruct (commit_on_worker task _ worker _ _ _ _ w w1 w2 ret Hchild Hin Hsame Hok)
      as (fifo & fifo' & pt' & A1 & A2 & A3 & A4).
    exists worker, fifo, fifo'. eexists _, _, pt'. repeat split; eassumption.
Qed.

(** *** No master can execute the task *)

Lemma no_eligible_worker (task : starpu_task (D := D)) (ctx : nat) :
  eligible_workers rt task ctx = [] ->
  forall x, In x (ctx_masters rt ctx) -> fst (worker_can_execute_task_impl rt x task) = false.
Proof.
  unfold eligible_workers. intros He x Hx.
  destruct (fst (worker_can_execute_task_impl rt x task)) eqn:Hc; [|reflexivity].
  assert (Hin : In x (List.filter
                        (fun worker => fst (worker_can_execute_task_impl rt worker task))
                        (ctx_masters rt ctx))).
  { apply filter_In. auto. }
  rewrite He in Hin. destruct Hin.
Qed.

Lemma dm_workers_idle (task : starpu_task (D := D)) (ctx : nat) (ws : list nat) :
  (forall x, In x ws -> fst (worker_can_execute_task_impl rt x task) = false) ->
  forall (L L' : dm_locals (D := D)) (w w' : world (D := D)),
    fold_outcome (dm_worker rt task ctx) ws (L, w) = Ok (L', w') -> L' = L.
Proof.
  intros Hno L L' w w' Hf.
  apply (fold_outcome_inv _ (fun acc => fst acc = L)) in Hf; [exact Hf | | reflexivity].
  intros [L0 w0] x [L1 w1] Hx Hstep HL. simpl in *. subst L0.
  unfold dm_worker in Hstep. ok_step Hstep.
  destruct (refreshed_start rt a w0) as [s wa].
  specialize (Hno x Hx). destruct (worker_can_execute_task_impl rt x task) as [can m].
  simpl in Hno. subst can. injection Hstep as <- _. reflexivity.
Qed.

Lemma dm_workers_idle_run (task : starpu_task (D := D)) (ctx : nat) (ws : list nat)
    (L : dm_locals (D := D)) :
  (forall x, In x ws -> fst (worker_can_execute_task_impl rt x task) = false) ->
  forall w : world (D := D),
    (forall x, In x ws -> is_Some (queue_array (dt w) !! x)) ->
    exists w', fold_outcome (dm_worker rt task ctx) ws (L, w) = Ok (L, w').
Proof.
  induction ws as [|x ws IH]; intros Hno w Hq; simpl.
  - eauto.
  - destruct (Hq x (or_introl eq_refl)) as [fifo Hfifo].
    unfold dm_worker at 1. apply get_fifo_ok in Hfifo. rewrite Hfifo. simpl.
    destruct (refreshed_start rt fifo w) as [s w1] eqn:E.
    apply refreshed_start_same in E. destruct E as [Hdt _].
    pose proof (Hno x (or_introl eq_refl)) as Hx.
    destruct (worker_can_execute_task_impl rt x task) as [can m]. simpl in Hx. subst can.
    simpl. apply IH.
    + intros y Hy. apply Hno. right. exact Hy.
    + intros y Hy. rewrite Hdt. apply Hq. right. exact Hy.
Qed.

Lemma predict_workers_idle (task : starpu_task (D := D)) (nworkers ctx : nat)
    (sorted_decision : bool) (np task_prio : Z) (ws : list nat) (P : predictions (D := D)) :
  (forall x, In x ws -> fst (worker_can_execute_task_impl rt x task) = false) ->
  forall w : world (D := D),
    fold_outcome (predict_worker rt task nworkers ctx sorted_decision np task_prio) ws (P, w)
      = Fault AssertFailed
    \/ exists w',
         fold_outcome (predict_worker rt task nworkers ctx sorted_decision np task_prio)
           ws (P, w) = Ok (P, w').
Proof.
  induction ws as [|x ws IH]; intros Hno w; simpl.
  - right. eauto.
  - destruct (queue_array (dt w) !! x) as [fifo|]; [|left; reflexivity].
    destruct (refreshed_start rt fifo w) as [s w1].
    pose proof (Hno x (or_introl eq_refl)) as Hx.
    destruct (worker_can_execute_task_impl rt x task) as [can m]. simpl in Hx. subst can.
    simpl. apply IH. intros y Hy. apply Hno. right. exact Hy.
Qed.

Lemma select_workers_idle (d : _starpu_dmda_data (D := D)) (task : starpu_task (D := D))
    (nworkers : nat) (P : predictions (D := D)) (ws : list nat) (S0 : selection (D := D)) :
  (forall x, In x ws -> fst (worker_can_execute_task_impl rt x task) = false) ->
  fold_outcome (select_worker rt d task nworkers P) ws S0 = Ok S0.
Proof.
  induction ws as [|x ws IH]; intros Hno; simpl; [reflexivity|].
  assert (Hs : select_worker rt d task nworkers P S0 x = Ok S0).
  { unfold select_worker. pose proof (Hno x (or_introl eq_refl)) as Hx.
    destruct (worker_can_execute_task_impl rt x task) as [can m]. simpl in Hx. subst can.
    reflexivity. }
  rewrite Hs. simpl. apply IH. intros y Hy. apply Hno. right. exact Hy.
Qed.

(** X11. When no master of the context can execute the task, no push
    returns: [_dm_push_task] stops at the assertion
    [best_workerid != -1] of [push_task_on_best_worker] (once every master
    has a queue to read), and [_dmda_push_task], simulated or not, at one
    of its own assertions. *)
Theorem push_without_eligible_worker_fails (task : starpu_task (D := D)) (prio : bool)
    (ctx : nat) (w : world (D := D)) :
  eligible_workers rt task ctx = [] ->
  is_ok (_dm_push_task rt task prio ctx w) = false
  /\ (masters_have_queues rt ctx w ->
      _dm_push_task rt task prio ctx w = Fault AssertFailed)
  /\ (forall simulate sorted_decision,
        is_ok (_dmda_push_task rt task prio ctx simulate sorted_decision w) = false)
  /\ (forall simulate,
        _dmda_push_task rt task prio ctx simulate false w = Fault AssertFailed).
Proof.
  intros He. pose proof (no_eligible_worker task ctx He) as Hno.
  assert (Hdmda : forall sorted_decision,
             (exists f, compute_all_performance_predictions rt task (ctx_nworkers rt ctx) ctx
                          sorted_decision w = Fault f
                        /\ (sorted_decision = false -> f = AssertFailed))
             \/ dmda_decide rt task ctx sorted_decision w = Fault AssertFailed).
  { intros sd. unfold dmda_decide, compute_all_performance_predictions.
    destruct (if sd && negb (num_priorities (dt w) =? -1)
              then _normalize_prio rt (priority task) (num_priorities (dt w)) ctx
              else Ok 0) as [task_prio|f] eqn:Hprio.
    2:{ left. exists f. split; [reflexivity|]. intros ->. discriminate. }
    simpl.
    destruct (predict_workers_idle task (ctx_nworkers rt ctx) ctx sd (num_priorities (dt w))
                task_prio (ctx_masters rt ctx) predictions_initial Hno w) as [Hf|[w1 Hf]].
    - left. exists AssertFailed. auto.
    - right. rewrite Hf. simpl. unfold select_best. simpl.
      rewrite select_workers_idle by exact Hno. reflexivity. }
  split; [|split; [|split]].
  - destruct (_dm_push_task rt task prio ctx w) as [[r w']|f] eqn:Hp; [|reflexivity].
    exfalso. unfold _dm_push_task in Hp. ok_step Hp. destruct a as [L w1].
    apply dm_workers_idle in Hok; [|exact Hno]. subst L.
    apply commit_is_not_minus_one in Hp. apply Hp. reflexivity.
  - intros Hq. unfold _dm_push_task, dm_scan.
    destruct (dm_workers_idle_run task ctx (ctx_masters rt ctx) dm_initial Hno w Hq)
      as [w1 ->].
    reflexivity.
  - intros simulate sd. unfold _dmda_push_task.
    destruct (Hdmda sd) as [(f & Hc & _)| ->]; [|reflexivity].
    unfold dmda_decide. rewrite Hc. reflexivity.
  - intros simulate. unfold _dmda_push_task.
    destruct (Hdmda false) as [(f & Hc & Hf)| ->]; [|reflexivity].
    unfold dmda_decide. rewrite Hc, (Hf eq_refl). reflexivity.
Qed.

End PushOutcome.

(** A [dmda] push on the two idle workers. *)
Lemma push_enqueues_on_eligible_worker_witness :
  exists r w',
    _dmda_push_task Scenario.calibrated (Scenario.plain_task 1 0 []) false 0 false false
      (Scenario.two_idle_workers (D := spec_float)) = Ok (r, w')
    /\ enqueued_on_eligible Scenario.calibrated (Scenario.plain_task 1 0 []) 0
         Scenario.two_idle_workers w'.
Proof.
  destruct (_dmda_push_task Scenario.calibrated (Scenario.plain_task 1 0 []) false 0 false
              false (Scenario.two_idle_workers (D := spec_float)))
    as [[r w']|f] eqn:Hp; [|vm_compute in Hp; discriminate].
  exists r, w'. split; [reflexivity|].
  refine (proj2 (push_enqueues_on_eligible_worker Scenario.calibrated
                   (Scenario.plain_task 1 0 []) false 0%nat Scenario.two_idle_workers w'
                   _ _) false r Hp).
  - repeat constructor; unfold INT_MAX; simpl; lia.
  - intros worker _. reflexivity.
Defined.

(** Neither worker can run the task: both pushes stop at an assertion. *)
Lemma push_without_eligible_worker_fails_witness :
  _dm_push_task Cases.nobody_can (Scenario.plain_task 1 0 []) false 0
    Scenario.two_idle_workers = Fault AssertFailed
  /\ _dmda_push_task Cases.nobody_can (Scenario.plain_task 1 0 []) false 0 false false
       Scenario.two_idle_workers = Fault AssertFailed.
Proof.
  destruct (push_without_eligible_worker_fails Cases.nobody_can
              (Scenario.plain_task 1 0 []) false 0%nat Scenario.two_idle_workers eq_refl)
    as (_ & Hdm & _ & Hdmda).
  split; [|exact (Hdmda false)].
  apply Hdm. intros worker Hw. simpl in Hw.
  destruct Hw as [<-|[<-|[]]]; vm_compute; eauto.
Defined.

(* ================================================================== *)
(** * The candidate a [dmda] decision commits *)

(** ** Both arithmetics order their doubles *)

Lemma SFltb_irrefl (a : spec_float) : SFltb a a = false.
Proof.
  unfold SFltb, SFcompare. destruct a as [s|s| |s m e]; try reflexivity.
  - destruct s; reflexivity.
  - rewrite Z.compare_refl. change (Pcompare m m Eq) with (Pos.compare m m).
    rewrite Pos.compare_refl. destruct s; reflexivity.
Qed.

Lemma SFltb_trans (a b c : spec_float) :
  SFltb a b = true -> SFltb b c = true -> SFltb a c = true.
Proof.
  unfold SFltb, SFcompare.
  destruct a as [sa|sa| |sa ma ea], b as [sb|sb| |sb mb eb], c as [sc|sc| |sc mc ec];
    try discriminate; try reflexivity;
    repeat match goal with s : bool |- _ => destruct s end;
    try discriminate; try reflexivity;
    change (Pcompare ?x ?y Eq) with (Pos.compare x y);
    destruct (Z.compare_spec ea eb), (Z.compare_spec eb ec), (Z.compare_spec ea ec);
    try lia; try discriminate; try reflexivity; subst;
    destruct (Pos.compare_spec ma mb), (Pos.compare_spec mb mc), (Pos.compare_spec ma mc);
    simpl; try lia; try discriminate; try reflexivity.
Qed.

#[global] Instance binary64_lt : LtOrder spec_float.
Proof. split; [exact SFltb_irrefl | exact SFltb_trans]. Qed.

Lemma exactQ_lt_trans (x y z : Q) :
  negb (Qle_bool y x) = true -> negb (Qle_bool z y) = true -> negb (Qle_bool z x) = true.
Proof.
  rewrite !negb_true_iff. intros H1 H2.
  destruct (Qle_bool z x) eqn:E; [|reflexivity]. exfalso.
  apply Qle_bool_iff in E.
  assert (A : ~ (y <= x)%Q) by (intros A; apply Qle_bool_iff in A; congruence).
  assert (B : ~ (z <= y)%Q) by (intros B; apply Qle_bool_iff in B; congruence).
  apply Qnot_le_lt in A, B.
  apply (Qlt_irrefl x). eapply Qlt_le_trans; [exact A|].
  eapply Qle_trans; [|exact E]. apply Qlt_le_weak. exact B.
Qed.

#[global] Instance exactQ_lt : LtOrder ExactQ.t.
Proof.
  split.
  - intros [a|]; simpl; [|reflexivity].
    apply negb_false_iff. apply Qle_bool_iff. apply Qle_refl.
  - intros [a|] [b|] [c|]; simpl; try discriminate. apply exactQ_lt_trans.
Qed.

Section MinimalFitness.
Context {D : Type} `{DoubleOps D} `{!LtOrder D}.
Variable rt : runtime (D := D).

Lemma select_candidate_unbeaten (d : _starpu_dmda_data (D := D)) (nworkers : nat)
    (P : predictions (D := D)) (worker nimpl : nat) (S0 S1 : selection (D := D)) :
  Z.of_nat worker <= INT_MAX ->
  select_candidate rt d nworkers P worker S0 nimpl = Ok S1 ->
  unbeaten S0 -> unbeaten S1.
Proof.
  intros Hw Hs Hinv. unfold select_candidate in Hs.
  ok_step Hs. ok_step Hs. ok_step Hs. ok_step Hs. rename a2 into fit.
  apply mwrite_ok in Hok2.
  set (f := fitness_value d a (p_best_exp_end P) (p_max_exp_end P) a0 a1) in *.
  destruct (Z.eqb_spec (s_best S0) (-1)) as [Hb|Hb]; simpl in Hs.
  - injection Hs as <-. intros key g. simpl. rewrite Hok2. intros Hk.
    rewrite (sint_worker _ Hw). split; [lia|].
    destruct (decide (key = (s_worker_ctx S0, nimpl))) as [->|Hne].
    + rewrite lookup_insert_eq in Hk. injection Hk as <-. apply dlt_irrefl.
    + rewrite lookup_insert_ne in Hk by congruence.
      destruct (Hinv _ _ Hk) as [Hc _]. contradiction.
  - destruct (dlt f (s_best_fitness S0)) eqn:Hlt; injection Hs as <-;
      intros key g; simpl; rewrite Hok2; intros Hk.
    + rewrite (sint_worker _ Hw). split; [lia|].
      destruct (decide (key = (s_worker_ctx S0, nimpl))) as [->|Hne].
      * rewrite lookup_insert_eq in Hk. injection Hk as <-. apply dlt_irrefl.
      * rewrite lookup_insert_ne in Hk by congruence.
        destruct (Hinv _ _ Hk) as [_ Hg].
        destruct (dlt g f) eqn:Hgf; [|reflexivity].
        rewrite (dlt_trans _ _ _ Hgf Hlt) in Hg. discriminate.
    + split; [exact Hb|].
      destruct (decide (key = (s_worker_ctx S0, nimpl))) as [->|Hne].
      * rewrite lookup_insert_eq in Hk. injection Hk as <-. exact Hlt.
      * rewrite lookup_insert_ne in Hk by congruence. apply (Hinv _ _ Hk).
Qed.

Lemma select_best_unbeaten (d : _starpu_dmda_data (D := D)) (task : starpu_task (D := D))
    (nworkers ctx : nat) (P : predictions (D := D)) (S1 : selection (D := D)) :
  workers_are_ints (ctx_masters rt ctx) ->
  select_best rt d task nworkers ctx P = Ok S1 -> unbeaten S1.
Proof.
  unfold select_best. intros Hints Hs.
  assert (Hinit : unbeaten (selection_initial (D := D))).
  { intros key f Hk. simpl in Hk. rewrite lookup_empty in Hk. discriminate. }
  destruct (forced_worker P =? -1); [|injection Hs as <-; exact Hinit].
  apply (fold_outcome_inv _ unbeaten) in Hs; [exact Hs | | exact Hinit].
  intros S0 x S2 Hx Hstep Hinv. unfold select_worker in Hstep.
  destruct (worker_can_execute_task_impl rt x task) as [can m].
  destruct can; simpl in Hstep; [|injection Hstep as <-; exact Hinv].
  ok_step Hstep. rename a into Sa. injection Hstep as <-.
  apply (fold_outcome_inv _ unbeaten) in Hok; [exact Hok | | exact Hinv].
  intros Sb n Sc _ Hc Hb. destruct (mask_has m n).
  - eapply select_candidate_unbeaten; [|exact Hc|exact Hb].
    apply (proj1 (List.Forall_forall _ _) Hints). exact Hx.
  - injection Hc as <-. exact Hb.
Qed.

(** X12. When no worker is forced, [_dmda_push_task] commits a candidate
    of least fitness: the committed worker is the [best_in_ctx]-th
    eligible master, the committed implementation is one its mask allows,
    and no cell of the fitness array holds a value below the fitness of
    that candidate.  This needs [<] to be a strict order, which it is in
    binary64 and in exact arithmetic. *)
Theorem dmda_commits_minimal_fitness (task : starpu_task (D := D)) (ctx : nat)
    (sorted_decision : bool) (w w1 : world (D := D)) (dec : decision (D := D)) :
  workers_are_ints (ctx_masters rt ctx) ->
  dmda_decide rt task ctx sorted_decision w = Ok (dec, w1) ->
  d_forced_best dec = -1 ->
  exists k worker nimpl best_fitness,
    eligible_workers rt task ctx !! k = Some worker
    /\ (nimpl < STARPU_MAXIMPLEMENTATIONS rt)%nat
    /\ mask_has (snd (worker_can_execute_task_impl rt worker task)) nimpl = true
    /\ c_best (d_args dec) = Z.of_nat worker
    /\ d_best_in_ctx dec = Z.of_nat k
    /\ c_impl (d_args dec) = Z.of_nat nimpl
    /\ d_fitness dec !! (k, nimpl) = Some best_fitness
    /\ forall key f, d_fitness dec !! key = Some f -> dlt f best_fitness = false.
Proof.
  unfold dmda_decide. intros Hints Hd Hforced. ok_step Hd. destruct a as [P w0].
  ok_step Hd. rename a into S1.
  pose proof (select_best_unbeaten _ _ _ _ _ _ Hints Hok0) as Hun.
  apply select_best_chosen in Hok0; [|exact Hints].
  destruct Hok0 as (wc & _ & _ & Hbest).
  assert (Hf : forced_worker P = -1).
  { destruct ((forced_worker P =? -1) && (s_best S1 =? -1)); [discriminate|].
    ok_step Hd. injection Hd as <- _. exact Hforced. }
  rewrite Hf in Hd. simpl in Hd.
  destruct (Z.eqb_spec (s_best S1) (-1)) as [Hb|Hb]; [discriminate|].
  destruct (Hbest Hb) as (k & x & n & A1 & A2 & A3 & A4 & A5 & A6 & A7).
  ok_step Hd. rename a into args. injection Hd as <- _. simpl.
  assert (Hc : c_best args = s_best S1 /\ c_impl args = s_selected_impl S1).
  { destruct (bundle task).
    - injection Hok0 as <-. split; reflexivity.
    - ok_step Hok0. ok_step Hok0. injection Hok0 as <-. split; reflexivity. }
  destruct Hc as [-> ->].
  exists k, x, n, (s_best_fitness S1). repeat split; try assumption.
  intros key f Hk. apply (Hun _ _ Hk).
Qed.

End MinimalFitness.

(** The two idle workers predict 100 and 20: worker 1 is committed, and
    its fitness is the least. *)
Lemma dmda_commits_minimal_fitness_witness :
  exists dec w1 best_fitness,
    dmda_decide Scenario.calibrated (Scenario.plain_task 1 0 []) 0 false
      (Scenario.two_idle_workers (D := spec_float)) = Ok (dec, w1)
    /\ c_best (d_args dec) = 1
    /\ d_fitness dec !! (1%nat, 0%nat) = Some best_fitness
    /\ forall key f, d_fitness dec !! key = Some f -> dlt f best_fitness = false.
Proof.
  destruct (dmda_decide Scenario.calibrated (Scenario.plain_task 1 0 []) 0 false
              (Scenario.two_idle_workers (D := spec_float)))
    as [[dec w1]|f] eqn:Hd; [|vm_compute in Hd; discriminate].
  assert (Hforced : d_forced_best dec = -1).
  { vm_compute in Hd. injection Hd as <- _. reflexivity. }
  assert (Hbest : c_best (d_args dec) = 1 /\ d_best_in_ctx dec = 1).
  { vm_compute in Hd. injection Hd as <- _. split; reflexivity. }
  assert (Hints : workers_are_ints (ctx_masters (Scenario.calibrated (D := spec_float)) 0)).
  { repeat constructor; unfold INT_MAX; simpl; lia. }
  destruct (dmda_commits_minimal_fitness Scenario.calibrated (Scenario.plain_task 1 0 [])
              0%nat false Scenario.two_idle_workers w1 dec Hints Hd Hforced)
    as (k & worker & nimpl & bf & A1 & A2 & A3 & A4 & A5 & A6 & A7 & A8).
  destruct Hbest as [B1 B2]. rewrite B2 in A5.
  assert (k = 1%nat) by lia. subst k.
  assert (nimpl = 0%nat).
  { simpl in A2, A3. destruct nimpl as [|[|[|[|n]]]]; try reflexivity; try discriminate; lia. }
  subst nimpl.
  exists dec, w1, bf. split; [reflexivity|]. split; [exact B1|]. split; [exact A7 | exact A8].
Defined.

(** ** The predictions committed with the task *)

Section CommittedPredictions.
Context {D : Type} `{DoubleOps D}.
Variable rt : runtime (D := D).

Lemma predict_candidate_length (task : starpu_task (D := D)) (nworkers ctx : nat)
    (sorted_decision : bool) (np task_prio : Z) (worker : nat)
    (fifo : _starpu_fifo_taskq (D := D)) (s : D) (P P' : predictions (D := D))
    (nimpl : nat) :
  predict_candidate rt task nworkers ctx sorted_decision np task_prio worker fifo s P nimpl
    = Ok P' ->
  p_worker_ctx P' = p_worker_ctx P
  /\ local_task_length P'
     = <[(p_worker_ctx P, nimpl) :=
           oracle_length rt task (worker_perf_archtype rt worker ctx) nimpl]>
         (local_task_length P).
Proof.
  unfold predict_candidate. intros Hp.
  ok_step Hp. destruct a as [prev_exp_len fifo_ntasks].
  ok_step Hp. ok_step Hp. rename a0 into length1. ok_step Hp. ok_step Hp.
  apply mwrite_ok in Hok1.
  destruct (if disnan _ || diszero _ then true else p_unknown P).
  - injection Hp as <-. simpl. split; [reflexivity | exact Hok1].
  - ok_step Hp. ok_step Hp. injection Hp as <-. simpl. split; [reflexivity | exact Hok1].
Qed.

Lemma predict_impls_length (task : starpu_task (D := D)) (nworkers ctx : nat)
    (sorted_decision : bool) (np task_prio : Z) (worker : nat)
    (fifo : _starpu_fifo_taskq (D := D)) (s : D) (impl_mask : Z) (l : list nat) :
  forall (P P' : predictions (D := D)),
    fold_outcome
      (fun P nimpl =>
         if mask_has impl_mask nimpl
         then predict_candidate rt task nworkers ctx sorted_decision np task_prio worker
                fifo s P nimpl
         else Ok P) l P = Ok P' ->
    p_worker_ctx P' = p_worker_ctx P
    /\ (forall key, (fst key <> p_worker_ctx P \/ ~ In (snd key) l) ->
          local_task_length P' !! key = local_task_length P !! key)
    /\ (forall nimpl, In nimpl l -> mask_has impl_mask nimpl = true ->
          local_task_length P' !! (p_worker_ctx P, nimpl)
          = Some (oracle_length rt task (worker_perf_archtype rt worker ctx) nimpl)).
Proof.
  induction l as [|n l IH]; intros P P' Hf; simpl in Hf.
  - injection Hf as <-. split; [reflexivity|]. split; [reflexivity|]. intros n [].
  - ok_step Hf. rename a into P1.
    destruct (IH P1 P' Hf) as (Hwc & Hframe & Hcells). clear IH.
    destruct (mask_has impl_mask n) eqn:Em.
    + apply predict_candidate_length in Hok. destruct Hok as [Hwc1 Hlen1].
      split; [congruence|]. split.
      { intros key Hkey. rewrite Hframe.
        - rewrite Hlen1. apply lookup_insert_ne. intros <-. simpl in Hkey.
          destruct Hkey as [Hk|Hk]; [congruence|]. apply Hk. left. reflexivity.
        - rewrite Hwc1. destruct Hkey as [Hk|Hk]; [left; exact Hk|right].
          intros Hin. apply Hk. right. exact Hin. }
      intros nimpl Hin Hmask.
      destruct (in_dec Nat.eq_dec nimpl l) as [Hl|Hl].
      { rewrite <- Hwc1. apply Hcells; assumption. }
      destruct Hin as [<-|Hin]; [|contradiction].
      rewrite Hframe; [|right; exact Hl]. rewrite Hlen1. apply lookup_insert_eq.
    + injection Hok as <-. split; [exact Hwc|]. split.
      { intros key Hkey. apply Hframe.
        destruct Hkey as [Hk|Hk]; [left; exact Hk|right].
        intros Hin. apply Hk. right. exact Hin. }
      intros nimpl Hin Hmask. apply Hcells; [|exact Hmask].
      destruct Hin as [<-|Hin]; [congruence | exact Hin].
Qed.

Lemma predict_workers_length (task : starpu_task (D := D)) (nworkers ctx : nat)
    (sorted_decision : bool) (np task_prio : Z) (ws : list nat) :
  forall (P P' : predictions (D := D)) (w w' : world (D := D)),
    fold_outcome (predict_worker rt task nworkers ctx sorted_decision np task_prio) ws (P, w)
      = Ok (P', w') ->
    (forall key, (fst key < p_worker_ctx P)%nat ->
       local_task_length P' !! key = local_task_length P !! key)
    /\ (forall k worker nimpl,
          List.filter (fun x => fst (worker_can_execute_task_impl rt x task)) ws !! k
            = Some worker ->
          (nimpl < STARPU_MAXIMPLEMENTATIONS rt)%nat ->
          mask_has (snd (worker_can_execute_task_impl rt worker task)) nimpl = true ->
          local_task_length P' !! ((p_worker_ctx P + k)%nat, nimpl)
          = Some (oracle_length rt task (worker_perf_archtype rt worker ctx) nimpl)).
Proof.
  induction ws as [|x ws IH]; intros P P' w w' Hf; simpl in Hf.
  - injection Hf as <- _. split; [reflexivity|]. intros k worker nimpl Hk. discriminate.
  - ok_step Hf. destruct a as [P2 w2].
    destruct (IH P2 P' w2 w' Hf) as (Hframe & Hcells). clear IH.
    unfold predict_worker in Hok.
    destruct (queue_array (dt w) !! x) as [fifo|]; [|discriminate].
    destruct (refreshed_start rt fifo w) as [s w0]. simpl.
    destruct (worker_can_execute_task_impl rt x task) as [can m] eqn:Ecan.
    destruct can; simpl in *.
    + ok_step Hok. rename a into P1. injection Hok as <- _.
      apply predict_impls_length in Hok0. destruct Hok0 as (Hwc1 & Hframe1 & Hcells1).
      simpl in *. split.
      { intros key Hkey. rewrite Hframe by lia. apply Hframe1. left. lia. }
      intros k worker nimpl Hk Hn Hmask.
      destruct k as [|k]; simpl in Hk.
      * injection Hk as <-. rewrite Ecan in Hmask. simpl in Hmask.
        rewrite Nat.add_0_r. rewrite Hframe by (simpl; lia).
        apply Hcells1; [apply in_seq; lia | exact Hmask].
      * specialize (Hcells k worker nimpl Hk Hn Hmask). rewrite Hwc1 in Hcells.
        replace (p_worker_ctx P + S k)%nat with (S (p_worker_ctx P) + k)%nat by lia.
        exact Hcells.
    + injection Hok as <- _. split; [exact Hframe | exact Hcells].
Qed.


End CommittedPredictions.


(* ================================================================== *)
(** * Attaching and detaching workers *)

Section WorkerSet.
Context {D : Type} `{DoubleOps D}.
Variable rt : runtime (D := D).

Lemma attached_trans (np : Z) (q1 q2 q3 : _starpu_fifo_taskq (D := D)) :
  attached np q1 q2 -> attached np q2 q3 -> attached np q1 q3.
Proof.
  unfold attached, same_horizon.
  intros (A1 & (A2 & A3 & A4) & A5) (B1 & (B2 & B3 & B4) & B5).
  split; [eapply same_content_trans; eassumption|].
  split; [repeat split; congruence|].
  destruct (np =? -1); [|exact B5].
  destruct A5, B5. split; congruence.
Qed.

Lemma same_coefficients_trans (d1 d2 d3 : _starpu_dmda_data (D := D)) :
  same_coefficients d1 d2 -> same_coefficients d2 d3 -> same_coefficients d1 d3.
Proof.
  unfold same_coefficients. intros (A1 & A2 & A3 & A4 & A5) (B1 & B2 & B3 & B4 & B5).
  repeat split; congruence.
Qed.

Lemma add_worker_spec (created : nat -> _starpu_fifo_taskq (D := D))
    (d d' : _starpu_dmda_data (D := D)) (x : nat) :
  add_worker created d x = Ok d' ->
  same_coefficients d d'
  /\ (forall k, k <> x -> queue_array d' !! k = queue_array d !! k)
  /\ exists q', queue_array d' !! x = Some q'
                /\ attached (num_priorities d) (default (created x) (queue_array d !! x)) q'.
Proof.
  unfold add_worker. intros Ha.
  assert (Hq : match queue_array d !! x with Some q => q | None => created x end
               = default (created x) (queue_array d !! x)).
  { destruct (queue_array d !! x); reflexivity. }
  rewrite Hq in Ha. clear Hq. set (q := default (created x) (queue_array d !! x)) in *.
  destruct (Z.eqb_spec (num_priorities d) (-1)) as [Hnp|Hnp].
  - injection Ha as <-. simpl. split; [repeat split|]. split.
    + intros k Hk. apply lookup_insert_ne. congruence.
    + exists q. split; [apply lookup_insert_eq|]. unfold attached. rewrite Hnp. simpl.
      repeat split.
  - destruct (num_priorities d <? 0); [discriminate|]. injection Ha as <-. simpl.
    split; [repeat split|]. split.
    + intros k Hk. apply lookup_insert_ne. congruence.
    + eexists. split; [apply lookup_insert_eq|]. unfold attached.
      destruct (Z.eqb_spec (num_priorities d) (-1)); [contradiction|]. repeat split.
Qed.

Lemma add_workers_spec (created : nat -> _starpu_fifo_taskq (D := D))
    (workerids : list nat) :
  forall d d' : _starpu_dmda_data (D := D),
    dmda_add_workers created workerids d = Ok d' ->
    same_coefficients d d'
    /\ (forall k, ~ In k workerids -> queue_array d' !! k = queue_array d !! k)
    /\ (forall k, In k workerids ->
          exists q', queue_array d' !! k = Some q'
                     /\ attached (num_priorities d)
                                 (default (created k) (queue_array d !! k)) q').
Proof.
  unfold dmda_add_workers.
  induction workerids as [|x ws IH]; intros d d' Hf; simpl in Hf.
  - injection Hf as <-. split; [repeat split|]. split; [reflexivity|]. intros k [].
  - ok_step Hf. rename a into d1.
    apply add_worker_spec in Hok. destruct Hok as (Hc1 & Hframe1 & q1 & Hq1 & Hat1).
    destruct (IH d1 d' Hf) as (Hc & Hframe & Hcells). clear IH.
    assert (Hnp : num_priorities d1 = num_priorities d) by apply Hc1.
    split; [eapply same_coefficients_trans; eassumption|]. split.
    + intros k Hk. rewrite Hframe by (intros Hin; apply Hk; right; exact Hin).
      apply Hframe1. intros ->. apply Hk. left. reflexivity.
    + intros k Hk. destruct (in_dec Nat.eq_dec k ws) as [Hin|Hin].
      * destruct (Hcells k Hin) as (q' & Hq' & Hat). rewrite Hnp in Hat.
        exists q'. split; [exact Hq'|].
        destruct (Nat.eq_dec k x) as [->|Hne].
        -- rewrite Hq1 in Hat. simpl in Hat. eapply attached_trans; eassumption.
        -- rewrite Hframe1 in Hat by exact Hne. exact Hat.
      * destruct Hk as [<-|Hk]; [|contradiction].
        exists q1. split; [|exact Hat1]. rewrite Hframe by exact Hin. exact Hq1.
Qed.

(** X14. [dmda_add_workers] gives every listed worker a queue and touches
    no other: a worker without queue gets the created one, a worker that
    already had a queue keeps its tasks, counters and horizon.  With the
    priority buckets on, the two per-priority arrays of every listed
    worker are allocated anew with [num_priorities] zeroed cells, also when
    the worker has tasks queued.  The coefficients do not change. *)
Theorem add_workers_postcondition (created : nat -> _starpu_fifo_taskq (D := D))
    (workerids : list nat) :
  forall d d' : _starpu_dmda_data (D := D),
    dmda_add_workers created workerids d = Ok d' ->
    same_coefficients d d'
    /\ (forall k, ~ In k workerids -> queue_array d' !! k = queue_array d !! k)
    /\ (forall k, In k workerids ->
          exists q', queue_array d' !! k = Some q'
                     /\ attached (num_priorities d)
                                 (default (created k) (queue_array d !! k)) q').
Proof. apply add_workers_spec. Qed.

Lemma remove_workers_spec (workerids : list nat) :
  forall d : _starpu_dmda_data (D := D),
    same_coefficients d (dmda_remove_workers workerids d)
    /\ (forall k, In k workerids -> queue_array (dmda_remove_workers workerids d) !! k = None)
    /\ (forall k, ~ In k workerids ->
          queue_array (dmda_remove_workers workerids d) !! k = queue_array d !! k).
Proof.
  unfold dmda_remove_workers.
  induction workerids as [|x ws IH]; intros d; simpl.
  - split; [repeat split|]. split; [intros k []|reflexivity].
  - destruct (IH (mk_dmda (alpha d) (beta d) (_gamma d) (idle_power d)
                          (delete x (queue_array d)) (num_priorities d)))
      as (Hc & Hnone & Hframe). clear IH. simpl in *.
    split; [exact Hc|]. split.
    + intros k Hk. destruct (in_dec Nat.eq_dec k ws) as [Hin|Hin]; [apply Hnone, Hin|].
      destruct Hk as [<-|Hk]; [|contradiction].
      rewrite Hframe by exact Hin. apply lookup_delete_eq.
    + intros k Hk. rewrite Hframe by (intros Hin; apply Hk; right; exact Hin).
      apply lookup_delete_ne. intros ->. apply Hk. left. reflexivity.
Qed.

Lemma dmda_data_eq (d d' : _starpu_dmda_data (D := D)) :
  same_coefficients d d' -> queue_array d' = queue_array d -> d' = d.
Proof.
  destruct d, d'. unfold same_coefficients. simpl.
  intros (-> & -> & -> & -> & ->) ->. reflexivity.
Qed.

(** X15. [dmda_remove_workers] leaves the listed workers without queue
    and changes nothing else; removing the workers that were just added
    gives the same policy data as removing them before the addition, so a
    context is back to its state once the workers it gained are taken
    away. *)
Theorem remove_workers_postcondition (workerids : list nat)
    (d : _starpu_dmda_data (D := D)) :
  same_coefficients d (dmda_remove_workers workerids d)
  /\ (forall k, In k workerids -> queue_array (dmda_remove_workers workerids d) !! k = None)
  /\ (forall k, ~ In k workerids ->
        queue_array (dmda_remove_workers workerids d) !! k = queue_array d !! k)
  /\ (forall created d',
        dmda_add_workers created workerids d = Ok d' ->
        dmda_remove_workers workerids d' = dmda_remove_workers workerids d)
  /\ (forall created d',
        (forall k, In k workerids -> queue_array d !! k = None) ->
        dmda_add_workers created workerids d = Ok d' ->
        dmda_remove_workers workerids d' = d).
Proof.
  destruct (remove_workers_spec workerids d) as (Hc & Hnone & Hframe).
  split; [exact Hc|]. split; [exact Hnone|]. split; [exact Hframe|].
  assert (Hround : forall created d',
             dmda_add_workers created workerids d = Ok d' ->
             dmda_remove_workers workerids d' = dmda_remove_workers workerids d).
  { intros created d' Ha. apply add_workers_spec in Ha.
    destruct Ha as (Hca & Hfa & _).
    destruct (remove_workers_spec workerids d') as (Hc' & Hnone' & Hframe').
    apply dmda_data_eq.
    - unfold same_coefficients in *.
      destruct Hc as (? & ? & ? & ? & ?), Hc' as (? & ? & ? & ? & ?),
               Hca as (? & ? & ? & ? & ?).
      repeat split; congruence.
    - apply map_eq. intros k. destruct (in_dec Nat.eq_dec k workerids) as [Hin|Hin].
      + rewrite Hnone, Hnone' by exact Hin. reflexivity.
      + rewrite Hframe, Hframe' by exact Hin. apply Hfa. exact Hin. }
  split; [exact Hround|].
  intros created d' Hfresh Ha. rewrite (Hround _ _ Ha).
  apply dmda_data_eq; [exact Hc|]. apply map_eq. intros k.
  destruct (in_dec Nat.eq_dec k workerids) as [Hin|Hin].
  - rewrite Hnone, Hfresh by exact Hin. reflexivity.
  - apply Hframe. exact Hin.
Qed.

Lemma map_const_seq {A} (c : A) (n s : nat) : map (fun _ => c) (seq s n) = replicate n c.
Proof.
  revert s. induction n as [|n IH]; intros s; simpl; [reflexivity|].
  rewrite IH. reflexivity.
Qed.

Lemma bucket_counts_nil (np : Z) : bucket_counts rt np [] = replicate (Z.to_nat np) 0.
Proof.
  change (map (fun _ : nat => 0) (seq 0 (Z.to_nat np)) = replicate (Z.to_nat np) 0).
  apply map_const_seq.
Qed.

(** X16. The counters are right from the start: after
    [initialize_dmda_policy] and [dmda_add_workers], with queues created
    empty, exactly the listed workers have a queue, every [ntasks] counts
    the queued tasks and every cell of [ntasks_per_priority] counts the
    queued tasks of its priorities. *)
Theorem fresh_policy_is_counted (ctx : nat) (a b g idle : D)
    (created : nat -> _starpu_fifo_taskq (D := D)) (workerids : list nat)
    (d : _starpu_dmda_data (D := D)) (t : nat) :
  creates_empty created ->
  dmda_add_workers created workerids (initialize_dmda_policy rt ctx a b g idle) = Ok d ->
  (forall k, In k workerids <-> is_Some (queue_array d !! k))
  /\ num_priorities d = initial_num_priorities rt ctx
  /\ all_counted (mk_world d t [])
  /\ all_buckets_counted rt (mk_world d t []).
Proof.
  intros Hcreated Ha. apply add_workers_spec in Ha.
  destruct Ha as (Hc & Hframe & Hcells). simpl in *.
  assert (Hnp : num_priorities d = initial_num_priorities rt ctx) by apply Hc.
  assert (Hq : forall k q', queue_array d !! k = Some q' ->
                 In k workerids /\ attached (initial_num_priorities rt ctx) (created k) q').
  { intros k q' Hk. destruct (in_dec Nat.eq_dec k workerids) as [Hin|Hin].
    - split; [exact Hin|]. destruct (Hcells k Hin) as (q & Hq & Hat).
      rewrite lookup_empty in Hat. simpl in Hat. congruence.
    - rewrite Hframe, lookup_empty in Hk by exact Hin. discriminate. }
  split; [|split; [exact Hnp|split]].
  - intros k. split.
    + intros Hin. destruct (Hcells k Hin) as (q & Hq' & _). eauto.
    + intros [q' Hk]. apply (Hq k q' Hk).
  - intros k q' Hk. simpl in Hk. destruct (Hq k q' Hk) as [_ ((A1 & A2 & _) & _)].
    destruct (Hcreated k) as (C1 & C2 & _).
    unfold counted. rewrite A1, A2, C1, C2. reflexivity.
  - intros k q' Hk. simpl in *. destruct (Hq k q' Hk) as [_ ((A1 & _) & _ & A3)].
    destruct (Hcreated k) as (C1 & _ & C3).
    unfold buckets_counted. rewrite Hnp, A1, C1, bucket_counts_nil.
    destruct (Z.eqb_spec (initial_num_priorities rt ctx) (-1)) as [E|E].
    + destruct A3 as [-> _]. rewrite C3, E. reflexivity.
    + destruct A3 as [-> _]. reflexivity.
Qed.

End WorkerSet.

(** Worker 0 of the loaded context is attached again, in a policy with
    four priorities: it keeps its two tasks and gets zeroed counters. *)
Lemma add_workers_postcondition_witness :
  exists d' q',
    dmda_add_workers (fun _ => empty_fifo) [0%nat; 1%nat]
      (mk_dmda (Scenario.F 1) (Scenario.F 1) (Scenario.F 1000) (Scenario.F 0)
               (<[0%nat := Scenario.queue_a_b]> ∅) 4) = Ok d'
    /\ queue_array d' !! 0%nat = Some q'
    /\ taskq q' = [Scenario.task_a; Scenario.task_b]
    /\ ntasks_per_priority q' = [0; 0; 0; 0]
    /\ queue_array d' !! 2%nat = None.
Proof.
  destruct (dmda_add_workers (fun _ => empty_fifo) [0%nat; 1%nat]
              (mk_dmda (Scenario.F 1) (Scenario.F 1) (Scenario.F 1000) (Scenario.F 0)
                       (<[0%nat := Scenario.queue_a_b]> ∅) 4))
    as [d'|f] eqn:Ha; [|vm_compute in Ha; discriminate].
  destruct (add_workers_postcondition _ _ _ _ Ha) as (_ & Hframe & Hcells).
  destruct (Hcells 0%nat (or_introl eq_refl)) as (q' & Hq' & (Hq & _) & _ & Harr).
  exists d', q'. split; [reflexivity|]. split; [exact Hq'|].
  split; [exact Hq|]. split; [apply Harr|].
  rewrite Hframe; [reflexivity|]. simpl. intros [?|[?|[]]]; discriminate.
Defined.

(** The workers 0 and 1 are added to a fresh policy and removed again. *)
Lemma remove_workers_postcondition_witness :
  exists d',
    dmda_add_workers (fun _ => empty_fifo) [0%nat; 1%nat]
      (initialize_dmda_policy (Scenario.calibrated (D := spec_float)) 0
         (Scenario.F 1) (Scenario.F 1) (Scenario.F 1000) (Scenario.F 0)) = Ok d'
    /\ dmda_remove_workers [0%nat; 1%nat] d'
       = initialize_dmda_policy (Scenario.calibrated (D := spec_float)) 0
           (Scenario.F 1) (Scenario.F 1) (Scenario.F 1000) (Scenario.F 0).
Proof.
  destruct (dmda_add_workers (fun _ => empty_fifo) [0%nat; 1%nat]
              (initialize_dmda_policy (Scenario.calibrated (D := spec_float)) 0
                 (Scenario.F 1) (Scenario.F 1) (Scenario.F 1000) (Scenario.F 0)))
    as [d'|f] eqn:Ha; [|vm_compute in Ha; discriminate].
  exists d'. split; [reflexivity|].
  destruct (remove_workers_postcondition [0%nat; 1%nat]
              (initialize_dmda_policy (Scenario.calibrated (D := spec_float)) 0
                 (Scenario.F 1) (Scenario.F 1) (Scenario.F 1000) (Scenario.F 0)))
    as (_ & _ & _ & _ & Hback).
  apply (Hback (fun _ => empty_fifo) d'); [|exact Ha].
  intros k _. reflexivity.
Defined.

(** A fresh policy with the priorities 0 to 3 and one worker. *)
Lemma fresh_policy_is_counted_witness :
  exists d,
    dmda_add_workers (fun _ => empty_fifo) [0%nat]
      (initialize_dmda_policy Cases.prioritised 0
         (Scenario.F 1) (Scenario.F 1) (Scenario.F 1000) (Scenario.F 0)) = Ok d
    /\ num_priorities d = 4
    /\ all_counted (mk_world d 0 [])
    /\ all_buckets_counted Cases.prioritised (mk_world d 0 []).
Proof.
  destruct (dmda_add_workers (fun _ => empty_fifo) [0%nat]
              (initialize_dmda_policy Cases.prioritised 0
                 (Scenario.F 1) (Scenario.F 1) (Scenario.F 1000) (Scenario.F 0)))
    as [d|f] eqn:Ha; [|vm_compute in Ha; discriminate].
  exists d. split; [reflexivity|].
  destruct (fresh_policy_is_counted Cases.prioritised 0%nat
              (Scenario.F 1) (Scenario.F 1) (Scenario.F 1000) (Scenario.F 0)
              (fun _ => empty_fifo) [0%nat] d 0%nat) as (_ & Hnp & Hc & Hb).
  - intros k. repeat split.
  - exact Ha.
  - split; [exact Hnp|]. split; [exact Hc | exact Hb].
Defined.

(* ================================================================== *)
(** * The implementation a push chooses *)

Section ChosenImplementation.
Context {D : Type} `{DoubleOps D}.
Variable rt : runtime (D := D).

Lemma dm_candidate_impl (task : starpu_task (D := D)) (ctx worker : nat)
    (fifo : _starpu_fifo_taskq (D := D)) (s : D) (L : dm_locals (D := D)) (nimpl : nat) :
  Z.of_nat worker <= INT_MAX ->
  let L' := dm_candidate rt task ctx worker fifo s L nimpl in
  dm_ntasks_best L' <> -1
  /\ (dm_best_impl L' = nimpl
      \/ (dm_best_impl L' = dm_best_impl L /\ dm_ntasks_best L <> -1)).
Proof.
  intros Hw. unfold dm_candidate. cbv zeta.
  destruct (greedy_takes _ _ _ _ _) eqn:Hg.
  - simpl. rewrite (sint_worker _ Hw).
    repeat (match goal with
            | |- context [if ?c then _ else _] => destruct c
            end; simpl); split; auto; lia.
  - apply greedy_takes_false in Hg.
    repeat (match goal with
            | |- context [if ?c then _ else _] => destruct c
            end; simpl); split; auto.
Qed.

Lemma dm_worker_impl (task : starpu_task (D := D)) (ctx : nat) (worker : nat)
    (acc acc' : dm_locals (D := D) * world (D := D)) :
  uniform_masks rt task ctx ->
  (fst (worker_can_execute_task_impl rt worker task) = true ->
   In worker (eligible_workers rt task ctx)) ->
  Z.of_nat worker <= INT_MAX ->
  dm_worker rt task ctx acc worker = Ok acc' ->
  (dm_ntasks_best (fst acc) = -1 \/ runnable_everywhere rt task ctx (dm_best_impl (fst acc))) ->
  (dm_ntasks_best (fst acc') = -1
   \/ runnable_everywhere rt task ctx (dm_best_impl (fst acc'))).
Proof.
  unfold dm_worker. destruct acc as [L w]. intros Hu Hin Hw Hd Hinv.
  ok_step Hd. destruct (refreshed_start rt a w) as [s w1].
  destruct (worker_can_execute_task_impl rt worker task) as [can m] eqn:Ecan.
  destruct can; simpl in *; injection Hd as <-; [|exact Hinv]. simpl.
  unfold dm_impls. apply fold_left_inv; [|exact Hinv].
  intros L0 n Hn I0. destruct (mask_has m n) eqn:Hm; [|exact I0].
  destruct (dm_candidate_impl task ctx worker a s L0 n Hw) as [_ [->|[-> Hne]]].
  - right. apply (Hu worker n (Hin eq_refl)).
    + apply in_seq in Hn. lia.
    + rewrite Ecan. exact Hm.
  - destruct I0 as [I0|I0]; [contradiction|]. right. exact I0.
Qed.

Lemma dm_scan_impl (task : starpu_task (D := D)) (ctx : nat)
    (L : dm_locals (D := D)) (w w1 : world (D := D)) :
  workers_are_ints (ctx_masters rt ctx) ->
  uniform_masks rt task ctx ->
  dm_scan rt task ctx w = Ok (L, w1) ->
  dm_ntasks_best L = -1 \/ runnable_everywhere rt task ctx (dm_best_impl L).
Proof.
  unfold dm_scan. intros Hints Hu Hs.
  apply (fold_outcome_inv (dm_worker rt task ctx)
           (fun acc => dm_ntasks_best (fst acc) = -1
                       \/ runnable_everywhere rt task ctx (dm_best_impl (fst acc)))) in Hs.
  - exact Hs.
  - intros acc x acc' Hx. apply dm_worker_impl; [exact Hu| |].
    + intros Hcan. apply filter_In. split; [exact Hx | exact Hcan].
    + apply (proj1 (List.Forall_forall _ _) Hints). exact Hx.
  - simpl. left. reflexivity.
Qed.

(** The model-based choice is made after the greedy one. *)
Lemma dm_candidate_order (task : starpu_task (D := D)) (ctx worker : nat)
    (fifo : _starpu_fifo_taskq (D := D)) (s : D) (L : dm_locals (D := D)) (nimpl : nat) :
  Z.of_nat worker <= INT_MAX ->
  (dm_best L <> -1 -> dm_ntasks_best L <> -1) ->
  let L' := dm_candidate rt task ctx worker fifo s L nimpl in
  dm_best L' <> -1 -> dm_ntasks_best L' <> -1.
Proof.
  intros Hw Hinv L' _. apply (dm_candidate_impl task ctx worker fifo s L nimpl Hw).
Qed.

Lemma dm_scan_order (task : starpu_task (D := D)) (ctx : nat)
    (L : dm_locals (D := D)) (w w1 : world (D := D)) :
  workers_are_ints (ctx_masters rt ctx) ->
  dm_scan rt task ctx w = Ok (L, w1) ->
  dm_best L <> -1 -> dm_ntasks_best L <> -1.
Proof.
  unfold dm_scan. intros Hints Hs.
  refine (fold_outcome_inv (dm_worker rt task ctx)
            (fun acc => dm_best (fst acc) <> -1 -> dm_ntasks_best (fst acc) <> -1)
            _ _ _ (L, w1) Hs _).
  - intros [L0 w0] x [L1 w2] Hx Hd Hinv. simpl in *. unfold dm_worker in Hd.
    ok_step Hd. destruct (refreshed_start rt a w0) as [s wa].
    destruct (worker_can_execute_task_impl rt x task) as [can m].
    destruct can; simpl in *; injection Hd as <- _; [|exact Hinv].
    unfold dm_impls.
    refine (fold_left_inv _ (fun L => dm_best L <> -1 -> dm_ntasks_best L <> -1)
              _ _ _ Hinv).
    intros L2 n _ I2. destruct (mask_has m n); [|exact I2].
    apply dm_candidate_order; [|exact I2].
    apply (proj1 (List.Forall_forall _ _) Hints). exact Hx.
  - simpl. congruence.
Qed.

Lemma predict_candidate_impl (task : starpu_task (D := D)) (nworkers ctx : nat)
    (sorted_decision : bool) (np task_prio : Z) (worker : nat)
    (fifo : _starpu_fifo_taskq (D := D)) (s : D) (P P' : predictions (D := D))
    (nimpl : nat) :
  Z.of_nat worker <= INT_MAX ->
  predict_candidate rt task nworkers ctx sorted_decision np task_prio worker fifo s P nimpl
    = Ok P' ->
  p_nimpl_best P' = Z.of_nat nimpl
  \/ (p_nimpl_best P' = p_nimpl_best P /\ p_ntasks_best P <> -1).
Proof.
  unfold predict_candidate. intros Hw Hp.
  ok_step Hp. destruct a as [prev_exp_len fifo_ntasks].
  ok_step Hp. ok_step Hp. ok_step Hp. ok_step Hp.
  destruct (if disnan _ || diszero _ then true else p_unknown P).
  - injection Hp as <-. simpl. destruct (greedy_takes _ _ _ _ _) eqn:Hg; [auto|].
    apply greedy_takes_false in Hg. auto.
  - ok_step Hp. ok_step Hp. injection Hp as <-. simpl.
    destruct (dlt _ (p_best_exp_end P)); [auto|].
    destruct (greedy_takes _ _ _ _ _) eqn:Hg; [auto|].
    apply greedy_takes_false in Hg. auto.
Qed.

Lemma compute_all_impl (task : starpu_task (D := D)) (nworkers ctx : nat)
    (sorted_decision : bool) (P : predictions (D := D)) (w w1 : world (D := D)) :
  workers_are_ints (ctx_masters rt ctx) ->
  uniform_masks rt task ctx ->
  compute_all_performance_predictions rt task nworkers ctx sorted_decision w = Ok (P, w1) ->
  p_ntasks_best P = -1
  \/ exists nimpl, p_nimpl_best P = Z.of_nat nimpl /\ runnable_everywhere rt task ctx nimpl.
Proof.
  unfold compute_all_performance_predictions. intros Hints Hu Hc. ok_step Hc.
  apply (fold_outcome_inv _
           (fun acc => p_ntasks_best (fst acc) = -1
                       \/ exists nimpl, p_nimpl_best (fst acc) = Z.of_nat nimpl
                                        /\ runnable_everywhere rt task ctx nimpl)) in Hc.
  - exact Hc.
  - intros [P0 w0] x [P1 w2] Hx Hp Hinv. simpl in *. unfold predict_worker in Hp.
    destruct (queue_array (dt w0) !! x) as [fifo|]; [|discriminate].
    destruct (refreshed_start rt fifo w0) as [s wa].
    destruct (worker_can_execute_task_impl rt x task) as [can m] eqn:Ecan.
    destruct can; simpl in *; [|injection Hp as <- _; exact Hinv].
    ok_step Hp. rename a0 into P2. injection Hp as <- _. simpl.
    assert (Hxw : Z.of_nat x <= INT_MAX)
      by (apply (proj1 (List.Forall_forall _ _) Hints); exact Hx).
    assert (HxE : In x (eligible_workers rt task ctx)).
    { apply filter_In. rewrite Ecan. auto. }
    apply (fold_outcome_inv _
             (fun P => p_ntasks_best P = -1
                       \/ exists nimpl, p_nimpl_best P = Z.of_nat nimpl
                                        /\ runnable_everywhere rt task ctx nimpl)) in Hok0;
      [exact Hok0 | | exact Hinv].
    intros Pa n Pb Hn Hstep Ia. destruct (mask_has m n) eqn:Hm.
    + pose proof (predict_candidate_worker rt _ _ _ _ _ _ _ _ _ _ _ _ Hxw Hstep) as Hwk.
      apply predict_candidate_impl in Hstep; [|exact Hxw].
      destruct Hstep as [Hi|[Hi Hne]].
      * right. exists n. split; [exact Hi|]. apply (Hu x n HxE).
        -- apply in_seq in Hn. lia.
        -- rewrite Ecan. exact Hm.
      * destruct Ia as [Ia|Ia]; [contradiction|]. right. rewrite Hi. exact Ia.
    + injection Hstep as <-. exact Ia.
  - simpl. left. reflexivity.
Qed.

(** X17. When the eligible masters accept the same implementations of
    the task, the implementation a decision commits is one the committed
    worker accepts, in [_dm_push_task] and in [_dmda_push_task].  The
    precondition matters: [best_impl] and [nimpl_best] are written by the
    greedy choice and by the model-based choice alike, whichever worker
    each of them is about (see [dm_commits_foreign_implementation]). *)
Theorem committed_implementation_is_runnable (task : starpu_task (D := D)) (ctx : nat)
    (w : world (D := D)) :
  workers_are_ints (ctx_masters rt ctx) ->
  uniform_masks rt task ctx ->
  (forall L w1,
     dm_scan rt task ctx w = Ok (L, w1) ->
     c_best (dm_choice L) <> -1 ->
     runnable_choice rt task ctx (dm_choice L))
  /\ (forall sorted_decision dec w1,
        dmda_decide rt task ctx sorted_decision w = Ok (dec, w1) ->
        runnable_choice rt task ctx (d_args dec)).
Proof.
  intros Hints Hu. split.
  - intros L w1 Hs Hne.
    pose proof (dm_scan_eligible rt _ _ _ _ _ Hints Hs) as [Hb Hn].
    pose proof (dm_scan_order _ _ _ _ _ Hints Hs) as Hord.
    pose proof (dm_scan_impl _ _ _ _ _ Hints Hu Hs) as Himpl.
    unfold dm_choice in *. destruct (dm_unknown L); simpl in *.
    + destruct Hn as [Hn|(worker & Hin & Hn)]; [contradiction|].
      destruct Himpl as [Hi|Hi]; [contradiction|].
      exists worker, (dm_best_impl L). simpl. repeat split; auto.
    + destruct Hb as [Hb|(worker & Hin & Hb)]; [contradiction|].
      destruct Himpl as [Hi|Hi]; [exfalso; apply (Hord Hne); exact Hi|].
      exists worker, (dm_best_impl L). simpl. repeat split; auto.
  - intros sd dec w1 Hd. unfold dmda_decide in Hd. ok_step Hd. destruct a as [P w0].
    pose proof (compute_all_eligible rt _ _ _ _ _ _ _ Hints Hok) as Hn.
    pose proof (compute_all_impl _ _ _ _ _ _ _ Hints Hu Hok) as Himpl.
    ok_step Hd. rename a into S1. apply select_best_chosen in Hok0; [|exact Hints].
    destruct Hok0 as (wc & _ & _ & Hbest).
    destruct (Z.eqb_spec (forced_worker P) (-1)) as [Hf|Hf]; simpl in Hd.
    + destruct (Z.eqb_spec (s_best S1) (-1)) as [Hb|Hb]; [discriminate|].
      destruct (Hbest Hb) as (k & x & n & A1 & A2 & A3 & A4 & A5 & A6 & _).
      ok_step Hd. rename a into args. injection Hd as <- _. simpl.
      assert (Hc : c_best args = s_best S1 /\ c_impl args = s_selected_impl S1).
      { destruct (bundle task).
        - injection Hok0 as <-. split; reflexivity.
        - ok_step Hok0. ok_step Hok0. injection Hok0 as <-. split; reflexivity. }
      destruct Hc as [Hc1 Hc2]. exists x, n.
      split; [apply list_elem_of_In; eapply list_elem_of_lookup_2; exact A1|].
      split; [congruence|]. split; [congruence | exact A3].
    + injection Hd as <- _. simpl. unfold forced_worker, forced_impl in *.
      destruct (p_unknown P); [|contradiction].
      destruct Hn as [Hn|(worker & Hin & Hn)]; [contradiction|].
      destruct Himpl as [Hi|(n & Hi & Hr)]; [contradiction|].
      exists worker, n. simpl. repeat split; auto.
Qed.

End ChosenImplementation.

(** Every worker of the calibrated machine accepts implementation 0 only. *)
Lemma committed_implementation_is_runnable_witness :
  exists dec w1,
    dmda_decide Scenario.calibrated (Scenario.plain_task 1 0 []) 0 false
      (Scenario.two_idle_workers (D := spec_float)) = Ok (dec, w1)
    /\ runnable_choice Scenario.calibrated (Scenario.plain_task 1 0 []) 0 (d_args dec).
Proof.
  destruct (dmda_decide Scenario.calibrated (Scenario.plain_task 1 0 []) 0 false
              (Scenario.two_idle_workers (D := spec_float)))
    as [[dec w1]|f] eqn:Hd; [|vm_compute in Hd; discriminate].
  exists dec, w1. split; [reflexivity|].
  refine (proj2 (committed_implementation_is_runnable Scenario.calibrated
                   (Scenario.plain_task 1 0 []) 0%nat Scenario.two_idle_workers _ _)
                false dec w1 Hd).
  - repeat constructor; unfold INT_MAX; simpl; lia.
  - intros worker nimpl _ _ Hm y _. exact Hm.
Defined.

(** Without that precondition: worker 0 only has implementation 0 and is
    the faster one, worker 1 only has implementation 1 and is less loaded.
    The model-based choice is worker 0, the greedy choice, made later,
    overwrites [best_impl] with worker 1's implementation, and
    [_dm_push_task] commits worker 0 with implementation 1. *)
Remark dm_commits_foreign_implementation :
  exists L w1,
    dm_scan Cases.split_masks (Scenario.plain_task 1 0 []) 0 Cases.one_task_ahead
    = Ok (L, w1)
    /\ c_best (dm_choice L) = 0
    /\ c_impl (dm_choice L) = 1
    /\ mask_has (snd (worker_can_execute_task_impl Cases.split_masks 0
                        (Scenario.plain_task 1 0 []))) 1 = false.
Proof.
  eexists. eexists. split; [vm_compute; reflexivity|].
  split; [reflexivity|]. split; reflexivity.
Qed.

(* ================================================================== *)
(** * The pending list, the buffers, the pops of [dm] *)

Section PendingEnds.
Context {D : Type} `{DoubleOps D}.
Variable rt : runtime (D := D).

(** X18. [dm_push_task] never links a task between two pending tasks.  A
    merge that returns has appended the task to an empty list, or put it
    in front of a head it out-ranks, or, the list having a single element,
    left memory and list exactly as they were: the task is then not
    pending at all.  (The two list primitives are those of
    starpu_task_list.h.) *)
Theorem dm_push_task_links_only_at_the_ends (fuel task : nat)
    (h h' : gmap nat (task_node (D := D))) (l l' : starpu_task_list) :
  dm_push_task_merge rt fuel task h l = Left (h', l') ->
  exists tn,
    h !! task = Some tn
    /\ ((head l = None /\ starpu_task_list_push_back h l task = Some (h', l'))
        \/ exists first fn,
             head l = Some first /\ h !! first = Some fn
             /\ ((dgt (get_task_heter_ratio rt (sched_ctx (payload tn)) (payload tn))
                      (get_task_heter_ratio rt (sched_ctx (payload tn)) (payload fn)) = true
                  /\ starpu_task_list_push_front h l task = Some (h', l'))
                 \/ (dgt (get_task_heter_ratio rt (sched_ctx (payload tn)) (payload tn))
                         (get_task_heter_ratio rt (sched_ctx (payload tn)) (payload fn))
                     = false
                     /\ next fn = None /\ h' = h /\ l' = l))).
Proof.
  unfold dm_push_task_merge. intros Hm.
  destruct (h !! task) as [tn|]; [|discriminate]. exists tn. split; [reflexivity|].
  destruct (head l) as [first|].
  - right. destruct (h !! first) as [fn|] eqn:Hf; [|discriminate].
    exists first, fn. split; [reflexivity|]. split; [exact Hf|].
    destruct (dgt _ _).
    + left. split; [reflexivity|].
      destruct (starpu_task_list_push_front h l task) as [[h1 l1]|]; [|discriminate].
      simpl in Hm. congruence.
    + right. split; [reflexivity|].
      destruct (next fn) as [second|].
      * exfalso.
        destruct (insertion_loop rt fuel (sched_ctx (payload tn)) _ task h (Some second))
          as [h1| |] eqn:Hl; try discriminate.
        exact (insertion_loop_never_left rt _ _ _ _ _ _ _ Hl).
      * destruct fuel; simpl in Hm; injection Hm as <- <-; auto.
  - left. split; [reflexivity|].
    destruct (starpu_task_list_push_back h l task) as [[h1 l1]|]; [|discriminate].
    simpl in Hm. congruence.
Qed.

End PendingEnds.

(** Task 12 is pushed while task 10 is the only pending task, with the
    same ratio: nothing changes. *)
Lemma dm_push_task_links_only_at_the_ends_witness :
  dm_push_task_merge Scenario.calibrated 5 12 Cases.single_pending Cases.single_pending_list
  = Left (Cases.single_pending, Cases.single_pending_list)
  /\ exists tn, Cases.single_pending !! 12%nat = Some tn.
Proof.
  assert (Hm : dm_push_task_merge Scenario.calibrated 5 12 Cases.single_pending
                 Cases.single_pending_list
               = Left (Cases.single_pending, Cases.single_pending_list))
    by (vm_compute; reflexivity).
  split; [exact Hm|].
  destruct (dm_push_task_links_only_at_the_ends Scenario.calibrated 5 12%nat
              Cases.single_pending Cases.single_pending Cases.single_pending_list
              Cases.single_pending_list Hm) as (tn & Ht & _).
  exists tn. exact Ht.
Defined.

Section Buffers.
Context {D : Type} `{DoubleOps D}.
Variable rt : runtime (D := D).

Lemma count_non_ready_from_bounds (task : starpu_task (D := D)) (node : nat) :
  forall hs index cnt,
    cnt <= count_non_ready_from rt task node index hs cnt <= cnt + Z.of_nat (length hs)
    /\ (count_non_ready_from rt task node index hs cnt = cnt
        <-> forall i handle, hs !! i = Some handle ->
              data_is_valid rt handle (buffer_node task node (index + i)) = true).
Proof.
  intros hs. induction hs as [|handle hs IH]; intros index cnt; simpl.
  - split; [lia|]. split; [intros _ i x Hi; discriminate | reflexivity].
  - fold (buffer_node task node index).
    destruct (data_is_valid rt handle (buffer_node task node index)) eqn:Hv.
    + destruct (IH (S index) cnt) as [Hb Hz]. split; [lia|]. rewrite Hz. split.
      * intros Hall [|i] x Hi; simpl in Hi.
        -- injection Hi as <-. rewrite Nat.add_0_r. exact Hv.
        -- replace (index + S i)%nat with (S index + i)%nat by lia. apply Hall. exact Hi.
      * intros Hall i x Hi.
        replace (S index + i)%nat with (index + S i)%nat by lia. apply Hall. exact Hi.
    + destruct (IH (S index) (cnt + 1)) as [Hb _]. split; [lia|]. split.
      * intros Hc. lia.
      * intros Hall. specialize (Hall 0%nat handle eq_refl).
        rewrite Nat.add_0_r in Hall. congruence.
Qed.

(** X19. [count_non_ready_buffers] returns a number between 0 and the
    number of buffers of the task, and 0 exactly when every buffer is
    valid on the node where the function looks for it: the worker's node,
    or the node the codelet names for that buffer. *)
Theorem count_non_ready_buffers_bounds (task : starpu_task (D := D)) (node : nat) :
  0 <= count_non_ready_buffers rt task node <= Z.of_nat (length (handles task))
  /\ (count_non_ready_buffers rt task node = 0 <-> all_buffers_ready rt task node).
Proof.
  unfold count_non_ready_buffers, all_buffers_ready.
  destruct (count_non_ready_from_bounds task node (handles task) 0 0) as [Hb Hz].
  split; [lia | exact Hz].
Qed.

End Buffers.

Section DmPops.
Context {D : Type} `{DoubleOps D}.
Variable rt : runtime (D := D).

(** X20. The two pops of the [dm] policy hand out tasks and nothing
    else: [dmda_pop_task] returns the task at the head of the worker's
    queue and leaves the others, [dmda_pop_every_task] returns all of them
    in order and leaves the queue empty.  Neither changes [exp_len], the
    per-priority arrays or another queue: the length the popped tasks were
    predicted to take stays in the horizon of the queue.  (The two FIFO
    primitives are those of fifo_queues.c.) *)
Theorem dm_pops_hand_out_tasks_only (k : nat) (w w' : world (D := D))
    (fifo : _starpu_fifo_taskq (D := D)) :
  queue_array (dt w) !! k = Some fifo ->
  (forall r, dmda_pop_task rt k w = Ok (r, w') ->
     exists fifo',
       queue_array (dt w') !! k = Some fifo'
       /\ taskq fifo = match r with Some t => t :: taskq fifo' | None => [] end
       /\ (r = None -> taskq fifo' = [])
       /\ exp_len fifo' = exp_len fifo
       /\ exp_len_per_priority fifo' = exp_len_per_priority fifo
       /\ ntasks_per_priority fifo' = ntasks_per_priority fifo
       /\ (forall j, j <> k -> queue_array (dt w') !! j = queue_array (dt w) !! j))
  /\ (forall q, dmda_pop_every_task rt k w = Ok (q, w') ->
        exists fifo',
          queue_array (dt w') !! k = Some fifo'
          /\ q = taskq fifo /\ taskq fifo' = []
          /\ exp_len fifo' = exp_len fifo
          /\ exp_len_per_priority fifo' = exp_len_per_priority fifo
          /\ ntasks_per_priority fifo' = ntasks_per_priority fifo
          /\ (forall j, j <> k -> queue_array (dt w') !! j = queue_array (dt w) !! j)).
Proof.
  intros Hk. apply get_fifo_ok in Hk. split.
  - intros r Hp. unfold dmda_pop_task in Hp. rewrite Hk in Hp. simpl in Hp.
    unfold pop_refresh in Hp.
    destruct (max_now_left rt (exp_start fifo) w) as [s w1] eqn:E.
    apply max_now_left_same in E. destruct E as [Hdt _].
    unfold _starpu_fifo_pop_local_task in Hp. simpl in Hp.
    destruct (taskq fifo) as [|t q] eqn:Hq; injection Hp as <- <-;
      (eexists; split; [unfold store_fifo; simpl; apply lookup_insert_eq|]); simpl.
    + rewrite Hq. repeat split; try reflexivity.
      intros j Hj. rewrite Hdt. apply lookup_insert_ne. congruence.
    + repeat split; try reflexivity; try discriminate.
      intros j Hj. rewrite Hdt. apply lookup_insert_ne. congruence.
  - intros q Hp. unfold dmda_pop_every_task in Hp. rewrite Hk in Hp. simpl in Hp.
    unfold pop_refresh in Hp.
    destruct (max_now_left rt (exp_start fifo) w) as [s w1] eqn:E.
    apply max_now_left_same in E. destruct E as [Hdt _].
    unfold _starpu_fifo_pop_every_task in Hp. simpl in Hp. injection Hp as <- <-.
    eexists. split; [unfold store_fifo; simpl; apply lookup_insert_eq|]. simpl.
    repeat split; try reflexivity.
    intros j Hj. rewrite Hdt. apply lookup_insert_ne. congruence.
Qed.

End DmPops.

(** Worker 0 holds A and B: [dmda_pop_task] hands out A, the head. *)
Lemma dm_pops_hand_out_tasks_only_witness :
  exists w' fifo',
    dmda_pop_task Scenario.valid_on_node_1 0 Cases.one_loaded_worker
    = Ok (Some Scenario.task_a, w')
    /\ queue_array (dt w') !! 0%nat = Some fifo'
    /\ taskq fifo' = [Scenario.task_b]
    /\ exp_len fifo' = Scenario.F 0.
Proof.
  destruct (dmda_pop_task Scenario.valid_on_node_1 0 Cases.one_loaded_worker)
    as [[r w']|f] eqn:Hp; [|vm_compute in Hp; discriminate].
  assert (Hr : r = Some Scenario.task_a)
    by (vm_compute in Hp; injection Hp as <- _; reflexivity).
  subst r.
  destruct (dm_pops_hand_out_tasks_only Scenario.valid_on_node_1 0%nat
              Cases.one_loaded_worker w' Scenario.queue_a_b eq_refl) as [Hpop _].
  destruct (Hpop _ Hp) as (fifo' & Hk' & Hq & _ & Hl & _).
  exists w', fifo'. split; [reflexivity|]. split; [exact Hk'|].
  simpl in Hq. injection Hq as <-. split; [reflexivity | exact Hl].
Defined.

Section Balance.
Context {D : Type} `{DoubleOps D}.
Variable rt : runtime (D := D).

Lemma account_exp_len (np : Z) (task : starpu_task (D := D)) (x : D)
    (f f' : _starpu_fifo_taskq (D := D)) :
  account rt np task x f = Ok f' -> exp_len f' = plus_model (exp_len f) x.
Proof.
  unfold account, plus_model. destruct (disnan x).
  - intros [= <-]. reflexivity.
  - intros Hu. apply update_exp_len_per_priority_horizon in Hu.
    destruct Hu as (_ & _ & ->). reflexivity.
Qed.

Lemma commit_exp_len (task : starpu_task (D := D)) (best : Z) (p pt : D) (prio : bool)
    (ctx : nat) (w w' : world (D := D)) (r : Z) (fifo : _starpu_fifo_taskq (D := D)) :
  worker_is_master_for_child_ctx rt best ctx = STARPU_NMAX_SCHED_CTXS rt ->
  queue_array (dt w) !! Z.to_nat best = Some fifo ->
  push_task_on_best_worker rt task best p pt prio ctx w = Ok (r, w') ->
  exists pt' fifo',
    queue_array (dt w') !! Z.to_nat best = Some fifo'
    /\ exp_len fifo' = plus_model (plus_model (exp_len fifo) pt') p
    /\ In (set_predictions task p pt') (taskq fifo')
    /\ num_priorities (dt w') = num_priorities (dt w).
Proof.
  unfold push_task_on_best_worker. intros Hchild Hk Hp.
  destruct (best =? -1); [discriminate|].
  rewrite Hchild, Nat.eqb_refl in Hp. simpl in Hp.
  destruct (best <? 0); [discriminate|].
  apply get_fifo_ok in Hk. rewrite Hk in Hp. simpl in Hp.
  destruct (refreshed_start rt fifo w) as [s w1] eqn:E1.
  apply refreshed_start_same in E1.
  destruct (clamp_transfer rt pt _ w1) as [pt' w2] eqn:E2.
  apply clamp_transfer_same in E2.
  destruct (same_queues_trans _ _ _ E1 E2) as [Hdt _].
  ok_step Hp. rename a into fifo2. ok_step Hp. rename a into fifo3.
  apply account_exp_len in Hok as Hl2. apply account_exp_len in Hok0 as Hl3.
  simpl in Hl2. exists pt'. destruct prio.
  - unfold _starpu_fifo_push_sorted_task in Hp. ok_step Hp. rename a into fifo5.
    injection Hp as _ <-. exists fifo5.
    split; [unfold store_fifo; simpl; apply lookup_insert_eq|].
    pose proof (update_ntasks_per_priority_horizon rt _ _ _ _ _ Hok1) as (_ & _ & Hl5).
    pose proof (update_ntasks_per_priority_content rt _ _ _ _ _ Hok1) as [(Hq5 & _) _].
    simpl in *. split; [congruence|]. split.
    + rewrite Hq5. apply list_elem_of_In.
      rewrite (insert_sorted_Permutation _ (taskq fifo3)). left.
    + rewrite Hdt. reflexivity.
  - injection Hp as _ <-. eexists.
    split; [unfold store_fifo; simpl; apply lookup_insert_eq|]. simpl.
    split; [congruence|]. split.
    + apply in_or_app. right. left. reflexivity.
    + rewrite Hdt. reflexivity.
Qed.

Lemma pre_exec_exp_len (task : starpu_task (D := D)) (k : nat) (w w' : world (D := D))
    (fifo : _starpu_fifo_taskq (D := D)) :
  queue_array (dt w) !! k = Some fifo ->
  dmda_pre_exec_hook rt task k w = Ok w' ->
  exists fifo', queue_array (dt w') !! k = Some fifo'
    /\ exp_len fifo'
       = minus_model (minus_model (exp_len fifo) (predicted_transfer task)) (predicted task).
Proof.
  intros Hk Hp. apply get_fifo_ok in Hk.
  unfold dmda_pre_exec_hook in Hp. rewrite Hk in Hp. simpl in Hp.
  destruct (max_now_left rt (exp_start fifo) w) as [s w1] eqn:E1.
  ok_step Hp. rename a into fifo2. ok_step Hp. rename a into fifo3.
  injection Hp as <-. eexists. split.
  { unfold store_fifo. simpl. apply lookup_insert_eq. }
  simpl. unfold minus_model.
  assert (H2 : exp_len fifo2
               = if disnan (predicted_transfer task) then exp_len fifo
                 else dsub (exp_len fifo) (predicted_transfer task)).
  { destruct (disnan (predicted_transfer task)).
    - injection Hok as <-. reflexivity.
    - apply update_exp_len_per_priority_horizon in Hok.
      destruct Hok as (_ & _ & ->). reflexivity. }
  destruct (disnan (predicted task)).
  - injection Hok0 as <-. exact H2.
  - apply update_exp_len_per_priority_horizon in Hok0.
    destruct Hok0 as (_ & _ & ->). simpl. rewrite H2. reflexivity.
Qed.

(** X21. The pre-execution hook takes out of [exp_len] exactly what the
    commit put in.  A commit adds to [exp_len] the remainder of the
    transfer it wrote to [task->predicted_transfer] and the length it wrote
    to [task->predicted] (a NaN is skipped); when the pre-execution hook
    runs for the task as the commit queued it, [exp_len] is the old value
    with these two numbers added and then subtracted again. *)
Theorem commit_then_pre_exec_balances (task : starpu_task (D := D)) (best : Z)
    (p pt : D) (prio : bool) (ctx : nat) (w w1 : world (D := D)) (r : Z)
    (fifo : _starpu_fifo_taskq (D := D)) :
  worker_is_master_for_child_ctx rt best ctx = STARPU_NMAX_SCHED_CTXS rt ->
  queue_array (dt w) !! Z.to_nat best = Some fifo ->
  push_task_on_best_worker rt task best p pt prio ctx w = Ok (r, w1) ->
  exists pt' fifo1,
    queue_array (dt w1) !! Z.to_nat best = Some fifo1
    /\ In (set_predictions task p pt') (taskq fifo1)
    /\ exp_len fifo1 = plus_model (plus_model (exp_len fifo) pt') p
    /\ forall w2,
         dmda_pre_exec_hook rt (set_predictions task p pt') (Z.to_nat best) w1 = Ok w2 ->
         exists fifo2,
           queue_array (dt w2) !! Z.to_nat best = Some fifo2
           /\ exp_len fifo2
              = minus_model
                  (minus_model (plus_model (plus_model (exp_len fifo) pt') p) pt') p.
Proof.
  intros Hchild Hk Hp.
  destruct (commit_exp_len _ _ _ _ _ _ _ _ _ _ Hchild Hk Hp) as (pt' & fifo1 & Hk1 & Hl1 & Hin & _).
  exists pt', fifo1. split; [exact Hk1|]. split; [exact Hin|]. split; [exact Hl1|].
  intros w2 Hh. destruct (pre_exec_exp_len _ _ _ _ _ Hk1 Hh) as (fifo2 & Hk2 & Hl2).
  exists fifo2. split; [exact Hk2|]. rewrite Hl2, Hl1. reflexivity.
Qed.

End Balance.

(** Task 3 is committed to the idle worker 1 with length 7 and transfer
    2, then started: the expected length of the queue is 0 again. *)
Lemma commit_then_pre_exec_balances_witness :
  exists w1 pt' w2 fifo2,
    push_task_on_best_worker Scenario.calibrated (Scenario.plain_task 3 0 []) 1
      (Scenario.F 7) (Scenario.F 2) false 0 Scenario.two_idle_workers = Ok (0, w1)
    /\ dmda_pre_exec_hook Scenario.calibrated
         (set_predictions (Scenario.plain_task 3 0 []) (Scenario.F 7) pt') 1 w1 = Ok w2
    /\ queue_array (dt w2) !! 1%nat = Some fifo2
    /\ exp_len fifo2 = Scenario.F 0.
Proof.
  destruct (push_task_on_best_worker Scenario.calibrated (Scenario.plain_task 3 0 []) 1
              (Scenario.F 7) (Scenario.F 2) false 0 Scenario.two_idle_workers)
    as [[r w1]|f] eqn:Hp; [|vm_compute in Hp; discriminate].
  assert (Hr : r = 0) by (vm_compute in Hp; injection Hp as <- _; reflexivity).
  subst r.
  destruct (commit_then_pre_exec_balances Scenario.calibrated (Scenario.plain_task 3 0 []) 1
              (Scenario.F 7) (Scenario.F 2) false 0%nat Scenario.two_idle_workers w1 0
              empty_fifo eq_refl eq_refl Hp) as (pt' & fifo1 & Hk1 & Hin & Hl1 & Hhook).
  assert (Hpt : pt' = Scenario.F 4).
  { vm_compute in Hp. injection Hp as <-. vm_compute in Hk1. injection Hk1 as <-.
    simpl in Hin. destruct Hin as [Hin|[]]. injection Hin as <-. reflexivity. }
  subst pt'.
  destruct (dmda_pre_exec_hook Scenario.calibrated
              (set_predictions (Scenario.plain_task 3 0 []) (Scenario.F 7) (Scenario.F 4))
              1 w1) as [w2|f] eqn:Hh.
  2:{ vm_compute in Hp. injection Hp as <-. vm_compute in Hh. discriminate. }
  destruct (Hhook w2 Hh) as (fifo2 & Hk2 & Hl2).
  exists w1, (Scenario.F 4), w2, fifo2. split; [reflexivity|]. split; [exact Hh|].
  split; [exact Hk2|]. rewrite Hl2. vm_compute. reflexivity.
Defined.

(* ================================================================== *)
(** * Pushes that return *)

Section CommitReturns.
Context {D : Type} `{DoubleOps D}.
Variable rt : runtime (D := D).

Lemma account_off (task : starpu_task (D := D)) (x : D) (f : _starpu_fifo_taskq (D := D)) :
  exists f', account rt (-1) task x f = Ok f'.
Proof. unfold account. destruct (disnan x); simpl; eauto. Qed.

(** With the priority buckets off, a commit to a worker that has a queue
    returns. *)
Lemma commit_returns (task : starpu_task (D := D)) (worker : nat) (p pt : D) (prio : bool)
    (ctx : nat) (w : world (D := D)) :
  is_Some (queue_array (dt w) !! worker) ->
  num_priorities (dt w) = -1 ->
  exists r w', push_task_on_best_worker rt task (Z.of_nat worker) p pt prio ctx w = Ok (r, w').
Proof.
  intros [fifo Hk] Hnp. unfold push_task_on_best_worker.
  destruct (Z.eqb_spec (Z.of_nat worker) (-1)); [lia|].
  destruct (negb _); [eauto|].
  destruct (Z.ltb_spec (Z.of_nat worker) 0); [lia|].
  rewrite Nat2Z.id. apply get_fifo_ok in Hk. rewrite Hk. simpl.
  destruct (refreshed_start rt fifo w) as [s w1].
  destruct (clamp_transfer rt pt _ w1) as [pt' w2]. rewrite Hnp.
  destruct (account_off task pt' (with_horizon fifo s (dadd s (exp_len fifo)) (exp_len fifo)))
    as [f2 ->]. simpl.
  destruct (account_off task p f2) as [f3 ->]. simpl.
  destruct prio; simpl; eauto.
Qed.

(** *** [_dm_push_task] *)

Lemma candidates_of_cons (task : starpu_task (D := D)) (x : nat) (ws : list nat) :
  candidates_of rt task (x :: ws)
  = (if fst (worker_can_execute_task_impl rt x task)
     then map (pair x) (impls_of rt (snd (worker_can_execute_task_impl rt x task)))
     else []) ++ candidates_of rt task ws.
Proof.
  unfold candidates_of. simpl.
  destruct (worker_can_execute_task_impl rt x task) as [can m]. reflexivity.
Qed.

Lemma impls_of_nonempty (m : Z) :
  impls_of rt m <> [] ->
  exists n, In n (seq 0 (STARPU_MAXIMPLEMENTATIONS rt)) /\ mask_has m n = true.
Proof.
  unfold impls_of. intros Hne.
  destruct (List.filter (mask_has m) (seq 0 (STARPU_MAXIMPLEMENTATIONS rt))) as [|n l] eqn:E;
    [congruence|].
  exists n. apply filter_In. rewrite E. left. reflexivity.
Qed.

Lemma dm_candidate_chosen (task : starpu_task (D := D)) (ctx worker : nat)
    (fifo : _starpu_fifo_taskq (D := D)) (s : D) (L : dm_locals (D := D)) (nimpl : nat) :
  Z.of_nat worker <= INT_MAX ->
  let L' := dm_candidate rt task ctx worker fifo s L nimpl in
  c_best (dm_choice L') <> -1.
Proof.
  intros Hw L'.
  destruct (dm_candidate_impl rt task ctx worker fifo s L nimpl Hw) as [Hn _].
  fold L' in Hn. unfold dm_choice. destruct (dm_unknown L') eqn:Hu; simpl; [exact Hn|].
  revert Hu. unfold L', dm_candidate. cbv zeta.
  repeat (match goal with
          | |- context [if ?c then _ else _] => destruct c eqn:?
          end; simpl);
    rewrite ?(sint_worker _ Hw); try discriminate; try lia;
    intros _;
    repeat match goal with
           | E : (_ || _) = false |- _ =>
               apply orb_false_iff in E; destruct E
           | E : (_ =? _) = false |- _ => apply Z.eqb_neq in E
           end; assumption.
Qed.

Lemma dm_workers_chosen (task : starpu_task (D := D)) (ctx : nat) (ws : list nat) :
  workers_are_ints ws ->
  forall acc acc' : dm_locals (D := D) * world (D := D),
    fold_outcome (dm_worker rt task ctx) ws acc = Ok acc' ->
    (c_best (dm_choice (fst acc)) <> -1 \/ candidates_of rt task ws <> []) ->
    c_best (dm_choice (fst acc')) <> -1.
Proof.
  induction ws as [|x ws IH]; intros Hints acc acc' Hf Hinv; simpl in Hf.
  - injection Hf as <-. destruct Hinv as [Hinv|Hinv]; [exact Hinv|].
    exfalso. apply Hinv. reflexivity.
  - inversion Hints as [|? ? Hx Hws]; subst. ok_step Hf. rename a into acc1.
    apply (IH Hws acc1 acc' Hf). rewrite candidates_of_cons in Hinv.
    destruct acc as [L w]. unfold dm_worker in Hok. ok_step Hok.
    destruct (refreshed_start rt a w) as [s w1].
    destruct (worker_can_execute_task_impl rt x task) as [can m].
    destruct can; simpl in *; injection Hok as <-; simpl.
    + assert (Hstep : forall l L0,
                 (c_best (dm_choice L0) <> -1
                  \/ exists n, In n l /\ mask_has m n = true) ->
                 c_best (dm_choice
                           (fold_left (fun L nimpl =>
                                         if mask_has m nimpl
                                         then dm_candidate rt task ctx x a s L nimpl
                                         else L) l L0)) <> -1
                 \/ False).
      { induction l as [|n l IHl]; intros L0 HL0; simpl.
        - destruct HL0 as [HL0|(n & [] & _)]. left. exact HL0.
        - apply IHl. destruct (mask_has m n) eqn:Hm.
          + left. apply dm_candidate_chosen. exact Hx.
          + destruct HL0 as [HL0|(n' & [<-|Hin] & Hm')]; [left; exact HL0 | congruence|].
            right. eauto. }
      destruct Hinv as [Hinv|Hinv].
      * left. destruct (Hstep (seq 0 (STARPU_MAXIMPLEMENTATIONS rt)) L (or_introl Hinv))
          as [Hs|[]]. exact Hs.
      * destruct (impls_of rt m) as [|n0 l0] eqn:Ei.
        -- right. exact Hinv.
        -- left.
           destruct (Hstep (seq 0 (STARPU_MAXIMPLEMENTATIONS rt)) L) as [Hs|[]];
             [|exact Hs].
           right. apply impls_of_nonempty. rewrite Ei. discriminate.
    + exact Hinv.
Qed.

Lemma fold_outcome_cons {A B} (f : A -> B -> outcome A) (x : B) (l : list B) (a : A) :
  fold_outcome f (x :: l) a = (a' ← f a x; fold_outcome f l a').
Proof. reflexivity. Qed.

Lemma dm_workers_run (task : starpu_task (D := D)) (ctx : nat) (ws : list nat) :
  forall (L : dm_locals (D := D)) (w : world (D := D)),
    (forall x, In x ws -> is_Some (queue_array (dt w) !! x)) ->
    exists L' w', fold_outcome (dm_worker rt task ctx) ws (L, w) = Ok (L', w').
Proof.
  induction ws as [|x ws IH]; intros L w Hq.
  - simpl. eauto.
  - rewrite fold_outcome_cons.
    destruct (Hq x (or_introl eq_refl)) as [fifo Hfifo].
    assert (Hstep : exists L1 w1, dm_worker rt task ctx (L, w) x = Ok (L1, w1)
                                  /\ dt w1 = dt w).
    { unfold dm_worker. apply get_fifo_ok in Hfifo. rewrite Hfifo. simpl.
      destruct (refreshed_start rt fifo w) as [s w1] eqn:E.
      apply refreshed_start_same in E. destruct E as [Hdt _].
      destruct (worker_can_execute_task_impl rt x task) as [can m].
      destruct (negb can); eauto. }
    destruct Hstep as (L1 & w1 & -> & Hdt). simpl. apply IH.
    intros y Hy. rewrite Hdt. apply Hq. right. exact Hy.
Qed.

(** X22. [_dm_push_task] returns whenever some master has an
    implementation of the task, every master has a queue and the priority
    buckets are off (worker identifiers fit in an [int]): the scan never
    fails, it ends with a worker chosen, and the commit to that worker or
    the forward to its child context goes through. *)
Theorem dm_push_returns (task : starpu_task (D := D)) (prio : bool) (ctx : nat)
    (w : world (D := D)) :
  workers_are_ints (ctx_masters rt ctx) ->
  masters_have_queues rt ctx w ->
  candidates rt task ctx <> [] ->
  num_priorities (dt w) = -1 ->
  exists r w', _dm_push_task rt task prio ctx w = Ok (r, w').
Proof.
  intros Hints Hq Hcand Hnp. unfold _dm_push_task, dm_scan.
  destruct (dm_workers_run task ctx (ctx_masters rt ctx) dm_initial w Hq) as (L & w1 & Hs).
  rewrite Hs. simpl.
  pose proof (dm_scan_same rt _ _ _ _ _ Hs) as [Hdt _].
  pose proof (dm_scan_eligible rt _ _ _ _ _ Hints Hs) as [Hb Hn].
  pose proof (dm_workers_chosen task ctx _ Hints _ _ Hs (or_intror Hcand)) as Hne.
  simpl in Hne.
  assert (Hw : is_worker_of (eligible_workers rt task ctx) (c_best (dm_choice L))).
  { unfold dm_choice in *. destruct (dm_unknown L); simpl in *.
    - destruct Hn as [Hn|Hn]; [contradiction | exact Hn].
    - destruct Hb as [Hb|Hb]; [contradiction | exact Hb]. }
  destruct Hw as (worker & Hin & ->).
  apply commit_returns; [|rewrite Hdt; exact Hnp].
  rewrite Hdt. apply Hq. unfold eligible_workers in Hin. apply filter_In in Hin. apply Hin.
Qed.

End CommitReturns.

(** The two idle workers: the push of [dm] returns. *)
Lemma dm_push_returns_witness :
  exists r w',
    _dm_push_task Scenario.calibrated (Scenario.plain_task 2 0 []) true 0
      (Scenario.two_idle_workers (D := spec_float)) = Ok (r, w').
Proof.
  apply (dm_push_returns Scenario.calibrated (Scenario.plain_task 2 0 []) true 0%nat
           Scenario.two_idle_workers).
  - repeat constructor; unfold INT_MAX; simpl; lia.
  - intros worker Hw. simpl in Hw. destruct Hw as [<-|[<-|[]]]; vm_compute; eauto.
  - vm_compute. discriminate.
  - reflexivity.
Defined.

Section DmdaReturns.
Context {D : Type} `{DoubleOps D}.
Variable rt : runtime (D := D).

Lemma mwrite_runs (nworkers : nat) (a : gmap (nat * nat) D) (i j : nat) (v : D) :
  (i < nworkers)%nat -> (j < STARPU_MAXIMPLEMENTATIONS rt)%nat ->
  mwrite rt nworkers a i j v = Ok (<[(i, j) := v]> a).
Proof.
  intros Hi Hj. unfold mwrite.
  destruct (Nat.ltb_spec i nworkers); [|lia].
  destruct (Nat.ltb_spec j (STARPU_MAXIMPLEMENTATIONS rt)); [|lia]. reflexivity.
Qed.

Lemma mread_runs (nworkers : nat) (a : gmap (nat * nat) D) (i j : nat) (v : D) :
  (i < nworkers)%nat -> (j < STARPU_MAXIMPLEMENTATIONS rt)%nat ->
  a !! (i, j) = Some v ->
  mread rt nworkers a (Z.of_nat i) (Z.of_nat j) = Ok v.
Proof.
  intros Hi Hj Hv. unfold mread.
  destruct (Z.leb_spec 0 (Z.of_nat i)); [|lia].
  destruct (Z.ltb_spec (Z.of_nat i) (Z.of_nat nworkers)); [|lia].
  destruct (Z.leb_spec 0 (Z.of_nat j)); [|lia].
  destruct (Z.ltb_spec (Z.of_nat j) (Z.of_nat (STARPU_MAXIMPLEMENTATIONS rt))); [|lia].
  simpl. rewrite !Nat2Z.id, Hv. reflexivity.
Qed.

(** *** The prediction loop runs *)

Lemma predict_candidate_runs (task : starpu_task (D := D)) (nworkers ctx : nat)
    (sorted_decision : bool) (task_prio : Z) (worker : nat)
    (fifo : _starpu_fifo_taskq (D := D)) (s : D) (P : predictions (D := D)) (nimpl : nat) :
  (p_worker_ctx P < nworkers)%nat ->
  (nimpl < STARPU_MAXIMPLEMENTATIONS rt)%nat ->
  exists P',
    predict_candidate rt task nworkers ctx sorted_decision (-1) task_prio worker fifo s P nimpl
    = Ok P'.
Proof.
  intros Hwc Hn. unfold predict_candidate.
  assert (Hpl : exists pl,
             previous_load rt sorted_decision (-1) task_prio task fifo worker nimpl = Ok pl).
  { unfold previous_load. destruct sorted_decision; simpl; eauto. }
  destruct Hpl as [[prev_exp_len fifo_ntasks] ->]. simpl.
  rewrite !(mwrite_runs _ _ _ _ _ Hwc Hn). simpl.
  destruct (if disnan _ || diszero _ then true else p_unknown P); [eauto|].
  destruct (disnan (oracle_energy rt task _ nimpl));
    rewrite !(mwrite_runs _ _ _ _ _ Hwc Hn); simpl; eauto.
Qed.

Lemma predict_candidate_exp_end (task : starpu_task (D := D)) (nworkers ctx : nat)
    (sorted_decision : bool) (np task_prio : Z) (worker : nat)
    (fifo : _starpu_fifo_taskq (D := D)) (s : D) (P P' : predictions (D := D))
    (nimpl : nat) :
  predict_candidate rt task nworkers ctx sorted_decision np task_prio worker fifo s P nimpl
    = Ok P' ->
  p_worker_ctx P' = p_worker_ctx P
  /\ (forall key, is_Some (exp_end_m P !! key) -> is_Some (exp_end_m P' !! key))
  /\ is_Some (exp_end_m P' !! (p_worker_ctx P, nimpl)).
Proof.
  unfold predict_candidate. intros Hp.
  ok_step Hp. destruct a as [prev_exp_len fifo_ntasks].
  ok_step Hp. rename a into exp_end1. ok_step Hp. ok_step Hp. ok_step Hp.
  apply mwrite_ok in Hok0.
  assert (H1 : forall key, is_Some (exp_end_m P !! key) -> is_Some (exp_end1 !! key)).
  { intros key Hk. rewrite Hok0. destruct (decide (key = (p_worker_ctx P, nimpl))) as [->|Hne].
    - rewrite lookup_insert_eq. eauto.
    - rewrite lookup_insert_ne by congruence. exact Hk. }
  assert (H2 : is_Some (exp_end1 !! (p_worker_ctx P, nimpl))).
  { rewrite Hok0, lookup_insert_eq. eauto. }
  destruct (if disnan _ || diszero _ then true else p_unknown P).
  - injection Hp as <-. simpl. auto.
  - ok_step Hp. rename a2 into exp_end2. ok_step Hp. injection Hp as <-. simpl.
    apply mwrite_ok in Hok4. split; [reflexivity|]. rewrite Hok4. split.
    + intros key Hk. destruct (decide (key = (p_worker_ctx P, nimpl))) as [->|Hne].
      * rewrite lookup_insert_eq. eauto.
      * rewrite lookup_insert_ne by congruence. apply H1. exact Hk.
    + rewrite lookup_insert_eq. eauto.
Qed.

Lemma predict_impls_exp_end (task : starpu_task (D := D)) (nworkers ctx : nat)
    (sorted_decision : bool) (np task_prio : Z) (worker : nat)
    (fifo : _starpu_fifo_taskq (D := D)) (s : D) (impl_mask : Z) (l : list nat) :
  forall (P P' : predictions (D := D)),
    fold_outcome
      (fun P nimpl =>
         if mask_has impl_mask nimpl
         then predict_candidate rt task nworkers ctx sorted_decision np task_prio worker
                fifo s P nimpl
         else Ok P) l P = Ok P' ->
    p_worker_ctx P' = p_worker_ctx P
    /\ (forall key, is_Some (exp_end_m P !! key) -> is_Some (exp_end_m P' !! key))
    /\ (forall nimpl, In nimpl l -> mask_has impl_mask nimpl = true ->
          is_Some (exp_end_m P' !! (p_worker_ctx P, nimpl))).
Proof.
  induction l as [|n l IH]; intros P P' Hf; simpl in Hf.
  - injection Hf as <-. split; [reflexivity|]. split; [auto|]. intros n [].
  - ok_step Hf. rename a into P1.
    destruct (IH P1 P' Hf) as (Hwc & Hmono & Hcells). clear IH.
    destruct (mask_has impl_mask n) eqn:Em.
    + apply predict_candidate_exp_end in Hok. destruct Hok as (Hwc1 & Hmono1 & Hcell1).
      split; [congruence|]. split; [auto|].
      intros nimpl [<-|Hin] Hmask.
      * apply Hmono. exact Hcell1.
      * rewrite <- Hwc1. apply Hcells; assumption.
    + injection Hok as <-. split; [exact Hwc|]. split; [exact Hmono|].
      intros nimpl [<-|Hin] Hmask; [congruence|]. apply Hcells; assumption.
Qed.

Lemma predict_workers_exp_end (task : starpu_task (D := D)) (nworkers ctx : nat)
    (sorted_decision : bool) (np task_prio : Z) (ws : list nat) :
  forall (P P' : predictions (D := D)) (w w' : world (D := D)),
    fold_outcome (predict_worker rt task nworkers ctx sorted_decision np task_prio) ws (P, w)
      = Ok (P', w') ->
    (forall key, is_Some (exp_end_m P !! key) -> is_Some (exp_end_m P' !! key))
    /\ (forall k worker nimpl,
          List.filter (fun x => fst (worker_can_execute_task_impl rt x task)) ws !! k
            = Some worker ->
          (nimpl < STARPU_MAXIMPLEMENTATIONS rt)%nat ->
          mask_has (snd (worker_can_execute_task_impl rt worker task)) nimpl = true ->
          is_Some (exp_end_m P' !! ((p_worker_ctx P + k)%nat, nimpl))).
Proof.
  induction ws as [|x ws IH]; intros P P' w w' Hf; simpl in Hf.
  - injection Hf as <- _. split; [auto|]. intros k worker nimpl Hk. discriminate.
  - ok_step Hf. destruct a as [P2 w2].
    destruct (IH P2 P' w2 w' Hf) as (Hmono & Hcells). clear IH.
    unfold predict_worker in Hok.
    destruct (queue_array (dt w) !! x) as [fifo|]; [|discriminate].
    destruct (refreshed_start rt fifo w) as [s w0]. simpl.
    destruct (worker_can_execute_task_impl rt x task) as [can m] eqn:Ecan.
    destruct can; simpl in *.
    + ok_step Hok. rename a into P1. injection Hok as <- _.
      apply predict_impls_exp_end in Hok0. destruct Hok0 as (Hwc1 & Hmono1 & Hcells1).
      simpl in *. split; [auto|].
      intros k worker nimpl Hk Hn Hmask.
      destruct k as [|k]; simpl in Hk.
      * injection Hk as <-. rewrite Ecan in Hmask. simpl in Hmask.
        rewrite Nat.add_0_r. apply Hmono.
        apply Hcells1; [apply in_seq; lia | exact Hmask].
      * specialize (Hcells k worker nimpl Hk Hn Hmask). rewrite Hwc1 in Hcells.
        replace (p_worker_ctx P + S k)%nat with (S (p_worker_ctx P) + k)%nat by lia.
        exact Hcells.
    + injection Hok as <- _. split; [exact Hmono | exact Hcells].
Qed.

Lemma predict_impls_runs (task : starpu_task (D := D)) (nworkers ctx : nat)
    (sorted_decision : bool) (task_prio : Z) (worker : nat)
    (fifo : _starpu_fifo_taskq (D := D)) (s : D) (impl_mask : Z) (l : list nat) :
  (forall n, In n l -> (n < STARPU_MAXIMPLEMENTATIONS rt)%nat) ->
  forall P : predictions (D := D),
    (p_worker_ctx P < nworkers)%nat ->
    exists P',
      fold_outcome
        (fun P nimpl =>
           if mask_has impl_mask nimpl
           then predict_candidate rt task nworkers ctx sorted_decision (-1) task_prio worker
                  fifo s P nimpl
           else Ok P) l P = Ok P'
      /\ p_worker_ctx P' = p_worker_ctx P.
Proof.
  induction l as [|n l IH]; intros Hl P Hwc.
  - simpl. eauto.
  - rewrite fold_outcome_cons.
    assert (Hstep : exists P1,
               (if mask_has impl_mask n
                then predict_candidate rt task nworkers ctx sorted_decision (-1) task_prio
                       worker fifo s P n
                else Ok P) = Ok P1 /\ p_worker_ctx P1 = p_worker_ctx P).
    { destruct (mask_has impl_mask n); [|eauto].
      destruct (predict_candidate_runs task nworkers ctx sorted_decision task_prio worker
                  fifo s P n Hwc (Hl n (or_introl eq_refl))) as [P1 HP1].
      exists P1. split; [exact HP1|]. apply predict_candidate_exp_end in HP1. apply HP1. }
    destruct Hstep as (P1 & -> & Hwc1). simpl.
    destruct (IH (fun n Hn => Hl n (or_intror Hn)) P1) as (P' & HP' & Hwc'); [lia|].
    exists P'. split; [exact HP' | congruence].
Qed.

Lemma predict_workers_runs (task : starpu_task (D := D)) (nworkers ctx : nat)
    (sorted_decision : bool) (task_prio : Z) (ws : list nat) :
  forall (P : predictions (D := D)) (w : world (D := D)),
    (forall x, In x ws -> is_Some (queue_array (dt w) !! x)) ->
    (p_worker_ctx P
     + length (List.filter (fun x => fst (worker_can_execute_task_impl rt x task)) ws)
     <= nworkers)%nat ->
    exists P' w',
      fold_outcome (predict_worker rt task nworkers ctx sorted_decision (-1) task_prio)
        ws (P, w) = Ok (P', w').
Proof.
  induction ws as [|x ws IH]; intros P w Hq Hlen.
  - simpl. eauto.
  - rewrite fold_outcome_cons. simpl in Hlen.
    destruct (Hq x (or_introl eq_refl)) as [fifo Hfifo].
    assert (Hstep : exists P1 w1,
               predict_worker rt task nworkers ctx sorted_decision (-1) task_prio (P, w) x
               = Ok (P1, w1)
               /\ dt w1 = dt w
               /\ (p_worker_ctx P1
                   + length (List.filter
                               (fun x => fst (worker_can_execute_task_impl rt x task)) ws)
                   <= nworkers)%nat).
    { unfold predict_worker. rewrite Hfifo.
      destruct (refreshed_start rt fifo w) as [s w1] eqn:E.
      apply refreshed_start_same in E. destruct E as [Hdt _].
      destruct (worker_can_execute_task_impl rt x task) as [can m].
      destruct can; simpl in *; [|eauto].
      destruct (predict_impls_runs task nworkers ctx sorted_decision task_prio x fifo s m
                  (seq 0 (STARPU_MAXIMPLEMENTATIONS rt))
                  (fun n Hn => proj2 (proj1 (in_seq _ _ _) Hn)) P) as (P1 & -> & Hwc1);
        [lia|].
      simpl. eexists _, _. split; [reflexivity|]. split; [exact Hdt|]. simpl. lia. }
    destruct Hstep as (P1 & w1 & -> & Hdt & Hlen1). simpl.
    apply IH; [|exact Hlen1].
    intros y Hy. rewrite Hdt. apply Hq. right. exact Hy.
Qed.

(** *** The selection loop runs *)

Lemma select_candidate_runs (d : _starpu_dmda_data (D := D)) (nworkers : nat)
    (P : predictions (D := D)) (worker nimpl : nat) (S0 : selection (D := D)) :
  (s_worker_ctx S0 < nworkers)%nat ->
  (nimpl < STARPU_MAXIMPLEMENTATIONS rt)%nat ->
  readable_cell P (s_worker_ctx S0, nimpl) ->
  exists S1, select_candidate rt d nworkers P worker S0 nimpl = Ok S1.
Proof.
  intros Hwc Hn ([e He] & [pen Hpen] & [en Hen]). unfold select_candidate.
  rewrite (mread_runs _ _ _ _ _ Hwc Hn He). simpl.
  rewrite (mread_runs _ _ _ _ _ Hwc Hn Hpen). simpl.
  rewrite (mread_runs _ _ _ _ _ Hwc Hn Hen). simpl.
  rewrite (mwrite_runs _ _ _ _ _ Hwc Hn). simpl.
  destruct (_ || _); eauto.
Qed.

Lemma select_impls_runs (d : _starpu_dmda_data (D := D)) (nworkers : nat)
    (P : predictions (D := D)) (worker : nat) (impl_mask : Z) (wc : nat) (l : list nat) :
  (wc < nworkers)%nat ->
  (forall n, In n l -> (n < STARPU_MAXIMPLEMENTATIONS rt)%nat) ->
  (forall n, In n l -> mask_has impl_mask n = true -> readable_cell P (wc, n)) ->
  forall S0 : selection (D := D),
    s_worker_ctx S0 = wc ->
    exists S1,
      fold_outcome
        (fun S nimpl =>
           if mask_has impl_mask nimpl then select_candidate rt d nworkers P worker S nimpl
           else Ok S) l S0 = Ok S1
      /\ s_worker_ctx S1 = wc.
Proof.
  intros Hwc. induction l as [|n l IH]; intros Hl Hcells S0 HS0.
  - simpl. eauto.
  - rewrite fold_outcome_cons.
    assert (Hstep : exists Sa,
               (if mask_has impl_mask n
                then select_candidate rt d nworkers P worker S0 n else Ok S0) = Ok Sa
               /\ s_worker_ctx Sa = wc).
    { destruct (mask_has impl_mask n) eqn:Hm; [|eauto].
      destruct (select_candidate_runs d nworkers P worker n S0) as [Sa HSa].
      - lia.
      - apply Hl. left. reflexivity.
      - rewrite HS0. apply Hcells; [left; reflexivity | exact Hm].
      - exists Sa. split; [exact HSa|].
        apply select_candidate_spec in HSa. destruct HSa as (-> & _). exact HS0. }
    destruct Hstep as (Sa & -> & HSa). simpl.
    apply IH; [| |exact HSa].
    + intros n' Hn'. apply Hl. right. exact Hn'.
    + intros n' Hn'. apply Hcells. right. exact Hn'.
Qed.

Lemma select_workers_runs (d : _starpu_dmda_data (D := D)) (task : starpu_task (D := D))
    (nworkers : nat) (P : predictions (D := D)) (ws : list nat) :
  forall S0 : selection (D := D),
    (s_worker_ctx S0
     + length (List.filter (fun x => fst (worker_can_execute_task_impl rt x task)) ws)
     <= nworkers)%nat ->
    (forall k worker nimpl,
       List.filter (fun x => fst (worker_can_execute_task_impl rt x task)) ws !! k
         = Some worker ->
       (nimpl < STARPU_MAXIMPLEMENTATIONS rt)%nat ->
       mask_has (snd (worker_can_execute_task_impl rt worker task)) nimpl = true ->
       readable_cell P ((s_worker_ctx S0 + k)%nat, nimpl)) ->
    exists S1, fold_outcome (select_worker rt d task nworkers P) ws S0 = Ok S1.
Proof.
  induction ws as [|x ws IH]; intros S0 Hlen Hcells.
  - simpl. eauto.
  - rewrite fold_outcome_cons. simpl in Hlen, Hcells.
    assert (Hstep : exists Sa,
               select_worker rt d task nworkers P S0 x = Ok Sa
               /\ s_worker_ctx Sa
                  = (if fst (worker_can_execute_task_impl rt x task)
                     then S (s_worker_ctx S0) else s_worker_ctx S0)).
    { unfold select_worker.
      destruct (worker_can_execute_task_impl rt x task) as [can m] eqn:Ecan.
      destruct can; simpl in *; [|eauto].
      destruct (select_impls_runs d nworkers P x m (s_worker_ctx S0)
                  (seq 0 (STARPU_MAXIMPLEMENTATIONS rt))) with (S0 := S0)
        as (Sa & -> & HSa).
      - lia.
      - intros n Hn. apply in_seq in Hn. lia.
      - intros n Hn Hm. specialize (Hcells 0%nat x n eq_refl).
        rewrite Nat.add_0_r, Ecan in Hcells. apply Hcells; [|exact Hm].
        apply in_seq in Hn. lia.
      - reflexivity.
      - simpl. eexists. split; [reflexivity|]. simpl. congruence. }
    destruct Hstep as (Sa & -> & HSa). simpl.
    revert Hlen Hcells HSa.
    destruct (fst (worker_can_execute_task_impl rt x task)); simpl;
      intros Hlen Hcells HSa; apply IH.
    + rewrite HSa. lia.
    + intros k worker nimpl Hk Hn Hm. rewrite HSa.
      replace (S (s_worker_ctx S0) + k)%nat with (s_worker_ctx S0 + S k)%nat by lia.
      apply (Hcells (S k) worker nimpl); assumption.
    + rewrite HSa. lia.
    + intros k worker nimpl Hk Hn Hm. rewrite HSa.
      apply (Hcells k worker nimpl); assumption.
Qed.

Lemma select_candidate_best (d : _starpu_dmda_data (D := D)) (nworkers : nat)
    (P : predictions (D := D)) (worker nimpl : nat) (S0 S1 : selection (D := D)) :
  Z.of_nat worker <= INT_MAX ->
  select_candidate rt d nworkers P worker S0 nimpl = Ok S1 -> s_best S1 <> -1.
Proof.
  intros Hw Hs. unfold select_candidate in Hs.
  ok_step Hs. ok_step Hs. ok_step Hs. ok_step Hs.
  destruct (Z.eqb_spec (s_best S0) (-1)) as [Hb|Hb]; simpl in Hs.
  - injection Hs as <-. simpl. rewrite (sint_worker _ Hw). lia.
  - destruct (dlt _ _); injection Hs as <-; simpl; [|exact Hb].
    rewrite (sint_worker _ Hw). lia.
Qed.

Lemma select_workers_best (d : _starpu_dmda_data (D := D)) (task : starpu_task (D := D))
    (nworkers : nat) (P : predictions (D := D)) (ws : list nat) :
  workers_are_ints ws ->
  forall S0 S1 : selection (D := D),
    fold_outcome (select_worker rt d task nworkers P) ws S0 = Ok S1 ->
    (s_best S0 <> -1 \/ candidates_of rt task ws <> []) ->
    s_best S1 <> -1.
Proof.
  induction ws as [|x ws IH]; intros Hints S0 S1 Hf Hinv; simpl in Hf.
  - injection Hf as <-. destruct Hinv as [Hinv|Hinv]; [exact Hinv|].
    exfalso. apply Hinv. reflexivity.
  - inversion Hints as [|? ? Hx Hws]; subst. ok_step Hf. rename a into Sa.
    apply (IH Hws Sa S1 Hf). rewrite candidates_of_cons in Hinv.
    unfold select_worker in Hok.
    destruct (worker_can_execute_task_impl rt x task) as [can m].
    destruct can; simpl in *; [|injection Hok as <-; exact Hinv].
    ok_step Hok. rename a into Sb. injection Hok as <-. simpl.
    assert (Hstep : forall l Sc Sd,
               fold_outcome
                 (fun S nimpl =>
                    if mask_has m nimpl then select_candidate rt d nworkers P x S nimpl
                    else Ok S) l Sc = Ok Sd ->
               (s_best Sc <> -1 \/ exists n, In n l /\ mask_has m n = true) ->
               s_best Sd <> -1).
    { induction l as [|n l IHl]; intros Sc Sd Hl HSc; simpl in Hl.
      - injection Hl as <-. destruct HSc as [HSc|(n & [] & _)]. exact HSc.
      - ok_step Hl. apply (IHl _ _ Hl). destruct (mask_has m n) eqn:Hm.
        + left. eapply select_candidate_best; eassumption.
        + injection Hok as <-.
          destruct HSc as [HSc|(n' & [<-|Hin] & Hm')]; [left; exact HSc | congruence|].
          right. eauto. }
    destruct Hinv as [Hinv|Hinv].
    + left. apply (Hstep _ _ _ Hok0). left. exact Hinv.
    + destruct (impls_of rt m) as [|n0 l0] eqn:Ei.
      * right. exact Hinv.
      * left. apply (Hstep _ _ _ Hok0). right.
        apply impls_of_nonempty. rewrite Ei. discriminate.
Qed.

(** X23. A [dmda] push that is not simulated returns whenever some
    master has an implementation of the task, every master has a queue,
    the priority buckets are off and the context counts at least as many
    workers as it has eligible masters (so that the arrays on the stack
    have a row for each of them): no array is read or written out of
    bounds, no cell is read before it is written, and neither assertion
    fails. *)
Theorem dmda_push_returns (task : starpu_task (D := D)) (prio : bool) (ctx : nat)
    (sorted_decision : bool) (w : world (D := D)) :
  workers_are_ints (ctx_masters rt ctx) ->
  masters_have_queues rt ctx w ->
  candidates rt task ctx <> [] ->
  num_priorities (dt w) = -1 ->
  (length (eligible_workers rt task ctx) <= ctx_nworkers rt ctx)%nat ->
  exists r w', _dmda_push_task rt task prio ctx false sorted_decision w = Ok (r, w').
Proof.
  intros Hints Hq Hcand Hnp Hrows.
  assert (Hdec : exists dec w1, dmda_decide rt task ctx sorted_decision w = Ok (dec, w1)).
  { unfold dmda_decide.
    assert (Hc : exists P w0,
               compute_all_performance_predictions rt task (ctx_nworkers rt ctx) ctx
                 sorted_decision w = Ok (P, w0)).
    { unfold compute_all_performance_predictions. rewrite Hnp.
      replace (sorted_decision && negb (-1 =? -1)) with false
        by (destruct sorted_decision; reflexivity).
      simpl. apply predict_workers_runs; [exact Hq|]. simpl. exact Hrows. }
    destruct Hc as (P & w0 & Hc). rewrite Hc. simpl.
    pose proof (compute_all_spec rt _ _ _ _ _ _ _ Hc) as (_ & Hj & Hcells).
    pose proof (compute_all_eligible rt _ _ _ _ _ _ _ Hints Hc) as Hn.
    unfold compute_all_performance_predictions in Hc. ok_step Hc.
    pose proof (predict_workers_exp_end _ _ _ _ _ _ _ _ _ _ _ Hc) as [_ Hexp].
    pose proof (predict_workers_length rt _ _ _ _ _ _ _ _ _ _ _ Hc) as [_ Hlen].
    simpl in Hexp, Hlen.
    destruct (Z.eqb_spec (forced_worker P) (-1)) as [Hf|Hf].
    - assert (HP : p_unknown P = false).
      { destruct (p_unknown P) eqn:Eu; [|reflexivity].
        unfold forced_worker in Hf. rewrite Eu in Hf.
        exfalso. apply (Hj Hints); [reflexivity | exact Hf]. }
      assert (Hs : exists S1, select_best rt (dt w) task (ctx_nworkers rt ctx) ctx P = Ok S1).
      { unfold select_best. rewrite Hf. simpl. apply select_workers_runs.
        - simpl. exact Hrows.
        - intros k worker nimpl Hk Hn' Hm. simpl. split; [|split].
          + exact (Hexp k worker nimpl Hk Hn' Hm).
          + destruct (Hcells HP k worker nimpl Hk Hn' Hm) as [-> _]. eauto.
          + destruct (Hcells HP k worker nimpl Hk Hn' Hm) as [_ ->]. eauto. }
      destruct Hs as [S1 Hs]. rewrite Hs. simpl.
      pose proof (select_best_chosen rt _ _ _ _ _ _ Hints Hs) as (wc & _ & _ & Hbest).
      assert (Hb : s_best S1 <> -1).
      { unfold select_best in Hs. rewrite Hf in Hs. simpl in Hs.
        apply (select_workers_best _ _ _ _ _ Hints _ _ Hs). right. exact Hcand. }
      destruct (Z.eqb_spec (s_best S1) (-1)) as [|_]; [contradiction|]. simpl.
      destruct (Hbest Hb) as (k & x & n & A1 & A2 & A3 & A4 & A5 & A6 & _).
      destruct (bundle task); [simpl; eauto|].
      rewrite A5, A6.
      assert (Hk : (k < ctx_nworkers rt ctx)%nat).
      { apply lookup_lt_Some in A1. lia. }
      rewrite (mread_runs _ _ _ _ _ Hk A2 (Hlen k x n A1 A2 A3)). simpl.
      destruct (Hcells HP k x n A1 A2 A3) as [Cpen _].
      rewrite (mread_runs _ _ _ _ _ Hk A2 Cpen). simpl. eauto.
    - unfold select_best.
      destruct (Z.eqb_spec (forced_worker P) (-1)) as [|_]; [contradiction|]. simpl.
      eauto. }
  destruct Hdec as (dec & w1 & Hd). unfold _dmda_push_task. rewrite Hd. simpl.
  pose proof (dmda_decide_same rt _ _ _ _ _ _ Hd) as [Hdt _].
  destruct (dmda_decide_eligible rt _ _ _ _ _ _ Hints Hd) as (worker & Hin & ->).
  destruct (commit_returns rt (set_implementation task (c_impl (d_args dec))) worker
              (c_model_best (d_args dec)) (c_transfer_model_best (d_args dec)) prio ctx w1)
    as (r & w2 & ->).
  - rewrite Hdt. apply Hq. unfold eligible_workers in Hin. apply filter_In in Hin. apply Hin.
  - rewrite Hdt. exact Hnp.
  - simpl. eauto.
Qed.

End DmdaReturns.

(** The two idle workers: a [dmda] push with a sorted decision returns. *)
Lemma dmda_push_returns_witness :
  exists r w',
    _dmda_push_task Scenario.calibrated (Scenario.plain_task 1 0 []) true 0 false true
      (Scenario.two_idle_workers (D := spec_float)) = Ok (r, w').
Proof.
  apply (dmda_push_returns Scenario.calibrated (Scenario.plain_task 1 0 []) true 0%nat true
           Scenario.two_idle_workers).
  - repeat constructor; unfold INT_MAX; simpl; lia.
  - intros worker Hw. simpl in Hw. destruct Hw as [<-|[<-|[]]]; vm_compute; eauto.
  - vm_compute. discriminate.
  - reflexivity.
  - simpl. lia.
Defined.

(* ================================================================== *)
(** * The heterogeneity ratio *)

Section HeterRatio.
Context {D : Type} `{DoubleOps D} `{!LtOrder D}.
Variable rt : runtime (D := D).

(** A running maximum [if (x > m) m = x;] ends on the initial value or
    on one of the values met, and none of them is above it. *)
Lemma running_max {A} (f : A -> D) (l : list A) :
  forall init : D,
    let r := fold_left (fun m x => if dgt (f x) m then f x else m) l init in
    (r = init \/ exists x, In x l /\ r = f x)
    /\ (forall x, In x l -> dlt r (f x) = false)
    /\ (forall z, dlt init z = false -> dlt r z = false).
Proof.
  induction l as [|y l IH]; intros init; simpl.
  - split; [left; reflexivity|]. split; [intros x []|auto].
  - destruct (IH (if dgt (f y) init then f y else init)) as (Hr & Hall & Hkeep). clear IH.
    assert (Hy : dlt (if dgt (f y) init then f y else init) (f y) = false).
    { unfold dgt. destruct (dlt init (f y)) eqn:E; [apply dlt_irrefl | exact E]. }
    split; [|split].
    + destruct Hr as [Hr|(x & Hx & Hr)].
      * rewrite Hr. destruct (dgt (f y) init); [right; exists y|left]; auto.
      * right. exists x. auto.
    + intros x [<-|Hx]; [apply Hkeep; exact Hy | apply Hall; exact Hx].
    + intros z Hz. apply Hkeep. unfold dgt.
      destruct (dlt init (f y)) eqn:E; [|exact Hz].
      destruct (dlt (f y) z) eqn:E2; [|reflexivity].
      rewrite (dlt_trans _ _ _ E E2) in Hz. discriminate.
Qed.

Lemma heter_impls_flat {A} (body : A -> nat -> nat -> A) (ctx x : nat) (m : Z)
    (l : list nat) :
  forall acc : A,
    fold_left (fun acc nimpl =>
                 if mask_has m nimpl
                 then body acc (worker_perf_archtype rt x ctx) nimpl else acc) l acc
    = fold_left (fun acc c => body acc (worker_perf_archtype rt (fst c) ctx) (snd c))
                (map (pair x) (List.filter (mask_has m) l)) acc.
Proof.
  induction l as [|n l IH]; intros acc; simpl; [reflexivity|].
  destruct (mask_has m n); simpl; apply IH.
Qed.

Lemma heter_candidates_flat {A} (ctx : nat) (task : starpu_task (D := D))
    (body : A -> nat -> nat -> A) (init : A) :
  heter_candidates rt ctx task body init
  = fold_left (fun acc c => body acc (worker_perf_archtype rt (fst c) ctx) (snd c))
              (candidates rt task ctx) init.
Proof.
  unfold heter_candidates, candidates. revert init.
  induction (ctx_masters rt ctx) as [|x ws IH]; intros init; [reflexivity|].
  rewrite candidates_of_cons, fold_left_app. simpl.
  destruct (worker_can_execute_task_impl rt x task) as [can m].
  destruct can; simpl.
  - rewrite heter_impls_flat. apply IH.
  - apply IH.
Qed.

(** X24. [get_task_heter_ratio] returns a largest ratio
    [max_execution_time / (1 + length)] over the (worker, implementation)
    candidates of the task, where [max_execution_time] is a largest
    [1 + length] over the same candidates: each of the two numbers is 0 or
    the value of one candidate, and no candidate's value is above it.
    Without candidate the ratio is 0. *)
Theorem heter_ratio_is_a_maximum (ctx : nat) (task : starpu_task (D := D)) :
  let M := max_execution_time rt ctx task in
  let r := get_task_heter_ratio rt ctx task in
  (M = dofZ 0 \/ exists c, In c (candidates rt task ctx) /\ M = heter_length rt task ctx c)
  /\ (forall c, In c (candidates rt task ctx) -> dlt M (heter_length rt task ctx c) = false)
  /\ (r = dofZ 0
      \/ exists c, In c (candidates rt task ctx)
                   /\ r = ddiv M (heter_length rt task ctx c))
  /\ (forall c, In c (candidates rt task ctx) ->
        dlt r (ddiv M (heter_length rt task ctx c)) = false)
  /\ (candidates rt task ctx = [] -> r = dofZ 0).
Proof.
  intros M r.
  assert (HM : M = fold_left (fun m c => if dgt (heter_length rt task ctx c) m
                                         then heter_length rt task ctx c else m)
                             (candidates rt task ctx) (dofZ 0)).
  { unfold M, max_execution_time. rewrite heter_candidates_flat. reflexivity. }
  assert (Hr : r = fold_left (fun m c => if dgt (ddiv M (heter_length rt task ctx c)) m
                                         then ddiv M (heter_length rt task ctx c) else m)
                             (candidates rt task ctx) (dofZ 0)).
  { unfold r, get_task_heter_ratio. rewrite heter_candidates_flat. reflexivity. }
  destruct (running_max (heter_length rt task ctx) (candidates rt task ctx) (dofZ 0))
    as (A1 & A2 & _).
  destruct (running_max (fun c => ddiv M (heter_length rt task ctx c))
              (candidates rt task ctx) (dofZ 0)) as (B1 & B2 & _).
  rewrite <- HM in A1, A2. rewrite <- Hr in B1, B2.
  split; [exact A1|]. split; [exact A2|]. split; [exact B1|]. split; [exact B2|].
  intros He. rewrite Hr, He. reflexivity.
Qed.

End HeterRatio.

(** On the calibrated machine the lengths are 100 and 20: the largest
    [1 + length] is 101 and the ratio is 101 / 21. *)
Lemma heter_ratio_is_a_maximum_witness :
  max_execution_time Scenario.calibrated 0 (Scenario.plain_task 1 0 []) = Scenario.F 101
  /\ get_task_heter_ratio Scenario.calibrated 0 (Scenario.plain_task 1 0 [])
     = ddiv (Scenario.F 101) (Scenario.F 21)
  /\ forall c, In c (candidates (Scenario.calibrated (D := spec_float))
                                 (Scenario.plain_task 1 0 []) 0) ->
       dlt (D := spec_float)
           (get_task_heter_ratio Scenario.calibrated 0 (Scenario.plain_task 1 0 []))
           (ddiv (max_execution_time Scenario.calibrated 0 (Scenario.plain_task 1 0 []))
                 (heter_length Scenario.calibrated (Scenario.plain_task 1 0 []) 0 c))
       = false.
Proof.
  split; [vm_compute; reflexivity|]. split; [vm_compute; reflexivity|].
  pose proof (heter_ratio_is_a_maximum (LtOrder0 := binary64_lt) Scenario.calibrated 0%nat
                (Scenario.plain_task 1 0 [])) as Hm.
  cbv zeta in Hm. destruct Hm as (_ & _ & _ & Hall & _). exact Hall.
Defined.

(* ================================================================== *)
(** * What a simulated push returns *)

Section SimulatedPush.
Context {D : Type} `{DoubleOps D}.
Variable rt : runtime (D := D).

(** The decision of [_dmda_push_task] is reached whenever some master has
    an implementation of the task, every master has a queue, the priority
    buckets are off and the arrays have a row for every eligible master. *)
Lemma dmda_decide_returns (task : starpu_task (D := D)) (ctx : nat)
    (sorted_decision : bool) (w : world (D := D)) :
  workers_are_ints (ctx_masters rt ctx) ->
  masters_have_queues rt ctx w ->
  candidates rt task ctx <> [] ->
  num_priorities (dt w) = -1 ->
  (length (eligible_workers rt task ctx) <= ctx_nworkers rt ctx)%nat ->
  exists dec w1, dmda_decide rt task ctx sorted_decision w = Ok (dec, w1).
Proof.
  intros Hints Hq Hcand Hnp Hrows. unfold dmda_decide.
  assert (Hc : exists P w0,
             compute_all_performance_predictions rt task (ctx_nworkers rt ctx) ctx
               sorted_decision w = Ok (P, w0)).
  { unfold compute_all_performance_predictions. rewrite Hnp.
    replace (sorted_decision && negb (-1 =? -1)) with false
      by (destruct sorted_decision; reflexivity).
    simpl. apply predict_workers_runs; [exact Hq|]. simpl. exact Hrows. }
  destruct Hc as (P & w0 & Hc). rewrite Hc. simpl.
  pose proof (compute_all_spec rt _ _ _ _ _ _ _ Hc) as (_ & Hj & Hcells).
  unfold compute_all_performance_predictions in Hc. ok_step Hc.
  pose proof (predict_workers_exp_end rt _ _ _ _ _ _ _ _ _ _ _ Hc) as [_ Hexp].
  pose proof (predict_workers_length rt _ _ _ _ _ _ _ _ _ _ _ Hc) as [_ Hlen].
  simpl in Hexp, Hlen.
  destruct (Z.eqb_spec (forced_worker P) (-1)) as [Hf|Hf].
  - assert (HP : p_unknown P = false).
    { destruct (p_unknown P) eqn:Eu; [|reflexivity].
      unfold forced_worker in Hf. rewrite Eu in Hf.
      exfalso. apply (Hj Hints); [reflexivity | exact Hf]. }
    assert (Hs : exists S1, select_best rt (dt w) task (ctx_nworkers rt ctx) ctx P = Ok S1).
    { unfold select_best. rewrite Hf. simpl. apply select_workers_runs.
      - simpl. exact Hrows.
      - intros k worker nimpl Hk Hn' Hm. simpl. split; [|split].
        + exact (Hexp k worker nimpl Hk Hn' Hm).
        + destruct (Hcells HP k worker nimpl Hk Hn' Hm) as [-> _]. eauto.
        + destruct (Hcells HP k worker nimpl Hk Hn' Hm) as [_ ->]. eauto. }
    destruct Hs as [S1 Hs]. rewrite Hs. simpl.
    pose proof (select_best_chosen rt _ _ _ _ _ _ Hints Hs) as (wc & _ & _ & Hbest).
    assert (Hb : s_best S1 <> -1).
    { unfold select_best in Hs. rewrite Hf in Hs. simpl in Hs.
      apply (select_workers_best rt _ _ _ _ _ Hints _ _ Hs). right. exact Hcand. }
    destruct (Z.eqb_spec (s_best S1) (-1)) as [|_]; [contradiction|]. simpl.
    destruct (Hbest Hb) as (k & x & n & A1 & A2 & A3 & A4 & A5 & A6 & _).
    destruct (bundle task); [simpl; eauto|].
    rewrite A5, A6.
    assert (Hk : (k < ctx_nworkers rt ctx)%nat).
    { apply lookup_lt_Some in A1. lia. }
    rewrite (mread_runs rt _ _ _ _ _ Hk A2 (Hlen k x n A1 A2 A3)). simpl.
    destruct (Hcells HP k x n A1 A2 A3) as [Cpen _].
    rewrite (mread_runs rt _ _ _ _ _ Hk A2 Cpen). simpl. eauto.
  - unfold select_best.
    destruct (Z.eqb_spec (forced_worker P) (-1)) as [|_]; [contradiction|]. simpl.
    eauto.
Qed.

(** C8. A simulated push changes no FIFO: when [_dmda_push_task] returns,
    the policy data (every queue, with its horizon, counters, buckets and
    tasks) and the set of forwarded tasks are the ones it started with,
    and so they are when the decision has been taken.  The decision is
    taken whenever some master has an implementation of the task, every
    master has a queue, the priority buckets are off and the arrays have a
    row for every eligible master.  What the call then returns depends on
    the task.  When every (worker, implementation) candidate has a usable
    predicted length, the call returns, and the value is the cell of
    [exp_end] of the selected candidate: the committed implementation,
    which the committed worker accepts, on the committed worker, which is
    the [k]-th eligible master.  When some candidate has a NaN or zero
    length, a worker is forced, [best_in_ctx] is still -1, and the call
    reads [exp_end[-1][selected_impl]]: it returns no predicted end at
    all. *)
Theorem simulate_push_frame (task : starpu_task (D := D)) (prio : bool) (ctx : nat)
    (sorted_decision : bool) (w : world (D := D)) :
  (forall r w',
     _dmda_push_task rt task prio ctx true sorted_decision w = Ok (r, w') ->
     dt w' = dt w /\ moved w' = moved w)
  /\ (workers_are_ints (ctx_masters rt ctx) ->
      masters_have_queues rt ctx w ->
      candidates rt task ctx <> [] ->
      num_priorities (dt w) = -1 ->
      (length (eligible_workers rt task ctx) <= ctx_nworkers rt ctx)%nat ->
      exists dec w1, dmda_decide rt task ctx sorted_decision w = Ok (dec, w1))
  /\ (workers_are_ints (ctx_masters rt ctx) ->
      forall dec w1,
        dmda_decide rt task ctx sorted_decision w = Ok (dec, w1) ->
        dt w1 = dt w /\ moved w1 = moved w
        /\ if existsb (fun c => no_prediction (dmda_length rt task ctx c))
                      (candidates rt task ctx)
           then _dmda_push_task rt task prio ctx true sorted_decision w = Fault OutOfBounds
           else exists k worker nimpl r,
                  eligible_workers rt task ctx !! k = Some worker
                  /\ mask_has (snd (worker_can_execute_task_impl rt worker task)) nimpl = true
                  /\ c_best (d_args dec) = Z.of_nat worker
                  /\ c_impl (d_args dec) = Z.of_nat nimpl
                  /\ d_exp_end dec !! (k, nimpl) = Some r
                  /\ _dmda_push_task rt task prio ctx true sorted_decision w = Ok (r, w1)).
Proof.
  split; [|split].
  - intros r w' Hp. unfold _dmda_push_task in Hp. ok_step Hp. destruct a as [dec w1].
    simpl in Hp. ok_step Hp. injection Hp as <- <-.
    exact (dmda_decide_same rt _ _ _ _ _ _ Hok).
  - apply dmda_decide_returns.
  - intros Hints dec w1 Hd.
    pose proof (dmda_decide_same rt _ _ _ _ _ _ Hd) as [Hdt Hmv].
    split; [exact Hdt|]. split; [exact Hmv|].
    unfold _dmda_push_task. rewrite Hd. simpl.
    unfold dmda_decide in Hd. ok_step Hd. destruct a as [P w0].
    pose proof (compute_all_spec rt _ _ _ _ _ _ _ Hok) as (Hu & Hj & _).
    ok_step Hd. rename a into S1.
    destruct ((forced_worker P =? -1) && (s_best S1 =? -1)) eqn:Ea; [discriminate|].
    ok_step Hd. rename a into args. injection Hd as <- <-. simpl.
    rewrite <- Hu. destruct (p_unknown P) eqn:Eu.
    + assert (Hf : forced_worker P <> -1).
      { unfold forced_worker. rewrite Eu. apply Hj; [exact Hints | reflexivity]. }
      unfold select_best in Hok0.
      destruct (Z.eqb_spec (forced_worker P) (-1)) as [E|E]; [contradiction|].
      injection Hok0 as <-. reflexivity.
    + assert (Hf : forced_worker P = -1) by (unfold forced_worker; rewrite Eu; reflexivity).
      rewrite Hf in Ea, Hok1. simpl in Ea, Hok1.
      assert (Hb : s_best S1 <> -1) by (apply Z.eqb_neq; exact Ea).
      pose proof (select_best_readable rt _ _ _ _ _ _ Hok0 Hb) as Hread.
      apply select_best_chosen in Hok0; [|exact Hints].
      destruct Hok0 as (wc & _ & _ & Hbest).
      destruct (Hbest Hb) as (k & worker & nimpl & A1 & A2 & A3 & A4 & A5 & A6 & _).
      assert (Hc : c_best args = s_best S1 /\ c_impl args = s_selected_impl S1).
      { destruct (bundle task).
        - injection Hok1 as <-. split; reflexivity.
        - ok_step Hok1. ok_step Hok1. injection Hok1 as <-. split; reflexivity. }
      destruct Hc as [Hc1 Hc2]. rewrite Hc2.
      destruct (mread rt (ctx_nworkers rt ctx) (exp_end_m P) (s_best_in_ctx S1)
                  (s_selected_impl S1)) as [r|] eqn:Hr; [|discriminate].
      exists k, worker, nimpl, r.
      split; [exact A1|]. split; [exact A3|].
      split; [congruence|]. split; [congruence|]. split; [|reflexivity].
      unfold mread in Hr. rewrite A5, A6 in Hr.
      destruct (_ && _); [|discriminate].
      rewrite !Nat2Z.id in Hr.
      destruct (exp_end_m P !! (k, nimpl)) as [v|]; [|discriminate].
      injection Hr as <-. reflexivity.
Qed.

End SimulatedPush.

(** Worker 0 has no model for the task: the simulated push decides, and
    then reads [exp_end[-1][0]].  On the calibrated machine it returns 22,
    the end the task would reach on worker 1 (clock reading 2, length 20),
    and touches nothing. *)
Lemma simulate_push_frame_witness :
  dmda_simulate_push_task Scenario.uncalibrated (Scenario.plain_task 1 0 [])
    Scenario.two_idle_workers = Fault OutOfBounds
  /\ exists w',
       dmda_simulate_push_task Scenario.calibrated (Scenario.plain_task 1 0 [])
         (Scenario.two_idle_workers (D := spec_float)) = Ok (Scenario.F 22, w')
       /\ dt w' = dt (Scenario.two_idle_workers (D := spec_float))
       /\ moved w' = [].
Proof.
  split.
  - destruct (dmda_decide Scenario.uncalibrated (Scenario.plain_task 1 0 []) 0 false
                Scenario.two_idle_workers) as [[dec w1]|f] eqn:Hd;
      [|vm_compute in Hd; discriminate].
    assert (Hints : workers_are_ints (ctx_masters Scenario.uncalibrated 0)).
    { repeat constructor; unfold INT_MAX; simpl; lia. }
    destruct (proj2 (proj2 (simulate_push_frame Scenario.uncalibrated
                              (Scenario.plain_task 1 0 []) false 0%nat false
                              Scenario.two_idle_workers)) Hints dec w1 Hd)
      as (_ & _ & Hret).
    exact Hret.
  - unfold dmda_simulate_push_task. simpl sched_ctx.
    destruct (_dmda_push_task Scenario.calibrated (Scenario.plain_task 1 0 []) false 0
                true false (Scenario.two_idle_workers (D := spec_float)))
      as [[r w']|f] eqn:Hp; [|vm_compute in Hp; discriminate].
    destruct (proj1 (simulate_push_frame Scenario.calibrated (Scenario.plain_task 1 0 [])
                       false 0%nat false (Scenario.two_idle_workers (D := spec_float)))
                    r w' Hp) as [Hdt Hmv].
    exists w'. split; [|split; [exact Hdt | exact Hmv]].
    vm_compute in Hp. injection Hp as <- _. reflexivity.
Defined.

(* ================================================================== *)
(** * The horizon after each operation *)

Section HorizonAfter.
Context {D : Type} `{DoubleOps D}.
Variable rt : runtime (D := D).














End HorizonAfter.


